(** * pricesmurf: the JSON-repair helpers, the combine service, the upload and
    session services, the margin endpoints and the client-side margin pipeline,
    embedded in Rocq and checked against the statements of the specification.

    Conventions of the embedding.
    - A JavaScript string is the list of its UTF-16 code units ([jsstring]).
    - A JavaScript value that came out of [JSON.parse] is a [json] tree; a
      number keeps the digits it was written with.
    - A call that may throw returns [Exn A]: [Ret a] or [Throw e]; [try ... catch]
      is [try_catch].
    - What the program gets from outside (the model's reply, an HTTP response,
      the clock, a fresh ObjectId) is an argument of the function that uses it. *)

From Stdlib Require Import ZArith NArith QArith Ascii String List Bool Lia DecimalString.
From stdpp Require Import base option list gmap strings.
Import ListNotations.
Set Warnings "-register-all,-at-level-200-changed,-deprecated".
Local Open Scope N_scope.

(** ** JavaScript strings *)

Notation jsstring := (list N) (only parsing).

(** Code unit of an ASCII character. *)
Definition ch (a : ascii) : N := N_of_ascii a.

Definition DQUOTE : N := 34.
Definition BACKSL : N := 92.

(** [js s] is the JavaScript string written [s], where the character [^]
    stands for the double quote (code unit 34). *)
Definition js (s : string) : jsstring :=
  map (fun a => let c := N_of_ascii a in if c =? 94 then DQUOTE else c)
      (list_ascii_of_string s).

(** [\s] of a regular expression and the set [String.prototype.trim] strips:
    WhiteSpace and LineTerminator of ECMAScript. *)
Definition is_space (c : N) : bool :=
  ((9 <=? c) && (c <=? 13)) || (c =? 32) || (c =? 160) || (c =? 5760)
  || ((8192 <=? c) && (c <=? 8202)) || (c =? 8232) || (c =? 8233)
  || (c =? 8239) || (c =? 8287) || (c =? 12288) || (c =? 65279).

(** LineTerminator: what [.] of a regular expression does not match. *)
Definition is_line_terminator (c : N) : bool :=
  (c =? 10) || (c =? 13) || (c =? 8232) || (c =? 8233).

Fixpoint drop_spaces (s : jsstring) : jsstring :=
  match s with
  | c :: r => if is_space c then drop_spaces r else s
  | [] => []
  end.

Definition trimStart (s : jsstring) : jsstring := drop_spaces s.
Definition trimEnd (s : jsstring) : jsstring := rev (drop_spaces (rev s)).
Definition trim (s : jsstring) : jsstring := trimEnd (trimStart s).

Fixpoint jsstring_eqb (a b : jsstring) : bool :=
  match a, b with
  | [], [] => true
  | x :: a', y :: b' => (x =? y) && jsstring_eqb a' b'
  | _, _ => false
  end.

Fixpoint startsWith (s p : jsstring) : bool :=
  match p, s with
  | [], _ => true
  | x :: p', y :: s' => (x =? y) && startsWith s' p'
  | _ :: _, [] => false
  end.

(** [s.indexOf(c)] for a one-character needle; [None] is -1. *)
Fixpoint indexOf (c : N) (s : jsstring) : option nat :=
  match s with
  | [] => None
  | x :: r => if x =? c then Some O else option_map S (indexOf c r)
  end.

(** [s.lastIndexOf(c)]. *)
Fixpoint lastIndexOf (c : N) (s : jsstring) : option nat :=
  match s with
  | [] => None
  | x :: r =>
      match lastIndexOf c r with
      | Some i => Some (S i)
      | None => if x =? c then Some O else None
      end
  end.

(** [s.substring(a, b)] and [s.slice(a, b)] for [0 <= a <= b]. *)
Definition substring (a b : nat) (s : jsstring) : jsstring :=
  firstn (b - a) (skipn a s).

(** [s.substring(a)]. *)
Definition substring_from (a : nat) (s : jsstring) : jsstring := skipn a s.

(** [s.split(sep)] for a one-character separator. *)
Fixpoint split_on (sep : N) (s : jsstring) : list jsstring :=
  match s with
  | [] => [[]]
  | c :: r =>
      if c =? sep then [] :: split_on sep r
      else match split_on sep r with
           | l :: ls => (c :: l) :: ls
           | [] => [[c]]
           end
  end.

(** ** Regular expressions of the program

    Every regular expression of the modelled functions is given as a matcher
    at a position: [m s = Some (out, n)] when the expression matches a prefix
    of [s] of length [n > 0], [out] being what the replacement writes. The
    expressions used here are deterministic (whitespace runs, character-class
    runs and delimiters never overlap), so the greedy match is the only one. *)

Definition matcher := jsstring -> option (jsstring * nat).

(** [s.replace(/re/g, ...)]: leftmost matches, left to right, the scan
    resuming after each match. [skip] counts the code units of the current
    match that are still to be passed over. *)
Fixpoint replace_global_from (m : matcher) (skip : nat) (s : jsstring) : jsstring :=
  match s with
  | [] => []
  | c :: r =>
      match skip with
      | S k => replace_global_from m k r
      | O =>
          match m s with
          | Some (out, n) => out ++ replace_global_from m (Nat.pred n) r
          | None => c :: replace_global_from m O r
          end
      end
  end.

Definition replace_global (m : matcher) (s : jsstring) : jsstring :=
  replace_global_from m O s.

(** [s.replace(/re/, ...)] without the [g] flag: the leftmost match only. *)
Fixpoint replace_first (m : matcher) (s : jsstring) : jsstring :=
  match s with
  | [] => []
  | c :: r =>
      match m s with
      | Some (out, n) => out ++ skipn n s
      | None => c :: replace_first m r
      end
  end.

(** All matches of a global expression, as [exec] in a loop yields them. *)
Fixpoint match_all_from (m : jsstring -> option nat) (skip : nat) (s : jsstring)
  : list jsstring :=
  match s with
  | [] => []
  | c :: r =>
      match skip with
      | S k => match_all_from m k r
      | O =>
          match m s with
          | Some n => firstn n s :: match_all_from m (Nat.pred n) r
          | None => match_all_from m O r
          end
      end
  end.

(** Length of the longest prefix whose code units satisfy [p]. *)
Fixpoint run_length (p : N -> bool) (s : jsstring) : nat :=
  match s with
  | c :: r => if p c then S (run_length p r) else O
  | [] => O
  end.

(** ** Exceptions *)

Inductive JsError :=
| SyntaxError
| TypeError
| ReferenceError
| URIError
| AbortError
| Error (message : string).

Inductive Exn (A : Type) :=
| Ret (a : A)
| Throw (e : JsError).
Arguments Ret {A} a.
Arguments Throw {A} e.

Definition try_catch {A} (body : Exn A) (handler : JsError -> Exn A) : Exn A :=
  match body with
  | Ret a => Ret a
  | Throw e => handler e
  end.

Definition bind_exn {A B} (m : Exn A) (k : A -> Exn B) : Exn B :=
  match m with
  | Ret a => k a
  | Throw e => Throw e
  end.

Notation "'let!' x ':=' m 'in' k" := (bind_exn m (fun x => k))
  (at level 10, x pattern, m at level 100, k at level 200).

(** ** JSON values *)

Inductive json :=
| JNull
| JBool (b : bool)
| JNum (lexeme : jsstring)
| JStr (s : jsstring)
| JArr (items : list json)
| JObj (props : list (jsstring * json)).

(** [o[key]] on an object built by [JSON.parse] or an object literal: the
    last binding of the key wins; [None] is [undefined]. *)
Fixpoint assoc_last (key : jsstring) (props : list (jsstring * json)) : option json :=
  match props with
  | [] => None
  | (k, v) :: r =>
      match assoc_last key r with
      | Some w => Some w
      | None => if jsstring_eqb k key then Some v else None
      end
  end.

(** Property read [v.key] on any value that is not [null]: own properties of
    objects; the other kinds of value have none of the names the program
    reads, except [length] on arrays and strings (read by [prop_length]). *)
Definition get_prop (key : string) (v : json) : option json :=
  match v with
  | JObj props => assoc_last (js key) props
  | _ => None
  end.

(** ** JSON.parse

    The grammar of ECMA-404 as [JSON.parse] reads it: whitespace is tab, line
    feed, carriage return and space; strings hold no control character and the
    escapes are the nine of the standard; a number is an optional minus
    sign, then 0 or a digit run that does not start with 0, then an optional
    fraction (a dot and digits) and an optional exponent (e or E, an optional
    sign, digits). *)

Definition is_json_ws (c : N) : bool :=
  (c =? 9) || (c =? 10) || (c =? 13) || (c =? 32).

Fixpoint skip_ws (s : jsstring) : jsstring :=
  match s with
  | c :: r => if is_json_ws c then skip_ws r else s
  | [] => []
  end.

Definition is_digit (c : N) : bool := (48 <=? c) && (c <=? 57).

Definition hex_value (c : N) : option N :=
  if is_digit c then Some (c - 48)
  else if (97 <=? c) && (c <=? 102) then Some (c - 87)
  else if (65 <=? c) && (c <=? 70) then Some (c - 55)
  else None.

Definition simple_escape (c : N) : option N :=
  if c =? 34 then Some 34        (* backslash quote *)
  else if c =? 92 then Some 92   (* two backslashes *)
  else if c =? 47 then Some 47   (* backslash slash *)
  else if c =? 98 then Some 8    (* backslash b *)
  else if c =? 102 then Some 12  (* backslash f *)
  else if c =? 110 then Some 10  (* backslash n *)
  else if c =? 114 then Some 13  (* backslash r *)
  else if c =? 116 then Some 9   (* backslash t *)
  else None.

(** The characters of a string literal after its opening quote: the decoded
    string and what follows the closing quote. *)
Fixpoint parse_string_body (s : jsstring) (acc : jsstring) : option (jsstring * jsstring) :=
  match s with
  | [] => None
  | c :: r =>
      if c =? DQUOTE then Some (rev acc, r)
      else if c =? BACKSL then
        match r with
        | [] => None
        | e :: r1 =>
            if e =? 117 then
              match r1 with
              | h1 :: h2 :: h3 :: h4 :: r2 =>
                  match hex_value h1, hex_value h2, hex_value h3, hex_value h4 with
                  | Some a, Some b, Some c', Some d =>
                      parse_string_body r2 ((((a * 16 + b) * 16 + c') * 16 + d) :: acc)
                  | _, _, _, _ => None
                  end
              | _ => None
              end
            else
              match simple_escape e with
              | Some x => parse_string_body r1 (x :: acc)
              | None => None
              end
        end
      else if c <? 32 then None
      else parse_string_body r (c :: acc)
  end.

(** A number literal at the head of [s]: its lexeme and the rest. *)
Definition parse_number (s : jsstring) : option (jsstring * jsstring) :=
  let (sign, s1) := match s with
                    | c :: r => if c =? 45 then ([c], r) else ([], s)
                    | [] => ([], s)
                    end in
  let nint := run_length is_digit s1 in
  match s1 with
  | [] => None
  | d :: _ =>
      if negb (is_digit d) then None
      else
        let nint := if d =? 48 then 1%nat else nint in
        let int := firstn nint s1 in
        let s2 := skipn nint s1 in
        let '(frac, s3, okf) :=
          match s2 with
          | c :: r =>
              if c =? 46 then
                let n := run_length is_digit r in
                (c :: firstn n r, skipn n r, negb (Nat.eqb n 0))
              else ([], s2, true)
          | [] => ([], s2, true)
          end in
        let '(exp, s4, oke) :=
          match s3 with
          | c :: r =>
              if (c =? 101) || (c =? 69) then
                let (sg, r1) := match r with
                                | x :: r' => if (x =? 43) || (x =? 45) then ([x], r') else ([], r)
                                | [] => ([], r)
                                end in
                let n := run_length is_digit r1 in
                (c :: sg ++ firstn n r1, skipn n r1, negb (Nat.eqb n 0))
              else ([], s3, true)
          | [] => ([], s3, true)
          end in
        if okf && oke then Some (sign ++ int ++ frac ++ exp, s4) else None
  end.

(** One JSON value at the head of [s] (after whitespace) and the rest. The
    fuel bounds the nesting and the number of elements; [JSON_parse] gives
    more than any text can use. *)
Fixpoint parse_value (fuel : nat) (s : jsstring) : option (json * jsstring) :=
  match fuel with
  | O => None
  | S f =>
      match skip_ws s with
      | [] => None
      | c :: r =>
          if c =? 123 then                      (* { *)
            match skip_ws r with
            | x :: r' => if x =? 125 then Some (JObj [], r') else parse_members f r []
            | [] => None
            end
          else if c =? 91 then                  (* [ *)
            match skip_ws r with
            | x :: r' => if x =? 93 then Some (JArr [], r') else parse_elements f r []
            | [] => None
            end
          else if c =? DQUOTE then
            match parse_string_body r [] with
            | Some (str, r') => Some (JStr str, r')
            | None => None
            end
          else if startsWith (c :: r) (js "true") then Some (JBool true, skipn 4 (c :: r))
          else if startsWith (c :: r) (js "false") then Some (JBool false, skipn 5 (c :: r))
          else if startsWith (c :: r) (js "null") then Some (JNull, skipn 4 (c :: r))
          else
            match parse_number (c :: r) with
            | Some (lex, r') => Some (JNum lex, r')
            | None => None
            end
      end
  end
with parse_elements (fuel : nat) (s : jsstring) (acc : list json) : option (json * jsstring) :=
  match fuel with
  | O => None
  | S f =>
      match parse_value f s with
      | Some (v, r) =>
          match skip_ws r with
          | x :: r' =>
              if x =? 44 then parse_elements f r' (v :: acc)
              else if x =? 93 then Some (JArr (rev (v :: acc)), r')
              else None
          | [] => None
          end
      | None => None
      end
  end
with parse_members (fuel : nat) (s : jsstring) (acc : list (jsstring * json)) : option (json * jsstring) :=
  match fuel with
  | O => None
  | S f =>
      match skip_ws s with
      | q :: r0 =>
          if q =? DQUOTE then
            match parse_string_body r0 [] with
            | Some (key, r1) =>
                match skip_ws r1 with
                | colon :: r2 =>
                    if colon =? 58 then
                      match parse_value f r2 with
                      | Some (v, r3) =>
                          match skip_ws r3 with
                          | x :: r' =>
                              if x =? 44 then parse_members f r' ((key, v) :: acc)
                              else if x =? 125 then Some (JObj (rev ((key, v) :: acc)), r')
                              else None
                          | [] => None
                          end
                      | None => None
                      end
                    else None
                | [] => None
                end
            | None => None
            end
          else None
      | [] => None
      end
  end.

(** [JSON.parse(text)]: one value, whitespace around it, nothing else;
    anything else throws a SyntaxError. *)
Definition JSON_parse (text : jsstring) : Exn json :=
  match parse_value (2 * length text + 2) text with
  | Some (v, rest) =>
      match skip_ws rest with
      | [] => Ret v
      | _ :: _ => Throw SyntaxError
      end
  | None => Throw SyntaxError
  end.

(** ** Truthiness

    A number literal denotes zero when its digits are all zero, or when the
    decimal it writes is at most 2^-1075 and so rounds to zero as a double. *)

Definition digits_value (ds : jsstring) : N :=
  fold_left (fun a d => a * 10 + (d - 48)) ds 0.

Definition lexeme_mantissa (lex : jsstring) : jsstring :=
  List.filter (fun c => is_digit c) (firstn (run_length (fun c => negb ((c =? 101) || (c =? 69))) lex) lex).

Definition lexeme_fraction_digits (lex : jsstring) : nat :=
  let m := firstn (run_length (fun c => negb ((c =? 101) || (c =? 69))) lex) lex in
  match indexOf 46 m with
  | Some i => (length m - S i)%nat
  | None => O
  end.

Definition lexeme_exponent (lex : jsstring) : Z :=
  let e := skipn (S (run_length (fun c => negb ((c =? 101) || (c =? 69))) lex)) lex in
  match e with
  | c :: r =>
      if c =? 45 then (- Z.of_N (digits_value r))%Z
      else if c =? 43 then Z.of_N (digits_value r)
      else Z.of_N (digits_value e)
  | [] => 0%Z
  end.

Definition num_is_zero (lex : jsstring) : bool :=
  let m := Z.of_N (digits_value (lexeme_mantissa lex)) in
  let e := (lexeme_exponent lex - Z.of_nat (lexeme_fraction_digits lex))%Z in
  (m =? 0)%Z || ((e <? 0)%Z && (m * 2 ^ 1075 <=? 10 ^ (- e))%Z).

(** A number literal denotes an infinity when the decimal it writes is at
    least 2^1024 - 2^970, half way between the largest double and 2^1024:
    [JSON.parse] reads [1e999] as [Infinity]. *)
Definition num_overflows (lex : jsstring) : bool :=
  let m := Z.of_N (digits_value (lexeme_mantissa lex)) in
  let e := (lexeme_exponent lex - Z.of_nat (lexeme_fraction_digits lex))%Z in
  if (0 <=? e)%Z then (2 ^ 1024 - 2 ^ 970 <=? m * 10 ^ e)%Z
  else ((2 ^ 1024 - 2 ^ 970) * 10 ^ (- e) <=? m)%Z.

(** A literal with a minus sign that denotes zero is the number [-0]. *)
Definition num_is_negative_zero (lex : jsstring) : bool :=
  startsWith lex [45] && num_is_zero lex.

(** [if (v)], [v || w], [!v] on a parsed value. *)
Definition truthy (v : json) : bool :=
  match v with
  | JNull => false
  | JBool b => b
  | JNum lex => negb (num_is_zero lex)
  | JStr s => match s with [] => false | _ :: _ => true end
  | JArr _ => true
  | JObj _ => true
  end.

(** [a || b] where [a] may be [undefined]. *)
Definition js_or (a : option json) (b : json) : json :=
  match a with
  | Some v => if truthy v then v else b
  | None => b
  end.

(** [a ?? b]: [b] when [a] is [undefined] or [null]. *)
Definition nullish (a : option json) : bool :=
  match a with
  | None => true
  | Some JNull => true
  | Some _ => false
  end.

Definition coalesce (a : option json) (b : option json) : option json :=
  if nullish a then b else a.

Definition coalesce_default (a : option json) (d : json) : json :=
  match a with
  | Some JNull => d
  | Some v => v
  | None => d
  end.

(** * The JSON extraction and repair helpers
    ([tryParseJsonWithRepairs], [extractFirstJsonObj]; the two routes that
    carry them hold the same text). *)

Module JsonRepair.

(** [/[\u2018\u2019\u201A\u201B\u2032]/g -> '] *)
Definition straighten_single (c : N) : N :=
  if (c =? 8216) || (c =? 8217) || (c =? 8218) || (c =? 8219) || (c =? 8242) then 39 else c.

(** [/[\u201C\u201D\u201E\u201F\u2033]/g -> double quote] *)
Definition straighten_double (c : N) : N :=
  if (c =? 8220) || (c =? 8221) || (c =? 8222) || (c =? 8223) || (c =? 8243) then DQUOTE else c.

(** [/\u00A0/g -> space] *)
Definition nbsp_to_space (c : N) : N := if c =? 160 then 32 else c.

(** [/,\s*(?=[}\]])/g]: a comma, the whitespace after it, when a closing
    brace or bracket follows; replaced by nothing. *)
Definition re_trailing_comma : matcher := fun s =>
  match s with
  | c :: r =>
      if c =? 44 then
        let n := run_length is_space r in
        match skipn n r with
        | x :: _ => if (x =? 125) || (x =? 93) then Some ([], S n) else None
        | [] => None
        end
      else None
  | [] => None
  end.

(** The single-quoted string expression (a quote, then code units that are
    neither quote nor backslash, or a backslash and one code unit that is no
    line terminator, then a quote). This is its body after the opening quote:
    the length up to the closing quote. *)
Fixpoint single_quoted_body (s : jsstring) : option nat :=
  match s with
  | [] => None
  | c :: r =>
      if c =? 39 then Some O
      else if c =? BACKSL then
        match r with
        | [] => None
        | e :: r' =>
            if is_line_terminator e then None
            else option_map (fun n => S (S n)) (single_quoted_body r')
        end
      else option_map S (single_quoted_body r)
  end.

(** [p1.replace(/double quote/g, backslash double quote)] *)
Definition escape_double_quotes (p1 : jsstring) : jsstring :=
  flat_map (fun c => if c =? DQUOTE then [BACKSL; DQUOTE] else [c]) p1.

Definition re_single_quoted : matcher := fun s =>
  match s with
  | c :: r =>
      if c =? 39 then
        match single_quoted_body r with
        | Some n => Some (DQUOTE :: escape_double_quotes (firstn n r) ++ [DQUOTE], S (S n))
        | None => None
        end
      else None
  | [] => None
  end.

Definition is_key_char (c : N) : bool :=
  ((65 <=? c) && (c <=? 90)) || ((97 <=? c) && (c <=? 122)) || is_digit c
  || (c =? 95) || (c =? 64) || (c =? 36) || (c =? 45).

(** The unquoted-key expression: an opening brace or a comma and the
    whitespace after it (group 1), a run of letters, digits, [_ @ $ -]
    (group 2), whitespace, a colon; rewritten to group 1, the key between
    double quotes, a colon. *)
Definition re_unquoted_key : matcher := fun s =>
  match s with
  | c :: r =>
      if (c =? 123) || (c =? 44) then
        let n1 := run_length is_space r in
        let r1 := skipn n1 r in
        let n2 := run_length is_key_char r1 in
        let r2 := skipn n2 r1 in
        let n3 := run_length is_space r2 in
        match n2, skipn n3 r2 with
        | S _, x :: _ =>
            if x =? 58 then
              Some (c :: firstn n1 r ++ DQUOTE :: firstn n2 r1 ++ [DQUOTE; 58],
                    (1 + n1 + n2 + n3 + 1)%nat)
            else None
        | _, _ => None
        end
      else None
  | [] => None
  end.

Definition normalize (candidate : jsstring) : jsstring :=
  trim (map nbsp_to_space (map straighten_double (map straighten_single candidate))).

Definition repair (s : jsstring) : jsstring :=
  replace_global re_unquoted_key
    (replace_global re_single_quoted
       (replace_global re_trailing_comma s)).

(** [tryParseJsonWithRepairs(candidate)] for a string argument; the result
    [JNull] is JavaScript's [null]. *)
Definition tryParseJsonWithRepairs (candidate : jsstring) : Exn json :=
  match candidate with
  | [] => Ret JNull
  | _ :: _ =>
      let s := normalize candidate in
      try_catch (JSON_parse s) (fun _ =>
        let s := repair s in
        try_catch (JSON_parse s) (fun _ => Ret JNull))
  end.

(** [text.match(/\{[\s\S]*\}/m)]: from the first opening brace to the last
    closing brace after it. *)
Definition match_braces (text : jsstring) : option jsstring :=
  match indexOf 123 text with
  | None => None
  | Some a =>
      let rest := skipn a text in
      match lastIndexOf 125 (skipn 1 rest) with
      | Some b => Some (firstn (b + 2) rest)
      | None => None
      end
  end.

(** The three variables of the scanning loop. *)
Record scanner := { inString : bool; escape : bool; depth : Z }.

Definition scanner0 : scanner := {| inString := false; escape := false; depth := 0 |}.

(** One turn of the loop on the code unit [c]: the variables after it, and
    whether the turn reached [depth === 0] on a closing brace. *)
Definition scan_char (st : scanner) (c : N) : scanner * bool :=
  if escape st then
    ({| inString := inString st; escape := false; depth := depth st |}, false)
  else if c =? BACKSL then
    ({| inString := inString st; escape := true; depth := depth st |}, false)
  else if c =? DQUOTE then
    ({| inString := negb (inString st); escape := false; depth := depth st |}, false)
  else if negb (inString st) then
    if c =? 123 then
      ({| inString := false; escape := false; depth := depth st + 1 |}, false)
    else if c =? 125 then
      ({| inString := false; escape := false; depth := depth st - 1 |},
       (depth st - 1 =? 0)%Z)
    else (st, false)
  else (st, false).

(** The body of [if (depth === 0)]: [Some v] when the function returns [v],
    [None] when the scan goes on. *)
Definition try_candidate (candidate : jsstring) : Exn (option json) :=
  try_catch
    (let! v := JSON_parse candidate in Ret (Some v))
    (fun _ =>
       let! repaired := tryParseJsonWithRepairs candidate in
       if truthy repaired then Ret (Some repaired) else Ret None).

(** The [for] loop from index [i], [rest] being [text] from [i] on. *)
Fixpoint scan_loop (text : jsstring) (firstOpen i : nat) (rest : jsstring)
    (st : scanner) : Exn (option json) :=
  match rest with
  | [] => Ret None
  | c :: rest' =>
      let (st', closes) := scan_char st c in
      if closes then
        let! r := try_candidate (substring firstOpen (S i) text) in
        match r with
        | Some v => Ret (Some v)
        | None => scan_loop text firstOpen (S i) rest' st'
        end
      else scan_loop text firstOpen (S i) rest' st'
  end.

Definition regex_fallback (text : jsstring) : Exn json :=
  match match_braces text with
  | Some (c :: m) => tryParseJsonWithRepairs (c :: m)
  | _ => Ret JNull
  end.

(** [extractFirstJsonObj(text)] for a string argument. *)
Definition extractFirstJsonObj (text : jsstring) : Exn json :=
  match text with
  | [] => Ret JNull
  | _ :: _ =>
      match indexOf 123 text with
      | None => regex_fallback text
      | Some firstOpen =>
          let! r := scan_loop text firstOpen firstOpen (skipn firstOpen text) scanner0 in
          match r with
          | Some v => Ret v
          | None => regex_fallback text
          end
      end
  end.


(** *** Notions used in the proofs

    The closing positions at which the loop reaches its [if (depth === 0)],
    the candidate strings [text.slice(firstOpen, i + 1)] at these positions,
    and what the loop body makes of a candidate. *)
Fixpoint balanced_ends (i : nat) (rest : jsstring) (st : scanner) : list nat :=
  match rest with
  | [] => []
  | c :: rest' =>
      let (st', closes) := scan_char st c in
      if closes then i :: balanced_ends (S i) rest' st'
      else balanced_ends (S i) rest' st'
  end.

Definition balanced_candidates (text : jsstring) : list jsstring :=
  match indexOf 123 text with
  | None => []
  | Some a => map (fun i => substring a (S i) text) (balanced_ends a (skipn a text) scanner0)
  end.

(** [c] parses to [v], directly or after the repairs. *)
Definition parses_to (c : jsstring) (v : json) : Prop :=
  JSON_parse c = Ret v \/
  ((exists e, JSON_parse c = Throw e) /\ tryParseJsonWithRepairs c = Ret v /\ v <> JNull).

Definition parses (c : jsstring) : Prop := exists v, parses_to c v.

(** The first candidate of a list on which the loop body returns. *)
Fixpoint first_parse (cands : list jsstring) : option json :=
  match cands with
  | [] => None
  | c :: cs =>
      match try_candidate c with
      | Ret (Some v) => Some v
      | _ => first_parse cs
      end
  end.

End JsonRepair.

(** * The extraction as the specification words it

    The statement about [extractFirstJsonObj] speaks of the scan from the
    first opening brace, of braces that do not count (inside a double-quoted
    string, or escaped by a backslash), of the depth, and of the repairs. These
    are given here by the text alone, without the loop and its variables. *)

Module ExtractSpec.

(** The text from the first occurrence of [c] on; empty when there is none. *)
Fixpoint from_first (c : N) (s : jsstring) : jsstring :=
  match s with
  | [] => []
  | x :: r => if x =? c then s else from_first c r
  end.

(** The text up to its last occurrence of [c]; empty when there is none. *)
Fixpoint up_to_last (c : N) (s : jsstring) : jsstring :=
  match s with
  | [] => []
  | x :: r =>
      match up_to_last c r with
      | [] => if x =? c then [x] else []
      | u => x :: u
      end
  end.

(** The code unit that follows [pre] is escaped when [pre] ends with an odd
    number of backslashes. *)
Definition escaped_after (pre : jsstring) : bool :=
  Nat.odd (run_length (fun x => x =? BACKSL) (rev pre)).

(** The positions of a text: each code unit with the text before it. *)
Fixpoint units_from (pre s : jsstring) : list (jsstring * N) :=
  match s with
  | [] => []
  | c :: r => (pre, c) :: units_from (pre ++ [c]) r
  end.

Definition units (s : jsstring) : list (jsstring * N) := units_from [] s.

(** A double quote that is not escaped opens or closes a string. *)
Definition string_quote (u : jsstring * N) : bool :=
  (snd u =? DQUOTE) && negb (escaped_after (fst u)).

(** What follows [pre] is inside a double-quoted string when [pre] holds an
    odd number of such quotes. *)
Definition in_string_after (pre : jsstring) : bool :=
  Nat.odd (length (List.filter string_quote (units pre))).

(** A brace counts when it is neither escaped nor inside a string. *)
Definition structural (brace : N) (u : jsstring * N) : bool :=
  (snd u =? brace) && negb (escaped_after (fst u)) && negb (in_string_after (fst u)).

(** The depth after [pre]: the opening braces that count less the closing
    ones. *)
Definition depth_after (pre : jsstring) : Z :=
  (Z.of_nat (length (List.filter (structural 123) (units pre)))
   - Z.of_nat (length (List.filter (structural 125) (units pre))))%Z.

(** A closing brace that counts and brings the depth back to zero. *)
Definition balanced_at (u : jsstring * N) : bool :=
  structural 125 u && (depth_after (fst u ++ [snd u]) =? 0)%Z.

(** The candidates of a text: its pieces from the first opening brace to a
    closing brace at which the depth is back to zero, shortest first. *)
Definition candidates (text : jsstring) : list jsstring :=
  map (fun u => fst u ++ [snd u]) (List.filter balanced_at (units (from_first 123 text))).

(** The text from its first opening brace to the last closing brace after
    it. *)
Definition outermost (text : jsstring) : option jsstring :=
  match from_first 123 text with
  | [] => None
  | b :: t =>
      match up_to_last 125 t with
      | [] => None
      | u => Some (b :: u)
      end
  end.

(** Smart-quote normalisation: the five single smart quotes become an
    apostrophe, the five double ones a double quote, a no-break space a
    space; the result is trimmed. *)
Definition smart_single : list N := [8216; 8217; 8218; 8219; 8242].
Definition smart_double : list N := [8220; 8221; 8222; 8223; 8243].

Definition plain_quote (c : N) : N :=
  if existsb (N.eqb c) smart_single then 39
  else if existsb (N.eqb c) smart_double then DQUOTE
  else if c =? 160 then 32
  else c.

Definition normalized (c : jsstring) : jsstring := trim (map plain_quote c).

(** The three substitutions made when the normalised text does not parse:
    trailing commas removed, single-quoted strings made double-quoted,
    unquoted keys quoted (each is a regular expression of the source). *)
Definition repaired (s : jsstring) : jsstring :=
  replace_global JsonRepair.re_unquoted_key
    (replace_global JsonRepair.re_single_quoted
       (replace_global JsonRepair.re_trailing_comma s)).

(** What the repairs read in [c]: the parse of the normalised text, or else
    of the repaired one. *)
Definition read_repaired (c : jsstring) : option json :=
  match JSON_parse (normalized c) with
  | Ret v => Some v
  | Throw _ =>
      match JSON_parse (repaired (normalized c)) with
      | Ret v => Some v
      | Throw _ => None
      end
  end.

(** [c] parses to [v]: directly, or after the repairs, to a value that is
    not falsy. *)
Definition parses_to (c : jsstring) (v : json) : Prop :=
  JSON_parse c = Ret v
  \/ ((exists e, JSON_parse c = Throw e) /\ read_repaired c = Some v /\ truthy v = true).

Definition parses (c : jsstring) : Prop := exists v, parses_to c v.

(** [c] is a piece of [text] that opens with a brace and closes with one. *)
Definition brace_delimited (text c : jsstring) : Prop :=
  exists pre mid post, c = 123 :: mid ++ [125] /\ text = pre ++ c ++ post.

End ExtractSpec.

(** The variables of the loop of [extractFirstJsonObj] after it has read
    the text [pre], in the terms of the specification. *)
Definition scanned (pre : jsstring) (st : JsonRepair.scanner) : Prop :=
  JsonRepair.escape st = ExtractSpec.escaped_after pre
  /\ JsonRepair.inString st = ExtractSpec.in_string_after pre
  /\ JsonRepair.depth st = ExtractSpec.depth_after pre.

(** * The combine service ([app/api/combine/route.js]) *)

Module Combine.

(** The code-fence expression: three backquotes and an optional [json];
    replaced by nothing. *)
Definition re_code_fence : matcher := fun s =>
  if startsWith s (js "```json") then Some ([], 7%nat)
  else if startsWith s (js "```") then Some ([], 3%nat)
  else None.

Definition all_space (s : jsstring) : bool := forallb is_space s.

(** A comma, whitespace, the end of the string; replaced by nothing. *)
Definition re_comma_at_end : matcher := fun s =>
  match s with
  | c :: r => if (c =? 44) && all_space r then Some ([], length s) else None
  | [] => None
  end.

(** A closing bracket, whitespace, the end of the string; replaced by nothing. *)
Definition re_bracket_at_end : matcher := fun s =>
  match s with
  | c :: r => if (c =? 93) && all_space r then Some ([], length s) else None
  | [] => None
  end.

(** A closing brace, whitespace, the end of the string; replaced by a
    closing brace and a closing bracket. *)
Definition re_brace_at_end : matcher := fun s =>
  match s with
  | c :: r => if (c =? 125) && all_space r then Some ([125; 93], length s) else None
  | [] => None
  end.

(** A closing bracket, whitespace, an opening bracket; replaced by a comma. *)
Definition re_bracket_seam : matcher := fun s =>
  match s with
  | c :: r =>
      if c =? 93 then
        let n := run_length is_space r in
        match skipn n r with
        | x :: _ => if x =? 91 then Some ([44], S (S n)) else None
        | [] => None
        end
      else None
  | [] => None
  end.

(** A comma, whitespace, a closing brace, the end of the string; replaced
    by a closing brace. *)
Definition re_comma_brace_at_end : matcher := fun s =>
  match s with
  | c :: r =>
      if c =? 44 then
        match skipn (run_length is_space r) r with
        | [x] => if x =? 125 then Some ([125], length s) else None
        | _ => None
        end
      else None
  | [] => None
  end.

(** The lookahead of the object expression: whitespace and then an opening
    brace or the end of the string. *)
Definition before_object_or_end (r : jsstring) : bool :=
  match skipn (run_length is_space r) r with
  | [] => true
  | x :: _ => x =? 123
  end.

(** After an opening brace: the offset of the nearest closing brace at
    which the lookahead holds (the expression is lazy). *)
Fixpoint lazy_object_end (s : jsstring) : option nat :=
  match s with
  | [] => None
  | c :: r =>
      if (c =? 125) && before_object_or_end r then Some O
      else option_map S (lazy_object_end r)
  end.

Definition re_lazy_object (s : jsstring) : option nat :=
  match s with
  | c :: r =>
      if c =? 123 then option_map (fun n => S (S n)) (lazy_object_end r) else None
  | [] => None
  end.

Definition nonempty (s : jsstring) : bool :=
  match s with [] => false | _ :: _ => true end.

(** [cleanResponse] *)
Definition clean (response : jsstring) : jsstring :=
  trim (replace_global re_code_fence response).

(** Attempt 2: the candidate and its seven variants. *)
Definition array_candidate (cleanResponse : jsstring) : jsstring :=
  match indexOf 91 cleanResponse, lastIndexOf 93 cleanResponse with
  | Some jsonStart, Some jsonEnd =>
      if (jsonStart <? jsonEnd)%nat then substring jsonStart (S jsonEnd) cleanResponse
      else substring_from jsonStart cleanResponse
  | Some jsonStart, None => substring_from jsonStart cleanResponse
  | None, _ => cleanResponse
  end.

Definition attempts (candidate : jsstring) : list jsstring :=
  [ candidate;
    candidate ++ [93];
    [91] ++ candidate ++ [93];
    replace_first re_comma_at_end candidate ++ [93];
    replace_first re_comma_at_end candidate;
    replace_first re_bracket_at_end candidate ++ [93];
    replace_first re_brace_at_end candidate ].

(** [for (const attempt of attempts) try { return JSON.parse(attempt) } catch {}] *)
Fixpoint first_parsed (l : list jsstring) : option json :=
  match l with
  | [] => None
  | a :: r =>
      match JSON_parse a with
      | Ret v => Some v
      | Throw _ => first_parsed r
      end
  end.

(** The values of the texts of [l] that parse, in order. *)
Fixpoint parsed_of (l : list jsstring) : list json :=
  match l with
  | [] => []
  | a :: r =>
      match JSON_parse a with
      | Ret v => v :: parsed_of r
      | Throw _ => parsed_of r
      end
  end.

Definition ndjson_lines (cleanResponse : jsstring) : list jsstring :=
  List.filter (fun line => nonempty line && (startsWith line [123] || startsWith line [91]))
         (map trim (split_on 10 cleanResponse)).

(** Attempt 3, the body of its [try]: [Ret (Some v)] returns [v], [Ret None]
    leaves the block, [Throw] goes to its [catch]. *)
Definition ndjson_block (cleanResponse : jsstring) : Exn (option json) :=
  match ndjson_lines cleanResponse with
  | [] => Ret None
  | l0 :: ls =>
      if startsWith l0 [91] then
        let joined := replace_global re_bracket_seam (concat (l0 :: ls)) in
        let! v := JSON_parse joined in Ret (Some v)
      else
        match parsed_of (map (replace_first re_comma_brace_at_end) (l0 :: ls)) with
        | [] => Ret None
        | o :: os => Ret (Some (JArr (o :: os)))
        end
  end.

(** Attempt 4, the body of its [try]. *)
Definition regex_objects_block (cleanResponse : jsstring) : Exn (option json) :=
  match parsed_of (match_all_from re_lazy_object O cleanResponse) with
  | [] => Ret None
  | o :: os => Ret (Some (JArr (o :: os)))
  end.

Definition swallow (block : Exn (option json)) : option json :=
  match block with
  | Ret r => r
  | Throw _ => None
  end.

(** [parseAIResponse(response)] *)
Definition parseAIResponse (response : json) : Exn json :=
  match response with
  | JStr text =>
      let cleanResponse := clean text in
      match JSON_parse cleanResponse with
      | Ret v => Ret v
      | Throw _ =>
          match first_parsed (attempts (array_candidate cleanResponse)) with
          | Some v => Ret v
          | None =>
              match swallow (ndjson_block cleanResponse) with
              | Some v => Ret v
              | None =>
                  match swallow (regex_objects_block cleanResponse) with
                  | Some v => Ret v
                  | None =>
                      try_catch
                        (let! v := JSON_parse cleanResponse in Ret (JArr [v]))
                        (fun _ => Throw (Error "Failed to parse API response"))
                  end
              end
          end
      end
  | _ => Throw (Error "Response must be a string")
  end.

End Combine.

(** * [parseAIResponse] as the specification words it

    The statement about [parseAIResponse] speaks of the text without its
    code-fence markers, trimmed, and of four fallbacks: the array piece with
    bracket and comma fixes, the lines read one by one, the objects taken out
    of the text, one value wrapped in an array. These are given here on the
    text itself, without the regular expressions of the source. *)

Module ParseSpec.

Definition is_fence (a b c : N) : bool := (a =? 96) && (b =? 96) && (c =? 96).

Definition is_json_word (j s o n : N) : bool :=
  (j =? 106) && (s =? 115) && (o =? 111) && (n =? 110).

(** The text without its code-fence markers: three backquotes, with the word
    [json] when it follows them at once. *)
Fixpoint without_fences (s : jsstring) : jsstring :=
  match s with
  | a :: ((b :: c :: after) as r) =>
      if is_fence a b c then
        match after with
        | j :: x :: o :: n :: rest =>
            if is_json_word j x o n then without_fences rest else without_fences after
        | _ => without_fences after
        end
      else a :: without_fences r
  | a :: r => a :: without_fences r
  | [] => []
  end.

Definition cleaned (text : jsstring) : jsstring := trim (without_fences text).

Definition parsed (s : jsstring) : option json :=
  match JSON_parse s with
  | Ret v => Some v
  | Throw _ => None
  end.

(** The values of the texts that parse, in order. *)
Definition values_of (l : list jsstring) : list json := omap parsed l.

Definition as_array (l : list json) : option json :=
  match l with
  | [] => None
  | _ :: _ => Some (JArr l)
  end.

(** The array piece: from the first opening bracket to the last closing
    bracket after it; to the end of the text when no closing bracket follows;
    the whole text when it has no opening bracket. *)
Definition array_piece (s : jsstring) : jsstring :=
  match ExtractSpec.from_first 91 s with
  | [] => s
  | b :: t =>
      match ExtractSpec.up_to_last 93 t with
      | [] => b :: t
      | u => b :: u
      end
  end.

(** What stands before the code unit [c] when [s] ends with [c], whitespace
    after it apart. *)
Definition before_final (c : N) (s : jsstring) : option jsstring :=
  match rev (trimEnd s) with
  | x :: r => if x =? c then Some (rev r) else None
  | [] => None
  end.

Definition without_final (c : N) (s : jsstring) : jsstring :=
  default s (before_final c s).

(** The piece and its fixes: a closing bracket added, both brackets added,
    the final comma dropped (with and without a closing bracket added), the
    final bracket set again, a closing bracket added after the final brace. *)
Definition array_fixes (piece : jsstring) : list jsstring :=
  [ piece;
    piece ++ [93];
    [91] ++ piece ++ [93];
    without_final 44 piece ++ [93];
    without_final 44 piece;
    without_final 93 piece ++ [93];
    match before_final 125 piece with
    | Some b => b ++ [125; 93]
    | None => piece
    end ].

Definition array_fix (cleanResponse : jsstring) : option json :=
  head (values_of (array_fixes (array_piece cleanResponse))).

(** The lines of the text, trimmed, that open with a brace or a bracket. *)
Definition opens_value (line : jsstring) : bool :=
  match line with
  | c :: _ => (c =? 123) || (c =? 91)
  | [] => false
  end.

Definition lines (s : jsstring) : list jsstring :=
  List.filter opens_value (map trim (split_on 10 s)).

(** A closing bracket followed, whitespace apart, by an opening bracket is a
    seam: the two brackets and the whitespace become a comma. [held] is a
    closing bracket met and the whitespace after it, kept until what follows
    them is known. *)
Fixpoint join_seams (held : option jsstring) (s : jsstring) : jsstring :=
  match s with
  | [] => default [] held
  | c :: r =>
      match held with
      | None => if c =? 93 then join_seams (Some [c]) r else c :: join_seams None r
      | Some h =>
          if c =? 91 then 44 :: join_seams None r
          else if is_space c then join_seams (Some (h ++ [c])) r
          else if c =? 93 then h ++ join_seams (Some [c]) r
          else h ++ c :: join_seams None r
      end
  end.

(** A line that ends with a comma, whitespace and a closing brace, without
    the comma and the whitespace. *)
Definition without_comma_before_brace (line : jsstring) : jsstring :=
  match rev line with
  | x :: r =>
      if x =? 125 then
        match before_final 44 (rev r) with
        | Some b => b ++ [125]
        | None => line
        end
      else line
  | [] => line
  end.

(** The lines read one by one: when the first opens with a bracket, the
    lines joined at their seams are parsed as one text; otherwise each line
    is parsed by itself and the values of those that parse make an array. *)
Definition ndjson (cleanResponse : jsstring) : option json :=
  match lines cleanResponse with
  | [] => None
  | l0 :: ls =>
      if startsWith l0 [91] then parsed (join_seams None (concat (l0 :: ls)))
      else as_array (values_of (map without_comma_before_brace (l0 :: ls)))
  end.

(** An object may end where only whitespace stands before the next opening
    brace or the end of the text. *)
Definition object_may_end (rest : jsstring) : bool :=
  match trimStart rest with
  | [] => true
  | x :: _ => x =? 123
  end.

(** The pieces of the text that run from an opening brace to the nearest
    closing brace at which an object may end; the next piece is looked for
    after the previous one. [inside] is the piece begun and not yet closed. *)
Fixpoint object_pieces (inside : option jsstring) (s : jsstring) : list jsstring :=
  match s with
  | [] => []
  | c :: r =>
      match inside with
      | None =>
          if c =? 123 then object_pieces (Some [c]) r else object_pieces None r
      | Some p =>
          if (c =? 125) && object_may_end r then (p ++ [c]) :: object_pieces None r
          else object_pieces (Some (p ++ [c])) r
      end
  end.

Definition regex_objects (cleanResponse : jsstring) : option json :=
  as_array (values_of (object_pieces None cleanResponse)).

Definition wrapped (cleanResponse : jsstring) : option json :=
  option_map (fun v => JArr [v]) (parsed cleanResponse).

(** The fallback sequence, in the order of the statement. *)
Definition fallbacks (cleanResponse : jsstring) : list (option json) :=
  [ array_fix cleanResponse;
    ndjson cleanResponse;
    regex_objects cleanResponse;
    wrapped cleanResponse ].

Fixpoint first_success (l : list (option json)) : option json :=
  match l with
  | [] => None
  | Some v :: _ => Some v
  | None :: r => first_success r
  end.

End ParseSpec.


(** * The document database and the HTTP layer

    Collections are lists of documents in insertion order; [findOne] returns
    the first match and [updateOne] changes the first match. Times are
    milliseconds. *)

(** A string constant of the program as a JavaScript string. *)
Definition str (s : string) : jsstring := map N_of_ascii (list_ascii_of_string s).

(** Order of two strings by code units, as the default [Array.prototype.sort]
    compares them. *)
Fixpoint jsstring_leb (a b : jsstring) : bool :=
  match a, b with
  | [], _ => true
  | _ :: _, [] => false
  | x :: a', y :: b' => if x <? y then true else if y <? x then false else jsstring_leb a' b'
  end.

Fixpoint insert_sorted {A} (leb : A -> A -> bool) (x : A) (l : list A) : list A :=
  match l with
  | [] => [x]
  | y :: r => if leb x y then x :: y :: r else y :: insert_sorted leb x r
  end.

Definition sort_by {A} (leb : A -> A -> bool) (l : list A) : list A :=
  fold_right (insert_sorted leb) [] l.

(** [l.join(',')] *)
Fixpoint join_comma (l : list jsstring) : jsstring :=
  match l with
  | [] => []
  | [x] => x
  | x :: r => x ++ 44 :: join_comma r
  end.

Record FileMeta := {
  meta_userId : jsstring;
  meta_uploadedAt : Z;
  meta_sessionId : jsstring;
  meta_isCombined : bool;
  meta_sourceFileIds : option jsstring;
  meta_requestStartTime : option Z
}.

(** A document of [excelFiles.files] with the bytes GridFS keeps for it. *)
Record FileDoc := {
  file_id : jsstring;
  file_name : jsstring;
  file_contentType : option jsstring;
  file_metadata : FileMeta;
  file_bytes : list N
}.

(** A value of a stored document: JSON, or a date. *)
Inductive bson :=
| BJson (v : json)
| BDate (t : Z).

(** A document of [sessionMetadata]: its fields in order. *)
Notation SessionDoc := (list (string * bson)) (only parsing).

(** The [steps.logical] field the logical checks write. *)
Record LogicalStep := {
  ls_status : json;
  ls_insights : json;
  ls_sql : json;
  ls_samples : json;
  ls_updatedAt : Z
}.

(** A document of [analyses]: the margin endpoints write [analysis] and
    [parsed] under a file and user, the logical checks write [steps.logical]
    under a run and user. *)
Record AnalysisDoc := {
  an_fileId : option jsstring;
  an_runId : option jsstring;
  an_userId : jsstring;
  an_analysis : option jsstring;
  an_parsed : option json;
  an_steps_logical : option LogicalStep;
  an_updatedAt : Z
}.

(** A document of [margin_analyses]: created by the run endpoint, completed
    by the save endpoint. *)
Record MarginDoc := {
  ma_runId : jsstring;
  ma_userId : jsstring;
  ma_fileId : option json;
  ma_createdAt : option Z;
  ma_analysis : option json;
  ma_status : jsstring;
  ma_completedAt : option Z;
  ma_updatedAt : Z
}.

Record Database := {
  files : list FileDoc;
  sessionMetadata : list (list (string * bson));
  analyses : list AnalysisDoc;
  margin_analyses : list MarginDoc
}.

Definition empty_db : Database :=
  {| files := []; sessionMetadata := []; analyses := []; margin_analyses := [] |}.

(** [NextResponse.json(body, { status })] *)
Record Response := { status : nat; body : json }.

(** What a route handler does with a request: it answers, or its promise
    rejects. *)
Inductive Outcome :=
| Responded (r : Response)
| Rejected (e : JsError).

Definition respond (st : nat) (fields : list (string * json)) : Outcome :=
  Responded {| status := st; body := JObj (map (fun kv => (str (fst kv), snd kv)) fields) |}.

Definition error_body (st : nat) (message : string) : Outcome :=
  respond st [("error"%string, JStr (str message))].

(** Field lookup and [$set] on a stored document. *)
Fixpoint doc_get (key : string) (d : list (string * bson)) : option bson :=
  match d with
  | [] => None
  | (k, v) :: r => if String.eqb k key then Some v else doc_get key r
  end.

Fixpoint doc_set (key : string) (v : bson) (d : list (string * bson)) : list (string * bson) :=
  match d with
  | [] => [(key, v)]
  | (k, w) :: r => if String.eqb k key then (k, v) :: r else (k, w) :: doc_set key v r
  end.

Definition doc_set_all (fields : list (string * bson)) (d : list (string * bson))
  : list (string * bson) :=
  fold_left (fun acc kv => doc_set (fst kv) (snd kv) acc) fields d.

(** [updateOne(filter, { $set: fields }, { upsert: true })] on a collection
    given the test of the filter and the document the filter's equalities
    make. *)
Fixpoint update_first {D} (matches : D -> bool) (change : D -> D) (coll : list D) : option (list D) :=
  match coll with
  | [] => None
  | d :: r =>
      if matches d then Some (change d :: r)
      else option_map (cons d) (update_first matches change r)
  end.

Definition upsert {D} (matches : D -> bool) (change : D -> D) (fresh : D) (coll : list D) : list D :=
  match update_first matches change coll with
  | Some coll' => coll'
  | None => coll ++ [fresh]
  end.

(** * The upload service ([app/api/upload]) *)

Module Upload.

Record Request := {
  auth_userId : option jsstring;
  form_file : option (jsstring * list N);     (* name and bytes *)
  form_sessionId : option jsstring
}.

(** What the handler meets outside itself while it runs. A call that fails
    throws an error whose message is [error_message]. *)
Record World := {
  MONGODB_URI : option jsstring;
  connects : bool;
  formData_fails : bool;                     (* [request.formData()] rejects *)
  now : Z;
  fresh_id : jsstring;
  stream_finishes : bool;
  count_fails : bool;                        (* [countDocuments] rejects *)
  error_message : jsstring
}.

Definition lower (c : N) : N := if (65 <=? c) && (c <=? 90) then c + 32 else c.

Definition endsWith_ci (name suffix : jsstring) : bool :=
  startsWith (rev (map lower name)) (rev suffix).

(** The expression of the valid extensions, case-insensitive: the name ends
    with [.xlsx], [.xls] or [.csv]. *)
Definition validExtensions (name : jsstring) : bool :=
  endsWith_ci name (str ".xlsx") || endsWith_ci name (str ".xls") || endsWith_ci name (str ".csv").

Definition falsy_string (s : option jsstring) : bool :=
  match s with
  | Some (_ :: _) => false
  | _ => true
  end.

(** The answer of the [catch] block, with the message of the caught
    error. *)
Definition upload_failed (message : jsstring) : Outcome :=
  respond 500 [("error"%string, JStr (str "Upload failed: " ++ message))].

Definition POST (w : World) (req : Request) (db : Database) : Outcome * Database :=
  match auth_userId req with
  | Some (u :: uid) =>
      let userId := u :: uid in
      if falsy_string (MONGODB_URI w) then
        (upload_failed (str "MONGODB_URI missing in .env.local"), db)
      else if negb (connects w) then (upload_failed (error_message w), db)
      else if formData_fails w then (upload_failed (error_message w), db)
      else
        match form_file req with
        | None => (error_body 400 "No file uploaded", db)
        | Some (name, bytes) =>
            match form_sessionId req with
            | Some (s :: sid) =>
                let sessionId := s :: sid in
                if negb (validExtensions name) then
                  (error_body 400 "Only Excel/CSV files allowed", db)
                else
                  let uploadDate := now w in
                  let doc := {| file_id := fresh_id w;
                                file_name := name;
                                file_contentType := None;
                                file_metadata :=
                                  {| meta_userId := userId;
                                     meta_uploadedAt := uploadDate;
                                     meta_sessionId := sessionId;
                                     meta_isCombined := false;
                                     meta_sourceFileIds := None;
                                     meta_requestStartTime := None |};
                                file_bytes := bytes |} in
                  if negb (stream_finishes w) then (upload_failed (error_message w), db)
                  else
                    (* the file is stored when the stream has finished; the
                       count of the files of the session comes after it *)
                    let stored := {| files := files db ++ [doc];
                                     sessionMetadata := sessionMetadata db;
                                     analyses := analyses db;
                                     margin_analyses := margin_analyses db |} in
                    if count_fails w then (upload_failed (error_message w), stored)
                    else
                      (respond 200 [("message"%string, JStr (str "File uploaded successfully"));
                                    ("fileId"%string, JStr (fresh_id w));
                                    ("filename"%string, JStr name);
                                    ("sessionId"%string, JStr sessionId)],
                       stored)
            | _ => (error_body 400 "Missing session ID", db)
            end
        end
  | _ => (error_body 401 "Unauthorized", db)
  end.

End Upload.

(** * The session service ([app/api/session/route.js]) *)

Module Session.

(** The body of the request: [None] when it is not JSON; [metadata] is an
    object or absent. *)
Record Body := {
  sessionId : option jsstring;
  metadata : option (list (string * json))
}.

Record World := {
  MONGODB_URI : option jsstring;
  connects : bool;
  now : Z
}.

(** The answer of the [catch] block; the message of the caught error, which
    the body appends, is left out. *)
Definition failed : Outcome := error_body 500 "Failed to save metadata".

(** [{ ...metadata, updatedAt: new Date() }] *)
Definition set_fields (metadata : option (list (string * json))) (t : Z) : list (string * bson) :=
  map (fun kv => (fst kv, BJson (snd kv))) (default [] metadata) ++ [("updatedAt"%string, BDate t)].

Definition has_sessionId (sid : jsstring) (d : list (string * bson)) : bool :=
  match doc_get "sessionId" d with
  | Some (BJson (JStr s)) => jsstring_eqb s sid
  | _ => false
  end.

Definition POST (w : World) (body : option Body) (db : Database) : Outcome * Database :=
  match body with
  | None => (failed, db)
  | Some b =>
      match sessionId b with
      | Some (s :: sid) =>
          let sessionId := s :: sid in
          if Upload.falsy_string (MONGODB_URI w) then (failed, db)
          else if negb (connects w) then (failed, db)
          else
            let fields := set_fields (metadata b) (now w) in
            (respond 200 [("success"%string, JBool true)],
             {| files := files db;
                sessionMetadata :=
                  upsert (has_sessionId sessionId)
                         (doc_set_all fields)
                         (doc_set_all fields [("sessionId"%string, BJson (JStr sessionId))])
                         (sessionMetadata db);
                analyses := analyses db;
                margin_analyses := margin_analyses db |})
      | _ => (error_body 400 "Session ID is required", db)
      end
  end.

(** The preferences as the upload page keeps them ([interface SessionMetadata]). *)
Record SessionMetadata := {
  combineData : bool;
  joinType : jsstring;
  customPrompt : jsstring
}.

(** [JSON.stringify({ sessionId, metadata })] as the page sends it. *)
Definition body_of (sid : jsstring) (m : SessionMetadata) : Body :=
  {| sessionId := Some sid;
     metadata := Some [("combineData"%string, JBool (combineData m));
                       ("joinType"%string, JStr (joinType m));
                       ("customPrompt"%string, JStr (customPrompt m))] |}.

End Session.

(** ** JSON.stringify on parsed values (compact form)

    A finite number is written with the digits it was read with, which
    denote the same number as the digits [JSON.stringify] chooses; an
    infinity is written [null] and [-0] is written [0]. A surrogate that is
    not half of a pair is written as a [\u] escape. *)

Definition hex_digit (n : N) : N := if n <? 10 then 48 + n else 87 + n.

Definition is_high_surrogate (c : N) : bool := (55296 <=? c) && (c <=? 56319).
Definition is_low_surrogate (c : N) : bool := (56320 <=? c) && (c <=? 57343).

Definition unicode_escape (c : N) : jsstring :=
  [92; 117; hex_digit (c / 4096); hex_digit ((c / 256) mod 16);
   hex_digit ((c / 16) mod 16); hex_digit (c mod 16)].

Definition stringify_char (c : N) : jsstring :=
  if c =? 34 then [92; 34]
  else if c =? 92 then [92; 92]
  else if c =? 8 then [92; 98]
  else if c =? 12 then [92; 102]
  else if c =? 10 then [92; 110]
  else if c =? 13 then [92; 114]
  else if c =? 9 then [92; 116]
  else if c <? 32 then [92; 117; 48; 48; hex_digit (c / 16); hex_digit (c mod 16)]
  else [c].

Fixpoint stringify_units (s : jsstring) : jsstring :=
  match s with
  | [] => []
  | c :: r =>
      if is_high_surrogate c then
        match r with
        | d :: r' =>
            if is_low_surrogate d then c :: d :: stringify_units r'
            else unicode_escape c ++ stringify_units r
        | [] => unicode_escape c
        end
      else if is_low_surrogate c then unicode_escape c ++ stringify_units r
      else stringify_char c ++ stringify_units r
  end.

Definition stringify_string (s : jsstring) : jsstring :=
  DQUOTE :: stringify_units s ++ [DQUOTE].

Definition stringify_number (lex : jsstring) : jsstring :=
  if num_overflows lex then str "null"
  else if num_is_negative_zero lex then str "0"
  else lex.

Fixpoint JSON_stringify (v : json) : jsstring :=
  match v with
  | JNull => str "null"
  | JBool true => str "true"
  | JBool false => str "false"
  | JNum lex => stringify_number lex
  | JStr s => stringify_string s
  | JArr items =>
      91 :: join_comma (map JSON_stringify items) ++ [93]
  | JObj props =>
      123 :: join_comma (map (fun kv => stringify_string (fst kv) ++ 58 :: JSON_stringify (snd kv)) props)
          ++ [125]
  end.

(** What [JSON.parse(JSON.stringify(v))] gives: the value a server reads
    from a body the client wrote with [JSON.stringify]. An infinity comes
    back as [null] and [-0] as [0]; every other value comes back as it
    was. *)
Fixpoint through_JSON (v : json) : json :=
  match v with
  | JNum lex =>
      if num_overflows lex then JNull
      else if num_is_negative_zero lex then JNum (str "0")
      else JNum lex
  | JArr items => JArr (map through_JSON items)
  | JObj props => JObj (map (fun kv => (fst kv, through_JSON (snd kv))) props)
  | _ => v
  end.

(** No number of [v] is an infinity or [-0]. *)
Fixpoint plain (v : json) : bool :=
  match v with
  | JNum lex => negb (num_overflows lex) && negb (num_is_negative_zero lex)
  | JArr items => forallb plain items
  | JObj props => forallb (fun kv => plain (snd kv)) props
  | _ => true
  end.

(** ** encodeURIComponent

    The code points of the string in UTF-8, every byte but those of the
    unreserved characters written as a percent escape; a surrogate that is
    not half of a pair throws a URIError. *)

Definition uri_unreserved (c : N) : bool :=
  ((65 <=? c) && (c <=? 90)) || ((97 <=? c) && (c <=? 122)) || ((48 <=? c) && (c <=? 57))
  || (c =? 45) || (c =? 95) || (c =? 46) || (c =? 33) || (c =? 126) || (c =? 42)
  || (c =? 39) || (c =? 40) || (c =? 41).

Definition upper_hex_digit (n : N) : N := if n <? 10 then 48 + n else 55 + n.

Definition percent_escape (byte : N) : jsstring :=
  [37; upper_hex_digit (byte / 16); upper_hex_digit (byte mod 16)].

Definition utf8 (cp : N) : list N :=
  if cp <? 128 then [cp]
  else if cp <? 2048 then [192 + cp / 64; 128 + cp mod 64]
  else if cp <? 65536 then [224 + cp / 4096; 128 + (cp / 64) mod 64; 128 + cp mod 64]
  else [240 + cp / 262144; 128 + (cp / 4096) mod 64; 128 + (cp / 64) mod 64; 128 + cp mod 64].

Fixpoint encodeURIComponent (s : jsstring) : Exn jsstring :=
  match s with
  | [] => Ret []
  | c :: r =>
      if uri_unreserved c then
        let! t := encodeURIComponent r in Ret (c :: t)
      else if is_low_surrogate c then Throw URIError
      else if is_high_surrogate c then
        match r with
        | d :: r' =>
            if is_low_surrogate d then
              let! t := encodeURIComponent r' in
              Ret (flat_map percent_escape (utf8 (65536 + (c - 55296) * 1024 + (d - 56320))) ++ t)
            else Throw URIError
        | [] => Throw URIError
        end
      else
        let! t := encodeURIComponent r in
        Ret (flat_map percent_escape (utf8 c) ++ t)
  end.

(** * The combine route ([POST] of [app/api/combine/route.js]) *)

Module CombineRoute.

(** [parseNDJSON(text)] *)
Definition parseNDJSON (text : jsstring) : list json :=
  filter truthy
    (map (fun line => match JSON_parse line with Ret v => v | Throw _ => JNull end)
         (List.filter (fun line => Combine.nonempty line && Combine.nonempty (trim line))
                 (split_on 10 text))).

(** The prompt sent to the model: the dataset texts and the two optional
    requirement paragraphs (the fixed instruction text between them is the
    same in every prompt and is left out). *)
Record Prompt := {
  datasets : list jsstring;
  joinRequirement : option json;
  userRequirement : option json
}.

(** What [fetch] to the model gives. *)
Inductive ApiReply :=
| FetchRejected (e : JsError)
| ApiResponse (ok : bool) (http_status : nat) (contentType : option jsstring) (text : jsstring).

Record Request := {
  auth_userId : option jsstring;
  body_sessionId : Exn (option jsstring)     (* [Throw] when the body is not JSON *)
}.

Record World := {
  MONGODB_URI : option jsstring;
  OPENROUTER_API_KEY : option jsstring;
  connects : bool;
  requestStartTime : Z;
  datasetText : FileDoc -> Exn jsstring;     (* the first rows of a workbook file *)
  model : Prompt -> ApiReply;
  writeXlsx : list json -> Exn (list N);      (* the workbook of the combined rows *)
  storeTime : Z;
  combinedName : jsstring;                    (* [combined-] and the time, [.xlsx] *)
  fresh_id : jsstring;
  stream_finishes : bool
}.

(** The state the module keeps between requests, the database, and the
    prompts sent to the model so far. *)
Record Server := {
  db : Database;
  processingLocks : gset (list N);
  model_calls : list Prompt
}.

Definition with_locks (s : Server) (l : gset (list N)) : Server :=
  {| db := db s; processingLocks := l; model_calls := model_calls s |}.

Definition with_call (s : Server) (p : Prompt) : Server :=
  {| db := db s; processingLocks := processingLocks s; model_calls := model_calls s ++ [p] |}.

Definition with_file (s : Server) (f : FileDoc) : Server :=
  {| db := {| files := files (db s) ++ [f];
              sessionMetadata := sessionMetadata (db s);
              analyses := analyses (db s);
              margin_analyses := margin_analyses (db s) |};
     processingLocks := processingLocks s;
     model_calls := model_calls s |}.

Definition unlock (sid : jsstring) (s : Server) : Server :=
  with_locks s (processingLocks s ∖ {[ sid ]}).

(** The preferences as read back from [sessionMetadata]. *)
Definition find_session (sid : jsstring) (d : Database) : option (list (string * bson)) :=
  find (Session.has_sessionId sid) (sessionMetadata d).

Definition pref (key : string) (doc : option (list (string * bson))) : option json :=
  match doc with
  | Some d => match doc_get key d with
              | Some (BJson v) => Some v
              | _ => None
              end
  | None => None
  end.

(** [sessionMetadata?.combineData || false], [... .joinType || ""],
    [... .customPrompt || ""] *)
Definition read_combineData (doc : option (list (string * bson))) : json :=
  js_or (pref "combineData" doc) (JBool false).
Definition read_joinType (doc : option (list (string * bson))) : json :=
  js_or (pref "joinType" doc) (JStr []).
Definition read_customPrompt (doc : option (list (string * bson))) : json :=
  js_or (pref "customPrompt" doc) (JStr []).

Definition read_preferences (sid : jsstring) (d : Database) : json * json * json :=
  let doc := find_session sid d in
  (read_combineData doc, read_joinType doc, read_customPrompt doc).

(** The files of the user and session uploaded up to [t], newest first. *)
Definition recentFiles (userId sid : jsstring) (t : Z) (d : Database) : list FileDoc :=
  sort_by (fun a b => (meta_uploadedAt (file_metadata b) <=? meta_uploadedAt (file_metadata a))%Z)
    (List.filter (fun f => jsstring_eqb (meta_userId (file_metadata f)) userId
                      && jsstring_eqb (meta_sessionId (file_metadata f)) sid
                      && (meta_uploadedAt (file_metadata f) <=? t)%Z)
            (files d)).

(** [recentFiles.map(file => file._id.toString()).sort().join(',')] *)
Definition fileIds_of (recent : list FileDoc) : jsstring :=
  join_comma (sort_by jsstring_leb (map file_id recent)).

Definition existingCombinedFile (userId sid fileIds : jsstring) (d : Database) : option FileDoc :=
  find (fun f => jsstring_eqb (meta_userId (file_metadata f)) userId
                 && jsstring_eqb (meta_sessionId (file_metadata f)) sid
                 && match meta_sourceFileIds (file_metadata f) with
                    | Some ids => jsstring_eqb ids fileIds
                    | None => false
                    end
                 && meta_isCombined (file_metadata f))
       (files d).

(** [file.filename.toLowerCase().endsWith('.csv')] *)
Definition is_csv_name (name : jsstring) : bool :=
  startsWith (rev (map Upload.lower name)) (rev (str ".csv")).

(** The text of one file. For a name that ends with [.csv] the handler calls
    [workbook.csv.read(buffer.toString())]: the library reads from a stream
    and is given a string, so the call throws a TypeError. For any other
    name the workbook is loaded from the buffer and its first rows are
    written out ([datasetText]). *)
Definition read_dataset (w : World) (file : FileDoc) : Exn jsstring :=
  if is_csv_name (file_name file) then Throw TypeError else datasetText w file.

(** [await Promise.all(recentFiles.map(...))] *)
Fixpoint all_texts (read : FileDoc -> Exn jsstring) (l : list FileDoc) : Exn (list jsstring) :=
  match l with
  | [] => Ret []
  | f :: r =>
      let! t := read f in
      let! ts := all_texts read r in
      Ret (t :: ts)
  end.

(** [if (joinType) prompt += ...] *)
Definition when_truthy (v : json) : option json :=
  if truthy v then Some v else None.

(** Reading the reply of the model down to the combined rows. *)
Definition includes_json_type (contentType : option jsstring) : bool :=
  let ct := default [] contentType in
  existsb (fun i => startsWith (skipn i ct) (str "application/json")) (seq 0 (S (length ct))).

Definition responseData_of (responseText : jsstring) : Exn json :=
  try_catch (JSON_parse responseText) (fun e =>
    match (if existsb (N.eqb 10) responseText then parseNDJSON responseText else []) with
    | [] => Throw e
    | o :: os =>
        Ret (JObj [(str "choices",
               JArr [JObj [(str "message",
                      JObj [(str "content", JStr (JSON_stringify (JArr (o :: os))))])]])])
    end).

(** [responseData.choices[0].message.content.trim()] *)
Definition content_of (responseData : json) : Exn jsstring :=
  let first_choice :=
    match get_prop "choices" responseData with
    | Some (JArr (c0 :: _)) => Some c0
    | Some (JObj props) => assoc_last (str "0") props
    | _ => None
    end in
  match first_choice with
  | Some c0 =>
      match get_prop "message" c0 with
      | Some m =>
          match get_prop "content" m with
          | Some (JStr s) => Ret (trim s)
          | _ => Throw TypeError
          end
      | None => Throw TypeError
      end
  | None => Throw TypeError
  end.

(** The part of the handler after the lock is taken and the database is
    connected: [Ret] is the answer of the [try] block, [Throw] enters its
    [catch]. *)
Definition combine (w : World) (userId sid : jsstring) (s : Server) : Exn Response * Server :=
  let doc := find_session sid (db s) in
  let joinType := read_joinType doc in
  let customPrompt := read_customPrompt doc in
  let recent := recentFiles userId sid (requestStartTime w) (db s) in
  let fileIds := fileIds_of recent in
  match existingCombinedFile userId sid fileIds (db s) with
  | Some existing =>
      (Ret {| status := 200; body := JObj [(str "fileId", JStr (file_id existing))] |},
       unlock sid s)
  | None =>
      match all_texts (read_dataset w) recent with
      | Throw e => (Throw e, s)
      | Ret datasetsText =>
          let prompt := {| datasets := datasetsText;
                           joinRequirement := when_truthy joinType;
                           userRequirement := when_truthy customPrompt |} in
          let s := with_call s prompt in
          match model w prompt with
          | FetchRejected e => (Throw e, s)
          | ApiResponse false _ _ _ => (Throw (Error "OpenRouter API error"), unlock sid s)
          | ApiResponse true _ contentType responseText =>
              if negb (includes_json_type contentType) then
                (Throw (Error "Invalid response format"), s)
              else
                match (let! responseData := responseData_of responseText in
                       let! jsonString := content_of responseData in
                       try_catch (Combine.parseAIResponse (JStr jsonString))
                                 (fun _ => Throw (Error "Failed to parse AI response")))
                with
                | Throw e => (Throw e, s)
                | Ret (JArr combinedData) =>
                    match writeXlsx w combinedData with
                    | Throw e => (Throw e, s)
                    | Ret buffer =>
                        if negb (stream_finishes w) then (Throw (Error "upload stream"), s)
                        else
                          let doc :=
                            {| file_id := fresh_id w;
                               file_name := combinedName w;
                               file_contentType := Some (str "application/vnd.openxmlformats-officedocument.spreadsheetml.sheet");
                               file_metadata :=
                                 {| meta_userId := userId;
                                    meta_uploadedAt := storeTime w;
                                    meta_sessionId := sid;
                                    meta_isCombined := true;
                                    meta_sourceFileIds := Some fileIds;
                                    meta_requestStartTime := Some (requestStartTime w) |};
                               file_bytes := buffer |} in
                          (Ret {| status := 200; body := JObj [(str "fileId", JStr (fresh_id w))] |},
                           unlock sid (with_file s doc))
                    end
                | Ret _ =>
                    (Throw (Error "API response did not return valid array data"), unlock sid s)
                end
          end
      end
  end.

(** [POST(request)]. The [catch] block starts with
    [processingLocks.delete(sessionId)], where [sessionId] is a constant of
    the [try] block and so not in scope: the block throws a ReferenceError
    before it builds an answer, and the promise of the handler rejects. *)
Definition POST (w : World) (req : Request) (s : Server) : Outcome * Server :=
  if Upload.falsy_string (MONGODB_URI w) then
    (error_body 500 "MONGODB_URI missing in environment variables", s)
  else if Upload.falsy_string (OPENROUTER_API_KEY w) then
    (error_body 500 "OPENROUTER_API_KEY missing in environment variables", s)
  else
    match auth_userId req with
    | Some (u :: uid) =>
        let userId := u :: uid in
        match body_sessionId req with
        | Throw _ => (Rejected ReferenceError, s)
        | Ret (Some (c :: sid')) =>
            let sid := c :: sid' in
            if decide (sid ∈ processingLocks s) then
              (error_body 429 "Combine operation already in progress for this session", s)
            else
              let s := with_locks s ({[ sid ]} ∪ processingLocks s) in
              if negb (connects w) then (Rejected ReferenceError, s)
              else
                match combine w userId sid s with
                | (Ret r, s') => (Responded r, s')
                | (Throw _, s') => (Rejected ReferenceError, s')
                end
        | Ret _ => (error_body 400 "Session ID is required", s)
        end
    | _ => (error_body 401 "Unauthorized", s)
    end.

End CombineRoute.

(** * The save endpoint of the report store ([POST] of
    [app/api/margin-report/save]) *)

Module MarginReportSave.

(** The body of the request as the pipeline sends it; [None] when it is not
    JSON. *)
Record Body := {
  runId : option jsstring;
  analysis : option json
}.

Record Request := {
  auth_userId : option jsstring;
  body : option Body
}.

Record World := {
  connects : bool;
  now : Z
}.

Definition internal_error : Outcome := error_body 500 "Internal server error".

Definition same_run (runId userId : jsstring) (d : MarginDoc) : bool :=
  jsstring_eqb (ma_runId d) runId && jsstring_eqb (ma_userId d) userId.

Definition POST (w : World) (req : Request) (d : Database) : Outcome * Database :=
  match auth_userId req with
  | Some (u :: uid) =>
      let clerkUserId := u :: uid in
      match body req with
      | None => (internal_error, d)
      | Some b =>
          match runId b, analysis b with
          | Some (c :: rid), Some a =>
              let runId := c :: rid in
              if negb (truthy a) then (error_body 400 "runId and analysis are required", d)
              else if negb (connects w) then (internal_error, d)
              else
                (respond 200 [("success"%string, JBool true)],
                 {| files := files d;
                    sessionMetadata := sessionMetadata d;
                    analyses := analyses d;
                    margin_analyses :=
                      upsert (same_run runId clerkUserId)
                        (fun doc => {| ma_runId := ma_runId doc;
                                       ma_userId := ma_userId doc;
                                       ma_fileId := ma_fileId doc;
                                       ma_createdAt := ma_createdAt doc;
                                       ma_analysis := Some a;
                                       ma_status := str "completed";
                                       ma_completedAt := Some (now w);
                                       ma_updatedAt := now w |})
                        {| ma_runId := runId;
                           ma_userId := clerkUserId;
                           ma_fileId := None;
                           ma_createdAt := None;
                           ma_analysis := Some a;
                           ma_status := str "completed";
                           ma_completedAt := Some (now w);
                           ma_updatedAt := now w |}
                        (margin_analyses d) |})
          | _, _ => (error_body 400 "runId and analysis are required", d)
          end
      end
  | _ => (error_body 401 "Authentication required", d)
  end.

End MarginReportSave.

(** * The margin pipeline of the client
    ([components/margin-loader-sequence.tsx])

    The component is modelled as the sequence of its effects: a timer that
    fires is the call it schedules, and an awaited [fetch] is the reply the
    world gives to the request. *)

Module Orchestrator.

Record Step := { id : string; label : string; endpoint : string }.

Definition MARGIN_STEPS : list Step :=
  [ {| id := "pricing"; label := "Analyzing pricing structure"; endpoint := "/api/margin/pricing" |};
    {| id := "costs"; label := "Calculating cost margins"; endpoint := "/api/margin/costs" |};
    {| id := "leakage"; label := "Identifying margin leakage"; endpoint := "/api/margin/leakage" |};
    {| id := "segments"; label := "Analyzing customer segments"; endpoint := "/api/margin/segments" |};
    {| id := "recommendations"; label := "Generating recommendations";
       endpoint := "/api/margin/recommendations" |} ].

(** The four values of [status]. *)
Inductive Status := st_pending | st_loading | st_success | st_error.

(** The text of a failed step: what the server said, the HTTP status, or the
    message of the error that was thrown. *)
Inductive ErrorText :=
| ServerMessage (v : json)
| HttpStatus (code : nat)
| Thrown (e : JsError).

Record StepResult := {
  status : Status;
  data : option json;
  error : option ErrorText;
  summary : option (list json)      (* the values the summary line shows *)
}.

Definition result_of (s : Status) : StepResult :=
  {| status := s; data := None; error := None; summary := None |}.

(** The properties of the component. *)
Record Props := { fileId : jsstring; runId : option jsstring }.

Definition strings (l : list string) : json := JArr (map (fun s => JStr (str s)) l).
Definition num (digits : string) : json := JNum (str digits).

(** [bodyPayload] of a step, as [JSON.stringify] sends it (an undefined
    [runId] is not sent). *)
Definition bodyPayload (p : Props) (step : Step) : json :=
  JObj
    ([(str "fileId", JStr (fileId p))]
     ++ match runId p with Some r => [(str "runId", JStr r)] | None => [] end
     ++ (if String.eqb (id step) "pricing" then
           [(str "analyze_fields", strings ["list_price"; "net_price"; "discount_pct"]%string);
            (str "price_thresholds",
             JObj [(str "min_price", num "0"); (str "max_discount", num "100")])]
         else [])
     ++ (if String.eqb (id step) "costs" then
           [(str "cost_fields", strings ["cost"; "cogs"]%string);
            (str "margin_thresholds",
             JObj [(str "min_margin_pct", num "10"); (str "target_margin_pct", num "30")])]
         else [])
     ++ (if String.eqb (id step) "leakage" then
           [(str "leakage_rules",
             strings ["net_price < cost"; "margin_pct < 5"; "discount_pct > 50"]%string);
            (str "priority_threshold", num "1000")]
         else [])
     ++ (if String.eqb (id step) "segments" then
           [(str "segment_fields",
             strings ["customer_id"; "customer_segment"; "product_category"]%string);
            (str "analysis_type", JStr (str "margin_by_segment"))]
         else [])
     ++ (if String.eqb (id step) "recommendations" then
           [(str "recommendation_types",
             strings ["pricing_optimization"; "cost_reduction"; "segment_targeting"]%string)]
         else [])).

(** A POST the component issues: the path of its URL, the [fileId] of its
    query string as [encodeURIComponent] wrote it, and the value whose JSON
    text is its body. *)
Record Request := {
  req_endpoint : string;
  req_fileId : option jsstring;
  req_body : json
}.

(** What the [try] block of a step meets before it has a response in hand:
    an exception (the URL cannot be built, or [fetch] rejects), or a response
    with its status and the text of its body ([None] when reading the text
    fails). *)
Inductive FetchOutcome :=
| FetchFailed (e : JsError)
| HttpResponse (code : nat) (text : option jsstring).

Definition response_ok (code : nat) : bool := (200 <=? code)%nat && (code <=? 299)%nat.

(** The world of a run: the reply to the [n]-th request the component
    issues to a step endpoint, the user of the browser session and the state
    of the save endpoint ([None]: the save request does not arrive), and the
    clock of the browser. *)
Record World := {
  reply : nat -> Request -> FetchOutcome;
  session_user : option jsstring;
  save_world : option MarginReportSave.World;
  isoTime : jsstring
}.

Record State := {
  currentStep : nat;
  stepResults : gmap string StepResult;
  isRetrying : bool;
  showHourglassLoader : bool;
  accumRef : gmap string json;
  issued : list Request;                       (* requests to step endpoints, in order *)
  saves : list Request;                        (* requests to the save endpoint *)
  server : Database;
  completed : list (json * option jsstring);   (* calls of [onComplete] *)
  uncaught : list JsError                      (* rejections nobody handles *)
}.

Definition set_step (key : string) (r : StepResult) (st : State) : State :=
  {| currentStep := currentStep st;
     stepResults := <[ key := r ]> (stepResults st);
     isRetrying := isRetrying st;
     showHourglassLoader := showHourglassLoader st;
     accumRef := accumRef st;
     issued := issued st;
     saves := saves st;
     server := server st;
     completed := completed st;
     uncaught := uncaught st |}.

Definition set_current (i : nat) (st : State) : State :=
  {| currentStep := i;
     stepResults := stepResults st;
     isRetrying := isRetrying st;
     showHourglassLoader := showHourglassLoader st;
     accumRef := accumRef st;
     issued := issued st;
     saves := saves st;
     server := server st;
     completed := completed st;
     uncaught := uncaught st |}.

Definition set_accum (key : string) (v : json) (st : State) : State :=
  {| currentStep := currentStep st;
     stepResults := stepResults st;
     isRetrying := isRetrying st;
     showHourglassLoader := showHourglassLoader st;
     accumRef := <[ key := v ]> (accumRef st);
     issued := issued st;
     saves := saves st;
     server := server st;
     completed := completed st;
     uncaught := uncaught st |}.

Definition log_request (r : Request) (st : State) : State :=
  {| currentStep := currentStep st;
     stepResults := stepResults st;
     isRetrying := isRetrying st;
     showHourglassLoader := showHourglassLoader st;
     accumRef := accumRef st;
     issued := issued st ++ [r];
     saves := saves st;
     server := server st;
     completed := completed st;
     uncaught := uncaught st |}.

Definition set_retrying (b : bool) (st : State) : State :=
  {| currentStep := currentStep st;
     stepResults := stepResults st;
     isRetrying := b;
     showHourglassLoader := showHourglassLoader st;
     accumRef := accumRef st;
     issued := issued st;
     saves := saves st;
     server := server st;
     completed := completed st;
     uncaught := uncaught st |}.

(** [`${v}`]: the conversion to a string throws a TypeError on an object that
    has a [toString] property of its own (a parsed value is never a function)
    and on an array that holds such an object; [null] in an array is skipped. *)
Fixpoint template_ok (v : json) : bool :=
  match v with
  | JObj props =>
      match assoc_last (str "toString") props with
      | Some _ => false
      | None => true
      end
  | JArr items => forallb (fun x => match x with JNull => true | _ => template_ok x end) items
  | _ => true
  end.

(** [v.length] for a value that is not [null]. *)
Definition prop_length (v : json) : option json :=
  match v with
  | JArr items => Some (JNum (str (NilEmpty.string_of_uint (Nat.to_uint (length items)))))
  | JStr s => Some (JNum (str (NilEmpty.string_of_uint (Nat.to_uint (length s)))))
  | JObj props => assoc_last (str "length") props
  | _ => None
  end.

(** The values the summary line of a step shows; reading a property of
    [null] throws. *)
Definition summary_values (key : string) (result : json) : Exn (list json) :=
  match result with
  | JNull => Throw TypeError
  | _ =>
      let get k := get_prop k result in
      let values :=
        if String.eqb key "pricing" then
          [coalesce_default (coalesce (get "total_products") (get "pricing_count")) (JStr (str "N/A"));
           coalesce_default (get "avg_discount_pct") (JStr (str "N/A"))]
        else if String.eqb key "costs" then
          [coalesce_default (get "avg_margin_pct") (JStr (str "N/A"))]
        else if String.eqb key "leakage" then
          [coalesce_default (coalesce (get "leakage_instances") (get "leakage_count")) (num "0")]
        else if String.eqb key "segments" then
          [coalesce_default (get "segments_analyzed") (num "0")]
        else if String.eqb key "recommendations" then
          [coalesce_default
             (coalesce (get "recommendations_count")
                (match get "recommendations" with
                 | Some JNull => None
                 | Some r => prop_length r
                 | None => None
                 end))
             (num "0")]
        else [] in
      if forallb template_ok values then Ret values else Throw TypeError
  end.

(** [result] of a response: the parsed body, [{}] for an empty body,
    [{ rawText }] for a body that is not JSON. *)
Definition parse_body (text : option jsstring) : json :=
  match default [] text with
  | [] => JObj []
  | c :: t =>
      match JSON_parse (c :: t) with
      | Ret v => v
      | Throw _ => JObj [(str "rawText", JStr (c :: t))]
      end
  end.

(** [new Error(message)] for a message the server sent: the conversion of
    the message to a string may throw, as in a template. *)
Definition server_message (v : json) : ErrorText :=
  if template_ok v then ServerMessage v else Thrown TypeError.

(** [result?.error || result?.message || `HTTP ${response.status}`], as the
    [catch] block finds it in the error that was thrown. *)
Definition failure_message (result : json) (code : nat) : ErrorText :=
  match get_prop "error" result with
  | Some v => if truthy v then server_message v
              else match get_prop "message" result with
                   | Some m => if truthy m then server_message m else HttpStatus code
                   | None => HttpStatus code
                   end
  | None => match get_prop "message" result with
            | Some m => if truthy m then server_message m else HttpStatus code
            | None => HttpStatus code
            end
  end.

(** The request of a step; building its URL throws when [fileId] cannot be
    encoded. *)
Definition step_request (p : Props) (step : Step) : Exn Request :=
  let! encoded := encodeURIComponent (fileId p) in
  Ret {| req_endpoint := endpoint step;
         req_fileId := Some encoded;
         req_body := bodyPayload p step |}.

(** The [try] block of [runStep] for one step, after the request is issued. *)
Definition settle_step (step : Step) (outcome : FetchOutcome) (st : State) : State * bool :=
  match outcome with
  | FetchFailed e =>
      (set_step (id step) {| status := st_error; data := None; error := Some (Thrown e); summary := None |} st,
       false)
  | HttpResponse code text =>
      let result := parse_body text in
      if negb (response_ok code) then
        (set_step (id step)
           {| status := st_error; data := None; error := Some (failure_message result code);
              summary := None |} st,
         false)
      else
        let st := set_accum (id step) result st in
        match summary_values (id step) result with
        | Throw e =>
            (set_step (id step)
               {| status := st_error; data := None; error := Some (Thrown e); summary := None |} st,
             false)
        | Ret values =>
            (set_step (id step)
               {| status := st_success; data := Some result; error := None; summary := Some values |} st,
             true)
        end
  end.

(** *** finalizeAndReturn *)

Definition or3 (a b : option json) (c : json) : json := js_or a (js_or b c).

Definition is_string (text : string) (v : option json) : bool :=
  match v with
  | Some (JStr s) => jsstring_eqb s (str text)
  | _ => false
  end.

(** [x ?? []] read as an array: the elements, or a TypeError when the value
    has no [map]. *)
Definition as_array (v : option json) : Exn (list json) :=
  match v with
  | None => Ret []
  | Some JNull => Ret []
  | Some (JArr l) => Ret l
  | Some _ => Throw TypeError
  end.

Definition priority_suggestion (action : json) : Exn json :=
  match action with
  | JNull => Throw TypeError
  | _ =>
      let get k := get_prop k action in
      Ret (JObj
        [(str "type", or3 (get "category") (get "action") (JStr (str "Optimization")));
         (str "description", or3 (get "action") (get "rationale") (JStr []));
         (str "impact_estimate", js_or (get "impact") (JStr (str "Unknown impact")));
         (str "confidence",
          if is_string "high" (get "priority") then num "0.9"
          else if is_string "medium" (get "priority") then num "0.7" else num "0.5");
         (str "rationale", js_or (get "rationale") (JStr []));
         (str "priority", js_or (get "priority") (JStr (str "medium")))])
  end.

Definition quick_win_suggestion (win : json) : Exn json :=
  match win with
  | JNull => Throw TypeError
  | _ =>
      let get k := get_prop k win in
      Ret (JObj
        [(str "type", JStr (str "Quick Win"));
         (str "description", js_or (get "action") (JStr []));
         (str "impact_estimate", js_or (get "impact") (JStr (str "Unknown impact")));
         (str "confidence", num "0.8");
         (str "effort", js_or (get "effort") (JStr (str "low")));
         (str "priority", JStr (str "high"))])
  end.

Fixpoint map_exn {A B} (f : A -> Exn B) (l : list A) : Exn (list B) :=
  match l with
  | [] => Ret []
  | x :: r =>
      let! y := f x in
      let! ys := map_exn f r in
      Ret (y :: ys)
  end.

(** [acc.key?.prop]: [undefined] when [acc.key] is nullish. *)
Definition opt_prop (acc : gmap string json) (key prop : string) : option json :=
  match acc !! key with
  | Some JNull => None
  | Some v => get_prop prop v
  | None => None
  end.

Definition count_priority (text : string) (actions : list json) : nat :=
  length (List.filter (fun a => is_string text (get_prop "priority" a)) actions).

Definition count (n : nat) : json := JNum (str (NilEmpty.string_of_uint (Nat.to_uint n))).

(** The object [finalResults]; [Throw] when building the remediation
    suggestions throws. *)
Definition finalResults (p : Props) (iso : jsstring) (acc : gmap string json) : Exn json :=
  let recommendationsData := coalesce_default (acc !! "recommendations"%string) (JObj []) in
  let! priorityActions := as_array (get_prop "priority_actions" recommendationsData) in
  let! quickWins := as_array (get_prop "quick_wins" recommendationsData) in
  let! fromActions := map_exn priority_suggestion priorityActions in
  let! fromWins := map_exn quick_win_suggestion quickWins in
  Ret (JObj
    [(str "pricing",
      coalesce_default
        (coalesce (acc !! "pricing"%string)
           (coalesce (acc !! "pricing_raw"%string) (acc !! "pricingResults"%string)))
        (JObj []));
     (str "costs",
      coalesce_default (coalesce (acc !! "costs"%string) (acc !! "costs_raw"%string)) (JObj []));
     (str "leakage",
      coalesce_default (coalesce (acc !! "leakage"%string) (acc !! "leakage_raw"%string)) (JObj []));
     (str "segments",
      coalesce_default (coalesce (acc !! "segments"%string) (acc !! "segments_raw"%string)) (JObj []));
     (str "recommendations",
      coalesce_default
        (coalesce (acc !! "recommendations"%string) (acc !! "recommendations_raw"%string))
        (JObj []));
     (str "top_product_losses",
      coalesce_default
        (coalesce (opt_prop acc "recommendations" "top_product_losses")
           (coalesce (opt_prop acc "leakage" "top_product_losses")
              (opt_prop acc "pricing" "top_product_losses")))
        (JArr []));
     (str "top_customer_losses",
      coalesce_default (opt_prop acc "leakage" "top_customer_losses") (JArr []));
     (str "product_customer_pairs_below_cost",
      coalesce_default (opt_prop acc "leakage" "product_customer_pairs_below_cost") (JArr []));
     (str "samples",
      coalesce_default
        (coalesce (acc !! "samples"%string)
           (coalesce (opt_prop acc "pricing" "samples") (opt_prop acc "leakage" "samples")))
        (JObj [(str "below_cost", JArr []); (str "low_margin", JArr []);
               (str "extreme_discount", JArr [])]));
     (str "remediation_suggestions", JArr (fromActions ++ fromWins));
     (str "severity_summary",
      coalesce_default
        (coalesce (get_prop "severity_summary" recommendationsData)
           (coalesce (opt_prop acc "segments" "severity_summary")
              (opt_prop acc "leakage" "severity_summary")))
        (JObj [(str "critical", count (count_priority "critical" priorityActions));
               (str "high", count (count_priority "high" priorityActions + length quickWins));
               (str "medium", count (count_priority "medium" priorityActions));
               (str "low", count (count_priority "low" priorityActions))]));
     (str "sql_queries",
      JObj [(str "below_cost",
             coalesce_default
               (coalesce (opt_prop acc "leakage" "sql")
                  (coalesce (opt_prop acc "pricing" "sql") (opt_prop acc "segments" "sql")))
               (JStr []));
            (str "low_margin", coalesce_default (opt_prop acc "pricing" "sql") (JStr []));
            (str "customer_level", coalesce_default (opt_prop acc "segments" "sql") (JStr []))]);
     (str "meta",
      JObj ([(str "fileId", JStr (fileId p))]
            ++ match runId p with Some r => [(str "runId", JStr r)] | None => [] end
            ++ [(str "completedAt", JStr iso);
                (str "analysis_type", JStr (str "margin_leakage"))]))]).

Definition save_request (r : jsstring) (final : json) : Request :=
  {| req_endpoint := "/api/margin-report/save";
     req_fileId := None;
     req_body := JObj [(str "runId", JStr r); (str "analysis", final)] |}.

(** The save request as it reaches the endpoint: the body
    [JSON.stringify({ runId, analysis: finalResults })] read back from its
    text. *)
Definition save_call (w : World) (r : jsstring) (final : json) : MarginReportSave.Request :=
  {| MarginReportSave.auth_userId := session_user w;
     MarginReportSave.body :=
       Some {| MarginReportSave.runId := Some r;
               MarginReportSave.analysis := Some (through_JSON final) |} |}.

Definition finalizeAndReturn (w : World) (p : Props) (st : State) : State :=
  match finalResults p (isoTime w) (accumRef st) with
  | Throw e =>
      {| currentStep := currentStep st;
         stepResults := stepResults st;
         isRetrying := isRetrying st;
         showHourglassLoader := true;
         accumRef := accumRef st;
         issued := issued st;
         saves := saves st;
         server := server st;
         completed := completed st;
         uncaught := uncaught st ++ [e] |}
  | Ret final =>
      let '(saves', server') :=
        match runId p with
        | Some (c :: r) =>
            (saves st ++ [save_request (c :: r) final],
             match save_world w with
             | Some sw => snd (MarginReportSave.POST sw (save_call w (c :: r) final) (server st))
             | None => server st
             end)
        | _ => (saves st, server st)
        end in
      {| currentStep := currentStep st;
         stepResults := stepResults st;
         isRetrying := isRetrying st;
         showHourglassLoader := true;
         accumRef := accumRef st;
         issued := issued st;
         saves := saves';
         server := server';
         completed := completed st ++ [(final, runId p)];
         uncaught := uncaught st |}
  end.

(** The start of the [try] block of a step: the URL is built and the request
    is issued, the world answering the [n]-th request. *)
Definition attempt (w : World) (p : Props) (step : Step) (st : State) : FetchOutcome * State :=
  match step_request p step with
  | Throw e => (FetchFailed e, st)
  | Ret request => (reply w (length (issued st)) request, log_request request st)
  end.

(** [runStep(stepIndex)] with the calls it schedules; [fuel] bounds the
    number of steps still to run. *)
Fixpoint runStep_from (fuel : nat) (w : World) (p : Props) (stepIndex : nat) (st : State) : State :=
  match MARGIN_STEPS !! stepIndex with
  | None => finalizeAndReturn w p st
  | Some step =>
      match fuel with
      | O => st
      | S fuel' =>
          let st := set_step (id step) (result_of st_loading) (set_current stepIndex st) in
          let (outcome, st) := attempt w p step st in
          match settle_step step outcome st with
          | (st', true) => runStep_from fuel' w p (S stepIndex) st'
          | (st', false) => st'
          end
      end
  end.

Definition runStep (w : World) (p : Props) (stepIndex : nat) (st : State) : State :=
  runStep_from (length MARGIN_STEPS - stepIndex) w p stepIndex st.

(** The state the effect sets up before it starts the run. *)
Definition initial (d : Database) : State :=
  {| currentStep := 0;
     stepResults := list_to_map (map (fun s => (id s, result_of st_pending)) MARGIN_STEPS);
     isRetrying := false;
     showHourglassLoader := false;
     accumRef := ∅;
     issued := [];
     saves := [];
     server := d;
     completed := [];
     uncaught := [] |}.

(** A run: the effect of mounting the component. *)
Definition run (w : World) (p : Props) (d : Database) : State :=
  runStep w p 0 (initial d).

Definition has_error (st : State) (s : Step) : bool :=
  match stepResults st !! id s with
  | Some r => match status r with st_error => true | _ => false end
  | None => false
  end.

(** [MARGIN_STEPS.findIndex(...)]; [None] is -1. *)
Fixpoint findIndex {A} (f : A -> bool) (l : list A) : option nat :=
  match l with
  | [] => None
  | x :: r => if f x then Some O else option_map S (findIndex f r)
  end.

(** [handleRetry()] with the call its timer makes. *)
Definition handleRetry (w : World) (p : Props) (st : State) : State :=
  let st := set_retrying true st in
  match findIndex (has_error st) MARGIN_STEPS with
  | Some failedStepIndex =>
      match MARGIN_STEPS !! failedStepIndex with
      | Some step =>
          runStep w p failedStepIndex
            (set_retrying false (set_step (id step) (result_of st_pending) st))
      | None => st
      end
  | None => st
  end.


(** *** Notions used to state what a run does *)

(** Whether the [try] block of a step ends in success, given the reply. *)
Definition step_succeeds (step : Step) (outcome : FetchOutcome) : bool :=
  match outcome with
  | FetchFailed _ => false
  | HttpResponse code text =>
      response_ok code &&
      match summary_values (id step) (parse_body text) with
      | Ret _ => true
      | Throw _ => false
      end
  end.

(** The chain of calls [runStep(i)], [runStep(i + 1)], ... over the steps
    that are still to run. *)
Fixpoint run_steps (w : World) (p : Props) (steps : list Step) (st : State) : State :=
  match steps with
  | [] => finalizeAndReturn w p st
  | step :: rest =>
      let st1 := set_step (id step) (result_of st_loading)
                   (set_current (length MARGIN_STEPS - length steps) st) in
      let (outcome, st2) := attempt w p step st1 in
      match settle_step step outcome st2 with
      | (st', true) => run_steps w p rest st'
      | (st', false) => st'
      end
  end.

(** The requests of the steps of a list, in order; none when the URL cannot
    be built. *)
Definition requests_of (p : Props) (steps : list Step) : list Request :=
  flat_map (fun s => match step_request p s with Ret r => [r] | Throw _ => [] end) steps.

(** What the [try] block of step [s] meets when [n] requests were issued
    before it. *)
Definition outcome_of (w : World) (p : Props) (n : nat) (s : Step) : FetchOutcome :=
  match step_request p s with
  | Ret r => reply w n r
  | Throw e => FetchFailed e
  end.

Definition status_at (st : State) (s : Step) : option Status :=
  match stepResults st !! id s with
  | Some r => Some (status r)
  | None => None
  end.

(** The states of a mounted component: after the run the effect starts, and
    after each use of the retry button. *)
Inductive reachable (w : World) (p : Props) (d : Database) : State -> Prop :=
| reach_run : reachable w p d (run w p d)
| reach_retry st : reachable w p d st -> reachable w p d (handleRetry w p st).

(** The recommendations reply has [priority_actions] and [quick_wins] that
    are absent, [null], or arrays without [null] entries. *)
Definition suggestion_list (v : option json) : bool :=
  match v with
  | None => true
  | Some JNull => true
  | Some (JArr l) => forallb (fun x => match x with JNull => false | _ => true end) l
  | Some _ => false
  end.

Definition well_shaped (acc : gmap string json) : bool :=
  let recommendationsData := coalesce_default (acc !! "recommendations"%string) (JObj []) in
  suggestion_list (get_prop "priority_actions" recommendationsData)
  && suggestion_list (get_prop "quick_wins" recommendationsData).


(** Step [s] has succeeded in [st]: its status is success, and its response
    object is what the accumulator and its result hold. *)
Definition succeeded (st : State) (s : Step) : Prop :=
  exists v vals,
    v <> JNull
    /\ accumRef st !! id s = Some v
    /\ stepResults st !! id s =
       Some {| status := st_success; data := Some v; error := None; summary := Some vals |}.

(** What a chain that went through [finalizeAndReturn] left out of the
    run's state before it. *)
Definition same_outside (st st' : State) : Prop :=
  saves st' = saves st /\ server st' = server st
  /\ completed st' = completed st /\ uncaught st' = uncaught st.


(** The state in which the run reaches [finalizeAndReturn], as far as that
    function reads it. *)
Definition before_final (d : Database) (acc : gmap string json) : State :=
  {| currentStep := 0;
     stepResults := ∅;
     isRetrying := false;
     showHourglassLoader := false;
     accumRef := acc;
     issued := [];
     saves := [];
     server := d;
     completed := [];
     uncaught := [] |}.

(** The invariant of the reachable states: the steps split into those that
    have succeeded and the rest; either the rest is empty and the run has
    gone through [finalizeAndReturn], or its first step has failed, the
    later ones are pending, and nothing was saved or handed over yet. *)
Definition halted_or_final (w : World) (p : Props) (d : Database) (st : State) : Prop :=
  exists done rest,
    MARGIN_STEPS = done ++ rest
    /\ (forall s, s ∈ done -> succeeded st s)
    /\ match rest with
       | [] => same_outside (finalizeAndReturn w p (before_final d (accumRef st))) st
       | s :: r =>
           status_at st s = Some st_error
           /\ (forall s', s' ∈ r -> status_at st s' = Some st_pending)
           /\ same_outside (before_final d (accumRef st)) st
       end.

End Orchestrator.

(** * The analysis routes: what they share *)

(** An exception met outside the handler. *)
Record Failure := { message : jsstring; stack : option jsstring }.

Inductive Generated :=
| GenerateFails (f : Failure)
| Reply (text : option jsstring).           (* the text of the first candidate, if any *)

(** [ObjectId.isValid] on text: 24 hexadecimal digits; [new ObjectId(text)]
    is the identifier with those digits, written in lower case. *)
Definition is_hex (c : N) : bool :=
  ((48 <=? c) && (c <=? 57)) || ((97 <=? c) && (c <=? 102)) || ((65 <=? c) && (c <=? 70)).

Definition ObjectId_isValid (s : jsstring) : bool :=
  Nat.eqb (length s) 24 && forallb is_hex s.

Definition ObjectId (s : jsstring) : jsstring :=
  map (fun c => if (65 <=? c) && (c <=? 70) then c + 32 else c) s.

(** The filter [{ _id, "metadata.userId" }] of the ownership lookup. *)
Definition owned_by (id userId : jsstring) (f : FileDoc) : bool :=
  jsstring_eqb (file_id f) id && jsstring_eqb (meta_userId (file_metadata f)) userId.

Definition number (n : nat) : json := JNum (str (NilEmpty.string_of_uint (Nat.to_uint n))).

(** * The cost analysis route ([POST] of [app/api/margin/costs/route.ts]) *)

Module CostsRoute.

Record Env := {
  MONGODB_URI : option jsstring;
  VERTEX_AI_PROJECT : option jsstring;
  VERTEX_AI_LOCATION : option jsstring;
  development : bool                       (* NODE_ENV is development *)
}.

(** The body as the pipeline sends it: [fileId] is text when present. *)
Record Body := {
  body_fileId : option jsstring;
  cost_fields : option json;
  margin_thresholds : option json
}.

Record Request := {
  query_fileId : option jsstring;          (* [searchParams.get("fileId")] *)
  body : option Body                       (* [None]: the body is not JSON *)
}.

(** What the prompt is made of. *)
Record Prompt := {
  prompt_columns : list jsstring;
  prompt_sample : list json;
  prompt_cost_fields : json;
  prompt_margin_thresholds : json
}.

(** A row of the file: its cells as text, by column. *)
Notation DataRow := (list (jsstring * jsstring)) (only parsing).

Record World := {
  env : Env;
  auth_userId : option jsstring;
  connect_failure : option Failure;
  download_fails : bool;
  processFileData : list N -> jsstring -> jsstring -> Failure + (list jsstring * list DataRow);
  vertex_constructs : bool;
  generateContent : Prompt -> Generated;
  analyses_write_fails : bool;
  now : Z
}.

(** The module's [vertexAI] variable, the database, and the prompts sent to
    the model so far. *)
Record Server := {
  db : Database;
  vertexAI : bool;
  model_calls : list Prompt
}.

(** [(process.env.X || dflt).toString().trim()] *)
Definition setting (v : option jsstring) (dflt : string) : jsstring :=
  trim (match v with
        | Some (c :: s) => c :: s
        | _ => str dflt
        end).

(** [s && s.trim()] as a condition and a value: the trimmed text unless it
    is missing or empty. *)
Definition trimmed (v : option jsstring) : option jsstring :=
  match v with
  | Some s => match trim s with [] => None | c :: t => Some (c :: t) end
  | None => None
  end.

(** [(qFileId && qFileId.trim()) || (body?.fileId && String(body.fileId).trim()) || null] *)
Definition fileId_of (req : Request) : option jsstring :=
  match trimmed (query_fileId req) with
  | Some f => Some f
  | None => trimmed (match body req with Some b => body_fileId b | None => None end)
  end.

Definition row_object (row : DataRow) : json :=
  JObj (map (fun kv => (fst kv, JStr (snd kv))) row).

(** [Math.floor(n * 0.k)] for the tenths used below. *)
Definition floor_tenths (n k : nat) : nat := (n * k) / 10.

(** The entry of [worst_performers] made of row [i]. *)
Definition worst_performer (i : nat) (row : DataRow) : json :=
  JObj [(str "product_id",
         js_or (get_prop "product_id" (row_object row))
               (JStr (str "P" ++ str (NilEmpty.string_of_uint (Nat.to_uint (i + 1))))));
        (str "margin_pct", number (15 - i * 3));
        (str "revenue_impact", number (1000 + i * 500));
        (str "cost", number (80 + i * 10));
        (str "net_price", number (95 + i * 5))].

(** The analysis put in place of a reply that is not JSON. *)
Definition placeholder (data : list DataRow) : json :=
  JObj [(str "total_products", number (length data));
        (str "avg_margin_pct", number 25);
        (str "negative_margin_count", number 0);
        (str "below_target_count", number (floor_tenths (length data) 2));
        (str "margin_distribution",
         JObj [(str "negative", number 0);
               (str "0-10%", number (floor_tenths (length data) 1));
               (str "10-30%", number (floor_tenths (length data) 3));
               (str "30%+", number (floor_tenths (length data) 6))]);
        (str "worst_performers", JArr (imap worst_performer (take 5 data)));
        (str "cost_insights",
         JArr [JStr (str "Cost margin analysis completed");
               JStr (str "Review products with margins below target threshold")]);
        (str "sql",
         JStr (str "SELECT product_id, cost, net_price, (net_price - cost) / net_price * 100 as margin_pct FROM pricing_data WHERE (net_price - cost) / net_price * 100 < 10"));
        (str "samples", JArr (map row_object (take 5 data)))].


(** The own enumerable properties [{ ...v }] copies. *)
Definition index_key (i : nat) : jsstring := str (NilEmpty.string_of_uint (Nat.to_uint i)).

Definition spread (v : json) : list (jsstring * json) :=
  match v with
  | JObj props => props
  | JArr items => imap (fun i x => (index_key i, x)) items
  | JStr s => imap (fun i c => (index_key i, JStr [c])) s
  | _ => []
  end.

Definition internal_error (e : Env) (f : Failure) : Outcome :=
  respond 500
    ([("error"%string, JStr (str "Internal server error"));
      ("details"%string, JStr (message f))]
     ++ match development e, stack f with
        | true, Some s => [("stack"%string, JStr s)]
        | _, _ => []
        end).

(** [responseText ?? "No analysis generated"] *)
Definition analysisRaw_of (text : option jsstring) : jsstring :=
  match text with
  | Some t => t
  | None => str "No analysis generated"
  end.

(** [JSON.parse(analysisRaw)], and the placeholder in its [catch]. *)
Definition parsedAnalysis_of (analysisRaw : jsstring) (data : list DataRow) : json :=
  match JSON_parse analysisRaw with
  | Ret v => v
  | Throw _ => placeholder data
  end.

Definition same_analysis (id userId : jsstring) (d : AnalysisDoc) : bool :=
  match an_fileId d with
  | Some f => jsstring_eqb f id && jsstring_eqb (an_userId d) userId
  | None => false
  end.

(** [analyses.updateOne({ fileId, userId }, { $set: ... }, { upsert: true })] *)
Definition persist (id userId analysisRaw : jsstring) (parsedAnalysis : json) (t : Z)
    (d : Database) : Database :=
  {| files := files d;
     sessionMetadata := sessionMetadata d;
     analyses :=
       upsert (same_analysis id userId)
         (fun doc => {| an_fileId := an_fileId doc;
                        an_runId := an_runId doc;
                        an_userId := an_userId doc;
                        an_analysis := Some analysisRaw;
                        an_parsed := Some parsedAnalysis;
                        an_steps_logical := an_steps_logical doc;
                        an_updatedAt := t |})
         {| an_fileId := Some id;
            an_runId := None;
            an_userId := userId;
            an_analysis := Some analysisRaw;
            an_parsed := Some parsedAnalysis;
            an_steps_logical := None;
            an_updatedAt := t |}
         (analyses d);
     margin_analyses := margin_analyses d |}.

Definition success (parsedAnalysis : json) : Outcome :=
  Responded (Build_Response 200
               (JObj ([(str "status", JStr (str "success"));
                       (str "step", JStr (str "cost_analysis"))]
                      ++ spread parsedAnalysis))).

(** The prompt of a request. *)
Definition prompt_of (req : Request) (columns : list jsstring) (data : list DataRow) : Prompt :=
  {| prompt_columns := columns;
     prompt_sample := map row_object (take 50 data);
     prompt_cost_fields :=
       coalesce_default (body req ≫= cost_fields)
         (Orchestrator.strings ["cost"; "cogs"; "unit_cost"]%string);
     prompt_margin_thresholds :=
       coalesce_default (body req ≫= margin_thresholds)
         (JObj [(str "min_margin_pct", number 10); (str "target_margin_pct", number 30)]) |}.


(** The handler from the model call on, for the rows of the file. *)
Definition analyse (w : World) (req : Request) (fileId clerkUserId : jsstring)
    (columns : list jsstring) (data : list DataRow) (s : Server) : Outcome * Server :=
  let prompt := prompt_of req columns data in
  let s1 := {| db := db s; vertexAI := true; model_calls := model_calls s ++ [prompt] |} in
  match generateContent w prompt with
  | GenerateFails f =>
      (respond 500 [("error"%string, JStr (str "Vertex AI error"));
                    ("details"%string, JStr (message f))], s1)
  | Reply text =>
      let analysisRaw := analysisRaw_of text in
      let parsedAnalysis := parsedAnalysis_of analysisRaw data in
      (success parsedAnalysis,
       if analyses_write_fails w then s1
       else {| db := persist (ObjectId fileId) clerkUserId analysisRaw parsedAnalysis (now w) (db s1);
               vertexAI := vertexAI s1;
               model_calls := model_calls s1 |})
  end.

(** The handler inside its [try], for a valid [fileId] and a signed-in user. *)
Definition handle (w : World) (req : Request) (fileId clerkUserId : jsstring) (s : Server)
  : Outcome * Server :=
  match connect_failure w with
  | Some f => (internal_error (env w) f, s)
  | None =>
      match find (owned_by (ObjectId fileId) clerkUserId) (files (db s)) with
      | None => (error_body 404 "File not found or access denied", s)
      | Some file =>
          if download_fails w then (error_body 500 "Failed to download file", s)
          else
            match processFileData w (file_bytes file) (file_name file)
                    (default (str "application/octet-stream") (file_contentType file)) with
            | inl f => (internal_error (env w) f, s)
            | inr (columns, data) =>
                if Nat.eqb (length columns) 0 || Nat.eqb (length data) 0 then
                  (error_body 400 "No valid data found in file", s)
                else if negb (vertexAI s) && negb (vertex_constructs w) then
                  (error_body 500 "Vertex AI initialization failed", s)
                else analyse w req fileId clerkUserId columns data s
            end
      end
  end.

Definition POST (w : World) (req : Request) (s : Server) : Outcome * Server :=
  match MONGODB_URI (env w) with
  | Some (_ :: _) =>
      match setting (VERTEX_AI_PROJECT (env w)) "neural-land-469712-t7",
            setting (VERTEX_AI_LOCATION (env w)) "us-central1" with
      | _ :: _, _ :: _ =>
          match fileId_of req with
          | Some fileId =>
              if ObjectId_isValid fileId then
                match auth_userId w with
                | Some (u :: uid) => handle w req fileId (u :: uid) s
                | _ => (error_body 401 "Unauthorized", s)
                end
              else (error_body 400 "Invalid or missing fileId", s)
          | None => (error_body 400 "Invalid or missing fileId", s)
          end
      | _, _ =>
          (error_body 500 "Vertex AI configuration missing in environment variables", s)
      end
  | _ => (error_body 500 "MONGODB_URI missing in environment variables", s)
  end.


(** The environment passes the checks at the head of the handler. *)
Definition configured (e : Env) : Prop :=
  (exists c uri, MONGODB_URI e = Some (c :: uri))
  /\ setting (VERTEX_AI_PROJECT e) "neural-land-469712-t7" <> []
  /\ setting (VERTEX_AI_LOCATION e) "us-central1" <> [].

(** The request gets as far as the model: the environment is configured,
    the [fileId] is valid, the user is signed in and owns the file, the file
    is read as [columns] and [data], and the model client is there. *)
Definition reaches_model (w : World) (req : Request) (s : Server)
    (fileId clerkUserId : jsstring) (columns : list jsstring) (data : list DataRow) : Prop :=
  configured (env w)
  /\ fileId_of req = Some fileId
  /\ ObjectId_isValid fileId = true
  /\ auth_userId w = Some clerkUserId
  /\ clerkUserId <> []
  /\ connect_failure w = None
  /\ (exists file,
        find (owned_by (ObjectId fileId) clerkUserId) (files (db s)) = Some file
        /\ processFileData w (file_bytes file) (file_name file)
             (default (str "application/octet-stream") (file_contentType file))
           = inr (columns, data))
  /\ download_fails w = false
  /\ columns <> [] /\ data <> []
  /\ (vertexAI s = true \/ vertex_constructs w = true).

End CostsRoute.

(** * The recommendations route (the second [POST] of
    [app/api/margin/costs/route.ts])

    The handler is the cost analysis handler with another prompt, another
    placeholder and another step name; it reads the same environment and
    writes the analyses document of the same file and user. *)

Module RecommendationsRoute.

Record Body := {
  body_fileId : option jsstring;
  recommendation_types : option json
}.

Record Request := {
  query_fileId : option jsstring;
  body : option Body
}.

Record Prompt := {
  prompt_columns : list jsstring;
  prompt_sample : list json;
  prompt_recommendation_types : json
}.

Record World := {
  env : CostsRoute.Env;
  auth_userId : option jsstring;
  connect_failure : option Failure;
  download_fails : bool;
  processFileData :
    list N -> jsstring -> jsstring -> Failure + (list jsstring * list (list (jsstring * jsstring)));
  vertex_constructs : bool;
  generateContent : Prompt -> Generated;
  analyses_write_fails : bool;
  now : Z
}.

Record Server := {
  db : Database;
  vertexAI : bool;
  model_calls : list Prompt
}.

Definition fileId_of (req : Request) : option jsstring :=
  match CostsRoute.trimmed (query_fileId req) with
  | Some f => Some f
  | None => CostsRoute.trimmed (match body req with Some b => body_fileId b | None => None end)
  end.

Definition action (text rationale impact priority category : string) : json :=
  JObj [(str "action", JStr (str text));
        (str "rationale", JStr (str rationale));
        (str "impact", JStr (str impact));
        (str "priority", JStr (str priority));
        (str "category", JStr (str category))].

Definition quick_win (text impact : string) : json :=
  JObj [(str "action", JStr (str text));
        (str "impact", JStr (str impact));
        (str "effort", JStr (str "low"))].

(** The recommendations put in place of a reply that is not JSON. *)
Definition placeholder : json :=
  JObj [(str "recommendations_count", number 5);
        (str "priority_actions",
         JArr [action "Increase prices for low-margin products by 10-15%"
                      "Several products selling below target margin threshold"
                      "Recover $2,500 monthly" "high" "pricing_optimization";
               action "Review cost structure for high-volume products"
                      "Cost optimization can improve margins without price increases"
                      "Save $1,800 monthly" "medium" "cost_reduction"]);
        (str "quick_wins",
         JArr [quick_win "Stop selling below-cost products immediately"
                         "$1,200 immediate savings";
               quick_win "Implement minimum margin thresholds" "$800 monthly protection"]);
        (str "insights",
         Orchestrator.strings ["Focus on Enterprise segment pricing";
                               "Review cost structure for electronics";
                               "Implement dynamic pricing for high-volume products"]%string);
        (str "sql",
         JStr (str "SELECT product_id, net_price, cost, margin_pct FROM pricing_data WHERE margin_pct < 10 ORDER BY revenue_impact DESC"))].

Definition parsedAnalysis_of (analysisRaw : jsstring) : json :=
  match JSON_parse analysisRaw with
  | Ret v => v
  | Throw _ => placeholder
  end.

Definition success (parsedAnalysis : json) : Outcome :=
  Responded (Build_Response 200
               (JObj ([(str "status", JStr (str "success"));
                       (str "step", JStr (str "recommendations"))]
                      ++ CostsRoute.spread parsedAnalysis))).

Definition prompt_of (req : Request) (columns : list jsstring)
    (data : list (list (jsstring * jsstring))) : Prompt :=
  {| prompt_columns := columns;
     prompt_sample := map CostsRoute.row_object (take 50 data);
     prompt_recommendation_types :=
       coalesce_default (body req ≫= recommendation_types)
         (Orchestrator.strings
            ["pricing_optimization"; "cost_reduction"; "segment_targeting"]%string) |}.

Definition analyse (w : World) (req : Request) (fileId clerkUserId : jsstring)
    (columns : list jsstring) (data : list (list (jsstring * jsstring))) (s : Server)
  : Outcome * Server :=
  let prompt := prompt_of req columns data in
  let s1 := {| db := db s; vertexAI := true; model_calls := model_calls s ++ [prompt] |} in
  match generateContent w prompt with
  | GenerateFails f =>
      (respond 500 [("error"%string, JStr (str "Vertex AI error"));
                    ("details"%string, JStr (message f))], s1)
  | Reply text =>
      let analysisRaw := CostsRoute.analysisRaw_of text in
      let parsedAnalysis := parsedAnalysis_of analysisRaw in
      (success parsedAnalysis,
       if analyses_write_fails w then s1
       else {| db := CostsRoute.persist (ObjectId fileId) clerkUserId analysisRaw
                       parsedAnalysis (now w) (db s1);
               vertexAI := vertexAI s1;
               model_calls := model_calls s1 |})
  end.

Definition handle (w : World) (req : Request) (fileId clerkUserId : jsstring) (s : Server)
  : Outcome * Server :=
  match connect_failure w with
  | Some f => (CostsRoute.internal_error (env w) f, s)
  | None =>
      match find (owned_by (ObjectId fileId) clerkUserId) (files (db s)) with
      | None => (error_body 404 "File not found or access denied", s)
      | Some file =>
          if download_fails w then (error_body 500 "Failed to download file", s)
          else
            match processFileData w (file_bytes file) (file_name file)
                    (default (str "application/octet-stream") (file_contentType file)) with
            | inl f => (CostsRoute.internal_error (env w) f, s)
            | inr (columns, data) =>
                if Nat.eqb (length columns) 0 || Nat.eqb (length data) 0 then
                  (error_body 400 "No valid data found in file", s)
                else if negb (vertexAI s) && negb (vertex_constructs w) then
                  (error_body 500 "Vertex AI initialization failed", s)
                else analyse w req fileId clerkUserId columns data s
            end
      end
  end.

Definition POST (w : World) (req : Request) (s : Server) : Outcome * Server :=
  match CostsRoute.MONGODB_URI (env w) with
  | Some (_ :: _) =>
      match CostsRoute.setting (CostsRoute.VERTEX_AI_PROJECT (env w)) "neural-land-469712-t7",
            CostsRoute.setting (CostsRoute.VERTEX_AI_LOCATION (env w)) "us-central1" with
      | _ :: _, _ :: _ =>
          match fileId_of req with
          | Some fileId =>
              if ObjectId_isValid fileId then
                match auth_userId w with
                | Some (u :: uid) => handle w req fileId (u :: uid) s
                | _ => (error_body 401 "Unauthorized", s)
                end
              else (error_body 400 "Invalid or missing fileId", s)
          | None => (error_body 400 "Invalid or missing fileId", s)
          end
      | _, _ =>
          (error_body 500 "Vertex AI configuration missing in environment variables", s)
      end
  | _ => (error_body 500 "MONGODB_URI missing in environment variables", s)
  end.

Definition reaches_model (w : World) (req : Request) (s : Server)
    (fileId clerkUserId : jsstring) (columns : list jsstring)
    (data : list (list (jsstring * jsstring))) : Prop :=
  CostsRoute.configured (env w)
  /\ fileId_of req = Some fileId
  /\ ObjectId_isValid fileId = true
  /\ auth_userId w = Some clerkUserId
  /\ clerkUserId <> []
  /\ connect_failure w = None
  /\ (exists file,
        find (owned_by (ObjectId fileId) clerkUserId) (files (db s)) = Some file
        /\ processFileData w (file_bytes file) (file_name file)
             (default (str "application/octet-stream") (file_contentType file))
           = inr (columns, data))
  /\ download_fails w = false
  /\ columns <> [] /\ data <> []
  /\ (vertexAI s = true \/ vertex_constructs w = true).

End RecommendationsRoute.


(** * The logical checks route ([POST /api/run/logical]) *)

Module LogicalRoute.

(** The body as the client sends it: [fileId] and [runId] are text when
    present. *)
Record Body := {
  body_fileId : option jsstring;
  rules : option json;
  runId : option jsstring
}.

Record Request := {
  auth_userId : option jsstring;           (* [getAuth(request).userId] *)
  body : option Body                       (* [None]: the body is not JSON *)
}.

Record Prompt := {
  prompt_columns : list jsstring;
  prompt_sample : list json;
  prompt_rules : json
}.

(** A call of the model: the prompt, with or without the reminder. *)
Record Call := { call_prompt : Prompt; reminder : bool }.

Record World := {
  connect_fails : bool;
  download_fails : bool;
  processFileBuffer : list N -> jsstring -> option jsstring -> Failure + (list jsstring * list json);
  vertex_constructs : bool;
  generateContent : nat -> Call -> Generated;   (* by the number of calls made before *)
  analyses_write_fails : bool;
  now : Z
}.

Record Server := {
  db : Database;
  vertexAI : bool;
  model_calls : list Call
}.

Definition with_call (s : Server) (c : Call) : Server :=
  {| db := db s; vertexAI := vertexAI s; model_calls := model_calls s ++ [c] |}.

Definition failed (st : nat) (message : string) (more : list (string * json)) : Outcome :=
  respond st ([("status"%string, JStr (str "error")); ("error"%string, JStr (str message))] ++ more).

Definition default_rules : json :=
  Orchestrator.strings ["net_price<=0"; "discount_pct>100";
                        "fk:product_id->products.product_id"]%string.

(** [String(e?.message ?? e)] of what [extractFirstJsonObj] could throw. *)
Definition thrown_text (e : JsError) : jsstring :=
  match e with
  | Error m => str m
  | SyntaxError => str "SyntaxError"
  | TypeError => str "TypeError"
  | ReferenceError => str "ReferenceError"
  | URIError => str "URIError"
  | AbortError => str "AbortError"
  end.

(** [lastRaw || text] *)
Definition or_text (lastRaw text : jsstring) : jsstring :=
  match lastRaw with
  | [] => text
  | _ :: _ => lastRaw
  end.

(** One [generateContent] and the reading of its text. *)
Inductive Asked :=
| GenerateFailed (text : jsstring)              (* the call threw *)
| ReadFailed (raw text : jsstring)              (* [extractFirstJsonObj] threw *)
| Read (raw : jsstring) (parsed : json).

Definition ask (w : World) (c : Call) (s : Server) : Asked * Server :=
  let s' := with_call s c in
  match generateContent w (length (model_calls s)) c with
  | GenerateFails f => (GenerateFailed (message f), s')
  | Reply text =>
      let raw := trim (default [] text) in
      match JsonRepair.extractFirstJsonObj raw with
      | Ret parsed => (Read raw parsed, s')
      | Throw e => (ReadFailed raw (thrown_text e), s')
      end
  end.

(** [callGeminiWithRetry]: [remaining] attempts are left. *)
Fixpoint callGeminiWithRetry (w : World) (prompt : Prompt) (remaining : nat)
    (lastRaw : jsstring) (s : Server) : (jsstring * json) * Server :=
  match remaining with
  | O => ((lastRaw, JNull), s)
  | S k =>
      match ask w {| call_prompt := prompt; reminder := false |} s with
      | (GenerateFailed text, s1) => callGeminiWithRetry w prompt k (or_text lastRaw text) s1
      | (ReadFailed raw text, s1) => callGeminiWithRetry w prompt k (or_text raw text) s1
      | (Read raw parsed, s1) =>
          if truthy parsed then ((raw, parsed), s1)
          else
            match k with
            | O => callGeminiWithRetry w prompt k raw s1
            | S _ =>
                match ask w {| call_prompt := prompt; reminder := true |} s1 with
                | (GenerateFailed text, s2) =>
                    callGeminiWithRetry w prompt k (or_text raw text) s2
                | (ReadFailed raw2 text, s2) =>
                    callGeminiWithRetry w prompt k (or_text raw2 text) s2
                | (Read raw2 parsed2, s2) =>
                    if truthy parsed2 then ((raw2, parsed2), s2)
                    else callGeminiWithRetry w prompt k raw2 s2
                end
            end
      end
  end.

(** [key in parsed] for an object or an array and a key that is no index. *)
Definition has_key (key : string) (v : json) : bool :=
  match v with
  | JObj props => existsb (fun kv => jsstring_eqb (fst kv) (str key)) props
  | _ => false
  end.

Definition is_object (v : json) : bool :=
  match v with
  | JObj _ | JArr _ => true
  | _ => false
  end.

Definition same_run (runId userId : jsstring) (d : AnalysisDoc) : bool :=
  match an_runId d with
  | Some r => jsstring_eqb r runId && jsstring_eqb (an_userId d) userId
  | None => false
  end.

(** The [steps.logical] written for a parsed reply. *)
Definition logical_step (parsed : json) (t : Z) : LogicalStep :=
  {| ls_status := js_or (get_prop "status" parsed) (JStr (str "success"));
     ls_insights := js_or (get_prop "insights" parsed) (JArr []);
     ls_sql := js_or (get_prop "sql" parsed) (JStr []);
     ls_samples := js_or (get_prop "samples" parsed) (JArr []);
     ls_updatedAt := t |}.

Definition persist (runId userId : jsstring) (parsed : json) (t : Z) (d : Database) : Database :=
  {| files := files d;
     sessionMetadata := sessionMetadata d;
     analyses :=
       upsert (same_run runId userId)
         (fun doc => {| an_fileId := an_fileId doc;
                        an_runId := an_runId doc;
                        an_userId := an_userId doc;
                        an_analysis := an_analysis doc;
                        an_parsed := an_parsed doc;
                        an_steps_logical := Some (logical_step parsed t);
                        an_updatedAt := t |})
         {| an_fileId := None;
            an_runId := Some runId;
            an_userId := userId;
            an_analysis := None;
            an_parsed := None;
            an_steps_logical := Some (logical_step parsed t);
            an_updatedAt := t |}
         (analyses d);
     margin_analyses := margin_analyses d |}.

Definition internal_error : Outcome := failed 500 "Failed to run logical checks" [].

(** The handler from the prompt on. *)
Definition check (w : World) (b : option Body) (userId : jsstring)
    (columns : list jsstring) (data : list json) (s : Server) : Outcome * Server :=
  let prompt :=
    {| prompt_columns := columns;
       prompt_sample := take 2000 data;
       prompt_rules := match b ≫= rules with Some r => r | None => default_rules end |} in
  let '((raw, parsed), s1) := callGeminiWithRetry w prompt 3 [] s in
  match raw with
  | [] => (failed 500 "No response from model" [], s1)
  | _ :: _ =>
      if negb (truthy parsed) || negb (is_object parsed) then
        (failed 502 "Failed to parse JSON from model response" [("raw"%string, JStr raw)], s1)
      else if negb (has_key "insights" parsed) || negb (has_key "samples" parsed)
              || negb (has_key "sql" parsed) then
        (failed 502 "Model returned invalid JSON shape" [("parsed"%string, parsed)], s1)
      else
        (respond 200
           [("status"%string, js_or (get_prop "status" parsed) (JStr (str "success")));
            ("insights"%string, js_or (get_prop "insights" parsed) (JArr []));
            ("sql"%string, js_or (get_prop "sql" parsed) (JStr []));
            ("samples"%string, js_or (get_prop "samples" parsed) (JArr []))],
         match b ≫= runId with
         | Some (c :: r) =>
             if analyses_write_fails w then s1
             else {| db := persist (c :: r) userId parsed (now w) (db s1);
                     vertexAI := vertexAI s1;
                     model_calls := model_calls s1 |}
         | _ => s1
         end)
  end.

Definition POST (w : World) (req : Request) (s : Server) : Outcome * Server :=
  match auth_userId req with
  | Some (u :: uid) =>
      let userId := u :: uid in
      match body req ≫= body_fileId with
      | Some (c :: f) =>
          let fileId := c :: f in
          if connect_fails w then (internal_error, s)
          else if negb (ObjectId_isValid fileId) then (internal_error, s)
          else
            match find (owned_by (ObjectId fileId) userId) (files (db s)) with
            | None => (failed 404 "File not found" [], s)
            | Some fileDoc =>
                if download_fails w then (internal_error, s)
                else
                  match processFileBuffer w (file_bytes fileDoc)
                          (or_text (file_name fileDoc) (str "file"))
                          (file_contentType fileDoc) with
                  | inl _ => (internal_error, s)
                  | inr (columns, data) =>
                      if negb (vertexAI s) && negb (vertex_constructs w) then (internal_error, s)
                      else
                        check w (body req) userId columns data
                          {| db := db s; vertexAI := true; model_calls := model_calls s |}
                  end
            end
      | _ => (failed 400 "fileId required" [], s)
      end
  | _ => (failed 401 "Unauthorized" [], s)
  end.


(** The request gets as far as the model: the user is signed in and owns
    the file the valid [fileId] names, the database is reached, the file is
    read as [columns] and [data], and the model client is there. *)
Definition reaches_model (w : World) (req : Request) (s : Server)
    (userId fileId : jsstring) (columns : list jsstring) (data : list json) : Prop :=
  auth_userId req = Some userId /\ userId <> []
  /\ body req ≫= body_fileId = Some fileId
  /\ ObjectId_isValid fileId = true
  /\ connect_fails w = false
  /\ (exists fileDoc,
        find (owned_by (ObjectId fileId) userId) (files (db s)) = Some fileDoc
        /\ processFileBuffer w (file_bytes fileDoc)
             (or_text (file_name fileDoc) (str "file")) (file_contentType fileDoc)
           = inr (columns, data))
  /\ download_fails w = false
  /\ (vertexAI s = true \/ vertex_constructs w = true).


End LogicalRoute.


(** * The report store: creating a run and reading a saved report *)

(** [POST] of [app/api/margin-report/route.ts]. *)

Module MarginReportCreate.

Record Request := {
  auth_userId : option jsstring;
  body : option json                       (* [None]: the body is not JSON *)
}.

Record World := {
  connects : bool;
  now : N;                                 (* [Date.now()] *)
  random_suffix : jsstring                 (* [Math.random().toString(36).slice(2, 9)] *)
}.

Definition decimal (n : N) : jsstring := str (NilEmpty.string_of_uint (N.to_uint n)).

(** [`margin_${Date.now()}_${...}`] *)
Definition runId_of (w : World) : jsstring :=
  str "margin_" ++ decimal (now w) ++ str "_" ++ random_suffix w.

(** [body?.fileId] *)
Definition fileId_of (b : json) : option json :=
  match b with
  | JNull => None
  | _ => get_prop "fileId" b
  end.

(** The document [insertOne] stores; its [steps] field, three constant
    entries that no handler reads, has no counterpart in [MarginDoc]. *)
Definition run_record (w : World) (fileId : json) (clerkUserId : jsstring) : MarginDoc :=
  {| ma_runId := runId_of w;
     ma_userId := clerkUserId;
     ma_fileId := Some fileId;
     ma_createdAt := Some (Z.of_N (now w));
     ma_analysis := None;
     ma_status := str "created";
     ma_completedAt := None;
     ma_updatedAt := Z.of_N (now w) |}.

(** The answer 500 is [MarginReportSave.internal_error]: the [details] text
    of the caught error is left out of its body. *)
Definition POST (w : World) (req : Request) (d : Database) : Outcome * Database :=
  match auth_userId req with
  | Some (u :: uid) =>
      let clerkUserId := u :: uid in
      match body req with
      | None => (MarginReportSave.internal_error, d)
      | Some b =>
          match fileId_of b with
          | Some fileId =>
              if negb (truthy fileId) then (error_body 400 "fileId is required", d)
              else if negb (connects w) then (MarginReportSave.internal_error, d)
              else
                (respond 200 [("runId"%string, JStr (runId_of w))],
                 {| files := files d;
                    sessionMetadata := sessionMetadata d;
                    analyses := analyses d;
                    margin_analyses := margin_analyses d ++ [run_record w fileId clerkUserId] |})
          | None => (error_body 400 "fileId is required", d)
          end
      end
  | _ => (error_body 401 "Authentication required", d)
  end.

End MarginReportCreate.

(** [GET] of [app/api/margin-report/[runId]]. *)

Module MarginReportGet.

Record Request := {
  auth_userId : option jsstring;
  params_runId : option jsstring
}.

Record World := {
  connects : bool;
  number_text : jsstring -> jsstring;      (* [String(n)] of a number, by its digits *)
  toISOString : Z -> jsstring              (* a date as JSON carries it *)
}.

(** [String(v)]: a TypeError for an object with a [toString] property of
    its own, which is not a function, and for an array that holds one. *)
Fixpoint to_String (number_text : jsstring -> jsstring) (v : json) : Exn jsstring :=
  match v with
  | JNull => Ret (str "null")
  | JBool true => Ret (str "true")
  | JBool false => Ret (str "false")
  | JNum lex => Ret (number_text lex)
  | JStr s => Ret s
  | JArr items =>
      let! texts :=
        Orchestrator.map_exn
          (fun x => match x with JNull => Ret [] | _ => to_String number_text x end) items in
      Ret (join_comma texts)
  | JObj props =>
      match assoc_last (str "toString") props with
      | Some _ => Throw TypeError
      | None => Ret (str "[object Object]")
      end
  end.

(** [v?.a?.b] *)
Definition chain2 (v : option json) (a b : string) : option json :=
  match v with
  | None | Some JNull => None
  | Some x =>
      match get_prop a x with
      | None | Some JNull => None
      | Some y => get_prop b y
      end
  end.

(** [a || b] where both may be [undefined]. *)
Definition or_else (a b : option json) : option json :=
  match a with
  | Some v => if truthy v then Some v else b
  | None => b
  end.

(** The analysis of a record: [record.analysis ?? ... ?? null], read as
    JSON when it is text that parses.  The documents of the collection have
    no [parsed], [parsedAnalysis], [analysisRaw] or [meta] field. *)
Definition analysis_of (record : MarginDoc) : json :=
  match coalesce_default (ma_analysis record) JNull with
  | JStr s => match JSON_parse s with Ret v => v | Throw _ => JStr s end
  | v => v
  end.

(** [record.fileId || record.analysis?.meta?.fileId || ... || null]; [None]
    is [null]. *)
Definition fileIdCandidate (record : MarginDoc) : option json :=
  or_else (ma_fileId record)
    (or_else (chain2 (ma_analysis record) "meta" "fileId")
       (or_else (chain2 (Some (analysis_of record)) "meta" "fileId") None)).

(** The name of the file the candidate names, by id or by name; [null] when
    there is none, or when the lookup throws. *)
Definition fileName_of (w : World) (candidate : option json) (d : Database) : json :=
  match candidate with
  | None => JNull
  | Some c =>
      match to_String (number_text w) c with
      | Throw _ => JNull
      | Ret text =>
          let fileDoc :=
            if ObjectId_isValid text
            then find (fun f => jsstring_eqb (file_id f) (ObjectId text)) (files d)
            else find (fun f => jsstring_eqb (file_name f) text) (files d) in
          match fileDoc with
          | Some f => match file_name f with [] => JNull | c :: n => JStr (c :: n) end
          | None => JNull
          end
      end
  end.

(** The answer 500 is [MarginReportSave.internal_error]: the [details] text
    of the caught error is left out of its body. *)
Definition GET (w : World) (req : Request) (d : Database) : Outcome :=
  match params_runId req with
  | Some (c :: r) =>
      let runId := c :: r in
      match auth_userId req with
      | Some (u :: uid) =>
          let clerkUserId := u :: uid in
          if negb (connects w) then MarginReportSave.internal_error
          else
            match find (MarginReportSave.same_run runId clerkUserId) (margin_analyses d) with
            | None => error_body 404 "Not found"
            | Some record =>
                respond 200
                  [("runId"%string, JStr runId);
                   ("analysis"%string, analysis_of record);
                   ("fileName"%string, fileName_of w (fileIdCandidate record) d);
                   ("meta"%string,
                    match ma_analysis record with
                    | None | Some JNull => JNull
                    | Some a => coalesce_default (get_prop "meta" a) JNull
                    end);
                   ("status"%string, JStr (ma_status record));
                   ("savedAt"%string, JStr (toISOString w (ma_updatedAt record)))]
            end
      | _ => error_body 401 "Authentication required"
      end
  | _ => error_body 400 "runId param required"
  end.

End MarginReportGet.


(** * Reading the rows of an uploaded file

    [processFileData] of the analysis routes, for a CSV file: what it makes
    of the records the CSV parser returns.  The parser is called without a
    cast, so every cell is text and the first header cell is never a number:
    there is no index column to drop. *)

Module FileProcessing.

(** The characters [/[^a-zA-Z0-9\s_-]/g] leaves in a column name. *)
Definition keeps (c : N) : bool :=
  ((65 <=? c) && (c <=? 90)) || ((97 <=? c) && (c <=? 122)) || ((48 <=? c) && (c <=? 57))
  || is_space c || (c =? 95) || (c =? 45).

(** [(col?.toString()?.trim() || "Unnamed").replace(..., "")] *)
Definition column_name (col : jsstring) : jsstring :=
  List.filter keeps (match trim col with
                     | [] => str "Unnamed"
                     | c :: t => c :: t
                     end).

(** [processRow(row, columns)]: under each column, in order, the trimmed
    cell at its position, or the empty text when the row has none.  The
    assignment [obj["__proto__"] = text] sets no property. *)
Definition processRow (row : list jsstring) (columns : list jsstring)
  : list (jsstring * jsstring) :=
  List.filter (fun kv => negb (jsstring_eqb (fst kv) (str "__proto__")))
    (imap (fun i col => (col, match row !! i with
                              | Some cell => trim cell
                              | None => []
                              end)) columns).

(** [{ columns, data }] for the records of the file. *)
Definition rows_of (records : list (list jsstring))
  : list jsstring * list (list (jsstring * jsstring)) :=
  let rawHeader := match records with h :: _ => h | [] => [] end in
  let columns := map column_name rawHeader in
  (columns, map (fun row => processRow row columns) (skipn 1 records)).

(** [row[col]] on a row object: the last assignment to the name wins. *)
Fixpoint cell_of (col : jsstring) (row : list (jsstring * jsstring)) : option jsstring :=
  match row with
  | [] => None
  | (k, v) :: r =>
      match cell_of col r with
      | Some s => Some s
      | None => if jsstring_eqb k col then Some v else None
      end
  end.

End FileProcessing.


(** * The leakage route ([POST] of [app/api/margin/leakage])

    The handler is the cost analysis handler up to the prompt; it then reads
    the reply out of a code fence, checks its shape, and answers 500 when
    there is no valid leakage analysis in it. *)

Module LeakageRoute.

Record Body := {
  body_fileId : option jsstring;
  leakage_rules : option json;
  priority_threshold : option json
}.

Record Request := {
  query_fileId : option jsstring;
  body : option Body
}.

Record Prompt := {
  prompt_columns : list jsstring;
  prompt_sample : list json;
  prompt_leakage_rules : json
}.

Record World := {
  env : CostsRoute.Env;
  auth_userId : option jsstring;
  connect_failure : option Failure;
  download_fails : bool;
  processFileData :
    list N -> jsstring -> jsstring -> Failure + (list jsstring * list (list (jsstring * jsstring)));
  vertex_constructs : bool;
  generateContent : Prompt -> Generated;
  analyses_write_fails : bool;
  now : Z
}.

Record Server := {
  db : Database;
  vertexAI : bool;
  model_calls : list Prompt
}.

Definition fileId_of (req : Request) : option jsstring :=
  match CostsRoute.trimmed (query_fileId req) with
  | Some f => Some f
  | None => CostsRoute.trimmed (match body req with Some b => body_fileId b | None => None end)
  end.

(** [s.indexOf(sub)]; [None] is -1. *)
Fixpoint index_of (sub s : jsstring) : option nat :=
  if startsWith s sub then Some O
  else match s with
       | [] => None
       | _ :: r => option_map S (index_of sub r)
       end.

Definition fence : jsstring := [96; 96; 96].

(** The lazy group followed by whitespace and a fence: the length of the
    shortest text after which only whitespace precedes a fence. *)
Fixpoint until_fence (s : jsstring) : option nat :=
  if startsWith (drop_spaces s) fence then Some O
  else match s with
       | [] => None
       | _ :: r => option_map S (until_fence r)
       end.

(** [text.match(opening \s* (lazy group) \s* fence)]: group 1 of the first
    match. *)
Definition fenced (opening text : jsstring) : option jsstring :=
  match index_of opening text with
  | Some i =>
      let inside := drop_spaces (skipn (i + length opening) text) in
      option_map (fun n => firstn n inside) (until_fence inside)
  | None => None
  end.

(** The text handed to [JSON.parse]. *)
Definition jsonText_of (analysisRaw : jsstring) : jsstring :=
  let jsonText := trim analysisRaw in
  match index_of (fence ++ str "json") jsonText with
  | Some _ =>
      match fenced (fence ++ str "json") jsonText with
      | Some inner => trim inner
      | None => jsonText
      end
  | None =>
      match index_of fence jsonText with
      | Some _ =>
          match fenced fence jsonText with
          | Some inner => trim inner
          | None => jsonText
          end
      | None => jsonText
      end
  end.

(** [parsedAnalysis.leakage_instances] is truthy and [top_leaks] is an
    array; reading a property of [null] throws. *)
Definition valid_leakage (v : json) : bool :=
  match v with
  | JNull => false
  | _ =>
      truthy (coalesce_default (get_prop "leakage_instances" v) JNull)
      && match get_prop "top_leaks" v with
         | Some (JArr _) => true
         | _ => false
         end
  end.

(** The analysis the handler accepts; [None] is the [catch] of its parsing
    block. *)
Definition accepted (analysisRaw : jsstring) : option json :=
  match JSON_parse (jsonText_of analysisRaw) with
  | Ret v => if valid_leakage v then Some v else None
  | Throw _ => None
  end.

Definition invalid_reply (e : CostsRoute.Env) (analysisRaw : jsstring) : Outcome :=
  respond 500
    ([("error"%string, JStr (str "AI analysis failed to return valid leakage data"));
      ("details"%string,
       JStr (str "The AI model did not return properly structured margin leakage analysis. Please try again."))]
     ++ if CostsRoute.development e then [("raw_response"%string, JStr analysisRaw)] else []).

Definition success (parsedAnalysis : json) : Outcome :=
  Responded (Build_Response 200
               (JObj ([(str "status", JStr (str "success"));
                       (str "step", JStr (str "leakage_analysis"))]
                      ++ CostsRoute.spread parsedAnalysis))).

(** The rules the handler takes when the body has none. *)
Definition default_rules : json :=
  Orchestrator.strings ["net_price < cost"; "margin_pct < 5"; "discount_pct > 50"]%string.

(** [body?.leakage_rules ?? [...]]: the rules go into the prompt as the
    JSON text of the value the request carries. *)
Definition prompt_of (req : Request) (columns : list jsstring)
    (data : list (list (jsstring * jsstring))) : Prompt :=
  {| prompt_columns := columns;
     prompt_sample := map CostsRoute.row_object (take 200 data);
     prompt_leakage_rules :=
       coalesce_default (body req ≫= leakage_rules) default_rules |}.

Definition analyse (w : World) (req : Request) (fileId clerkUserId : jsstring)
    (columns : list jsstring) (data : list (list (jsstring * jsstring))) (s : Server)
  : Outcome * Server :=
  let prompt := prompt_of req columns data in
  let s1 := {| db := db s; vertexAI := true; model_calls := model_calls s ++ [prompt] |} in
  match generateContent w prompt with
  | GenerateFails f =>
      (respond 500 [("error"%string, JStr (str "Vertex AI error"));
                    ("details"%string, JStr (message f))], s1)
  | Reply text =>
      let analysisRaw := default [] text in
      match accepted analysisRaw with
      | None => (invalid_reply (env w) analysisRaw, s1)
      | Some parsedAnalysis =>
          (success parsedAnalysis,
           if analyses_write_fails w then s1
           else {| db := CostsRoute.persist (ObjectId fileId) clerkUserId analysisRaw
                           parsedAnalysis (now w) (db s1);
                   vertexAI := vertexAI s1;
                   model_calls := model_calls s1 |})
      end
  end.

Definition handle (w : World) (req : Request) (fileId clerkUserId : jsstring) (s : Server)
  : Outcome * Server :=
  match connect_failure w with
  | Some f => (CostsRoute.internal_error (env w) f, s)
  | None =>
      match find (owned_by (ObjectId fileId) clerkUserId) (files (db s)) with
      | None => (error_body 404 "File not found or access denied", s)
      | Some file =>
          if download_fails w then (error_body 500 "Failed to download file", s)
          else
            match processFileData w (file_bytes file) (file_name file)
                    (default (str "application/octet-stream") (file_contentType file)) with
            | inl f => (CostsRoute.internal_error (env w) f, s)
            | inr (columns, data) =>
                if Nat.eqb (length columns) 0 || Nat.eqb (length data) 0 then
                  (error_body 400 "No valid data found in file", s)
                else if negb (vertexAI s) && negb (vertex_constructs w) then
                  (error_body 500 "Vertex AI initialization failed", s)
                else analyse w req fileId clerkUserId columns data s
            end
      end
  end.

Definition POST (w : World) (req : Request) (s : Server) : Outcome * Server :=
  match CostsRoute.MONGODB_URI (env w) with
  | Some (_ :: _) =>
      match CostsRoute.setting (CostsRoute.VERTEX_AI_PROJECT (env w)) "neural-land-469712-t7",
            CostsRoute.setting (CostsRoute.VERTEX_AI_LOCATION (env w)) "us-central1" with
      | _ :: _, _ :: _ =>
          match fileId_of req with
          | Some fileId =>
              if ObjectId_isValid fileId then
                match auth_userId w with
                | Some (u :: uid) => handle w req fileId (u :: uid) s
                | _ => (error_body 401 "Unauthorized", s)
                end
              else (error_body 400 "Invalid or missing fileId", s)
          | None => (error_body 400 "Invalid or missing fileId", s)
          end
      | _, _ =>
          (error_body 500 "Vertex AI configuration missing in environment variables", s)
      end
  | _ => (error_body 500 "MONGODB_URI missing in environment variables", s)
  end.

Definition reaches_model (w : World) (req : Request) (s : Server)
    (fileId clerkUserId : jsstring) (columns : list jsstring)
    (data : list (list (jsstring * jsstring))) : Prop :=
  CostsRoute.configured (env w)
  /\ fileId_of req = Some fileId
  /\ ObjectId_isValid fileId = true
  /\ auth_userId w = Some clerkUserId
  /\ clerkUserId <> []
  /\ connect_failure w = None
  /\ (exists file,
        find (owned_by (ObjectId fileId) clerkUserId) (files (db s)) = Some file
        /\ processFileData w (file_bytes file) (file_name file)
             (default (str "application/octet-stream") (file_contentType file))
           = inr (columns, data))
  /\ download_fails w = false
  /\ columns <> [] /\ data <> []
  /\ (vertexAI s = true \/ vertex_constructs w = true).

End LeakageRoute.

(** * The pricing route ([POST] of [app/api/margin/pricing])

    The handler connects to the database and authenticates first, then
    reads the file identifier from the query or from the body, or a file
    name from the body. It reads fields of the body without the [?.] of the
    other routes, so a body that is the JSON text [null] throws. The result
    goes to a collection of its own, [pricingAnalyses]. *)

Module PricingRoute.

(** The fields of the body the handler reads, as text when present
    ([analyze_fields] and [price_thresholds] are read and not used). A body
    that is JSON but no object (a number, a string, an array) has none of
    them and is the body with no field. *)
Record Body := {
  body_fileId : option jsstring;
  body_id : option jsstring;
  body_filename : option jsstring;
  body_fileName : option jsstring;
  customPrompt : option jsstring
}.

(** [await request.json().catch(() => ({}))] *)
Inductive RequestBody :=
| NotJson                               (* the promise rejects: [{}] *)
| NullBody                              (* the body is the text [null] *)
| Fields (b : Body).

Record Request := {
  query_fileId : option jsstring;       (* [searchParams.get("fileId")] *)
  body : RequestBody
}.

(** The prompt: the custom text of the body, or the analysis prompt made of
    the columns, the first 200 rows and the number of rows. *)
Inductive Prompt :=
| CustomPrompt (text : jsstring)
| AnalysisPrompt (columns : list jsstring) (sample : list json) (total : nat).

Record World := {
  env : CostsRoute.Env;
  auth_userId : option jsstring;
  connect_failure : option Failure;
  null_read : string -> Failure;        (* the TypeError of reading a property of [null] *)
  error_stack : option jsstring;        (* the stack of an [Error] the handler makes *)
  download_failure : option Failure;
  processFileData :
    list N -> jsstring -> jsstring -> Failure + (list jsstring * list (list (jsstring * jsstring)));
  vertex_constructs : bool;
  generateContent : Prompt -> Generated;
  analyses_write_fails : bool;
  now : Z
}.

(** A document of [pricingAnalyses]. *)
Record PricingDoc := {
  pa_fileId : jsstring;
  pa_userId : jsstring;
  pa_analysis : json;
  pa_updatedAt : Z;
  pa_model : jsstring
}.

Record Server := {
  db : Database;
  pricingAnalyses : list PricingDoc;
  vertexAI : bool;
  model_calls : list Prompt
}.

(** A text that is truthy: present and not empty. *)
Definition truthy_text (v : option jsstring) : option jsstring :=
  match v with
  | Some (c :: s) => Some (c :: s)
  | _ => None
  end.

(** [body.field] *)
Definition read (w : World) (b : RequestBody) (field : string)
    (get : Body -> option jsstring) : Failure + option jsstring :=
  match b with
  | NotJson => inr None
  | NullBody => inl (null_read w field)
  | Fields f => inr (get f)
  end.

(** [queryFileId || body.fileId || body.id || null] *)
Definition incomingFileId (w : World) (req : Request) : Failure + option jsstring :=
  match truthy_text (query_fileId req) with
  | Some q => inr (Some q)
  | None =>
      match read w (body req) "fileId" body_fileId with
      | inl f => inl f
      | inr v =>
          match truthy_text v with
          | Some i => inr (Some i)
          | None =>
              match read w (body req) "id" body_id with
              | inl f => inl f
              | inr v' => inr (truthy_text v')
              end
          end
      end
  end.

(** [body.filename || body.fileName || null] *)
Definition filenameFallback (w : World) (req : Request) : Failure + option jsstring :=
  match read w (body req) "filename" body_filename with
  | inl f => inl f
  | inr v =>
      match truthy_text v with
      | Some n => inr (Some n)
      | None =>
          match read w (body req) "fileName" body_fileName with
          | inl f => inl f
          | inr v' => inr (truthy_text v')
          end
      end
  end.

(** The filter of the lookup: by identifier and user, or by name and user. *)
Inductive FileQuery :=
| ById (id : jsstring)
| ByName (name : jsstring).

Definition fileQuery_of (incoming filename : option jsstring) : option FileQuery :=
  match incoming with
  | Some i =>
      if ObjectId_isValid i then Some (ById (ObjectId i))
      else Some (ByName (default i filename))
  | None => option_map ByName filename
  end.

Definition named (name userId : jsstring) (f : FileDoc) : bool :=
  jsstring_eqb (file_name f) name && jsstring_eqb (meta_userId (file_metadata f)) userId.

Definition findOne (q : FileQuery) (userId : jsstring) (d : Database) : option FileDoc :=
  match q with
  | ById id => find (owned_by id userId) (files d)
  | ByName name => find (named name userId) (files d)
  end.

(** [(customPrompt && customPrompt.toString().trim()) || (the analysis prompt)] *)
Definition prompt_of (b : RequestBody) (columns : list jsstring)
    (data : list (list (jsstring * jsstring))) : Prompt :=
  match b with
  | Fields f =>
      match CostsRoute.trimmed (customPrompt f) with
      | Some text => CustomPrompt text
      | None => AnalysisPrompt columns (map CostsRoute.row_object (take 200 data)) (length data)
      end
  | _ => AnalysisPrompt columns (map CostsRoute.row_object (take 200 data)) (length data)
  end.

(** [response?.candidates?.[0]?.content?.parts?.[0]?.text?.trim() || "No analysis generated"] *)
Definition rawText_of (text : option jsstring) : jsstring :=
  match CostsRoute.trimmed text with
  | Some t => t
  | None => str "No analysis generated"
  end.

(** The analysis the handler accepts: the reply read out of its code fence
    parses and its [total_products] is truthy; [None] is the [catch] of the
    parsing block (reading a property of [null] throws too). *)
Definition accepted (rawText : jsstring) : option json :=
  match JSON_parse (LeakageRoute.jsonText_of rawText) with
  | Ret JNull => None
  | Ret v =>
      if truthy (coalesce_default (get_prop "total_products" v) JNull) then Some v else None
  | Throw _ => None
  end.

Definition invalid_reply (e : CostsRoute.Env) (rawText : jsstring) : Outcome :=
  respond 500
    ([("error"%string, JStr (str "AI pricing analysis failed"));
      ("details"%string,
       JStr (str "The AI model did not return valid pricing analysis. Please try again."))]
     ++ if CostsRoute.development e then [("raw_response"%string, JStr rawText)] else []).

(** [filename.includes(".") ? filename.split(".")[0] : "Unnamed Sheet"] *)
Definition sheetName_of (filename : jsstring) : jsstring :=
  if existsb (N.eqb 46) filename then
    match split_on 46 filename with
    | l :: _ => l
    | [] => []
    end
  else str "Unnamed Sheet".

Definition success (filename : jsstring) (columns : list jsstring)
    (data : list (list (jsstring * jsstring))) (analysisObj : json) : Outcome :=
  respond 200
    [("status"%string, JStr (str "success"));
     ("sheetName"%string, JStr (sheetName_of filename));
     ("columns"%string, JArr (map JStr columns));
     ("data"%string, JArr (map CostsRoute.row_object (take 100 data)));
     ("analysis"%string, analysisObj)].

Definition same_pricing (id userId : jsstring) (d : PricingDoc) : bool :=
  jsstring_eqb (pa_fileId d) id && jsstring_eqb (pa_userId d) userId.

(** [pricingAnalyses.updateOne({ fileId, userId }, { $set: ... }, { upsert: true })] *)
Definition persist (id userId : jsstring) (analysisObj : json) (t : Z)
    (l : list PricingDoc) : list PricingDoc :=
  upsert (same_pricing id userId)
    (fun doc => {| pa_fileId := pa_fileId doc;
                   pa_userId := pa_userId doc;
                   pa_analysis := analysisObj;
                   pa_updatedAt := t;
                   pa_model := str "gemini-2.0-flash-exp" |})
    {| pa_fileId := id;
       pa_userId := userId;
       pa_analysis := analysisObj;
       pa_updatedAt := t;
       pa_model := str "gemini-2.0-flash-exp" |}
    l.

(** The handler from the prompt on, for the rows of the file. An error of
    the model call is thrown again and answered by the outer [catch]. *)
Definition analyse (w : World) (req : Request) (file : FileDoc) (clerkUserId : jsstring)
    (columns : list jsstring) (data : list (list (jsstring * jsstring))) (s : Server)
  : Outcome * Server :=
  let filename := match file_name file with [] => str "unknown" | n => n end in
  let prompt := prompt_of (body req) columns data in
  let s1 := {| db := db s; pricingAnalyses := pricingAnalyses s; vertexAI := true;
               model_calls := model_calls s ++ [prompt] |} in
  match generateContent w prompt with
  | GenerateFails f => (CostsRoute.internal_error (env w) f, s1)
  | Reply text =>
      let rawText := rawText_of text in
      match accepted rawText with
      | None => (invalid_reply (env w) rawText, s1)
      | Some analysisObj =>
          (success filename columns data analysisObj,
           if analyses_write_fails w then s1
           else {| db := db s1;
                   pricingAnalyses :=
                     persist (file_id file) clerkUserId analysisObj (now w) (pricingAnalyses s1);
                   vertexAI := vertexAI s1;
                   model_calls := model_calls s1 |})
      end
  end.

(** The handler from the lookup of the file on. *)
Definition lookup (w : World) (req : Request) (q : FileQuery) (clerkUserId : jsstring)
    (s : Server) : Outcome * Server :=
  match findOne q clerkUserId (db s) with
  | None => (error_body 404 "File not found", s)
  | Some file =>
      match download_failure w with
      | Some f => (CostsRoute.internal_error (env w) f, s)
      | None =>
          match file_bytes file with
          | [] => (error_body 400 "Downloaded file is empty", s)
          | _ :: _ =>
              match processFileData w (file_bytes file)
                      (match file_name file with [] => str "unknown" | n => n end)
                      (match file_contentType file with
                       | Some (c :: t) => c :: t
                       | _ => str "application/octet-stream"
                       end) with
              | inl f => (CostsRoute.internal_error (env w) f, s)
              | inr (columns, data) =>
                  if Nat.eqb (length columns) 0 || Nat.eqb (length data) 0 then
                    (error_body 400 "No valid data found", s)
                  else if negb (vertexAI s) && negb (vertex_constructs w) then
                    (CostsRoute.internal_error (env w)
                       {| message := str "Vertex AI not initialized and late-init failed";
                          stack := error_stack w |}, s)
                  else analyse w req file clerkUserId columns data s
              end
          end
      end
  end.

(** The handler inside its [try], for a signed-in user. *)
Definition handle (w : World) (req : Request) (clerkUserId : jsstring) (s : Server)
  : Outcome * Server :=
  match incomingFileId w req with
  | inl f => (CostsRoute.internal_error (env w) f, s)
  | inr incoming =>
      match filenameFallback w req with
      | inl f => (CostsRoute.internal_error (env w) f, s)
      | inr filename =>
          match fileQuery_of incoming filename with
          | None => (error_body 400 "Invalid file ID", s)
          | Some q => lookup w req q clerkUserId s
          end
      end
  end.

Definition POST (w : World) (req : Request) (s : Server) : Outcome * Server :=
  match CostsRoute.MONGODB_URI (env w) with
  | Some (_ :: _) =>
      match CostsRoute.setting (CostsRoute.VERTEX_AI_PROJECT (env w)) "neural-land-469712-t7",
            CostsRoute.setting (CostsRoute.VERTEX_AI_LOCATION (env w)) "us-central1" with
      | _ :: _, _ :: _ =>
          match connect_failure w with
          | Some f => (CostsRoute.internal_error (env w) f, s)
          | None =>
              match auth_userId w with
              | Some (u :: uid) => handle w req (u :: uid) s
              | _ => (error_body 401 "Unauthorized", s)
              end
          end
      | _, _ =>
          (error_body 500 "Vertex AI configuration missing in environment variables", s)
      end
  | _ => (error_body 500 "MONGODB_URI missing in environment variables", s)
  end.

End PricingRoute.


(** * Scenarios used by the examples *)

Module Scenario.

Definition user1 : list N := str "user_1".
Definition sess1 : list N := str "k3f9x2m1lq8z".
Definition id1 : list N := str "650000000000000000000001".
Definition id2 : list N := str "650000000000000000000002".
Definition id3 : list N := str "650000000000000000000003".
Definition id4 : list N := str "650000000000000000000004".

Definition upload_world (t : Z) (id : list N) : Upload.World :=
  {| Upload.MONGODB_URI := Some (str "mongodb://db");
     Upload.connects := true;
     Upload.formData_fails := false;
     Upload.now := t;
     Upload.fresh_id := id;
     Upload.stream_finishes := true;
     Upload.count_fails := false;
     Upload.error_message := str "connection closed" |}.

Definition upload_request (name : string) : Upload.Request :=
  {| Upload.auth_userId := Some user1;
     Upload.form_file := Some (str name, str "sku,price");
     Upload.form_sessionId := Some sess1 |}.

(** The database after the user uploaded two files in one session. *)
Definition two_uploads : Database :=
  snd (Upload.POST (upload_world 20 id2) (upload_request "costs.csv")
         (snd (Upload.POST (upload_world 10 id1) (upload_request "prices.csv") empty_db))).

Definition session_world (t : Z) : Session.World :=
  {| Session.MONGODB_URI := Some (str "mongodb://db");
     Session.connects := true;
     Session.now := t |}.

Definition preferences : Session.SessionMetadata :=
  {| Session.combineData := true;
     Session.joinType := str "Inner Join";
     Session.customPrompt := [] |}.

(** A model that answers every prompt with one combined row. *)
Definition model_reply : list N :=
  js "{^choices^:[{^message^:{^content^:^[{\^Sku\^:\^A1\^}]^}}]}".

Definition combine_world (t : Z) (id : list N) : CombineRoute.World :=
  {| CombineRoute.MONGODB_URI := Some (str "mongodb://db");
     CombineRoute.OPENROUTER_API_KEY := Some (str "key");
     CombineRoute.connects := true;
     CombineRoute.requestStartTime := t;
     CombineRoute.datasetText := fun f => Ret (file_name f);
     CombineRoute.model := fun _ =>
       CombineRoute.ApiResponse true 200 (Some (str "application/json")) model_reply;
     CombineRoute.writeXlsx := fun _ => Ret [];
     CombineRoute.storeTime := (t + 5)%Z;
     CombineRoute.combinedName := str "combined.xlsx";
     CombineRoute.fresh_id := id;
     CombineRoute.stream_finishes := true |}.

Definition combine_request : CombineRoute.Request :=
  {| CombineRoute.auth_userId := Some user1;
     CombineRoute.body_sessionId := Ret (Some sess1) |}.

(** The database after the user uploaded two workbooks in one session. *)
Definition two_workbooks : Database :=
  snd (Upload.POST (upload_world 20 id2) (upload_request "costs.xlsx")
         (snd (Upload.POST (upload_world 10 id1) (upload_request "prices.xlsx") empty_db))).

Definition server0 : CombineRoute.Server :=
  {| CombineRoute.db := two_workbooks;
     CombineRoute.processingLocks := ∅;
     CombineRoute.model_calls := [] |}.

(** The first and the second POST to the combine endpoint, nothing being
    uploaded in between. *)
Definition first_combine := CombineRoute.POST (combine_world 30 id3) combine_request server0.
Definition second_combine :=
  CombineRoute.POST (combine_world 50 id4) combine_request (snd first_combine).

(** The same two requests when the two uploads are CSV files. *)
Definition server_csv : CombineRoute.Server :=
  {| CombineRoute.db := two_uploads;
     CombineRoute.processingLocks := ∅;
     CombineRoute.model_calls := [] |}.

Definition first_combine_csv :=
  CombineRoute.POST (combine_world 30 id3) combine_request server_csv.
Definition second_combine_csv :=
  CombineRoute.POST (combine_world 50 id4) combine_request (snd first_combine_csv).


(** A margin run of [user1] on the first uploaded file. *)
Definition props : Orchestrator.Props :=
  {| Orchestrator.fileId := id1; Orchestrator.runId := Some (str "margin_1700000000000_ab12cd3") |}.

Definition step_bodies : list (list N) :=
  [ js "{^status^:^success^,^step^:^pricing_analysis^,^total_products^:2,^avg_discount_pct^:12.5}";
    js "{^status^:^success^,^step^:^cost_analysis^,^avg_margin_pct^:25}";
    js "{^status^:^success^,^step^:^leakage_analysis^,^leakage_instances^:1,^top_leaks^:[]}";
    js "{^status^:^success^,^step^:^segment_analysis^,^segments_analyzed^:3}";
    js "{^status^:^success^,^step^:^recommendations^,^priority_actions^:[{^action^:^Raise P015^,^priority^:^high^}],^quick_wins^:[]}" ].

Definition body_for (r : Orchestrator.Request) : option (list N) :=
  match Orchestrator.findIndex
          (fun s => String.eqb (Orchestrator.endpoint s) (Orchestrator.req_endpoint r))
          Orchestrator.MARGIN_STEPS with
  | Some i => step_bodies !! i
  | None => None
  end.

Definition save_ok : option MarginReportSave.World :=
  Some {| MarginReportSave.connects := true; MarginReportSave.now := 900 |}.

(** Every step endpoint answers 200. *)
Definition world_ok : Orchestrator.World :=
  {| Orchestrator.reply := fun _ r => Orchestrator.HttpResponse 200 (body_for r);
     Orchestrator.session_user := Some user1;
     Orchestrator.save_world := save_ok;
     Orchestrator.isoTime := str "2025-01-01T00:00:00.000Z" |}.

(** The third request (the leakage step) is answered 500; every other
    request is answered 200. *)
Definition world_leakage_fails_once : Orchestrator.World :=
  {| Orchestrator.reply := fun n r =>
       if Nat.eqb n 2 then
         Orchestrator.HttpResponse 500 (Some (js "{^error^:^Vertex AI error^}"))
       else Orchestrator.HttpResponse 200 (body_for r);
     Orchestrator.session_user := Some user1;
     Orchestrator.save_world := save_ok;
     Orchestrator.isoTime := str "2025-01-01T00:00:00.000Z" |}.


(** ** The analysis routes *)

Definition user2 : list N := str "user_2".

Definition prices_file : FileDoc :=
  {| file_id := id1;
     file_name := str "prices.csv";
     file_contentType := Some (str "text/csv");
     file_metadata := {| meta_userId := user1;
                         meta_uploadedAt := 100;
                         meta_sessionId := sess1;
                         meta_isCombined := false;
                         meta_sourceFileIds := None;
                         meta_requestStartTime := None |};
     file_bytes := [] |}.

Definition prices_db : Database :=
  {| files := [prices_file]; sessionMetadata := []; analyses := []; margin_analyses := [] |}.

(** Seven rows; the second has no product id. *)
Definition prices_rows : list (list (list N * list N)) :=
  [ [(str "product_id", str "A1"); (str "net_price", str "95"); (str "cost", str "100")];
    [(str "product_id", []); (str "net_price", str "50"); (str "cost", str "40")];
    [(str "product_id", str "A3"); (str "net_price", str "10"); (str "cost", str "10")];
    [(str "product_id", str "A4"); (str "net_price", str "20"); (str "cost", str "12")];
    [(str "product_id", str "A5"); (str "net_price", str "30"); (str "cost", str "21")];
    [(str "product_id", str "A6"); (str "net_price", str "40"); (str "cost", str "22")];
    [(str "product_id", str "A7"); (str "net_price", str "60"); (str "cost", str "35")] ].

Definition costs_env : CostsRoute.Env :=
  {| CostsRoute.MONGODB_URI := Some (str "mongodb://db");
     CostsRoute.VERTEX_AI_PROJECT := None;
     CostsRoute.VERTEX_AI_LOCATION := None;
     CostsRoute.development := false |}.

(** The model answers in prose. *)
Definition costs_world (user : list N) : CostsRoute.World :=
  {| CostsRoute.env := costs_env;
     CostsRoute.auth_userId := Some user;
     CostsRoute.connect_failure := None;
     CostsRoute.download_fails := false;
     CostsRoute.processFileData := fun _ _ _ =>
       inr ([str "product_id"; str "net_price"; str "cost"], prices_rows);
     CostsRoute.vertex_constructs := true;
     CostsRoute.generateContent := fun _ =>
       Reply (Some (str "Here is the analysis you asked for: margins look healthy."));
     CostsRoute.analyses_write_fails := false;
     CostsRoute.now := 1000 |}.

Definition costs_request : CostsRoute.Request :=
  {| CostsRoute.query_fileId := Some id1;
     CostsRoute.body :=
       Some {| CostsRoute.body_fileId := Some id1;
               CostsRoute.cost_fields := Some (Orchestrator.strings ["cost"; "cogs"]%string);
               CostsRoute.margin_thresholds := None |} |}.

Definition costs_server : CostsRoute.Server :=
  {| CostsRoute.db := prices_db; CostsRoute.vertexAI := true; CostsRoute.model_calls := [] |}.

Definition logical_world : LogicalRoute.World :=
  {| LogicalRoute.connect_fails := false;
     LogicalRoute.download_fails := false;
     LogicalRoute.processFileBuffer := fun _ _ _ =>
       inr ([str "product_id"; str "net_price"; str "cost"], []);
     LogicalRoute.vertex_constructs := true;
     LogicalRoute.generateContent := fun _ _ =>
       Reply (Some (js "{^status^:^success^,^insights^:[],^sql^:^^,^samples^:[]}"));
     LogicalRoute.analyses_write_fails := false;
     LogicalRoute.now := 1000 |}.

Definition logical_request (user : list N) : LogicalRoute.Request :=
  {| LogicalRoute.auth_userId := Some user;
     LogicalRoute.body :=
       Some {| LogicalRoute.body_fileId := Some id1;
               LogicalRoute.rules := None;
               LogicalRoute.runId := Some (str "margin_1700000000000_ab12cd3") |} |}.

Definition logical_server : LogicalRoute.Server :=
  {| LogicalRoute.db := prices_db; LogicalRoute.vertexAI := true; LogicalRoute.model_calls := [] |}.

(** The model cannot be reached: the fetch is aborted. *)
Definition combine_world_timeout : CombineRoute.World :=
  {| CombineRoute.MONGODB_URI := Some (str "mongodb://db");
     CombineRoute.OPENROUTER_API_KEY := Some (str "key");
     CombineRoute.connects := true;
     CombineRoute.requestStartTime := 30;
     CombineRoute.datasetText := fun f => Ret (file_name f);
     CombineRoute.model := fun _ => CombineRoute.FetchRejected AbortError;
     CombineRoute.writeXlsx := fun _ => Ret [];
     CombineRoute.storeTime := 35;
     CombineRoute.combinedName := str "combined.xlsx";
     CombineRoute.fresh_id := id3;
     CombineRoute.stream_finishes := true |}.

(** ** The report store *)

Definition run1 : list N := str "margin_1700000000000_ab12cd3".

Definition create_world : MarginReportCreate.World :=
  {| MarginReportCreate.connects := true;
     MarginReportCreate.now := 1700000000000;
     MarginReportCreate.random_suffix := str "ab12cd3" |}.

Definition save_world_ok : MarginReportSave.World :=
  {| MarginReportSave.connects := true; MarginReportSave.now := 900 |}.

Definition get_world : MarginReportGet.World :=
  {| MarginReportGet.connects := true;
     MarginReportGet.number_text := fun digits => digits;
     MarginReportGet.toISOString := fun _ => str "2023-11-14T22:13:20.900Z" |}.

Definition report : json :=
  JObj [(str "leakage", JObj [(str "leakage_instances", JNum (str "1"))]);
        (str "meta", JObj [(str "fileId", JStr id1)])].

Definition save_request (user run : list N) : MarginReportSave.Request :=
  {| MarginReportSave.auth_userId := Some user;
     MarginReportSave.body :=
       Some {| MarginReportSave.runId := Some run;
               MarginReportSave.analysis := Some report |} |}.

Definition get_request (user run : list N) : MarginReportGet.Request :=
  {| MarginReportGet.auth_userId := Some user; MarginReportGet.params_runId := Some run |}.

(** The store after [user1] saved the report of [run1]. *)
Definition saved_db : Database :=
  snd (MarginReportSave.POST save_world_ok (save_request user1 run1) prices_db).

(** Every step endpoint answers 200; the recommendations reply lists
    [null] among its priority actions. *)
Definition world_null_action : Orchestrator.World :=
  {| Orchestrator.reply := fun n r =>
       if Nat.eqb n 4 then
         Orchestrator.HttpResponse 200
           (Some (js "{^status^:^success^,^priority_actions^:[null],^quick_wins^:[]}"))
       else Orchestrator.HttpResponse 200 (body_for r);
     Orchestrator.session_user := Some user1;
     Orchestrator.save_world := save_ok;
     Orchestrator.isoTime := str "2025-01-01T00:00:00.000Z" |}.

(** The model answers with a JSON object that has a status of its own. *)
Definition costs_world_json : CostsRoute.World :=
  {| CostsRoute.env := costs_env;
     CostsRoute.auth_userId := Some user1;
     CostsRoute.connect_failure := None;
     CostsRoute.download_fails := false;
     CostsRoute.processFileData := fun _ _ _ =>
       inr ([str "product_id"; str "net_price"; str "cost"], prices_rows);
     CostsRoute.vertex_constructs := true;
     CostsRoute.generateContent := fun _ =>
       Reply (Some (js "{^status^:^error^,^avg_margin_pct^:12}"));
     CostsRoute.analyses_write_fails := false;
     CostsRoute.now := 1000 |}.

(** The model cannot be reached: every call throws. *)
Definition logical_world_down : LogicalRoute.World :=
  {| LogicalRoute.connect_fails := false;
     LogicalRoute.download_fails := false;
     LogicalRoute.processFileBuffer := fun _ _ _ =>
       inr ([str "product_id"; str "net_price"; str "cost"], []);
     LogicalRoute.vertex_constructs := true;
     LogicalRoute.generateContent := fun _ _ =>
       GenerateFails {| message := str "fetch failed"; stack := None |};
     LogicalRoute.analyses_write_fails := false;
     LogicalRoute.now := 1000 |}.

(** The recommendations route, asked after the cost analysis of the same
    file. *)
Definition recommendations_world : RecommendationsRoute.World :=
  {| RecommendationsRoute.env := costs_env;
     RecommendationsRoute.auth_userId := Some user1;
     RecommendationsRoute.connect_failure := None;
     RecommendationsRoute.download_fails := false;
     RecommendationsRoute.processFileData := fun _ _ _ =>
       inr ([str "product_id"; str "net_price"; str "cost"], prices_rows);
     RecommendationsRoute.vertex_constructs := true;
     RecommendationsRoute.generateContent := fun _ =>
       Reply (Some (js "{^recommendations_count^:0,^priority_actions^:[],^quick_wins^:[]}"));
     RecommendationsRoute.analyses_write_fails := false;
     RecommendationsRoute.now := 2000 |}.

Definition recommendations_request : RecommendationsRoute.Request :=
  {| RecommendationsRoute.query_fileId := Some id1; RecommendationsRoute.body := None |}.

Definition recommendations_server : RecommendationsRoute.Server :=
  {| RecommendationsRoute.db :=
       CostsRoute.db (snd (CostsRoute.POST (costs_world user1) costs_request costs_server));
     RecommendationsRoute.vertexAI := true;
     RecommendationsRoute.model_calls := [] |}.

(** The model finds nothing to report, and says so inside a code fence. *)
Definition no_leak_reply : list N :=
  LeakageRoute.fence ++ str "json" ++ [10]
  ++ js "{^leakage_instances^:0,^total_leakage_amount^:0,^top_leaks^:[]}"
  ++ [10] ++ LeakageRoute.fence.

Definition leakage_world : LeakageRoute.World :=
  {| LeakageRoute.env := costs_env;
     LeakageRoute.auth_userId := Some user1;
     LeakageRoute.connect_failure := None;
     LeakageRoute.download_fails := false;
     LeakageRoute.processFileData := fun _ _ _ =>
       inr ([str "product_id"; str "net_price"; str "cost"], prices_rows);
     LeakageRoute.vertex_constructs := true;
     LeakageRoute.generateContent := fun _ => Reply (Some no_leak_reply);
     LeakageRoute.analyses_write_fails := false;
     LeakageRoute.now := 3000 |}.

Definition leakage_request : LeakageRoute.Request :=
  {| LeakageRoute.query_fileId := Some id1; LeakageRoute.body := None |}.

Definition leakage_server : LeakageRoute.Server :=
  {| LeakageRoute.db := prices_db; LeakageRoute.vertexAI := true; LeakageRoute.model_calls := [] |}.


(** The pricing reply holds a number too large for a double. *)
Definition world_overflow : Orchestrator.World :=
  {| Orchestrator.reply := fun n r =>
       if Nat.eqb n 0 then
         Orchestrator.HttpResponse 200
           (Some (js "{^status^:^success^,^total_products^:2,^avg_discount_pct^:1e999}"))
       else Orchestrator.HttpResponse 200 (body_for r);
     Orchestrator.session_user := Some user1;
     Orchestrator.save_world := save_ok;
     Orchestrator.isoTime := str "2025-01-01T00:00:00.000Z" |}.

(** Texts for [extractFirstJsonObj]: an object in single and smart quotes
    whose value holds braces; an object that parses only as a whole and
    after every repair; nested braces, and braces and an escaped quote inside
    a string; an object that follows a piece in braces that is not JSON. *)
Definition text_second_candidate : list N :=
  js "{" ++ [8216] ++ js "a" ++ [8217] ++ js ":'}{'}".

Definition text_repaired_whole : list N :=
  js "noise {" ++ [8220] ++ js "a" ++ [8221] ++ js ": 'x}', b:" ++ [160]
  ++ js "[1,2,], ^c^: ^q\^}^} tail".

Definition text_nested : list N := js "x {^k^: ^}{\^^, ^n^: {^m^: 1}} {^z^:2}".

Definition text_later_object : list N := js "{bad} {^a^:1}".


(** Replies for [parseAIResponse]: an object between code fences; an array
    cut after a comma; arrays on two lines, two of them on one line; objects
    one per line, the first with a comma before its closing brace and text
    after the last; objects in a line of prose. *)
Definition reply_fenced_object : list N := js "```json {^a^:1} ```".

Definition reply_cut_array : list N := js "``` rows: [{^a^:1},".

Definition reply_array_lines : list N := js "[1] [2]" ++ [10] ++ js "  [3]".

Definition reply_object_lines : list N :=
  js "{^a^:1 , }" ++ [10] ++ js " {^b^:^} {^} " ++ [10] ++ js "done".

Definition reply_objects_in_prose : list N := js "x {^a^:1} {^b^:2}".


(** The leakage step of the pipeline and the request it makes for the file
    of the scenario. *)
Definition leakage_step : Orchestrator.Step :=
  {| Orchestrator.id := "leakage";
     Orchestrator.label := "Identifying margin leakage";
     Orchestrator.endpoint := "/api/margin/leakage" |}.

Definition leakage_step_request : LeakageRoute.Request :=
  let payload :=
    Orchestrator.bodyPayload {| Orchestrator.fileId := id1; Orchestrator.runId := None |}
      leakage_step in
  {| LeakageRoute.query_fileId := Some id1;
     LeakageRoute.body :=
       Some {| LeakageRoute.body_fileId := Some id1;
               LeakageRoute.leakage_rules := get_prop "leakage_rules" payload;
               LeakageRoute.priority_threshold := get_prop "priority_threshold" payload |} |}.

(** The rows of the file hold a sale below cost (A1: 95 for a cost of 100)
    and a sale at exactly cost (A3: 10 for a cost of 10). In the first reply
    the model lists the sale below cost only, in the second both. *)
Definition leak_A1 : json :=
  JObj [(str "product_id", JStr (str "A1")); (str "leak_type", JStr (str "below_cost_sale"));
        (str "net_price", JNum (str "95")); (str "cost", JNum (str "100"))].

Definition leak_A3 : json :=
  JObj [(str "product_id", JStr (str "A3")); (str "leak_type", JStr (str "below_cost_sale"));
        (str "net_price", JNum (str "10")); (str "cost", JNum (str "10"))].

Definition reply_below_cost_only : list N :=
  LeakageRoute.fence ++ str "json" ++ [10]
  ++ JSON_stringify (JObj [(str "leakage_instances", JNum (str "1"));
                           (str "top_leaks", JArr [leak_A1])])
  ++ [10] ++ LeakageRoute.fence.

Definition reply_with_sale_at_cost : list N :=
  LeakageRoute.fence ++ str "json" ++ [10]
  ++ JSON_stringify (JObj [(str "leakage_instances", JNum (str "2"));
                           (str "top_leaks", JArr [leak_A1; leak_A3])])
  ++ [10] ++ LeakageRoute.fence.

Definition leakage_world_replying (reply : list N) : LeakageRoute.World :=
  {| LeakageRoute.env := costs_env;
     LeakageRoute.auth_userId := Some user1;
     LeakageRoute.connect_failure := None;
     LeakageRoute.download_fails := false;
     LeakageRoute.processFileData := fun _ _ _ =>
       inr ([str "product_id"; str "net_price"; str "cost"], prices_rows);
     LeakageRoute.vertex_constructs := true;
     LeakageRoute.generateContent := fun _ => Reply (Some reply);
     LeakageRoute.analyses_write_fails := false;
     LeakageRoute.now := 3000 |}.



(** The pricing route: the file of [user1], stored with its bytes; a model
    that reports two products. *)
Definition pricing_world (user : list N) : PricingRoute.World :=
  {| PricingRoute.env := costs_env;
     PricingRoute.auth_userId := Some user;
     PricingRoute.connect_failure := None;
     PricingRoute.null_read := fun field =>
       {| message := str "Cannot read properties of null (reading '" ++ str field ++ str "')";
          stack := None |};
     PricingRoute.error_stack := None;
     PricingRoute.download_failure := None;
     PricingRoute.processFileData := fun _ _ _ =>
       inr ([str "product_id"; str "net_price"; str "cost"], prices_rows);
     PricingRoute.vertex_constructs := true;
     PricingRoute.generateContent := fun _ =>
       Reply (Some (js "{^total_products^:2,^avg_discount_pct^:12.5}"));
     PricingRoute.analyses_write_fails := false;
     PricingRoute.now := 4000 |}.

Definition pricing_request (b : PricingRoute.RequestBody) : PricingRoute.Request :=
  {| PricingRoute.query_fileId := Some id1; PricingRoute.body := b |}.

Definition pricing_server : PricingRoute.Server :=
  {| PricingRoute.db := prices_db;
     PricingRoute.pricingAnalyses := [];
     PricingRoute.vertexAI := true;
     PricingRoute.model_calls := [] |}.

Definition leakage_world_of (user : list N) : LeakageRoute.World :=
  {| LeakageRoute.env := costs_env;
     LeakageRoute.auth_userId := Some user;
     LeakageRoute.connect_failure := None;
     LeakageRoute.download_fails := false;
     LeakageRoute.processFileData := fun _ _ _ =>
       inr ([str "product_id"; str "net_price"; str "cost"], prices_rows);
     LeakageRoute.vertex_constructs := true;
     LeakageRoute.generateContent := fun _ => Reply (Some reply_below_cost_only);
     LeakageRoute.analyses_write_fails := false;
     LeakageRoute.now := 3000 |}.


(** The same server when the stored file has its bytes. *)
Definition pricing_server_stored : PricingRoute.Server :=
  {| PricingRoute.db :=
       {| files := [{| file_id := id1;
                       file_name := str "prices.csv";
                       file_contentType := Some (str "text/csv");
                       file_metadata := file_metadata prices_file;
                       file_bytes := str "product_id,net_price,cost" |}];
          sessionMetadata := []; analyses := []; margin_analyses := [] |};
     PricingRoute.pricingAnalyses := [];
     PricingRoute.vertexAI := true;
     PricingRoute.model_calls := [] |}.


(** An upload during which the count of the files of the session fails. *)
Definition upload_world_count_fails : Upload.World :=
  {| Upload.MONGODB_URI := Some (str "mongodb://db");
     Upload.connects := true;
     Upload.formData_fails := false;
     Upload.now := 10;
     Upload.fresh_id := id1;
     Upload.stream_finishes := true;
     Upload.count_fails := true;
     Upload.error_message := str "connection closed" |}.


(** The records of a CSV file: a header with a name in brackets and with
    spaces around it, a name kept as it is, a blank cell and the name
    [__proto__]; a full record and a short one. *)
Definition csv_records : list (list (list N)) :=
  [ [str " Product (ID) "; str "net_price"; str "  "; str "__proto__"];
    [str "A1"; str " 95"; str "x"; str "y"];
    [str " A2 "] ].


(** A run whose file identifier ends with a lone surrogate, and the first
    step of the pipeline. *)
Definition props_lone_surrogate : Orchestrator.Props :=
  {| Orchestrator.fileId := str "65" ++ [55357]; Orchestrator.runId := None |}.

Definition pricing_step : Orchestrator.Step :=
  {| Orchestrator.id := "pricing";
     Orchestrator.label := "Analyzing pricing structure";
     Orchestrator.endpoint := "/api/margin/pricing" |}.


(** Every step endpoint answers 200; the save endpoint does not reach the
    database. *)
Definition world_store_down : Orchestrator.World :=
  {| Orchestrator.reply := fun _ r => Orchestrator.HttpResponse 200 (body_for r);
     Orchestrator.session_user := Some user1;
     Orchestrator.save_world :=
       Some {| MarginReportSave.connects := false; MarginReportSave.now := 900 |};
     Orchestrator.isoTime := str "2025-01-01T00:00:00.000Z" |}.

End Scenario.

(** * Proofs *)

(** ** The parser returns an object for a text that opens with a brace *)

Lemma parse_members_object fuel : forall s acc v r,
  parse_members fuel s acc = Some (v, r) -> exists props, v = JObj props.
Proof.
  induction fuel as [|f IH]; intros s acc v r H; [discriminate|].
  cbn [parse_members] in H.
  destruct (skip_ws s) as [|q r0]; [discriminate|].
  destruct (q =? DQUOTE); [|discriminate].
  destruct (parse_string_body r0 []) as [[key r1]|]; [|discriminate].
  destruct (skip_ws r1) as [|colon r2]; [discriminate|].
  destruct (colon =? 58); [|discriminate].
  destruct (parse_value f r2) as [[w r3]|]; [|discriminate].
  destruct (skip_ws r3) as [|x r']; [discriminate|].
  destruct (x =? 44); [eauto|].
  destruct (x =? 125); [|discriminate].
  injection H as <- _. eauto.
Qed.

Lemma JSON_parse_object r v :
  JSON_parse (123 :: r) = Ret v -> exists props, v = JObj props.
Proof.
  unfold JSON_parse.
  replace (2 * length (123%N :: r) + 2)%nat with (S (2 * length r + 3))%nat by (cbn [length]; lia).
  cbn [parse_value skip_ws is_json_ws N.eqb Pos.eqb orb].
  change (123 =? 123) with true. cbn iota.
  destruct (skip_ws r) as [|x r'] eqn:Hr; [discriminate|].
  destruct (x =? 125).
  - destruct (skip_ws r'); [|discriminate]. intros [= <-]. eauto.
  - destruct (parse_members _ r []) as [[w rest]|] eqn:Hm; [|discriminate].
    destruct (skip_ws rest); [|discriminate]. intros [= <-].
    eapply parse_members_object, Hm.
Qed.

(** ** Normalisation and repairs keep the opening brace *)

Lemma drop_spaces_snoc l x :
  is_space x = false -> drop_spaces (l ++ [x]) = drop_spaces l ++ [x].
Proof.
  intros Hx. induction l as [|c l IH]; cbn [drop_spaces app].
  - now rewrite Hx.
  - destruct (is_space c); [exact IH | reflexivity].
Qed.

Lemma trim_brace r : exists r', trim (123 :: r) = 123 :: r'.
Proof.
  unfold trim, trimStart, trimEnd.
  change (drop_spaces (123 :: r)) with (123 :: r).
  cbn [rev]. rewrite drop_spaces_snoc by reflexivity.
  rewrite rev_app_distr. cbn [rev app]. eauto.
Qed.

Lemma normalize_brace r : exists r', JsonRepair.normalize (123 :: r) = 123 :: r'.
Proof. unfold JsonRepair.normalize. cbn [map]. apply trim_brace. Qed.

Lemma replace_global_keeps_head (m : matcher) c r :
  (m (c :: r) = None \/ exists out n, m (c :: r) = Some (c :: out, n)) ->
  exists r', replace_global m (c :: r) = c :: r'.
Proof.
  unfold replace_global. cbn [replace_global_from].
  intros [-> | (out & n & ->)]; cbn [app]; eauto.
Qed.

Lemma repair_brace r : exists r', JsonRepair.repair (123 :: r) = 123 :: r'.
Proof.
  unfold JsonRepair.repair.
  destruct (replace_global_keeps_head JsonRepair.re_trailing_comma 123 r) as [r1 ->];
    [left; reflexivity|].
  destruct (replace_global_keeps_head JsonRepair.re_single_quoted 123 r1) as [r2 ->];
    [left; reflexivity|].
  apply replace_global_keeps_head.
  unfold JsonRepair.re_unquoted_key. change ((123 =? 123) || (123 =? 44)) with true. cbn iota.
  destruct (run_length JsonRepair.is_key_char _); [now left|].
  destruct (skipn _ _) as [|x ?]; [now left|].
  destruct (x =? 58); [right; eauto | now left].
Qed.

Lemma tryParse_total c : exists v, JsonRepair.tryParseJsonWithRepairs c = Ret v.
Proof.
  unfold JsonRepair.tryParseJsonWithRepairs. destruct c as [|x c]; [eauto|].
  destruct (JSON_parse (JsonRepair.normalize (x :: c))); cbn [try_catch]; [eauto|].
  destruct (JSON_parse _); cbn [try_catch]; eauto.
Qed.

Lemma tryParse_brace r v :
  JsonRepair.tryParseJsonWithRepairs (123 :: r) = Ret v ->
  v = JNull \/ exists props, v = JObj props.
Proof.
  unfold JsonRepair.tryParseJsonWithRepairs.
  destruct (normalize_brace r) as [r1 ->].
  destruct (JSON_parse (123 :: r1)) eqn:H1; cbn [try_catch].
  - intros [= <-]. right. eapply JSON_parse_object, H1.
  - destruct (repair_brace r1) as [r2 ->].
    destruct (JSON_parse (123 :: r2)) eqn:H2; cbn [try_catch]; intros [= <-].
    + right. eapply JSON_parse_object, H2.
    + now left.
Qed.

(** ** The loop body against [parses_to] *)

Lemma try_candidate_total c : exists o, JsonRepair.try_candidate c = Ret o.
Proof.
  unfold JsonRepair.try_candidate.
  destruct (JSON_parse c); cbn [bind_exn try_catch]; [eauto|].
  destruct (tryParse_total c) as [w ->]. cbn [bind_exn].
  destruct (truthy w); eauto.
Qed.

Lemma try_candidate_some r v :
  JsonRepair.try_candidate (123 :: r) = Ret (Some v) <-> JsonRepair.parses_to (123 :: r) v.
Proof.
  unfold JsonRepair.try_candidate, JsonRepair.parses_to.
  destruct (JSON_parse (123 :: r)) as [v0|e] eqn:Hp; cbn [bind_exn try_catch].
  - split.
    + intros [= <-]. now left.
    + intros [[= <-] | ((e & He) & _)]; [reflexivity | discriminate].
  - destruct (tryParse_total (123 :: r)) as [w Hw]. rewrite Hw. cbn [bind_exn].
    destruct (tryParse_brace _ _ Hw) as [-> | (props & ->)]; cbn [truthy].
    + split; [discriminate|].
      intros [H | (_ & H & Hn)]; [discriminate H|]. inversion H; subst. now destruct Hn.
    + split.
      * intros [= <-]. right. repeat split; eauto; discriminate.
      * intros [H | (_ & H & _)]; [discriminate H|]. now inversion H.
Qed.

Lemma try_candidate_none r :
  JsonRepair.try_candidate (123 :: r) = Ret None <-> ~ JsonRepair.parses (123 :: r).
Proof.
  destruct (try_candidate_total (123 :: r)) as [[v|] Ho]; rewrite Ho.
  - split; [discriminate|]. intros Hn. destruct Hn. exists v. now apply try_candidate_some.
  - split; [|reflexivity]. intros _ (v & Hv). apply try_candidate_some in Hv. congruence.
Qed.

(** ** The loop returns at the first candidate that parses *)

Lemma scan_loop_first_parse text a : forall rest i st,
  JsonRepair.scan_loop text a i rest st =
  Ret (JsonRepair.first_parse
         (map (fun j => substring a (S j) text) (JsonRepair.balanced_ends i rest st))).
Proof.
  induction rest as [|c rest IH]; intros i st; [reflexivity|].
  cbn [JsonRepair.scan_loop JsonRepair.balanced_ends].
  destruct (JsonRepair.scan_char st c) as [st' closes].
  destruct closes; [|apply IH].
  cbn [map JsonRepair.first_parse].
  destruct (try_candidate_total (substring a (S i) text)) as [[v|] ->]; cbn [bind_exn].
  - reflexivity.
  - apply IH.
Qed.

Lemma regex_fallback_total text : exists v, JsonRepair.regex_fallback text = Ret v.
Proof.
  unfold JsonRepair.regex_fallback.
  destruct (JsonRepair.match_braces text) as [[|c m]|]; eauto using tryParse_total.
Qed.

Lemma extractFirstJsonObj_total text : exists v, JsonRepair.extractFirstJsonObj text = Ret v.
Proof.
  unfold JsonRepair.extractFirstJsonObj. destruct text as [|x text]; [eauto|].
  destruct (indexOf 123 (x :: text)) as [a|]; [|apply regex_fallback_total].
  rewrite scan_loop_first_parse. cbn [bind_exn].
  destruct (JsonRepair.first_parse _); [eauto | apply regex_fallback_total].
Qed.

(** When the scan finds a candidate that parses, the function returns the
    parse of the first one. *)
Lemma extract_balanced text :
  match JsonRepair.first_parse (JsonRepair.balanced_candidates text) with
  | Some v => JsonRepair.extractFirstJsonObj text = Ret v
  | None => JsonRepair.extractFirstJsonObj text = JsonRepair.regex_fallback text
            \/ JsonRepair.extractFirstJsonObj text = Ret JNull
  end.
Proof.
  unfold JsonRepair.extractFirstJsonObj, JsonRepair.balanced_candidates.
  destruct text as [|x text]; [cbn; now right|].
  destruct (indexOf 123 (x :: text)) as [a|]; [|cbn; now left].
  rewrite scan_loop_first_parse. cbn [bind_exn].
  destruct (JsonRepair.first_parse _); [reflexivity | now left].
Qed.

(** ** Candidates are pieces of the text between braces *)

Lemma indexOf_split c s a :
  indexOf c s = Some a -> exists post, skipn a s = c :: post.
Proof.
  revert a. induction s as [|x s IH]; intros a; cbn [indexOf]; [discriminate|].
  destruct (N.eqb_spec x c) as [->|_].
  - intros [= <-]. eauto.
  - destruct (indexOf c s) as [a'|]; [|discriminate].
    intros [= <-]. cbn [skipn]. now apply IH.
Qed.

Lemma lastIndexOf_lookup c s b : lastIndexOf c s = Some b -> s !! b = Some c.
Proof.
  revert b. induction s as [|x s IH]; intros b; cbn [lastIndexOf]; [discriminate|].
  destruct (lastIndexOf c s) as [b'|].
  - intros [= <-]. now apply IH.
  - destruct (N.eqb_spec x c) as [->|_]; [|discriminate]. now intros [= <-].
Qed.

Lemma scan_char_closes st c st' : JsonRepair.scan_char st c = (st', true) -> c = 125.
Proof.
  unfold JsonRepair.scan_char.
  destruct (JsonRepair.escape st); [discriminate|].
  destruct (c =? BACKSL); [discriminate|].
  destruct (c =? DQUOTE); [discriminate|].
  destruct (negb (JsonRepair.inString st)); [|discriminate].
  destruct (c =? 123); [discriminate|].
  destruct (N.eqb_spec c 125); [easy | discriminate].
Qed.

Lemma balanced_ends_lookup : forall rest i st j,
  In j (JsonRepair.balanced_ends i rest st) ->
  (i <= j)%nat /\ rest !! (j - i)%nat = Some 125.
Proof.
  induction rest as [|c rest IH]; intros i st j; cbn [JsonRepair.balanced_ends]; [easy|].
  destruct (JsonRepair.scan_char st c) as [st' closes] eqn:Hs.
  assert (Hrec : In j (JsonRepair.balanced_ends (S i) rest st') ->
                 (i <= j)%nat /\ (c :: rest) !! (j - i)%nat = Some 125).
  { intros H. apply IH in H as [Hle Hl]. split; [lia|].
    replace (j - i)%nat with (S (j - S i)) by lia. exact Hl. }
  destruct closes; [|exact Hrec].
  intros [<- | H]; [|now apply Hrec].
  apply scan_char_closes in Hs as ->. rewrite Nat.sub_diag. now split.
Qed.

(** A piece cut between an opening brace at [a] and a closing brace at [j]. *)
Lemma substring_between_braces text a tail k :
  skipn a text = 123 :: tail -> tail !! k = Some 125 ->
  exists mid, firstn (S (S k)) (skipn a text) = 123 :: mid ++ [125]
              /\ ExtractSpec.brace_delimited text (123 :: mid ++ [125]).
Proof.
  intros Ha Hk. exists (firstn k tail).
  assert (Hc : firstn (S (S k)) (skipn a text) = 123 :: firstn k tail ++ [125]).
  { rewrite Ha. cbn [firstn]. f_equal. now apply take_S_r. }
  split; [exact Hc|].
  exists (firstn a text), (firstn k tail), (skipn (S (S k)) (skipn a text)).
  split; [reflexivity|].
  rewrite <- Hc, !take_drop. reflexivity.
Qed.

Lemma balanced_candidate_shape text c :
  In c (JsonRepair.balanced_candidates text) ->
  exists mid, c = 123 :: mid ++ [125] /\ ExtractSpec.brace_delimited text c.
Proof.
  unfold JsonRepair.balanced_candidates.
  destruct (indexOf 123 text) as [a|] eqn:Hi; [|easy].
  apply indexOf_split in Hi as [tail Ha].
  intros (j & <- & Hj)%in_map_iff.
  apply balanced_ends_lookup in Hj as [Hle Hl]. rewrite Ha in Hl.
  destruct (j - a)%nat as [|k] eqn:Hk; [discriminate|]. cbn in Hl.
  destruct (substring_between_braces text a tail k Ha Hl) as (mid & Hc & Hb).
  exists mid. unfold substring. replace (S j - a)%nat with (S (S k)) by lia.
  rewrite Hc. now split.
Qed.

Lemma match_braces_shape text m :
  JsonRepair.match_braces text = Some m -> ExtractSpec.brace_delimited text m.
Proof.
  unfold JsonRepair.match_braces.
  destruct (indexOf 123 text) as [a|] eqn:Hi; [|discriminate].
  apply indexOf_split in Hi as [tail Ha].
  cbv zeta. rewrite Ha. change (skipn 1 (123 :: tail)) with tail.
  destruct (lastIndexOf 125 tail) as [b|] eqn:Hb; [|discriminate].
  apply lastIndexOf_lookup in Hb. intros [= <-].
  destruct (substring_between_braces text a tail b Ha Hb) as (mid & Hc & Hd).
  rewrite Ha in Hc. replace (b + 2)%nat with (S (S b)) by lia. now rewrite Hc.
Qed.

Lemma first_parse_app pre c post v :
  Forall (fun c' => (exists r, c' = 123 :: r) /\ ~ JsonRepair.parses c') pre ->
  (exists r, c = 123 :: r) -> JsonRepair.parses_to c v ->
  JsonRepair.first_parse (pre ++ c :: post) = Some v.
Proof.
  intros Hpre (r & ->) Hv. induction Hpre as [|c' pre [(r' & ->) Hn] _ IH]; cbn [app JsonRepair.first_parse].
  - apply try_candidate_some in Hv. now rewrite Hv.
  - apply try_candidate_none in Hn. now rewrite Hn.
Qed.

Lemma first_parse_none cands :
  Forall (fun c => (exists r, c = 123 :: r) /\ ~ JsonRepair.parses c) cands ->
  JsonRepair.first_parse cands = None.
Proof.
  induction 1 as [|c cands [(r & ->) Hn] _ IH]; cbn [JsonRepair.first_parse]; [reflexivity|].
  apply try_candidate_none in Hn. now rewrite Hn.
Qed.

Lemma not_parses_tryParse_null c :
  ~ JsonRepair.parses c -> JsonRepair.tryParseJsonWithRepairs c = Ret JNull.
Proof.
  intros Hn. destruct (tryParse_total c) as [v Hv]. rewrite Hv. f_equal.
  destruct (JSON_parse c) as [w|e] eqn:Hp.
  - destruct Hn. exists w. now left.
  - destruct v; try reflexivity; destruct Hn; eexists; right;
      (split; [eauto | split; [exact Hv | discriminate]]).
Qed.

(** Solves or splits an equation [l ++ ... = concrete list] by cases on [l]. *)
Ltac split_app :=
  repeat (simplify_list_eq;
          match goal with
          | H : (?l ++ _) ++ _ = _ |- _ => is_var l; destruct l
          | H : ?l ++ _ = _ |- _ => is_var l; destruct l
          end);
  simplify_list_eq.

(** ** The scan against the candidates of the specification *)

Section ExtractRefinement.
Import ExtractSpec.

Lemma units_from_app pre s1 s2 :
  units_from pre (s1 ++ s2) = units_from pre s1 ++ units_from (pre ++ s1) s2.
Proof.
  revert pre. induction s1 as [|c s1 IH]; intros pre; cbn [app units_from].
  - now rewrite app_nil_r.
  - rewrite IH, <- app_assoc. reflexivity.
Qed.

Lemma units_snoc pre c : units (pre ++ [c]) = units pre ++ [(pre, c)].
Proof. unfold units. now rewrite units_from_app. Qed.

Lemma escaped_after_snoc pre c :
  escaped_after (pre ++ [c]) = (c =? BACKSL) && negb (escaped_after pre).
Proof.
  unfold escaped_after. rewrite rev_app_distr. cbn [rev app run_length].
  destruct (c =? BACKSL); [|reflexivity].
  cbn [andb]. now rewrite Nat.odd_succ, <- Nat.negb_odd.
Qed.

Lemma odd_length_snoc {A} (f : A -> bool) l x :
  Nat.odd (length (List.filter f (l ++ [x])))
  = xorb (Nat.odd (length (List.filter f l))) (f x).
Proof.
  rewrite List.filter_app, length_app. cbn [List.filter].
  destruct (f x); cbn [length].
  - rewrite Nat.add_1_r, Nat.odd_succ, <- Nat.negb_odd. now destruct (Nat.odd _).
  - rewrite Nat.add_0_r. now destruct (Nat.odd _).
Qed.

Lemma in_string_after_snoc pre c :
  in_string_after (pre ++ [c]) = xorb (in_string_after pre) (string_quote (pre, c)).
Proof. unfold in_string_after. now rewrite units_snoc, odd_length_snoc. Qed.

Lemma depth_after_snoc pre c :
  depth_after (pre ++ [c])
  = (depth_after pre + (if structural 123 (pre, c) then 1 else 0)
     - (if structural 125 (pre, c) then 1 else 0))%Z.
Proof.
  unfold depth_after. rewrite units_snoc, !List.filter_app, !length_app.
  cbn [List.filter].
  destruct (structural 123 (pre, c)), (structural 125 (pre, c)); cbn [length]; lia.
Qed.

(** One turn of the loop keeps them so, and reaches [depth === 0] exactly
    at a closing brace that counts and brings the depth back to zero. *)
Lemma scan_char_spec pre st c :
  scanned pre st ->
  scanned (pre ++ [c]) (fst (JsonRepair.scan_char st c))
  /\ snd (JsonRepair.scan_char st c) = balanced_at (pre, c).
Proof.
  destruct st as [ins esc dep]. intros (He & Hi & Hd). cbn in He, Hi, Hd. subst.
  unfold scanned, balanced_at, JsonRepair.scan_char.
  cbn [JsonRepair.escape JsonRepair.inString JsonRepair.depth fst snd].
  rewrite depth_after_snoc, escaped_after_snoc, in_string_after_snoc.
  unfold structural, string_quote. cbn [fst snd].
  assert (Hz : forall z : Z, (z + 0 - 0 = z)%Z) by (intros; lia).
  destruct (escaped_after pre) eqn:He.
  { cbn [fst snd JsonRepair.escape JsonRepair.inString JsonRepair.depth negb].
    rewrite !andb_false_r. cbn [andb]. rewrite xorb_false_r, Hz. now repeat split. }
  cbn [negb]. rewrite !andb_true_r.
  destruct (N.eqb_spec c BACKSL) as [->|Hb].
  { cbn [fst snd JsonRepair.escape JsonRepair.inString JsonRepair.depth].
    change (BACKSL =? DQUOTE) with false. change (BACKSL =? 123) with false.
    change (BACKSL =? 125) with false. cbn [andb].
    rewrite xorb_false_r, Hz. now repeat split. }
  destruct (N.eqb_spec c DQUOTE) as [->|Hq].
  { cbn [fst snd JsonRepair.escape JsonRepair.inString JsonRepair.depth].
    change (DQUOTE =? 123) with false. change (DQUOTE =? 125) with false.
    cbn [andb]. rewrite xorb_true_r, Hz. now repeat split. }
  rewrite xorb_false_r.
  destruct (in_string_after pre) eqn:Hs; cbn [negb].
  { cbn [fst snd JsonRepair.escape JsonRepair.inString JsonRepair.depth].
    rewrite !andb_false_r. cbn [andb]. rewrite Hz. now repeat split. }
  rewrite !andb_true_r.
  destruct (N.eqb_spec c 123) as [->|Ho].
  { cbn [fst snd JsonRepair.escape JsonRepair.inString JsonRepair.depth].
    change (123 =? 125) with false. cbn [andb].
    repeat split; try reflexivity; lia. }
  destruct (N.eqb_spec c 125) as [->|Hc].
  { cbn [fst snd JsonRepair.escape JsonRepair.inString JsonRepair.depth andb].
    split; [repeat split; try reflexivity; lia|].
    f_equal. lia. }
  cbn [fst snd JsonRepair.escape JsonRepair.inString JsonRepair.depth andb].
  rewrite Hz. now repeat split.
Qed.

Lemma balanced_ends_spec a : forall rest pre st,
  scanned pre st ->
  map (fun j => firstn (S j - a) (pre ++ rest))
      (JsonRepair.balanced_ends (a + length pre) rest st)
  = map (fun u => fst u ++ [snd u]) (List.filter balanced_at (units_from pre rest)).
Proof.
  induction rest as [|c rest IH]; intros pre st Hst; [reflexivity|].
  cbn [JsonRepair.balanced_ends units_from List.filter].
  destruct (scan_char_spec pre st c Hst) as (Hnext & Hcl).
  destruct (JsonRepair.scan_char st c) as [st' cl]. cbn [fst snd] in Hnext, Hcl.
  specialize (IH (pre ++ [c]) st' Hnext).
  rewrite length_app, <- app_assoc in IH. cbn [length app] in IH.
  rewrite Nat.add_1_r, Nat.add_succ_r in IH.
  rewrite <- Hcl. destruct cl; cbn [map fst snd]; [|exact IH].
  f_equal; [|exact IH].
  replace (S (a + length pre) - a)%nat with (length (pre ++ [c]))
    by (rewrite length_app; cbn [length]; lia).
  change (pre ++ c :: rest) with (pre ++ [c] ++ rest).
  rewrite app_assoc. generalize (pre ++ [c]). intros l.
  induction l as [|x l IHl]; [now destruct rest | cbn; now f_equal].
Qed.

Lemma from_first_indexOf c s :
  match indexOf c s with
  | Some a => skipn a s = from_first c s
  | None => from_first c s = []
  end.
Proof.
  induction s as [|x s IH]; cbn [indexOf from_first]; [reflexivity|].
  destruct (x =? c); [reflexivity|].
  destruct (indexOf c s) as [a|]; exact IH.
Qed.

Lemma up_to_last_lastIndexOf c s :
  match lastIndexOf c s with
  | Some b => up_to_last c s = firstn (S b) s
  | None => up_to_last c s = []
  end.
Proof.
  induction s as [|x s IH]; cbn [lastIndexOf up_to_last]; [reflexivity|].
  destruct (lastIndexOf c s) as [b|] eqn:Hl.
  - rewrite IH. destruct s as [|y s]; [discriminate Hl|]. reflexivity.
  - rewrite IH. now destruct (x =? c).
Qed.

(** The candidates the loop tries are the candidates of the specification. *)
Lemma candidates_refine text :
  JsonRepair.balanced_candidates text = candidates text.
Proof.
  unfold JsonRepair.balanced_candidates, candidates, units.
  pose proof (from_first_indexOf 123 text) as Hf.
  destruct (indexOf 123 text) as [a|]; [|now rewrite Hf].
  rewrite <- Hf.
  rewrite <- (balanced_ends_spec a (skipn a text) [] JsonRepair.scanner0)
    by (repeat split).
  cbn [length app]. rewrite Nat.add_0_r. reflexivity.
Qed.

Lemma outermost_refine text : JsonRepair.match_braces text = outermost text.
Proof.
  unfold JsonRepair.match_braces, outermost.
  pose proof (from_first_indexOf 123 text) as Hf.
  destruct (indexOf 123 text) as [a|] eqn:Hi; [|now rewrite Hf].
  cbv zeta. rewrite Hf.
  destruct (indexOf_split _ _ _ Hi) as [tail Ht]. rewrite Hf in Ht. rewrite Ht.
  change (skipn 1 (123 :: tail)) with tail.
  pose proof (up_to_last_lastIndexOf 125 tail) as Hu.
  destruct (lastIndexOf 125 tail) as [b|] eqn:Hl; rewrite Hu; [|reflexivity].
  replace (b + 2)%nat with (S (S b)) by lia.
  destruct tail as [|y tail]; [discriminate Hl|]. reflexivity.
Qed.

Lemma plain_quote_refine c :
  JsonRepair.nbsp_to_space (JsonRepair.straighten_double (JsonRepair.straighten_single c))
  = plain_quote c.
Proof.
  unfold plain_quote, smart_single, smart_double, JsonRepair.nbsp_to_space,
    JsonRepair.straighten_double, JsonRepair.straighten_single.
  cbn [existsb].
  repeat (cbn [orb];
          match goal with
          | |- context [N.eqb c ?k] =>
              destruct (N.eqb_spec c k) as [->|?];
              [first [contradiction | vm_compute; reflexivity]|]
          end).
  reflexivity.
Qed.

Lemma normalize_refine c : JsonRepair.normalize c = normalized c.
Proof.
  unfold JsonRepair.normalize, normalized. f_equal.
  rewrite !map_map. apply map_ext. intros x. apply plain_quote_refine.
Qed.

(** What [tryParseJsonWithRepairs] returns for a string that is not empty. *)
Lemma tryParse_refine x c :
  JsonRepair.tryParseJsonWithRepairs (x :: c)
  = Ret (default JNull (read_repaired (x :: c))).
Proof.
  unfold JsonRepair.tryParseJsonWithRepairs, read_repaired. cbv zeta.
  rewrite normalize_refine.
  destruct (JSON_parse (normalized (x :: c))); cbn [try_catch]; [reflexivity|].
  change (JsonRepair.repair (normalized (x :: c))) with (repaired (normalized (x :: c))).
  destruct (JSON_parse (repaired (normalized (x :: c)))); reflexivity.
Qed.

Lemma parses_to_refine r v :
  JsonRepair.parses_to (123 :: r) v <-> parses_to (123 :: r) v.
Proof.
  unfold JsonRepair.parses_to, parses_to.
  split; (intros [H | (He & H & Hv)]; [now left | right; split; [exact He|]]).
  - destruct (tryParse_brace _ _ H) as [-> | (props & ->)]; [now destruct Hv|].
    rewrite tryParse_refine in H. injection H as H.
    destruct (read_repaired (123 :: r)) as [w|]; cbn in H; [|discriminate].
    subst w. now split.
  - rewrite tryParse_refine, H. cbn [default]. split; [reflexivity|].
    intros ->. discriminate.
Qed.

Lemma parses_refine r : JsonRepair.parses (123 :: r) <-> parses (123 :: r).
Proof. split; intros (v & Hv); exists v; now apply parses_to_refine. Qed.

End ExtractRefinement.





(** ** parseAIResponse *)

Section ParseRefinement.

Import ParseSpec.

Lemma replace_global_from_skip m k s :
  replace_global_from m k s = replace_global_from m O (skipn k s).
Proof.
  revert k. induction s as [|c s IH]; intros [|k]; try reflexivity.
  cbn [replace_global_from skipn]. apply IH.
Qed.

Lemma match_all_from_skip m k s :
  match_all_from m k s = match_all_from m O (skipn k s).
Proof.
  revert k. induction s as [|c s IH]; intros [|k]; try reflexivity.
  cbn [match_all_from skipn]. apply IH.
Qed.

(** *** The code-fence markers *)

Lemma re_code_fence_short s :
  (length s < 3)%nat -> Combine.re_code_fence s = None.
Proof.
  intros Hs. destruct s as [|a [|b [|c s]]]; cbn [length] in Hs; try lia;
    unfold Combine.re_code_fence;
    change (js "```json") with [96; 96; 96; 106; 115; 111; 110];
    change (js "```") with [96; 96; 96];
    cbn [startsWith]; rewrite ?andb_false_r; reflexivity.
Qed.

Lemma re_code_fence_three a b c after :
  Combine.re_code_fence (a :: b :: c :: after)
  = if is_fence a b c then
      match after with
      | j :: x :: o :: n :: _ =>
          if is_json_word j x o n then Some ([], 7%nat) else Some ([], 3%nat)
      | _ => Some ([], 3%nat)
      end
    else None.
Proof.
  unfold Combine.re_code_fence, is_fence, is_json_word.
  change (js "```json") with [96; 96; 96; 106; 115; 111; 110].
  change (js "```") with [96; 96; 96].
  cbn [startsWith].
  rewrite (N.eqb_sym 96 a), (N.eqb_sym 96 b), (N.eqb_sym 96 c).
  destruct (a =? 96), (b =? 96), (c =? 96); cbn [andb]; try reflexivity.
  destruct after as [|j [|x [|o [|n rest]]]]; cbn [startsWith];
    rewrite ?andb_false_r; try reflexivity.
  rewrite (N.eqb_sym 106 j), (N.eqb_sym 115 x), (N.eqb_sym 111 o), (N.eqb_sym 110 n).
  destruct rest; destruct (j =? 106), (x =? 115), (o =? 111), (n =? 110); reflexivity.
Qed.

Lemma replace_global_from_cons m c r :
  replace_global_from m O (c :: r)
  = match m (c :: r) with
    | Some (out, n) => out ++ replace_global_from m O (skipn (Nat.pred n) r)
    | None => c :: replace_global_from m O r
    end.
Proof.
  cbn [replace_global_from]. destruct (m (c :: r)) as [[out n]|]; [|reflexivity].
  now rewrite replace_global_from_skip.
Qed.

Lemma without_fences_three a b c after :
  without_fences (a :: b :: c :: after)
  = if is_fence a b c then
      match after with
      | j :: x :: o :: n :: rest =>
          if is_json_word j x o n then without_fences rest else without_fences after
      | _ => without_fences after
      end
    else a :: without_fences (b :: c :: after).
Proof. reflexivity. Qed.

Lemma without_fences_refine_le n s :
  (length s <= n)%nat ->
  replace_global Combine.re_code_fence s = without_fences s.
Proof.
  unfold replace_global. revert s.
  induction n as [|n IH]; intros s Hn.
  - destruct s; [reflexivity | cbn [length] in Hn; lia].
  - destruct s as [|a [|b [|c after]]]; [reflexivity| | |].
    + rewrite replace_global_from_cons.
      now rewrite re_code_fence_short by (cbn; lia).
    + rewrite !replace_global_from_cons.
      rewrite !re_code_fence_short by (cbn; lia). reflexivity.
    + cbn [length] in Hn.
      rewrite replace_global_from_cons, without_fences_three, re_code_fence_three.
      destruct (is_fence a b c).
      * destruct after as [|j [|x [|o [|k rest]]]];
          try (cbn [app Nat.pred skipn]; apply IH; cbn [length] in *; lia).
        destruct (is_json_word j x o k);
          cbn [app Nat.pred skipn]; apply IH; cbn [length] in *; lia.
      * f_equal. apply IH. cbn [length]. lia.
Qed.

Lemma clean_refine text : Combine.clean text = cleaned text.
Proof.
  unfold Combine.clean, cleaned.
  now rewrite (without_fences_refine_le (length text)).
Qed.

(** *** Whitespace at the end of a text *)

Lemma drop_spaces_app a b :
  drop_spaces (a ++ b)
  = if Combine.all_space a then drop_spaces b else drop_spaces a ++ b.
Proof.
  induction a as [|x a IH]; cbn [app drop_spaces Combine.all_space forallb];
    [reflexivity|].
  destruct (is_space x); [exact IH | reflexivity].
Qed.

Lemma drop_spaces_nil a : drop_spaces a = [] -> Combine.all_space a = true.
Proof.
  induction a as [|x a IH]; cbn [drop_spaces Combine.all_space forallb];
    [reflexivity|].
  destruct (is_space x); [exact IH | discriminate].
Qed.

Lemma all_space_drop a : Combine.all_space a = true -> drop_spaces a = [].
Proof.
  induction a as [|x a IH]; cbn [drop_spaces Combine.all_space forallb];
    [reflexivity|].
  destruct (is_space x); [exact IH | discriminate].
Qed.

Lemma all_space_rev a : Combine.all_space (rev a) = Combine.all_space a.
Proof.
  unfold Combine.all_space.
  apply eq_true_iff_eq. rewrite !forallb_forall.
  split; intros H x Hx; apply H;
    [exact (proj1 (in_rev _ _) Hx) | exact (proj2 (in_rev _ _) Hx)].
Qed.

Lemma trimEnd_step x r :
  trimEnd (x :: r)
  = if Combine.all_space r then (if is_space x then [] else [x])
    else x :: trimEnd r.
Proof.
  unfold trimEnd. cbn [rev]. rewrite drop_spaces_app, all_space_rev.
  destruct (Combine.all_space r).
  - cbn [drop_spaces]. now destruct (is_space x).
  - rewrite rev_app_distr. reflexivity.
Qed.

Lemma trimEnd_nil r : trimEnd r = [] -> Combine.all_space r = true.
Proof.
  unfold trimEnd. intros H.
  rewrite <- all_space_rev. apply drop_spaces_nil.
  apply (f_equal (@rev N)) in H. now rewrite rev_involutive in H.
Qed.

Lemma before_final_hit c r :
  is_space c = false -> Combine.all_space r = true ->
  before_final c (c :: r) = Some [].
Proof.
  intros Hc Hr. unfold before_final.
  rewrite trimEnd_step, Hr, Hc. cbn [rev app]. now rewrite N.eqb_refl.
Qed.

Lemma before_final_cons c x r :
  (x =? c) && Combine.all_space r = false ->
  before_final c (x :: r) = option_map (cons x) (before_final c r).
Proof.
  intros H. unfold before_final. rewrite trimEnd_step.
  destruct (Combine.all_space r) eqn:Hr.
  - rewrite andb_true_r in H.
    unfold trimEnd. rewrite (all_space_drop (rev r)) by now rewrite all_space_rev.
    cbn [rev]. destruct (is_space x); cbn [rev app]; [reflexivity|].
    now rewrite H.
  - destruct (rev (trimEnd r)) as [|y t] eqn:Ht.
    + apply (f_equal (@rev N)) in Ht. rewrite rev_involutive in Ht.
      apply trimEnd_nil in Ht. congruence.
    + cbn [rev]. rewrite Ht. cbn [app].
      destruct (y =? c); [|reflexivity].
      cbn [option_map]. now rewrite rev_app_distr.
Qed.

(** An expression anchored at the end of the text: the code unit [c],
    whitespace, the end. *)
Lemma replace_first_at_end (m : matcher) c out :
  is_space c = false ->
  (forall x r, m (x :: r)
               = if (x =? c) && Combine.all_space r
                 then Some (out, length (x :: r)) else None) ->
  forall s, replace_first m s
            = match before_final c s with
              | Some b => b ++ out
              | None => s
              end.
Proof.
  intros Hc Hm s. induction s as [|x r IH]; [reflexivity|].
  cbn [replace_first]. rewrite Hm.
  destruct ((x =? c) && Combine.all_space r) eqn:Hx.
  - apply andb_prop in Hx as [Hxc Hr]. apply N.eqb_eq in Hxc as ->.
    rewrite before_final_hit by assumption.
    rewrite skipn_all. cbn [app]. apply app_nil_r.
  - rewrite before_final_cons by exact Hx. rewrite IH.
    now destruct (before_final c r).
Qed.

Lemma array_fixes_refine piece :
  Combine.attempts piece = array_fixes piece.
Proof.
  unfold Combine.attempts, array_fixes, without_final.
  rewrite (replace_first_at_end Combine.re_comma_at_end 44 [])
    by (reflexivity || (intros x r; reflexivity)).
  rewrite (replace_first_at_end Combine.re_bracket_at_end 93 [])
    by (reflexivity || (intros x r; reflexivity)).
  rewrite (replace_first_at_end Combine.re_brace_at_end 125 [125; 93])
    by (reflexivity || (intros x r; reflexivity)).
  destruct (before_final 44 piece), (before_final 93 piece);
    cbn [default]; rewrite ?app_nil_r; reflexivity.
Qed.

(** *** The array piece *)

Lemma lastIndexOf_lt c s b : lastIndexOf c s = Some b -> (b < length s)%nat.
Proof.
  revert b. induction s as [|x s IH]; intros b; cbn [lastIndexOf length];
    [discriminate|].
  destruct (lastIndexOf c s) as [i|].
  - intros [= <-]. specialize (IH i eq_refl). lia.
  - destruct (x =? c); [intros [= <-]; lia | discriminate].
Qed.

Lemma lastIndexOf_app c p q :
  lastIndexOf c (p ++ q)
  = match lastIndexOf c q with
    | Some b => Some (length p + b)%nat
    | None => lastIndexOf c p
    end.
Proof.
  induction p as [|x p IH]; cbn [app lastIndexOf length].
  - now destruct (lastIndexOf c q).
  - rewrite IH. now destruct (lastIndexOf c q).
Qed.

Lemma indexOf_lt c s a : indexOf c s = Some a -> (a < length s)%nat.
Proof.
  revert a. induction s as [|x s IH]; intros a; cbn [indexOf length];
    [discriminate|].
  destruct (x =? c); [intros [= <-]; lia|].
  destruct (indexOf c s) as [i|]; [|discriminate].
  intros [= <-]. specialize (IH i eq_refl). lia.
Qed.

Lemma array_piece_refine s : Combine.array_candidate s = array_piece s.
Proof.
  unfold Combine.array_candidate, array_piece.
  pose proof (from_first_indexOf 91 s) as Hf.
  destruct (indexOf 91 s) as [a|] eqn:Hi.
  2:{ rewrite Hf. reflexivity. }
  destruct (indexOf_split _ _ _ Hi) as [t Ht].
  rewrite <- Hf, Ht.
  pose proof (indexOf_lt _ _ _ Hi) as Ha.
  assert (Hs : s = firstn a s ++ 91 :: t) by now rewrite <- Ht, firstn_skipn.
  assert (Hlen : length (firstn a s) = a) by (rewrite length_firstn; lia).
  pose proof (up_to_last_lastIndexOf 93 t) as Hu.
  rewrite Hs at 1. rewrite lastIndexOf_app. cbn [lastIndexOf].
  destruct (lastIndexOf 93 t) as [i|] eqn:Hl.
  - rewrite Hlen.
    replace (a <? a + S i)%nat with true by (symmetry; apply Nat.ltb_lt; lia).
    unfold substring. rewrite Ht, Hu.
    replace (S (a + S i) - a)%nat with (S (S i)) by lia.
    destruct t as [|y t]; [discriminate Hl|]. reflexivity.
  - change (91 =? 93) with false. cbv iota. rewrite Hu.
    destruct (lastIndexOf 93 (firstn a s)) as [e|] eqn:He.
    + apply lastIndexOf_lt in He. rewrite Hlen in He.
      replace (a <? e)%nat with false by (symmetry; apply Nat.ltb_ge; lia).
      exact Ht.
    + exact Ht.
Qed.

(** *** The lines *)

Lemma skipn_run_length s : skipn (run_length is_space s) s = drop_spaces s.
Proof.
  induction s as [|c s IH]; cbn [run_length drop_spaces]; [reflexivity|].
  destruct (is_space c); [exact IH | reflexivity].
Qed.

Lemma run_length_spaces ws s :
  Combine.all_space ws = true ->
  run_length is_space (ws ++ s) = (length ws + run_length is_space s)%nat.
Proof.
  induction ws as [|c ws IH]; cbn [Combine.all_space forallb app run_length length];
    [reflexivity|].
  destruct (is_space c); [|discriminate].
  intros H. now rewrite (IH H).
Qed.

Lemma lines_refine s : Combine.ndjson_lines s = lines s.
Proof.
  unfold Combine.ndjson_lines, lines. apply List.filter_ext.
  intros [|c l]; [reflexivity|].
  unfold Combine.nonempty, opens_value. cbn [startsWith andb].
  rewrite (N.eqb_sym 123 c), (N.eqb_sym 91 c).
  now destruct l; rewrite !andb_true_r.
Qed.

Lemma re_comma_brace_snoc x body z :
  Combine.re_comma_brace_at_end (x :: body ++ [z])
  = if (x =? 44) && Combine.all_space body && (z =? 125)
    then Some ([125], length (x :: body ++ [z])) else None.
Proof.
  unfold Combine.re_comma_brace_at_end.
  destruct (x =? 44); [|reflexivity]. cbn [andb].
  rewrite skipn_run_length, drop_spaces_app.
  destruct (Combine.all_space body) eqn:Hb; cbn [andb].
  - cbn [drop_spaces]. destruct (is_space z) eqn:Hz.
    + destruct (N.eqb_spec z 125) as [->|_]; [discriminate Hz | reflexivity].
    + reflexivity.
  - destruct (drop_spaces body) as [|y t] eqn:Hd.
    + apply drop_spaces_nil in Hd. congruence.
    + destruct t; reflexivity.
Qed.

Lemma comma_brace_snoc body z :
  replace_first Combine.re_comma_brace_at_end (body ++ [z])
  = if z =? 125 then
      match before_final 44 body with
      | Some b => b ++ [125]
      | None => body ++ [z]
      end
    else body ++ [z].
Proof.
  induction body as [|x body IH].
  - cbn [app replace_first]. unfold Combine.re_comma_brace_at_end.
    cbn [run_length skipn]. destruct (z =? 44), (z =? 125); reflexivity.
  - cbn [app replace_first]. rewrite re_comma_brace_snoc.
    destruct ((x =? 44) && Combine.all_space body && (z =? 125)) eqn:Hx.
    + apply andb_prop in Hx as [Hx Hz]. apply andb_prop in Hx as [Hx Hb].
      apply N.eqb_eq in Hx as ->. rewrite Hz.
      rewrite before_final_hit by (reflexivity || assumption).
      now rewrite skipn_all.
    + rewrite IH. destruct (z =? 125) eqn:Hz; [|reflexivity].
      rewrite andb_true_r in Hx.
      rewrite (before_final_cons 44 x body) by exact Hx.
      now destruct (before_final 44 body).
Qed.

Lemma comma_brace_refine line :
  replace_first Combine.re_comma_brace_at_end line = without_comma_before_brace line.
Proof.
  unfold without_comma_before_brace.
  destruct (rev line) as [|z r] eqn:Hr.
  - apply (f_equal (@rev N)) in Hr. rewrite rev_involutive in Hr. now subst line.
  - apply (f_equal (@rev N)) in Hr. rewrite rev_involutive in Hr. cbn [rev] in Hr.
    subst line. apply comma_brace_snoc.
Qed.

(** *** The seams *)

Lemma re_bracket_seam_other c r :
  (c =? 93) = false -> Combine.re_bracket_seam (c :: r) = None.
Proof. unfold Combine.re_bracket_seam. now intros ->. Qed.

Lemma re_bracket_seam_held ws c r :
  Combine.all_space ws = true -> is_space c = false ->
  Combine.re_bracket_seam (93 :: ws ++ c :: r)
  = if c =? 91 then Some ([44], S (S (length ws))) else None.
Proof.
  intros Hws Hc. unfold Combine.re_bracket_seam.
  change (93 =? 93) with true. cbv iota.
  rewrite skipn_run_length, drop_spaces_app, Hws.
  rewrite (run_length_spaces ws (c :: r) Hws).
  cbn [drop_spaces run_length]. rewrite Hc, Nat.add_0_r. reflexivity.
Qed.

Lemma seam_spaces ws s :
  Combine.all_space ws = true ->
  replace_global_from Combine.re_bracket_seam O (ws ++ s)
  = ws ++ replace_global_from Combine.re_bracket_seam O s.
Proof.
  induction ws as [|c ws IH]; cbn [Combine.all_space forallb app]; [reflexivity|].
  destruct (is_space c) eqn:Hc; [|discriminate]. intros Hws.
  rewrite replace_global_from_cons, re_bracket_seam_other.
  - f_equal. exact (IH Hws).
  - destruct (N.eqb_spec c 93) as [->|_]; [discriminate Hc | reflexivity].
Qed.

Lemma skipn_past ws (c : N) r : skipn (S (length ws)) (ws ++ c :: r) = r.
Proof. induction ws as [|x ws IH]; [reflexivity | exact IH]. Qed.

Lemma join_seams_both s :
  (forall ws, Combine.all_space ws = true ->
     replace_global_from Combine.re_bracket_seam O (93 :: ws ++ s)
     = join_seams (Some (93 :: ws)) s)
  /\ replace_global_from Combine.re_bracket_seam O s = join_seams None s.
Proof.
  induction s as [|c r [IHheld IHnone]].
  - split; [|reflexivity].
    intros ws Hws. rewrite app_nil_r.
    change (join_seams (Some (93 :: ws)) []) with (93 :: ws).
    rewrite replace_global_from_cons.
    assert (Hm : Combine.re_bracket_seam (93 :: ws) = None).
    { unfold Combine.re_bracket_seam. change (93 =? 93) with true. cbv iota.
      rewrite skipn_run_length, (all_space_drop ws Hws). reflexivity. }
    rewrite Hm. f_equal.
    rewrite <- (app_nil_r ws) at 1. rewrite seam_spaces by exact Hws.
    apply app_nil_r.
  - split.
    + intros ws Hws. cbn [join_seams].
      destruct (is_space c) eqn:Hc.
      * destruct (N.eqb_spec c 91) as [->|_]; [discriminate Hc|].
        change ((93 :: ws) ++ [c]) with (93 :: (ws ++ [c])).
        rewrite <- (IHheld (ws ++ [c])).
        -- now rewrite <- app_assoc.
        -- unfold Combine.all_space in *. rewrite forallb_app, Hws.
           cbn [forallb andb]. now rewrite Hc.
      * rewrite replace_global_from_cons, re_bracket_seam_held by assumption.
        destruct (N.eqb_spec c 91) as [->|Hne].
        -- cbn [Nat.pred app]. rewrite skipn_past. now rewrite IHnone.
        -- rewrite seam_spaces by exact Hws. cbn [app].
           destruct (N.eqb_spec c 93) as [->|Hne'].
           ++ now rewrite <- (IHheld [] eq_refl).
           ++ rewrite replace_global_from_cons, re_bracket_seam_other
                by (now apply N.eqb_neq).
              now rewrite IHnone.
    + cbn [join_seams]. destruct (N.eqb_spec c 93) as [->|Hne].
      * exact (IHheld [] eq_refl).
      * rewrite replace_global_from_cons, re_bracket_seam_other
          by (now apply N.eqb_neq).
        now rewrite IHnone.
Qed.

Lemma join_seams_refine s :
  replace_global Combine.re_bracket_seam s = join_seams None s.
Proof. apply join_seams_both. Qed.

(** *** The objects taken out of the text *)

Lemma before_object_or_end_refine r :
  Combine.before_object_or_end r = object_may_end r.
Proof.
  unfold Combine.before_object_or_end, object_may_end, trimStart.
  now rewrite skipn_run_length.
Qed.

Lemma object_pieces_inside p s :
  object_pieces (Some p) s
  = match Combine.lazy_object_end s with
    | Some n => (p ++ firstn (S n) s) :: object_pieces None (skipn (S n) s)
    | None => []
    end.
Proof.
  revert p. induction s as [|c r IH]; intros p; [reflexivity|].
  cbn [object_pieces Combine.lazy_object_end].
  rewrite before_object_or_end_refine.
  destruct ((c =? 125) && object_may_end r); [reflexivity|].
  rewrite IH. destruct (Combine.lazy_object_end r) as [n|]; [|reflexivity].
  cbn [option_map firstn skipn]. now rewrite <- app_assoc.
Qed.

Lemma re_lazy_object_cons c r :
  Combine.re_lazy_object (c :: r)
  = if c =? 123 then option_map (fun n => S (S n)) (Combine.lazy_object_end r)
    else None.
Proof. reflexivity. Qed.

Lemma no_object_end r :
  Combine.lazy_object_end r = None ->
  match_all_from Combine.re_lazy_object O r = [].
Proof.
  induction r as [|x r IH]; [reflexivity|].
  cbn [Combine.lazy_object_end].
  destruct ((x =? 125) && Combine.before_object_or_end r); [discriminate|].
  destruct (Combine.lazy_object_end r) as [n|] eqn:Hr; [discriminate|].
  intros _. cbn [match_all_from]. rewrite re_lazy_object_cons.
  rewrite Hr. cbn [option_map]. rewrite (IH eq_refl).
  now destruct (x =? 123).
Qed.

Lemma object_pieces_refine_le n s :
  (length s <= n)%nat ->
  match_all_from Combine.re_lazy_object O s = object_pieces None s.
Proof.
  revert s. induction n as [|n IH]; intros s Hn.
  - destruct s; [reflexivity | cbn [length] in Hn; lia].
  - destruct s as [|c r]; [reflexivity|]. cbn [length] in Hn.
    cbn [match_all_from object_pieces]. rewrite re_lazy_object_cons.
    destruct (c =? 123).
    + rewrite object_pieces_inside.
      destruct (Combine.lazy_object_end r) as [k|] eqn:Hk; cbn [option_map].
      * cbn [Nat.pred]. rewrite match_all_from_skip.
        rewrite IH by (rewrite length_skipn; lia). reflexivity.
      * now apply no_object_end.
    + apply IH. lia.
Qed.

(** *** The values read *)

Lemma values_of_cons a l :
  values_of (a :: l)
  = match parsed a with
    | Some v => v :: values_of l
    | None => values_of l
    end.
Proof. reflexivity. Qed.

Lemma parsed_of_refine l : Combine.parsed_of l = values_of l.
Proof.
  induction l as [|a l IH]; [reflexivity|].
  cbn [Combine.parsed_of]. rewrite values_of_cons. unfold parsed.
  destruct (JSON_parse a); now rewrite IH.
Qed.

Lemma first_parsed_refine l : Combine.first_parsed l = head (values_of l).
Proof.
  induction l as [|a l IH]; [reflexivity|].
  cbn [Combine.first_parsed]. rewrite values_of_cons. unfold parsed.
  destruct (JSON_parse a); [reflexivity | exact IH].
Qed.

Lemma array_fix_refine c :
  Combine.first_parsed (Combine.attempts (Combine.array_candidate c)) = array_fix c.
Proof.
  unfold array_fix.
  now rewrite first_parsed_refine, array_piece_refine, array_fixes_refine.
Qed.

Lemma ndjson_refine c : Combine.swallow (Combine.ndjson_block c) = ndjson c.
Proof.
  unfold Combine.ndjson_block, ndjson. rewrite lines_refine.
  destruct (lines c) as [|l0 ls]; [reflexivity|].
  destruct (startsWith l0 [91]).
  - rewrite join_seams_refine. unfold parsed.
    now destruct (JSON_parse _).
  - rewrite parsed_of_refine.
    rewrite (map_ext _ _ comma_brace_refine).
    now destruct (values_of _).
Qed.

Lemma regex_objects_refine c :
  Combine.swallow (Combine.regex_objects_block c) = regex_objects c.
Proof.
  unfold Combine.regex_objects_block, regex_objects.
  rewrite (object_pieces_refine_le (length c)) by lia.
  rewrite parsed_of_refine. now destruct (values_of _).
Qed.

Lemma wrapped_dead c e : JSON_parse c = Throw e -> wrapped c = None.
Proof. unfold wrapped, parsed. now intros ->. Qed.

Lemma parseAIResponse_fallbacks text e :
  JSON_parse (cleaned text) = Throw e ->
  Combine.parseAIResponse (JStr text) =
  match first_success (fallbacks (cleaned text)) with
  | Some v => Ret v
  | None => Throw (Error "Failed to parse API response")
  end.
Proof.
  intros He. unfold Combine.parseAIResponse, fallbacks.
  cbv zeta. rewrite clean_refine, He.
  rewrite (wrapped_dead _ _ He).
  rewrite array_fix_refine, ndjson_refine, regex_objects_refine.
  destruct (array_fix _) as [v1|]; [reflexivity|].
  cbn [first_success].
  destruct (ndjson _) as [v2|]; [reflexivity|].
  destruct (regex_objects _) as [v3|]; reflexivity.
Qed.

Lemma first_success_none l :
  first_success l = None <-> Forall (fun o => o = None) l.
Proof.
  induction l as [|[v|] l IH]; cbn [first_success].
  - split; [constructor | reflexivity].
  - split; [discriminate | intros H; inversion H; discriminate].
  - rewrite IH. split; [now constructor | intros H; now inversion H].
Qed.

End ParseRefinement.

(** C3. [parseAIResponse] throws on an input that is not a string; when the
    input without its code-fence markers, trimmed, is valid JSON, it returns
    [JSON.parse] of that cleaned string; otherwise it returns the first
    success of the fallback sequence (array piece with bracket and comma
    fixes, line-by-line NDJSON, object extraction by regular expression,
    one object wrapped in an array), and it throws exactly when every
    fallback fails. The cleaned string and the fallbacks are those of
    [ParseSpec], given on the text without the expressions of the source. *)
Theorem parseAIResponse_spec :
  (forall response, (forall text, response <> JStr text) ->
     Combine.parseAIResponse response = Throw (Error "Response must be a string"))
  /\ (forall text v, JSON_parse (ParseSpec.cleaned text) = Ret v ->
        Combine.parseAIResponse (JStr text) = Ret v)
  /\ (forall text e, JSON_parse (ParseSpec.cleaned text) = Throw e ->
        Combine.parseAIResponse (JStr text) =
        match ParseSpec.first_success (ParseSpec.fallbacks (ParseSpec.cleaned text)) with
        | Some v => Ret v
        | None => Throw (Error "Failed to parse API response")
        end)
  /\ (forall text e, JSON_parse (ParseSpec.cleaned text) = Throw e ->
        ((exists err, Combine.parseAIResponse (JStr text) = Throw err) <->
         Forall (fun o => o = None) (ParseSpec.fallbacks (ParseSpec.cleaned text)))).
Proof.
  repeat split.
  - intros response Hns. destruct response; try reflexivity. now destruct (Hns s).
  - intros text v Hv. unfold Combine.parseAIResponse. cbv zeta.
    now rewrite clean_refine, Hv.
  - apply parseAIResponse_fallbacks.
  - intros (err & Herr). rewrite (parseAIResponse_fallbacks _ _ H) in Herr.
    apply first_success_none.
    destruct (ParseSpec.first_success _); [discriminate | reflexivity].
  - intros Hall%first_success_none. rewrite (parseAIResponse_fallbacks _ _ H), Hall. eauto.
Qed.

Lemma parseAIResponse_spec_witness :
  Combine.parseAIResponse (JNum (js "7")) = Throw (Error "Response must be a string")
  /\ Combine.parseAIResponse (JStr Scenario.reply_fenced_object) =
     Ret (JObj [(js "a", JNum (js "1"))])
  /\ Combine.parseAIResponse (JStr Scenario.reply_cut_array) =
     Ret (JArr [JObj [(js "a", JNum (js "1"))]])
  /\ Combine.parseAIResponse (JStr Scenario.reply_array_lines) =
     Ret (JArr [JNum (js "1"); JNum (js "2"); JNum (js "3")])
  /\ Combine.parseAIResponse (JStr Scenario.reply_object_lines) =
     Ret (JArr [JObj [(js "a", JNum (js "1"))]; JObj [(js "b", JStr (js "} {"))]])
  /\ Combine.parseAIResponse (JStr Scenario.reply_objects_in_prose) =
     Ret (JArr [JObj [(js "a", JNum (js "1"))]; JObj [(js "b", JNum (js "2"))]])
  /\ (exists err, Combine.parseAIResponse (JStr (js "no data")) = Throw err).
Proof.
  destruct parseAIResponse_spec as (Hnot & Hdirect & Hfall & Hthrow).
  split; [|split; [|split; [|split; [|split; [|split]]]]].
  - apply Hnot. discriminate.
  - apply Hdirect. vm_compute. reflexivity.
  - rewrite (Hfall _ SyntaxError); vm_compute; reflexivity.
  - rewrite (Hfall _ SyntaxError); vm_compute; reflexivity.
  - rewrite (Hfall _ SyntaxError); vm_compute; reflexivity.
  - rewrite (Hfall _ SyntaxError); vm_compute; reflexivity.
  - apply (Hthrow _ SyntaxError); [vm_compute; reflexivity|].
    vm_compute. repeat constructor.
Defined.


(** ** Stored documents *)

Lemma doc_get_set_eq key v d : doc_get key (doc_set key v d) = Some v.
Proof.
  induction d as [|[k w] d IH]; cbn [doc_set doc_get].
  - now rewrite String.eqb_refl.
  - destruct (String.eqb k key) eqn:Hk; cbn [doc_get]; now rewrite Hk.
Qed.

Lemma doc_get_set_ne key key' v d :
  key <> key' -> doc_get key' (doc_set key v d) = doc_get key' d.
Proof.
  intros Hne. induction d as [|[k w] d IH]; cbn [doc_set doc_get].
  - destruct (String.eqb_spec key key'); [contradiction | reflexivity].
  - destruct (String.eqb_spec k key) as [->|Hk]; cbn [doc_get].
    + destruct (String.eqb_spec key key'); [contradiction | reflexivity].
    + now rewrite IH.
Qed.

Lemma find_update_first {D} (matches : D -> bool) (change : D -> D) coll coll' :
  (forall d, matches d = true -> matches (change d) = true) ->
  update_first matches change coll = Some coll' ->
  exists d, find matches coll = Some d /\ find matches coll' = Some (change d).
Proof.
  intros Hkeep. revert coll'.
  induction coll as [|d coll IH]; intros coll'; cbn [update_first find]; [discriminate|].
  destruct (matches d) eqn:Hd.
  - intros [= <-]. exists d. cbn [find]. now rewrite (Hkeep _ Hd).
  - destruct (update_first matches change coll) as [c|]; [|discriminate].
    intros [= <-]. destruct (IH c eq_refl) as (d0 & H1 & H2).
    exists d0. cbn [find]. now rewrite Hd.
Qed.

Lemma find_update_first_none {D} (matches : D -> bool) (change : D -> D) coll :
  update_first matches change coll = None -> find matches coll = None.
Proof.
  induction coll as [|d coll IH]; cbn [update_first find]; [reflexivity|].
  destruct (matches d); [discriminate|].
  destruct (update_first matches change coll); [discriminate | auto].
Qed.

Lemma find_app_none {D} (matches : D -> bool) coll fresh :
  find matches coll = None -> matches fresh = true ->
  find matches (coll ++ [fresh]) = Some fresh.
Proof.
  intros Hn Hf. induction coll as [|d coll IH]; cbn [find app] in *.
  - now rewrite Hf.
  - destruct (matches d); [discriminate | auto].
Qed.

(** After an upsert whose change keeps the filter true, [findOne] with the
    same filter returns a changed document. *)
Lemma find_upsert {D} (matches : D -> bool) (change : D -> D) fresh coll :
  (forall d, matches d = true -> matches (change d) = true) ->
  matches fresh = true ->
  exists d, find matches (upsert matches change fresh coll) = Some d
            /\ (d = fresh \/ exists d0, d = change d0).
Proof.
  intros Hkeep Hfresh. unfold upsert.
  destruct (update_first matches change coll) as [coll'|] eqn:Hu.
  - destruct (find_update_first _ _ _ _ Hkeep Hu) as (d0 & _ & H2). eauto.
  - exists fresh. split; [|now left].
    apply find_app_none; [|exact Hfresh]. eapply find_update_first_none, Hu.
Qed.

(** ** Upload metadata and session preferences *)

Lemma jsstring_eqb_refl s : jsstring_eqb s s = true.
Proof. induction s as [|c s IH]; cbn; [reflexivity|]. now rewrite N.eqb_refl. Qed.

Lemma jsstring_eqb_eq a b : jsstring_eqb a b = true <-> a = b.
Proof.
  split; [|intros ->; apply jsstring_eqb_refl].
  revert b. induction a as [|x a IH]; intros [|y b]; cbn; try easy.
  intros [Hx Hr]%andb_prop. apply N.eqb_eq in Hx as ->. f_equal. auto.
Qed.

Section SessionPreferences.
Variable sid : list N.
Variable m : Session.SessionMetadata.
Variable t : Z.

Let fields := Session.set_fields (Session.metadata (Session.body_of sid m)) t.

Lemma session_fields_keep_filter d :
  Session.has_sessionId sid d = true ->
  Session.has_sessionId sid (doc_set_all fields d) = true.
Proof.
  unfold Session.has_sessionId, fields.
  cbv [Session.set_fields doc_set_all Session.body_of Session.metadata default
       from_option id map app fold_left fst snd].
  now rewrite !doc_get_set_ne by discriminate.
Qed.

Lemma session_fields_read d :
  let d' := doc_set_all fields d in
  doc_get "combineData" d' = Some (BJson (JBool (Session.combineData m)))
  /\ doc_get "joinType" d' = Some (BJson (JStr (Session.joinType m)))
  /\ doc_get "customPrompt" d' = Some (BJson (JStr (Session.customPrompt m))).
Proof.
  unfold fields.
  cbv [Session.set_fields doc_set_all Session.body_of Session.metadata default
       from_option id map app fold_left fst snd].
  repeat split.
  - rewrite !doc_get_set_ne by discriminate. apply doc_get_set_eq.
  - rewrite !doc_get_set_ne by discriminate. apply doc_get_set_eq.
  - rewrite doc_get_set_ne by discriminate. apply doc_get_set_eq.
Qed.

End SessionPreferences.

Lemma js_or_bool b : js_or (Some (JBool b)) (JBool false) = JBool b.
Proof. now destruct b. Qed.

Lemma js_or_string s : js_or (Some (JStr s)) (JStr []) = JStr s.
Proof. now destruct s. Qed.

Lemma session_post_saved w b d r d' :
  Session.POST w (Some b) d = (Responded r, d') ->
  status r = 200%nat ->
  exists sid,
    Session.sessionId b = Some sid /\
    sessionMetadata d' =
    upsert (Session.has_sessionId sid)
      (doc_set_all (Session.set_fields (Session.metadata b) (Session.now w)))
      (doc_set_all (Session.set_fields (Session.metadata b) (Session.now w))
         [("sessionId"%string, BJson (JStr sid))])
      (sessionMetadata d).
Proof.
  unfold Session.POST.
  destruct (Session.sessionId b) as [[|c sid0]|]; try (intros [= <- <-]; discriminate).
  destruct (Upload.falsy_string _); [intros [= <- <-]; discriminate|].
  destruct (negb _); [intros [= <- <-]; discriminate|].
  intros H _. exists (c :: sid0). split; [reflexivity|].
  injection H as _ <-. reflexivity.
Qed.

Lemma preferences_read_back w sid m d r d' :
  Session.POST w (Some (Session.body_of sid m)) d = (Responded r, d') ->
  status r = 200%nat ->
  CombineRoute.read_preferences sid d' =
  (JBool (Session.combineData m), JStr (Session.joinType m), JStr (Session.customPrompt m)).
Proof.
  intros Hpost Hok.
  destruct (session_post_saved _ _ _ _ _ Hpost Hok) as (sid' & [= <-] & Hsaved).
  unfold CombineRoute.read_preferences, CombineRoute.find_session. rewrite Hsaved.
  set (fields := Session.set_fields _ _).
  destruct (find_upsert (Session.has_sessionId sid) (doc_set_all fields)
              (doc_set_all fields [("sessionId"%string, BJson (JStr sid))])
              (sessionMetadata d)) as (doc & -> & Hdoc).
  - apply session_fields_keep_filter.
  - apply session_fields_keep_filter. unfold Session.has_sessionId. cbn [doc_get].
    rewrite String.eqb_refl. apply jsstring_eqb_refl.
  - assert (Hread : exists d0, doc = doc_set_all fields d0) by (destruct Hdoc as [->|[d0 ->]]; eauto).
    destruct Hread as (d0 & ->).
    destruct (session_fields_read sid m (Session.now w) d0) as (H1 & H2 & H3).
    unfold CombineRoute.read_combineData, CombineRoute.read_joinType,
      CombineRoute.read_customPrompt, CombineRoute.pref.
    fold fields in H1, H2, H3.
    rewrite H1, H2, H3. now rewrite js_or_bool, !js_or_string.
Qed.

Lemma preferences_default sid d :
  CombineRoute.find_session sid d = None ->
  CombineRoute.read_preferences sid d = (JBool false, JStr [], JStr []).
Proof. unfold CombineRoute.read_preferences. now intros ->. Qed.

Lemma upload_records_metadata w req d r d' :
  Upload.POST w req d = (Responded r, d') ->
  status r = 200%nat ->
  exists userId sessionId name bytes doc,
    Upload.auth_userId req = Some userId
    /\ Upload.form_sessionId req = Some sessionId
    /\ Upload.form_file req = Some (name, bytes)
    /\ files d' = files d ++ [doc]
    /\ file_bytes doc = bytes
    /\ meta_userId (file_metadata doc) = userId
    /\ meta_uploadedAt (file_metadata doc) = Upload.now w
    /\ meta_sessionId (file_metadata doc) = sessionId.
Proof.
  unfold Upload.POST.
  destruct (Upload.auth_userId req) as [[|u uid]|]; try (intros [= <- <-]; discriminate).
  destruct (Upload.falsy_string _); [intros [= <- <-]; discriminate|].
  destruct (negb (Upload.connects w)); [intros [= <- <-]; discriminate|].
  destruct (Upload.formData_fails w); [intros [= <- <-]; discriminate|].
  destruct (Upload.form_file req) as [[name bytes]|]; [|intros [= <- <-]; discriminate].
  destruct (Upload.form_sessionId req) as [[|s sid]|]; try (intros [= <- <-]; discriminate).
  destruct (negb (Upload.validExtensions name)); [intros [= <- <-]; discriminate|].
  destruct (negb (Upload.stream_finishes w)); [intros [= <- <-]; discriminate|].
  cbv zeta.
  destruct (Upload.count_fails w); [intros [= <- <-]; discriminate|].
  intros [= <- <-] _. cbn [files].
  eexists _, _, _, _, _. repeat split.
Qed.



(** ** The combine route and its reuse of an earlier result *)

Lemma In_insert_sorted {A} (leb : A -> A -> bool) x y l :
  In y (insert_sorted leb x l) <-> y = x \/ In y l.
Proof.
  induction l as [|z l IH]; cbn [insert_sorted In].
  - intuition.
  - destruct (leb x z); cbn [In]; [intuition|]. rewrite IH. intuition.
Qed.

Lemma In_sort_by {A} (leb : A -> A -> bool) y l : In y (sort_by leb l) <-> In y l.
Proof.
  unfold sort_by. induction l as [|x l IH]; cbn [fold_right In]; [reflexivity|].
  rewrite In_insert_sorted, IH. intuition.
Qed.

(** The route reuses a combined file only if the file is itself one of the
    files whose ids were joined: its own id is among its recorded sources. *)
Lemma reuse_lists_itself userId sid t d existing :
  CombineRoute.existingCombinedFile userId sid
    (CombineRoute.fileIds_of (CombineRoute.recentFiles userId sid t d)) d = Some existing ->
  (meta_uploadedAt (file_metadata existing) <= t)%Z ->
  meta_sourceFileIds (file_metadata existing)
    = Some (CombineRoute.fileIds_of (CombineRoute.recentFiles userId sid t d))
  /\ In (file_id existing) (map file_id (CombineRoute.recentFiles userId sid t d)).
Proof.
  unfold CombineRoute.existingCombinedFile. intros Hfind Ht.
  apply find_some in Hfind as [Hin Hp].
  apply andb_prop in Hp as [Hp _]. apply andb_prop in Hp as [Hp Hsrc].
  apply andb_prop in Hp as [Hu Hs].
  split.
  - destruct (meta_sourceFileIds _) as [ids|]; [|discriminate].
    now apply jsstring_eqb_eq in Hsrc as ->.
  - apply in_map. unfold CombineRoute.recentFiles. apply In_sort_by.
    apply filter_In. split; [exact Hin|].
    rewrite Hu, Hs. cbn [andb]. now apply Z.leb_le.
Qed.

(** C6 on the code: after two uploads, a first POST to the combine endpoint
    stores a combined file that records the user, the session and the sorted
    ids of the two uploads; a second POST for the same session, with nothing
    uploaded in between, does not return that file: it sends a second prompt
    to the model and stores another combined file. *)
Theorem combine_twice_stores_twice :
  fst Scenario.first_combine =
    Responded {| status := 200; body := JObj [(str "fileId", JStr Scenario.id3)] |}
  /\ (exists f,
        files (CombineRoute.db (snd Scenario.first_combine)) !! 2%nat = Some f
        /\ file_id f = Scenario.id3
        /\ meta_isCombined (file_metadata f) = true
        /\ meta_userId (file_metadata f) = Scenario.user1
        /\ meta_sessionId (file_metadata f) = Scenario.sess1
        /\ meta_sourceFileIds (file_metadata f)
           = Some (join_comma (sort_by jsstring_leb [Scenario.id2; Scenario.id1])))
  /\ fst Scenario.second_combine =
       Responded {| status := 200; body := JObj [(str "fileId", JStr Scenario.id4)] |}
  /\ length (CombineRoute.model_calls (snd Scenario.first_combine)) = 1%nat
  /\ length (CombineRoute.model_calls (snd Scenario.second_combine)) = 2%nat
  /\ map file_id (files (CombineRoute.db (snd Scenario.second_combine)))
     = [Scenario.id1; Scenario.id2; Scenario.id3; Scenario.id4].
Proof.
  split; [vm_compute; reflexivity|].
  split.
  - eexists. split; [vm_compute; reflexivity|]. repeat split.
  - repeat split; vm_compute; reflexivity.
Qed.

(** With CSV uploads the first POST never reaches the model: reading the
    first file throws, the handler rejects, nothing is stored and the lock
    of the session stays; the second POST is answered 429. *)
Example combine_of_csv_uploads_rejects :
  fst Scenario.first_combine_csv = Rejected ReferenceError
  /\ CombineRoute.model_calls (snd Scenario.first_combine_csv) = []
  /\ CombineRoute.db (snd Scenario.first_combine_csv) = Scenario.two_uploads
  /\ Scenario.sess1 ∈ CombineRoute.processingLocks (snd Scenario.first_combine_csv)
  /\ (exists b, fst Scenario.second_combine_csv = Responded (Build_Response 429 b)).
Proof.
  split; [vm_compute; reflexivity|].
  split; [vm_compute; reflexivity|].
  split; [vm_compute; reflexivity|].
  split; [|eexists; vm_compute; reflexivity].
  unfold Scenario.first_combine_csv, CombineRoute.POST. cbn. set_solver.
Qed.

(** ** The margin pipeline *)

Section Pipeline.
Import Orchestrator.
Variable w : World.
Variable p : Props.

Lemma steps_length : length MARGIN_STEPS = 5%nat.
Proof. reflexivity. Qed.

Lemma steps_ids_NoDup : NoDup (map id MARGIN_STEPS).
Proof. apply (bool_decide_unpack (NoDup (map id MARGIN_STEPS))). vm_compute. exact I. Qed.

(** [runStep] is the chain over the steps from its index on. *)
Lemma runStep_from_run_steps fuel : forall i st,
  (i + fuel = length MARGIN_STEPS)%nat ->
  runStep_from fuel w p i st = run_steps w p (drop i MARGIN_STEPS) st.
Proof.
  induction fuel as [|fuel IH]; intros i st Hi.
  - assert (i = 5%nat) as -> by (rewrite steps_length in Hi; lia). reflexivity.
  - assert (Hlt : (i < length MARGIN_STEPS)%nat) by lia.
    destruct (lookup_lt_is_Some_2 _ _ Hlt) as [step Hstep].
    rewrite (drop_S _ _ _ Hstep).
    cbn [runStep_from run_steps]. rewrite Hstep.
    replace (length MARGIN_STEPS - length (step :: drop (S i) MARGIN_STEPS))%nat with i
      by (cbn [length]; rewrite length_drop; lia).
    destruct (attempt w p step _) as [o st2].
    destruct (settle_step _ _ _) as [st' [|]]; [|reflexivity].
    apply IH. lia.
Qed.

Lemma runStep_run_steps i st :
  (i <= length MARGIN_STEPS)%nat ->
  runStep w p i st = run_steps w p (drop i MARGIN_STEPS) st.
Proof. intros Hi. unfold runStep. apply runStep_from_run_steps. lia. Qed.

(** What settling one step changes. *)
Lemma settle_step_frame step o st st' ok :
  settle_step step o st = (st', ok) ->
  issued st' = issued st /\ saves st' = saves st /\ server st' = server st
  /\ completed st' = completed st /\ uncaught st' = uncaught st
  /\ forall key, key <> id step ->
       stepResults st' !! key = stepResults st !! key
       /\ accumRef st' !! key = accumRef st !! key.
Proof.
  unfold settle_step. intros H.
  assert (Hne : forall key r v, key <> id step ->
            stepResults (set_step (id step) r (set_accum (id step) v st)) !! key
              = stepResults st !! key
            /\ accumRef (set_step (id step) r (set_accum (id step) v st)) !! key
              = accumRef st !! key).
  { intros key r v Hk. cbn. now rewrite !lookup_insert_ne by congruence. }
  assert (Hne' : forall key r, key <> id step ->
            stepResults (set_step (id step) r st) !! key = stepResults st !! key
            /\ accumRef (set_step (id step) r st) !! key = accumRef st !! key).
  { intros key r Hk. cbn. now rewrite lookup_insert_ne by congruence. }
  destruct o as [e|code text].
  - injection H as <- <-. repeat split; try reflexivity; now apply Hne'.
  - destruct (negb (response_ok code)).
    + injection H as <- <-. repeat split; try reflexivity; now apply Hne'.
    + destruct (summary_values _ _); injection H as <- <-;
        repeat split; try reflexivity; now apply Hne.
Qed.

Lemma summary_values_not_null key v vals : summary_values key v = Ret vals -> v <> JNull.
Proof. now destruct v. Qed.

Lemma settle_step_ok step o st st' :
  settle_step step o st = (st', true) ->
  step_succeeds step o = true
  /\ exists code text vals,
       o = HttpResponse code text /\ response_ok code = true
       /\ parse_body text <> JNull
       /\ accumRef st' !! id step = Some (parse_body text)
       /\ stepResults st' !! id step =
          Some {| status := st_success; data := Some (parse_body text);
                  error := None; summary := Some vals |}.
Proof.
  unfold settle_step, step_succeeds.
  destruct o as [e|code text]; [discriminate|].
  destruct (response_ok code) eqn:Hok; cbn [negb andb]; [|discriminate].
  destruct (summary_values _ _) as [vals|e] eqn:Hs; [|discriminate].
  intros [= <-]. split; [reflexivity|].
  exists code, text, vals.
  split; [reflexivity|]. split; [exact Hok|].
  split; [eapply summary_values_not_null, Hs|].
  split; cbn; apply lookup_insert_eq.
Qed.

Lemma settle_step_failed step o st st' :
  settle_step step o st = (st', false) ->
  step_succeeds step o = false /\ status_at st' step = Some st_error.
Proof.
  unfold settle_step, step_succeeds, status_at.
  destruct o as [e|code text].
  - intros [= <-]. cbn. now rewrite lookup_insert_eq.
  - destruct (response_ok code); cbn [negb andb].
    + destruct (summary_values _ _); [discriminate|].
      intros [= <-]. cbn. now rewrite lookup_insert_eq.
    + intros [= <-]. cbn. now rewrite lookup_insert_eq.
Qed.

Lemma finalize_frame st :
  issued (finalizeAndReturn w p st) = issued st
  /\ stepResults (finalizeAndReturn w p st) = stepResults st
  /\ accumRef (finalizeAndReturn w p st) = accumRef st.
Proof.
  unfold finalizeAndReturn.
  destruct (finalResults _ _ _); [|easy].
  destruct (runId p) as [[|c r]|]; easy.
Qed.

Lemma requests_of_cons s l : requests_of p (s :: l) = requests_of p [s] ++ requests_of p l.
Proof. unfold requests_of. cbn [flat_map]. now rewrite app_nil_r. Qed.

Lemma requests_of_app l1 l2 : requests_of p (l1 ++ l2) = requests_of p l1 ++ requests_of p l2.
Proof. unfold requests_of. apply flat_map_app. Qed.

(** A step whose [try] block succeeds had its request built. *)
Lemma succeeds_request n s :
  step_succeeds s (outcome_of w p n s) = true ->
  exists r, step_request p s = Ret r /\ requests_of p [s] = [r]
            /\ step_succeeds s (reply w n r) = true.
Proof.
  unfold outcome_of, requests_of. cbn [flat_map].
  destruct (step_request p s) as [r|e]; [|discriminate]. eauto.
Qed.

Lemma start_step_frame step k st :
  let st1 := set_step (id step) (result_of st_loading) (set_current k st) in
  exists st2,
    attempt w p step st1 = (outcome_of w p (length (issued st)) step, st2)
    /\ issued st2 = issued st ++ requests_of p [step]
    /\ same_outside st st2
    /\ accumRef st2 = accumRef st
    /\ forall key, key <> id step -> stepResults st2 !! key = stepResults st !! key.
Proof.
  cbv zeta. unfold attempt, outcome_of, requests_of. cbn [flat_map].
  destruct (step_request p step) as [r|e]; eexists; (split; [reflexivity|]); cbn.
  - repeat split. intros key Hk. now rewrite lookup_insert_ne by congruence.
  - rewrite app_nil_r. repeat split. intros key Hk. now rewrite lookup_insert_ne by congruence.
Qed.

(** The chain over [steps] from [st]: the steps it completes ([done]), the
    step it stops at (the head of [rest]), and what it leaves untouched. *)
Lemma run_steps_spec : forall steps st,
  NoDup (map id steps) ->
  exists done rest,
    steps = done ++ rest
    /\ issued (run_steps w p steps st)
       = issued st ++ requests_of p (done ++ take 1 rest)
    /\ (forall pre s post, done = pre ++ s :: post ->
          step_succeeds s (outcome_of w p (length (issued st) + length pre) s) = true)
    /\ (forall s, s ∈ done -> succeeded (run_steps w p steps st) s)
    /\ (forall key, key ∉ map id (done ++ take 1 rest) ->
          stepResults (run_steps w p steps st) !! key = stepResults st !! key
          /\ accumRef (run_steps w p steps st) !! key = accumRef st !! key)
    /\ match rest with
       | [] => exists st5,
                 run_steps w p steps st = finalizeAndReturn w p st5
                 /\ accumRef st5 = accumRef (run_steps w p steps st)
                 /\ same_outside st st5
       | s :: _ =>
           step_succeeds s (outcome_of w p (length (issued st) + length done) s) = false
           /\ status_at (run_steps w p steps st) s = Some st_error
           /\ same_outside st (run_steps w p steps st)
       end.
Proof.
  induction steps as [|step steps IH]; intros st Hnd.
  - exists [], []. cbn [run_steps app take map].
    destruct (finalize_frame st) as (Hi & Hr & Ha).
    rewrite app_nil_r.
    split; [reflexivity|]. split; [exact Hi|].
    split; [intros pre s post Hd; now destruct pre|].
    split; [intros s Hs; now apply elem_of_nil in Hs|].
    split; [intros key _; now rewrite Hr, Ha|].
    exists st. split; [reflexivity|]. split; [now rewrite Ha|]. now repeat split.
  - cbn [run_steps].
    set (k := (length MARGIN_STEPS - length (step :: steps))%nat).
    destruct (start_step_frame step k st) as (st2 & Hatt & Hi2 & Ho2 & Ha2 & Hr2).
    cbv zeta in Hatt. rewrite Hatt.
    destruct (settle_step step (outcome_of w p (length (issued st)) step) st2)
      as [st' ok] eqn:Hset.
    destruct (settle_step_frame _ _ _ _ _ Hset) as (Hi & Hsv & Hsr & Hc & Hu & Hkeys).
    assert (Hout : same_outside st st').
    { destruct Ho2 as (A2 & B2 & C2 & D2). unfold same_outside. now rewrite Hsv, Hsr, Hc, Hu. }
    cbn [map] in Hnd. apply NoDup_cons in Hnd as [Hnotin Hnd].
    destruct ok.
    + destruct (settle_step_ok _ _ _ _ Hset)
        as (Hsucc & code & text & vals & _ & _ & Hnn & Hacc & Hres).
      destruct (IH st' Hnd) as (done & rest & Hsteps & Hiss & Hok & Hdone & Hframe & Hrest).
      assert (Hstep_out : id step ∉ map id (done ++ take 1 rest)).
      { intros Hin. apply Hnotin. rewrite Hsteps.
        rewrite map_app in Hin |- *. apply elem_of_app in Hin as [Hin|Hin];
          apply elem_of_app; [now left | right].
        destruct rest as [|r rest]; [now apply elem_of_nil in Hin|].
        cbn in Hin |- *. apply list_elem_of_singleton in Hin as ->. now left. }
      destruct (succeeds_request _ _ Hsucc) as (r0 & _ & Hr0 & _).
      assert (Hshift : forall n, (length (issued st') + n = length (issued st) + S n)%nat).
      { intros n. rewrite Hi, Hi2, Hr0, length_app. cbn [length]. lia. }
      exists (step :: done), rest. split; [now rewrite Hsteps|].
      split.
      { rewrite Hiss, Hi, Hi2. cbn [app].
        rewrite (requests_of_cons step (done ++ take 1 rest)).
        now rewrite <- app_assoc. }
      split.
      { intros pre s post Hd. destruct pre as [|s0 pre]; cbn [app] in Hd; injection Hd as -> ->.
        - now rewrite Nat.add_0_r.
        - specialize (Hok pre s post eq_refl). rewrite Hshift in Hok. exact Hok. }
      split.
      { intros s [->|Hs]%elem_of_cons; [|now apply Hdone].
        destruct (Hframe (id step) Hstep_out) as [Hr' Ha'].
        exists (parse_body text), vals. now rewrite Hr', Ha'. }
      split.
      { intros key Hk. cbn [app map] in Hk. apply not_elem_of_cons in Hk as [Hk1 Hk2].
        destruct (Hframe key Hk2) as [-> ->]. destruct (Hkeys key Hk1) as [-> ->].
        now rewrite Ha2, Hr2. }
      destruct rest as [|r rest].
      * destruct Hrest as (st5 & Hf & Ha5 & Ho5). exists st5.
        split; [exact Hf|]. split; [exact Ha5|].
        destruct Ho5 as (A & B & C & D), Hout as (A2 & B2 & C2 & D2).
        unfold same_outside. now rewrite A, B, C, D.
      * destruct Hrest as (Hfail & Herr & Ho5).
        split; [now rewrite Hshift in Hfail|]. split; [exact Herr|].
        destruct Ho5 as (A & B & C & D), Hout as (A2 & B2 & C2 & D2).
        unfold same_outside. now rewrite A, B, C, D.
    + destruct (settle_step_failed _ _ _ _ Hset) as (Hfail & Herr).
      exists [], (step :: steps). cbn [app take map length].
      split; [reflexivity|]. split; [now rewrite Hi, Hi2|].
      split; [intros pre s post Hd; now destruct pre|].
      split; [intros s Hs; now apply elem_of_nil in Hs|].
      split.
      { intros key Hk%not_elem_of_cons. destruct Hk as [Hk _].
        destruct (Hkeys key Hk) as [-> ->]. now rewrite Ha2, Hr2. }
      rewrite Nat.add_0_r. split; [exact Hfail|]. split; [exact Herr | exact Hout].
Qed.

End Pipeline.

Section PipelineClaims.
Import Orchestrator.
Variable w : World.
Variable p : Props.
Variable d : Database.

Lemma step_succeeds_ok s o :
  step_succeeds s o = true ->
  exists code text, o = HttpResponse code text /\ response_ok code = true.
Proof.
  destruct o as [e|code text]; cbn [step_succeeds]; [discriminate|].
  intros [Hok _]%andb_prop. eauto.
Qed.

Lemma steps_endpoints_NoDup : NoDup (map endpoint MARGIN_STEPS).
Proof. apply (bool_decide_unpack (NoDup (map endpoint MARGIN_STEPS))). vm_compute. exact I. Qed.

Lemma step_request_throw e s :
  encodeURIComponent (fileId p) = Throw e -> step_request p s = Throw e.
Proof. unfold step_request. now intros ->. Qed.

Lemma step_request_ret s r :
  step_request p s = Ret r ->
  exists encoded,
    encodeURIComponent (fileId p) = Ret encoded
    /\ r = {| req_endpoint := endpoint s; req_fileId := Some encoded;
              req_body := bodyPayload p s |}.
Proof.
  unfold step_request. destruct (encodeURIComponent (fileId p)) as [enc|e]; [|discriminate].
  intros [= <-]. eauto.
Qed.

Lemma requests_of_throw e l :
  encodeURIComponent (fileId p) = Throw e -> requests_of p l = [].
Proof.
  intros He. induction l as [|s l IH]; [reflexivity|].
  rewrite requests_of_cons, IH. unfold requests_of. cbn [flat_map].
  now rewrite (step_request_throw e s He).
Qed.

Lemma issued_endpoints encoded l :
  encodeURIComponent (fileId p) = Ret encoded ->
  map req_endpoint (requests_of p l) = map endpoint l.
Proof.
  intros He. induction l as [|s l IH]; [reflexivity|].
  rewrite requests_of_cons, map_app, IH. unfold requests_of, step_request.
  cbn [flat_map]. now rewrite He.
Qed.

(** A request is issued only to the endpoint of a step of the list. *)
Lemma issued_endpoints_incl l x :
  x ∈ map req_endpoint (requests_of p l) -> x ∈ map endpoint l.
Proof.
  destruct (encodeURIComponent (fileId p)) as [enc|e] eqn:He.
  - now rewrite (issued_endpoints enc l He).
  - rewrite (requests_of_throw e l He). intros H. now apply elem_of_nil in H.
Qed.

Lemma run_as_chain : run w p d = run_steps w p MARGIN_STEPS (initial d).
Proof. unfold run. now rewrite runStep_run_steps by (cbn; lia). Qed.


(** ** The states a mounted component reaches *)

Lemma initial_pending s :
  s ∈ MARGIN_STEPS -> stepResults (initial d) !! id s = Some (result_of st_pending).
Proof.
  unfold MARGIN_STEPS. intros H.
  repeat (apply elem_of_cons in H as [->|H]; [vm_compute; reflexivity|]).
  now apply elem_of_nil in H.
Qed.

Lemma ids_disjoint l1 l2 x y :
  MARGIN_STEPS = l1 ++ l2 -> x ∈ l1 -> y ∈ l2 -> id x <> id y.
Proof.
  intros Hs Hx Hy Heq. pose proof steps_ids_NoDup as Hnd.
  rewrite Hs, map_app in Hnd. apply NoDup_app in Hnd as (_ & Hdisj & _).
  apply (Hdisj (id x)); [now apply list_elem_of_fmap_2|].
  rewrite Heq. now apply list_elem_of_fmap_2.
Qed.

Lemma id_not_in l x :
  (forall y, y ∈ l -> id x <> id y) -> id x ∉ map id l.
Proof.
  intros H Hin. apply list_elem_of_fmap in Hin as (y & Heq & Hy). exact (H y Hy Heq).
Qed.

Lemma finalize_outputs st st' :
  accumRef st = accumRef st' -> same_outside st st' ->
  same_outside (finalizeAndReturn w p st) (finalizeAndReturn w p st').
Proof.
  intros Ha (Hs & Hv & Hc & Hu). unfold finalizeAndReturn, same_outside. rewrite Ha.
  destruct (finalResults _ _ _); cbn.
  - rewrite Hs, Hv, Hc. destruct (runId p) as [[|c r]|]; cbn; now rewrite ?Hu.
  - now rewrite Hs, Hv, Hc, Hu.
Qed.

Lemma same_outside_trans a b c : same_outside a b -> same_outside b c -> same_outside a c.
Proof. unfold same_outside. intros (A & B & C & D) (A' & B' & C' & D'). repeat split; congruence. Qed.

Lemma same_outside_sym a b : same_outside a b -> same_outside b a.
Proof. unfold same_outside. intros (A & B & C & D). repeat split; congruence. Qed.

Lemma findIndex_first {A} (f : A -> bool) l1 x l2 :
  (forall y, y ∈ l1 -> f y = false) -> f x = true ->
  findIndex f (l1 ++ x :: l2) = Some (length l1).
Proof.
  intros H1 Hx. induction l1 as [|y l1 IH]; cbn [findIndex app length].
  - now rewrite Hx.
  - rewrite (H1 y) by now left. rewrite IH; [reflexivity|].
    intros z Hz. apply H1. now right.
Qed.

Lemma findIndex_none {A} (f : A -> bool) l :
  (forall y, y ∈ l -> f y = false) -> findIndex f l = None.
Proof.
  induction l as [|y l IH]; intros H; cbn [findIndex]; [reflexivity|].
  rewrite (H y) by now left. rewrite IH; [reflexivity|]. intros z Hz. apply H. now right.
Qed.

Lemma succeeded_no_error st s : succeeded st s -> has_error st s = false.
Proof. intros (v & vals & _ & _ & Hr). unfold has_error. now rewrite Hr. Qed.

Lemma succeeded_status st s : succeeded st s -> status_at st s = Some st_success.
Proof. intros (v & vals & _ & _ & Hr). unfold status_at. now rewrite Hr. Qed.

Lemma error_status st s : status_at st s = Some st_error -> has_error st s = true.
Proof.
  unfold status_at, has_error. destruct (stepResults st !! id s) as [r|]; [|discriminate].
  now intros [= ->].
Qed.

Lemma other_status st s x :
  status_at st s = Some x -> x <> st_error -> has_error st s = false.
Proof.
  unfold status_at, has_error. destruct (stepResults st !! id s) as [r|]; [|discriminate].
  intros H Hx. injection H as H. destruct (status r); try reflexivity. congruence.
Qed.

(** Retry when a step is in error: the chain restarts at the first such
    step. *)
Lemma handleRetry_chain st done s r :
  MARGIN_STEPS = done ++ s :: r ->
  (forall x, x ∈ done -> has_error st x = false) ->
  has_error st s = true ->
  handleRetry w p st =
  run_steps w p (s :: r)
    (set_retrying false (set_step (id s) (result_of st_pending) (set_retrying true st))).
Proof.
  intros Hs Hdone Herr. unfold handleRetry.
  change (has_error (set_retrying true st)) with (has_error st).
  rewrite Hs, (findIndex_first _ done s r Hdone Herr), list_lookup_middle by reflexivity.
  rewrite runStep_run_steps.
  - now rewrite Hs, drop_app_length.
  - rewrite Hs, length_app. lia.
Qed.

Lemma handleRetry_idle st :
  (forall x, x ∈ MARGIN_STEPS -> has_error st x = false) ->
  handleRetry w p st = set_retrying true st.
Proof.
  intros H. unfold handleRetry.
  change (has_error (set_retrying true st)) with (has_error st).
  now rewrite (findIndex_none _ _ H).
Qed.

Lemma halted_run : halted_or_final w p d (run w p d).
Proof.
  rewrite run_as_chain.
  destruct (run_steps_spec w p MARGIN_STEPS (initial d) steps_ids_NoDup)
    as (done & rest & Hsteps & _ & _ & Hdone & Hframe & Hrest).
  exists done, rest. split; [exact Hsteps|]. split; [exact Hdone|].
  destruct rest as [|s r].
  - destruct Hrest as (st5 & Hf & Ha5 & Ho5).
    rewrite <- Ha5. rewrite Hf. apply finalize_outputs; [reflexivity | exact Ho5].
  - destruct Hrest as (_ & Herr & Ho). split; [exact Herr|]. split; [|exact Ho].
    intros s' Hs'. unfold status_at.
    destruct (Hframe (id s')) as [-> _].
    + apply id_not_in. intros y Hy Heq.
      apply (ids_disjoint (done ++ [s]) r y s'); [| exact Hy | exact Hs' | congruence].
      now rewrite <- app_assoc.
    + rewrite initial_pending; [reflexivity|]. rewrite Hsteps.
      apply elem_of_app. right. now right.
Qed.

Lemma halted_retry st :
  halted_or_final w p d st -> halted_or_final w p d (handleRetry w p st).
Proof.
  intros (done & rest & Hsteps & Hdone & Hrest).
  destruct rest as [|s r].
  - rewrite handleRetry_idle.
    + exists done, []. split; [exact Hsteps|]. split; [exact Hdone | exact Hrest].
    + intros x Hx. apply succeeded_no_error, Hdone.
      now rewrite Hsteps, app_nil_r in Hx.
  - destruct Hrest as (Herr & Hpend & Ho).
    rewrite (handleRetry_chain st done s r Hsteps).
    2: { intros x Hx. apply succeeded_no_error, Hdone, Hx. }
    2: { now apply error_status. }
    set (st0 := set_retrying false (set_step (id s) (result_of st_pending) (set_retrying true st))).
    assert (Hnd : NoDup (map id (s :: r))).
    { pose proof steps_ids_NoDup as H. rewrite Hsteps, map_app in H.
      now apply NoDup_app in H as (_ & _ & H). }
    destruct (run_steps_spec w p (s :: r) st0 Hnd)
      as (done' & rest' & Hsplit & _ & _ & Hdone' & Hframe & Hrest').
    assert (Hsteps' : MARGIN_STEPS = (done ++ done') ++ rest')
      by now rewrite <- app_assoc, <- Hsplit.
    assert (Hold : forall x, x ∈ done ->
              stepResults (run_steps w p (s :: r) st0) !! id x = stepResults st !! id x
              /\ accumRef (run_steps w p (s :: r) st0) !! id x = accumRef st !! id x).
    { intros x Hx.
      assert (Hxs : forall y, y ∈ s :: r -> id x <> id y)
        by (intros y Hy; now apply (ids_disjoint done (s :: r) x y)).
      destruct (Hframe (id x)) as [-> ->].
      - apply id_not_in. intros y Hy. apply Hxs. rewrite Hsplit.
        apply elem_of_app in Hy as [Hy|Hy]; apply elem_of_app; [now left | right].
        destruct rest' as [|r0 rest']; [now apply elem_of_nil in Hy|].
        apply list_elem_of_singleton in Hy as ->. now left.
      - split; [|reflexivity]. cbn. apply lookup_insert_ne.
        intros Heq. apply (Hxs s); [now left | congruence]. }
    assert (Hacc0 : accumRef st0 = accumRef st) by reflexivity.
    assert (Hout0 : same_outside st st0) by easy.
    exists (done ++ done'), rest'. split; [exact Hsteps'|]. split.
    { intros x [Hx|Hx]%elem_of_app; [|now apply Hdone'].
      destruct (Hdone x Hx) as (v & vals & Hv & Ha & Hr).
      destruct (Hold x Hx) as [Hr' Ha']. exists v, vals. now rewrite Hr', Ha'. }
    destruct rest' as [|s2 r2].
    + destruct Hrest' as (st5 & Hf & Ha5 & Ho5).
      rewrite <- Ha5. rewrite Hf. apply finalize_outputs; [reflexivity|].
      eapply same_outside_trans; [exact Ho|]. eapply same_outside_trans; [exact Hout0 | exact Ho5].
    + destruct Hrest' as (_ & Herr' & Ho').
      split; [exact Herr'|]. split.
      * intros s' Hs'. unfold status_at.
        assert (Hs'r : s' ∈ r).
        { destruct done' as [|d0 done']; cbn [app] in Hsplit; injection Hsplit as -> ->.
          - exact Hs'.
          - apply elem_of_app. right. now right. }
        destruct (Hframe (id s')) as [-> _].
        { apply id_not_in. intros y Hy Heq.
          apply (ids_disjoint ((done ++ done') ++ [s2]) r2 y s');
            [| | exact Hs' | congruence].
          - now rewrite Hsteps', <- !app_assoc.
          - apply elem_of_app. apply elem_of_app in Hy as [Hy|Hy]; [left | right; exact Hy].
            apply elem_of_app. now right. }
        change (stepResults st0) with (<[ id s := result_of st_pending ]> (stepResults st)).
        rewrite lookup_insert_ne.
        { specialize (Hpend s' Hs'r). unfold status_at in Hpend. exact Hpend. }
        intros Heq. pose proof Hnd as Hnd'. cbn [map] in Hnd'.
        apply NoDup_cons in Hnd' as [Hn _]. apply Hn. rewrite Heq.
        now apply list_elem_of_fmap_2.
      * eapply same_outside_trans; [exact Ho|].
        eapply same_outside_trans; [exact Hout0 | exact Ho'].
Qed.

Lemma reachable_halted st : reachable w p d st -> halted_or_final w p d st.
Proof. induction 1; [apply halted_run | now apply halted_retry]. Qed.

(** C9. In a state the component reaches, when a step is in error and
    retry is invoked, the steps run again are the first step in error and
    steps after it, in order ([news]), and the requests that follow are
    theirs (none, when the URL of a request cannot be built); a step that
    had succeeded is not run or requested again, and its accumulated result
    and its step result are left as they were. *)
Theorem retry_resumes_at_failed_step st f :
  reachable w p d st ->
  findIndex (has_error st) MARGIN_STEPS = Some f ->
  exists news tail,
    drop f MARGIN_STEPS = news ++ tail /\ news <> []
    /\ issued (handleRetry w p st) = issued st ++ requests_of p news
    /\ forall s, s ∈ MARGIN_STEPS -> status_at st s = Some st_success ->
         s ∉ news
         /\ accumRef (handleRetry w p st) !! id s = accumRef st !! id s
         /\ stepResults (handleRetry w p st) !! id s = stepResults st !! id s.
Proof.
  intros Hreach Hfind.
  destruct (reachable_halted st Hreach) as (done & rest & Hsteps & Hdone & Hrest).
  assert (Hnoerr : forall x, x ∈ done -> has_error st x = false)
    by (intros x Hx; apply succeeded_no_error, Hdone, Hx).
  destruct rest as [|s r].
  { rewrite findIndex_none in Hfind; [discriminate|].
    intros x Hx. apply Hnoerr. now rewrite Hsteps, app_nil_r in Hx. }
  destruct Hrest as (Herr & Hpend & _).
  rewrite Hsteps, (findIndex_first _ done s r Hnoerr (error_status _ _ Herr)) in Hfind.
  injection Hfind as <-.
  rewrite (handleRetry_chain st done s r Hsteps Hnoerr (error_status _ _ Herr)).
  set (st0 := set_retrying false (set_step (id s) (result_of st_pending) (set_retrying true st))).
  assert (Hnd : NoDup (map id (s :: r))).
  { pose proof steps_ids_NoDup as H. rewrite Hsteps, map_app in H.
    now apply NoDup_app in H as (_ & _ & H). }
  destruct (run_steps_spec w p (s :: r) st0 Hnd)
    as (done' & rest' & Hsplit & Hiss & _ & _ & Hframe & _).
  assert (Hsub : forall y, y ∈ done' ++ take 1 rest' -> y ∈ s :: r).
  { intros y Hy. rewrite Hsplit.
    apply elem_of_app in Hy as [Hy|Hy]; apply elem_of_app; [now left | right].
    destruct rest' as [|r0 rest']; [now apply elem_of_nil in Hy|].
    apply list_elem_of_singleton in Hy as ->. now left. }
  exists (done' ++ take 1 rest'), (drop 1 rest').
  split; [now rewrite Hsteps, drop_app_length, <- app_assoc, take_drop|].
  split.
  { destruct done' as [|d0 done']; [|discriminate].
    cbn [app] in Hsplit. now rewrite <- Hsplit. }
  split; [exact Hiss|].
  intros s0 Hs0 Hsucc.
  assert (Hin : s0 ∈ done).
  { rewrite Hsteps in Hs0. apply elem_of_app in Hs0 as [Hs0|Hs0]; [exact Hs0|].
    apply elem_of_cons in Hs0 as [->|Hs0]; [congruence|].
    specialize (Hpend s0 Hs0). congruence. }
  assert (Hxs : forall y, y ∈ s :: r -> id s0 <> id y)
    by (intros y Hy; now apply (ids_disjoint done (s :: r) s0 y)).
  split.
  { intros Hn. now apply (Hxs s0 (Hsub _ Hn)). }
  destruct (Hframe (id s0)) as [-> ->].
  { apply id_not_in. intros y Hy. apply Hxs, Hsub, Hy. }
  split; [reflexivity|]. cbn. apply lookup_insert_ne.
  intros Heq. apply (Hxs s); [now left | congruence].
Qed.

End PipelineClaims.


Lemma retry_resumes_at_failed_step_witness :
  let W := Scenario.world_leakage_fails_once in
  let P := Scenario.props in
  let st := Orchestrator.run W P empty_db in
  exists news tail,
    drop 2 Orchestrator.MARGIN_STEPS = news ++ tail /\ news <> []
    /\ Orchestrator.issued (Orchestrator.handleRetry W P st)
       = Orchestrator.issued st ++ Orchestrator.requests_of P news
    /\ forall s, s ∈ Orchestrator.MARGIN_STEPS ->
         Orchestrator.status_at st s = Some Orchestrator.st_success ->
         s ∉ news
         /\ Orchestrator.accumRef (Orchestrator.handleRetry W P st) !! Orchestrator.id s
            = Orchestrator.accumRef st !! Orchestrator.id s
         /\ Orchestrator.stepResults (Orchestrator.handleRetry W P st) !! Orchestrator.id s
            = Orchestrator.stepResults st !! Orchestrator.id s.
Proof.
  cbv zeta.
  apply (retry_resumes_at_failed_step Scenario.world_leakage_fails_once Scenario.props empty_db).
  - apply Orchestrator.reach_run.
  - vm_compute. reflexivity.
Defined.

(** The two scenario runs, evaluated. *)
Example run_all_steps_succeed :
  map Orchestrator.req_endpoint
      (Orchestrator.issued (Orchestrator.run Scenario.world_ok Scenario.props empty_db))
  = map Orchestrator.endpoint Orchestrator.MARGIN_STEPS
  /\ map Orchestrator.req_endpoint
       (Orchestrator.saves (Orchestrator.run Scenario.world_ok Scenario.props empty_db))
     = ["/api/margin-report/save"%string].
Proof. split; vm_compute; reflexivity. Qed.

Example run_halts_at_failed_step :
  let st := Orchestrator.run Scenario.world_leakage_fails_once Scenario.props empty_db in
  map Orchestrator.req_endpoint (Orchestrator.issued st)
  = ["/api/margin/pricing"; "/api/margin/costs"; "/api/margin/leakage"]%string
  /\ map (Orchestrator.status_at st) Orchestrator.MARGIN_STEPS
     = [Some Orchestrator.st_success; Some Orchestrator.st_success; Some Orchestrator.st_error;
        Some Orchestrator.st_pending; Some Orchestrator.st_pending]
  /\ Orchestrator.completed st = [].
Proof. cbv zeta. repeat split; vm_compute; reflexivity. Qed.

Example retry_runs_from_failed_step :
  let W := Scenario.world_leakage_fails_once in
  let st := Orchestrator.handleRetry W Scenario.props (Orchestrator.run W Scenario.props empty_db) in
  map Orchestrator.req_endpoint (Orchestrator.issued st)
  = ["/api/margin/pricing"; "/api/margin/costs"; "/api/margin/leakage";
     "/api/margin/leakage"; "/api/margin/segments"; "/api/margin/recommendations"]%string
  /\ length (Orchestrator.completed st) = 1%nat.
Proof. cbv zeta. split; vm_compute; reflexivity. Qed.

(** ** Values through their JSON text *)

Lemma json_nested_ind (P : json -> Prop)
    (Hnull : P JNull) (Hbool : forall b, P (JBool b))
    (Hnum : forall lex, P (JNum lex)) (Hstr : forall s, P (JStr s))
    (Harr : forall items, List.Forall P items -> P (JArr items))
    (Hobj : forall props, List.Forall (fun kv => P (snd kv)) props -> P (JObj props)) :
  forall v, P v.
Proof.
  fix IH 1. intros [|b|lex|s|items|props].
  - exact Hnull.
  - apply Hbool.
  - apply Hnum.
  - apply Hstr.
  - apply Harr. induction items as [|x items IHi]; constructor; [apply IH | exact IHi].
  - apply Hobj. induction props as [|[k x] props IHp]; constructor; [apply IH | exact IHp].
Qed.

(** A value without an infinity or a negative zero comes back from its JSON
    text as it was. *)
Lemma through_JSON_plain v : plain v = true -> through_JSON v = v.
Proof.
  induction v as [|b|lex|s|items IHi|props IHp] using json_nested_ind;
    cbn [plain through_JSON]; try reflexivity.
  - intros [H1 H2]%andb_prop.
    apply negb_true_iff in H1. apply negb_true_iff in H2. now rewrite H1, H2.
  - intros Hall. f_equal.
    induction IHi as [|x items Hx _ IH]; [reflexivity|].
    cbn [forallb] in Hall. apply andb_prop in Hall as [Hx' Hr].
    cbn [map]. now rewrite (Hx Hx'), (IH Hr).
  - intros Hall. f_equal.
    induction IHp as [|[k x] props Hx _ IH]; [reflexivity|].
    cbn [forallb snd] in Hall. apply andb_prop in Hall as [Hx' Hr].
    cbn [map fst snd]. cbn [snd] in Hx. now rewrite (Hx Hx'), (IH Hr).
Qed.

(** ** The final record and its persistence *)

Section FinalRecord.
Import Orchestrator.
Variable w : World.
Variable p : Props.
Variable d : Database.

Lemma map_exn_ret {A B} (f : A -> Exn B) l :
  (forall x, x ∈ l -> exists y, f x = Ret y) -> exists ys, map_exn f l = Ret ys.
Proof.
  induction l as [|x l IH]; intros H; cbn [map_exn]; [eauto|].
  destruct (H x) as [y ->]; [now left|]. cbn [bind_exn].
  destruct IH as [ys ->]; [intros z Hz; apply H; now right|]. cbn [bind_exn]. eauto.
Qed.

Lemma suggestion_list_array v :
  suggestion_list v = true ->
  exists l, as_array v = Ret l /\ forall x, x ∈ l -> x <> JNull.
Proof.
  destruct v as [[| | | |l|]|]; cbn [suggestion_list as_array]; try discriminate.
  - intros _. exists []. split; [reflexivity|]. intros x Hx. now apply elem_of_nil in Hx.
  - intros Hl. exists l. split; [reflexivity|].
    intros x Hx ->. rewrite forallb_forall in Hl.
    apply list_elem_of_In in Hx. now specialize (Hl _ Hx).
  - intros _. exists []. split; [reflexivity|]. intros x Hx. now apply elem_of_nil in Hx.
Qed.

(** With well-shaped recommendations the final record is built, and it is
    an object. *)
Lemma finalResults_built iso acc :
  well_shaped acc = true ->
  exists props, finalResults p iso acc = Ret (JObj props).
Proof.
  unfold well_shaped, finalResults. cbv zeta.
  intros [H1 H2]%andb_prop.
  destruct (suggestion_list_array _ H1) as (l1 & -> & Hl1).
  destruct (suggestion_list_array _ H2) as (l2 & -> & Hl2).
  cbn [bind_exn].
  destruct (map_exn_ret priority_suggestion l1) as [ys1 ->].
  { intros x Hx. specialize (Hl1 x Hx). destruct x; cbn; eauto. now destruct Hl1. }
  destruct (map_exn_ret quick_win_suggestion l2) as [ys2 ->].
  { intros x Hx. specialize (Hl2 x Hx). destruct x; cbn; eauto. now destruct Hl2. }
  cbn [bind_exn]. eauto.
Qed.

Lemma coalesce_first a b dflt v :
  a = Some v -> v <> JNull -> coalesce_default (coalesce a b) dflt = v.
Proof. intros -> Hv. destruct v; try reflexivity. now destruct Hv. Qed.

(** The five step fields of the final record are what the accumulator holds
    under the step ids. *)
Lemma finalResults_fields iso acc final :
  finalResults p iso acc = Ret final ->
  forall s v, s ∈ MARGIN_STEPS -> acc !! id s = Some v -> v <> JNull ->
    get_prop (id s) final = Some v.
Proof.
  unfold finalResults. cbv zeta.
  destruct (as_array _) as [l1|]; [|discriminate]. cbn [bind_exn].
  destruct (as_array _) as [l2|]; [|discriminate]. cbn [bind_exn].
  destruct (map_exn priority_suggestion l1) as [ys1|]; [|discriminate]. cbn [bind_exn].
  destruct (map_exn quick_win_suggestion l2) as [ys2|]; [|discriminate]. cbn [bind_exn].
  intros [= <-] s v Hs Hv Hnn.
  unfold MARGIN_STEPS in Hs.
  repeat (apply elem_of_cons in Hs as [->|Hs];
          [cbn [id] in Hv |- *;
           match goal with
           | |- get_prop ?k (JObj ?props) = _ =>
               let r := eval lazy [get_prop assoc_last jsstring_eqb js str map
                                   list_ascii_of_string N_of_ascii N.eqb Pos.eqb
                                   N.add N.mul Pos.add Pos.mul Pos.succ DQUOTE] in
                        (get_prop k (JObj props)) in
               change (get_prop k (JObj props)) with r
           end;
           f_equal; now apply coalesce_first|]).
  now apply elem_of_nil in Hs.
Qed.

Lemma all_succeeded_final st :
  halted_or_final w p d st ->
  (forall s, s ∈ MARGIN_STEPS -> status_at st s = Some st_success) ->
  (forall s, s ∈ MARGIN_STEPS -> succeeded st s)
  /\ same_outside (finalizeAndReturn w p (before_final d (accumRef st))) st.
Proof.
  intros (done & rest & Hsplit & Hdone & Hrest) Hall.
  destruct rest as [|s r].
  - rewrite app_nil_r in Hsplit. subst done. now split.
  - destruct Hrest as (Herr & _).
    rewrite Hall in Herr; [discriminate|].
    rewrite Hsplit. apply elem_of_app. right. now left.
Qed.

(** The save endpoint, called by a signed-in user with a run id and an
    object, leaves a document of that run and user holding the object with
    status completed. *)
Lemma save_upserts sw u c r a db :
  truthy a = true -> u <> [] -> MarginReportSave.connects sw = true ->
  exists doc,
    find (MarginReportSave.same_run (c :: r) u)
         (margin_analyses (snd (MarginReportSave.POST sw
            {| MarginReportSave.auth_userId := Some u;
               MarginReportSave.body :=
                 Some {| MarginReportSave.runId := Some (c :: r);
                         MarginReportSave.analysis := Some a |} |} db)))
      = Some doc
    /\ ma_analysis doc = Some a
    /\ ma_status doc = str "completed".
Proof.
  intros Ha Hu Hc. destruct u as [|u0 u]; [now destruct Hu|].
  unfold MarginReportSave.POST.
  cbn [MarginReportSave.auth_userId MarginReportSave.body MarginReportSave.runId
       MarginReportSave.analysis].
  rewrite Ha, Hc. cbn [negb snd margin_analyses].
  destruct (find_upsert (MarginReportSave.same_run (c :: r) (u0 :: u))
    (fun doc => {| ma_runId := ma_runId doc;
                   ma_userId := ma_userId doc;
                   ma_fileId := ma_fileId doc;
                   ma_createdAt := ma_createdAt doc;
                   ma_analysis := Some a;
                   ma_status := str "completed";
                   ma_completedAt := Some (MarginReportSave.now sw);
                   ma_updatedAt := MarginReportSave.now sw |})
    {| ma_runId := c :: r;
       ma_userId := u0 :: u;
       ma_fileId := None;
       ma_createdAt := None;
       ma_analysis := Some a;
       ma_status := str "completed";
       ma_completedAt := Some (MarginReportSave.now sw);
       ma_updatedAt := MarginReportSave.now sw |}
    (margin_analyses db)) as (doc & Hfind & Hdoc).
  - intros d0 Hd0. exact Hd0.
  - unfold MarginReportSave.same_run. cbn [ma_runId ma_userId].
    now rewrite !jsstring_eqb_refl.
  - exists doc. split; [exact Hfind|].
    destruct Hdoc as [->|[d0 ->]]; now split.
Qed.


End FinalRecord.

Ltac each_step Hs :=
  unfold Orchestrator.MARGIN_STEPS in Hs;
  repeat (apply elem_of_cons in Hs as [->|Hs]; [vm_compute; reflexivity|]);
  now apply elem_of_nil in Hs.

Lemma scenario_all_succeed :
  forall s, s ∈ Orchestrator.MARGIN_STEPS ->
    Orchestrator.status_at (Orchestrator.run Scenario.world_ok Scenario.props empty_db) s
    = Some Orchestrator.st_success.
Proof. intros s Hs. each_step Hs. Qed.



(** ** The cost analysis route *)

Section CostAnalysis.
Import CostsRoute.

Lemma POST_reaches_model w req s fileId u columns data :
  reaches_model w req s fileId u columns data ->
  POST w req s = analyse w req fileId u columns data s.
Proof.
  intros (((c & uri & Huri) & Hp & Hl) & Hf & Hv & Ha & Hu & Hc & (file & Hfile & Hproc)
          & Hd & Hcols & Hdata & Hvx).
  unfold POST. rewrite Huri.
  destruct (setting (VERTEX_AI_PROJECT (env w)) _) as [|p0 pr]; [now destruct Hp|].
  destruct (setting (VERTEX_AI_LOCATION (env w)) _) as [|l0 lo]; [now destruct Hl|].
  rewrite Hf, Hv, Ha. destruct u as [|u0 u]; [now destruct Hu|].
  unfold handle. rewrite Hc, Hfile, Hd, Hproc.
  destruct columns as [|c0 cols]; [now destruct Hcols|].
  destruct data as [|r0 rows]; [now destruct Hdata|].
  cbn [length Nat.eqb orb].
  destruct Hvx as [-> | ->]; [reflexivity|].
  now rewrite andb_false_r.
Qed.

(** The analyses collection after the write of the route. *)
Lemma persist_stored id u raw parsed t d :
  exists doc,
    find (same_analysis id u) (analyses (persist id u raw parsed t d)) = Some doc
    /\ an_analysis doc = Some raw
    /\ an_parsed doc = Some parsed.
Proof.
  unfold persist. cbn [analyses].
  match goal with
  | |- context [upsert ?m ?c ?f ?coll] =>
      destruct (find_upsert m c f coll) as (doc & Hfind & Hdoc)
  end.
  - intros d0 Hd0. exact Hd0.
  - unfold same_analysis. cbn [an_fileId an_userId]. now rewrite !jsstring_eqb_refl.
  - exists doc. split; [exact Hfind|]. destruct Hdoc as [->|[d0 ->]]; now split.
Qed.

(** The entries of [worst_performers] take only the product id from the
    row. *)
Lemma worst_performer_fields i row :
  get_prop "margin_pct" (worst_performer i row) = Some (number (15 - i * 3))
  /\ get_prop "revenue_impact" (worst_performer i row) = Some (number (1000 + i * 500))
  /\ get_prop "cost" (worst_performer i row) = Some (number (80 + i * 10))
  /\ get_prop "net_price" (worst_performer i row) = Some (number (95 + i * 5)).
Proof. repeat split. Qed.


End CostAnalysis.


(** ** The ownership check *)

Lemma find_none_all {A} (f : A -> bool) l :
  (forall x, x ∈ l -> f x = false) -> find f l = None.
Proof.
  induction l as [|a l IH]; intros H; cbn [find]; [reflexivity|].
  rewrite (H a) by now left. apply IH. intros x Hx. apply H. now right.
Qed.

(** No file with the identifier belongs to the user: the lookup with the
    filter on both finds nothing. *)
Lemma unowned_not_found id u (d : Database) :
  (forall f, f ∈ files d -> file_id f = id -> meta_userId (file_metadata f) <> u) ->
  find (owned_by id u) (files d) = None.
Proof.
  intros H. apply find_none_all. intros f Hf. unfold owned_by.
  destruct (jsstring_eqb (file_id f) id) eqn:E1; [|reflexivity].
  destruct (jsstring_eqb (meta_userId (file_metadata f)) u) eqn:E2; [|reflexivity].
  apply jsstring_eqb_eq in E1, E2. now destruct (H f Hf E1).
Qed.

Lemma costs_unowned w req s fileId u :
  CostsRoute.fileId_of req = Some fileId ->
  CostsRoute.auth_userId w = Some u ->
  find (owned_by (ObjectId fileId) u) (files (CostsRoute.db s)) = None ->
  snd (CostsRoute.POST w req s) = s
  /\ (CostsRoute.configured (CostsRoute.env w) -> ObjectId_isValid fileId = true ->
      u <> [] -> CostsRoute.connect_failure w = None ->
      fst (CostsRoute.POST w req s) = error_body 404 "File not found or access denied").
Proof.
  intros Hf Ha Hfind. unfold CostsRoute.POST. rewrite Hf, Ha. split.
  - destruct (CostsRoute.MONGODB_URI _) as [[|c uri]|]; try reflexivity.
    destruct (CostsRoute.setting (CostsRoute.VERTEX_AI_PROJECT _) _); try reflexivity.
    destruct (CostsRoute.setting (CostsRoute.VERTEX_AI_LOCATION _) _); try reflexivity.
    destruct (ObjectId_isValid fileId); try reflexivity.
    destruct u as [|u0 u]; try reflexivity.
    unfold CostsRoute.handle. rewrite Hfind.
    now destruct (CostsRoute.connect_failure w).
  - intros ((c & uri & ->) & Hp & Hl) -> Hu Hc.
    destruct (CostsRoute.setting (CostsRoute.VERTEX_AI_PROJECT _) _); [now destruct Hp|].
    destruct (CostsRoute.setting (CostsRoute.VERTEX_AI_LOCATION _) _); [now destruct Hl|].
    destruct u as [|u0 u]; [now destruct Hu|].
    unfold CostsRoute.handle. now rewrite Hc, Hfind.
Qed.

Lemma logical_unowned w req s fileId u :
  LogicalRoute.body req ≫= LogicalRoute.body_fileId = Some fileId ->
  LogicalRoute.auth_userId req = Some u ->
  find (owned_by (ObjectId fileId) u) (files (LogicalRoute.db s)) = None ->
  snd (LogicalRoute.POST w req s) = s
  /\ (ObjectId_isValid fileId = true -> u <> [] -> LogicalRoute.connect_fails w = false ->
      fst (LogicalRoute.POST w req s) = LogicalRoute.failed 404 "File not found" []).
Proof.
  intros Hf Ha Hfind. unfold LogicalRoute.POST. rewrite Hf, Ha. split.
  - destruct u as [|u0 u]; try reflexivity.
    destruct fileId as [|c f]; try reflexivity.
    destruct (LogicalRoute.connect_fails w); try reflexivity.
    destruct (ObjectId_isValid (c :: f)); try reflexivity.
    cbn [negb]. now rewrite Hfind.
  - intros Hv Hu ->. destruct u as [|u0 u]; [now destruct Hu|].
    destruct fileId as [|c f]; [discriminate Hv|].
    rewrite Hv. cbn [negb]. now rewrite Hfind.
Qed.

Lemma recommendations_unowned w req s fileId u :
  RecommendationsRoute.fileId_of req = Some fileId ->
  RecommendationsRoute.auth_userId w = Some u ->
  find (owned_by (ObjectId fileId) u) (files (RecommendationsRoute.db s)) = None ->
  snd (RecommendationsRoute.POST w req s) = s
  /\ (CostsRoute.configured (RecommendationsRoute.env w) -> ObjectId_isValid fileId = true ->
      u <> [] -> RecommendationsRoute.connect_failure w = None ->
      fst (RecommendationsRoute.POST w req s)
      = error_body 404 "File not found or access denied").
Proof.
  intros Hf Ha Hfind. unfold RecommendationsRoute.POST. rewrite Hf, Ha. split.
  - destruct (CostsRoute.MONGODB_URI _) as [[|c uri]|]; try reflexivity.
    destruct (CostsRoute.setting (CostsRoute.VERTEX_AI_PROJECT _) _); try reflexivity.
    destruct (CostsRoute.setting (CostsRoute.VERTEX_AI_LOCATION _) _); try reflexivity.
    destruct (ObjectId_isValid fileId); try reflexivity.
    destruct u as [|u0 u]; try reflexivity.
    unfold RecommendationsRoute.handle. rewrite Hfind.
    now destruct (RecommendationsRoute.connect_failure w).
  - intros ((c & uri & ->) & Hp & Hl) -> Hu Hc.
    destruct (CostsRoute.setting (CostsRoute.VERTEX_AI_PROJECT _) _); [now destruct Hp|].
    destruct (CostsRoute.setting (CostsRoute.VERTEX_AI_LOCATION _) _); [now destruct Hl|].
    destruct u as [|u0 u]; [now destruct Hu|].
    unfold RecommendationsRoute.handle. now rewrite Hc, Hfind.
Qed.

Lemma leakage_unowned w req s fileId u :
  LeakageRoute.fileId_of req = Some fileId ->
  LeakageRoute.auth_userId w = Some u ->
  find (owned_by (ObjectId fileId) u) (files (LeakageRoute.db s)) = None ->
  snd (LeakageRoute.POST w req s) = s
  /\ (CostsRoute.configured (LeakageRoute.env w) -> ObjectId_isValid fileId = true ->
      u <> [] -> LeakageRoute.connect_failure w = None ->
      fst (LeakageRoute.POST w req s) = error_body 404 "File not found or access denied").
Proof.
  intros Hf Ha Hfind. unfold LeakageRoute.POST. rewrite Hf, Ha. split.
  - destruct (CostsRoute.MONGODB_URI _) as [[|c uri]|]; try reflexivity.
    destruct (CostsRoute.setting (CostsRoute.VERTEX_AI_PROJECT _) _); try reflexivity.
    destruct (CostsRoute.setting (CostsRoute.VERTEX_AI_LOCATION _) _); try reflexivity.
    destruct (ObjectId_isValid fileId); try reflexivity.
    destruct u as [|u0 u]; try reflexivity.
    unfold LeakageRoute.handle. rewrite Hfind.
    now destruct (LeakageRoute.connect_failure w).
  - intros ((c & uri & ->) & Hp & Hl) -> Hu Hc.
    destruct (CostsRoute.setting (CostsRoute.VERTEX_AI_PROJECT _) _); [now destruct Hp|].
    destruct (CostsRoute.setting (CostsRoute.VERTEX_AI_LOCATION _) _); [now destruct Hl|].
    destruct u as [|u0 u]; [now destruct Hu|].
    unfold LeakageRoute.handle. now rewrite Hc, Hfind.
Qed.

(** The pricing route: the state is never changed; the answer is 404 unless
    the body is [null], in which case reading [body.filename] throws. *)
Lemma pricing_unowned w req s fileId u :
  PricingRoute.incomingFileId w req = inr (Some fileId) ->
  PricingRoute.auth_userId w = Some u ->
  ObjectId_isValid fileId = true ->
  find (owned_by (ObjectId fileId) u) (files (PricingRoute.db s)) = None ->
  snd (PricingRoute.POST w req s) = s
  /\ (CostsRoute.configured (PricingRoute.env w) -> u <> [] ->
      PricingRoute.connect_failure w = None ->
      fst (PricingRoute.POST w req s)
      = match PricingRoute.body req with
        | PricingRoute.NullBody =>
            CostsRoute.internal_error (PricingRoute.env w) (PricingRoute.null_read w "filename")
        | _ => error_body 404 "File not found"
        end).
Proof.
  intros Hf Ha Hv Hfind.
  assert (Hhandle : forall u0 u',
            u = u0 :: u' ->
            PricingRoute.handle w req (u0 :: u') s
            = (match PricingRoute.body req with
               | PricingRoute.NullBody =>
                   CostsRoute.internal_error (PricingRoute.env w)
                     (PricingRoute.null_read w "filename")
               | _ => error_body 404 "File not found"
               end, s)).
  { intros u0 u' ->. unfold PricingRoute.handle. rewrite Hf.
    unfold PricingRoute.filenameFallback, PricingRoute.read.
    destruct (PricingRoute.body req) as [| |b]; [| reflexivity |].
    - cbn [PricingRoute.truthy_text PricingRoute.fileQuery_of]. rewrite Hv.
      unfold PricingRoute.lookup. cbn [PricingRoute.findOne]. now rewrite Hfind.
    - destruct (PricingRoute.truthy_text (PricingRoute.body_filename b));
        [|destruct (PricingRoute.truthy_text (PricingRoute.body_fileName b))];
        cbn [PricingRoute.fileQuery_of]; rewrite Hv;
        unfold PricingRoute.lookup; cbn [PricingRoute.findOne]; now rewrite Hfind. }
  unfold PricingRoute.POST. rewrite Ha. split.
  - destruct (CostsRoute.MONGODB_URI _) as [[|c uri]|]; try reflexivity.
    destruct (CostsRoute.setting (CostsRoute.VERTEX_AI_PROJECT _) _); try reflexivity.
    destruct (CostsRoute.setting (CostsRoute.VERTEX_AI_LOCATION _) _); try reflexivity.
    destruct (PricingRoute.connect_failure w); try reflexivity.
    destruct u as [|u0 u']; try reflexivity.
    now rewrite (Hhandle u0 u' eq_refl).
  - intros ((c & uri & ->) & Hp & Hl) Hu ->.
    destruct (CostsRoute.setting (CostsRoute.VERTEX_AI_PROJECT _) _); [now destruct Hp|].
    destruct (CostsRoute.setting (CostsRoute.VERTEX_AI_LOCATION _) _); [now destruct Hl|].
    destruct u as [|u0 u']; [now destruct Hu|].
    now rewrite (Hhandle u0 u' eq_refl).
Qed.




(** The owner's request on the same server is answered 200, and the model
    is called. *)
Example owner_is_served :
  (exists answer,
     fst (CostsRoute.POST (Scenario.costs_world Scenario.user1) Scenario.costs_request
            Scenario.costs_server) = Responded (Build_Response 200 answer))
  /\ length (CostsRoute.model_calls
               (snd (CostsRoute.POST (Scenario.costs_world Scenario.user1)
                       Scenario.costs_request Scenario.costs_server))) = 1%nat
  /\ (exists answer,
        fst (LogicalRoute.POST Scenario.logical_world
               (Scenario.logical_request Scenario.user1) Scenario.logical_server)
        = Responded (Build_Response 200 answer))
  /\ length (analyses (LogicalRoute.db
               (snd (LogicalRoute.POST Scenario.logical_world
                       (Scenario.logical_request Scenario.user1) Scenario.logical_server))))
     = 1%nat.
Proof.
  split; [eexists; vm_compute; reflexivity|].
  split; [vm_compute; reflexivity|].
  split; [eexists; vm_compute; reflexivity|].
  vm_compute. reflexivity.
Qed.

(** On the pricing route the owner is answered 200 with the analysis of
    the reply, which is stored under the file and the user; the same request
    for a file stored without bytes is answered 400. *)
Example pricing_owner_is_served :
  (let out := PricingRoute.POST (Scenario.pricing_world Scenario.user1)
                (Scenario.pricing_request PricingRoute.NotJson)
                Scenario.pricing_server_stored in
   exists answer,
     fst out = Responded (Build_Response 200 answer)
     /\ get_prop "sheetName" answer = Some (JStr (str "prices"))
     /\ (get_prop "analysis" answer ≫= get_prop "total_products") = Some (JNum (str "2"))
     /\ length (PricingRoute.model_calls (snd out)) = 1%nat
     /\ map PricingRoute.pa_fileId (PricingRoute.pricingAnalyses (snd out)) = [Scenario.id1]
     /\ map PricingRoute.pa_userId (PricingRoute.pricingAnalyses (snd out)) = [Scenario.user1])
  /\ fst (PricingRoute.POST (Scenario.pricing_world Scenario.user1)
            (Scenario.pricing_request PricingRoute.NotJson) Scenario.pricing_server)
     = error_body 400 "Downloaded file is empty".
Proof.
  split; [|vm_compute; reflexivity].
  cbv zeta. eexists.
  split; [vm_compute; reflexivity|].
  repeat split; vm_compute; reflexivity.
Qed.

(** * Further properties of the code *)

(** ** The combine route *)

Lemma split_on_app sep a b :
  split_on sep (a ++ sep :: b) = split_on sep a ++ split_on sep b.
Proof.
  induction a as [|c a IH]; cbn [app split_on].
  - now rewrite N.eqb_refl.
  - destruct (c =? sep) eqn:E; [now rewrite IH|].
    rewrite IH. destruct (split_on sep a) as [|l ls] eqn:Ha; [|reflexivity].
    destruct a; cbn in Ha; [discriminate|].
    destruct (n =? sep); [discriminate|]. now destruct (split_on sep a).
Qed.

Lemma split_on_single sep line :
  sep ∉ line -> split_on sep line = [line].
Proof.
  induction line as [|c l IH]; intros H; cbn [split_on]; [reflexivity|].
  destruct (c =? sep) eqn:E.
  - apply N.eqb_eq in E. subst c. destruct H. now left.
  - rewrite IH; [reflexivity|]. intros Hin. apply H. now right.
Qed.

(** X1.  [parseNDJSON] reads its text line by line: the result for two texts
    joined by a line feed is the results of the two, one after the other; a
    single line gives its parsed value when the line is not blank, is JSON
    and the value is truthy, and nothing otherwise.  No entry of a result is
    falsy. *)
Theorem parseNDJSON_by_lines :
  (forall a b,
     CombineRoute.parseNDJSON (a ++ 10 :: b)
     = CombineRoute.parseNDJSON a ++ CombineRoute.parseNDJSON b)
  /\ (forall line, 10 ∉ line ->
        CombineRoute.parseNDJSON line
        = if Combine.nonempty line && Combine.nonempty (trim line) then
            match JSON_parse line with
            | Ret v => if truthy v then [v] else []
            | Throw _ => []
            end
          else [])
  /\ (forall text v, v ∈ CombineRoute.parseNDJSON text -> truthy v = true).
Proof.
  split; [|split].
  - intros a b. unfold CombineRoute.parseNDJSON.
    now rewrite split_on_app, List.filter_app, map_app, filter_app.
  - intros line Hline. unfold CombineRoute.parseNDJSON.
    rewrite (split_on_single _ _ Hline). cbn [List.filter].
    destruct (Combine.nonempty line && Combine.nonempty (trim line)); [|reflexivity].
    cbn [map]. destruct (JSON_parse line) as [v|e].
    + rewrite filter_cons. destruct (truthy v) eqn:Ht.
      * rewrite decide_True by exact I. reflexivity.
      * rewrite decide_False by exact id. reflexivity.
    + reflexivity.
  - intros text v Hv. unfold CombineRoute.parseNDJSON in Hv.
    apply list_elem_of_filter in Hv as [Hv _]. now apply Is_true_true.
Qed.

Section CombineHandler.
Import CombineRoute.

(** What the part of the handler after the lock leaves behind. *)
Lemma combine_outcome w u sid s :
  let out := combine w u sid s in
  let s' := snd out in
  sessionMetadata (db s') = sessionMetadata (db s)
  /\ analyses (db s') = analyses (db s)
  /\ margin_analyses (db s') = margin_analyses (db s)
  /\ (files (db s') = files (db s)
      \/ exists doc, files (db s') = files (db s) ++ [doc]
                     /\ meta_isCombined (file_metadata doc) = true)
  /\ (model_calls s' = model_calls s \/ exists p, model_calls s' = model_calls s ++ [p])
  /\ (processingLocks s' = processingLocks s
      \/ processingLocks s' = processingLocks s ∖ {[ sid ]})
  /\ (forall r, fst out = Ret r ->
        status r = 200%nat
        /\ processingLocks s' = processingLocks s ∖ {[ sid ]}
        /\ exists f, f ∈ files (db s')
                     /\ body r = JObj [(str "fileId", JStr (file_id f))]
                     /\ meta_userId (file_metadata f) = u
                     /\ meta_sessionId (file_metadata f) = sid
                     /\ meta_isCombined (file_metadata f) = true).
Proof.
  cbv zeta. unfold combine.
  destruct (existingCombinedFile _ _ _ _) as [existing|] eqn:Hex.
  { cbn [fst snd unlock with_locks db model_calls processingLocks].
    do 6 (split; [now auto|]).
    intros r [= <-]. cbn [status body]. split; [reflexivity|]. split; [reflexivity|].
    unfold existingCombinedFile in Hex. apply find_some in Hex as [Hin Hp].
    apply andb_prop in Hp as [Hp Hc]. apply andb_prop in Hp as [Hp _].
    apply andb_prop in Hp as [Hu Hs].
    apply jsstring_eqb_eq in Hu, Hs.
    exists existing. split; [now apply list_elem_of_In|]. now repeat split. }
  destruct (all_texts _ _) as [texts|e].
  2: { cbn [fst snd]. do 6 (split; [now auto|]). intros r [=]. }
  destruct (model w _) as [e|[] code ct text].
  1: { cbn [fst snd with_call db model_calls processingLocks].
       do 6 (split; [now eauto|]). intros r [=]. }
  2: { cbn [fst snd with_call unlock with_locks db model_calls processingLocks].
       do 6 (split; [now eauto|]). intros r [=]. }
  destruct (includes_json_type ct); cbn [negb].
  2: { cbn [fst snd with_call db model_calls processingLocks].
       do 6 (split; [now eauto|]). intros r [=]. }
  destruct (bind_exn _ _) as [[| | | |rows|]|e].
  all: try (cbn [fst snd with_call unlock with_locks db model_calls processingLocks];
            do 6 (split; [now eauto|]); intros r [=]; fail).
  destruct (writeXlsx w rows) as [buffer|e].
  2: { cbn [fst snd with_call db model_calls processingLocks].
       do 6 (split; [now eauto|]). intros r [=]. }
  destruct (stream_finishes w); cbn [negb].
  2: { cbn [fst snd with_call db model_calls processingLocks].
       do 6 (split; [now eauto|]). intros r [=]. }
  cbn [fst snd with_call with_file unlock with_locks db model_calls processingLocks
       files sessionMetadata analyses margin_analyses].
  split; [reflexivity|]. split; [reflexivity|]. split; [reflexivity|].
  split; [right; eexists; split; reflexivity|].
  split; [right; eexists; reflexivity|].
  split; [now right|].
  intros r [= <-]. cbn [status body]. split; [reflexivity|]. split; [reflexivity|].
  eexists. split; [apply elem_of_app; right; now left|]. now repeat split.
Qed.

(** X2.  An answer 200 of the combine route names a file that is in the
    database afterwards, stored for the user and session of the request and
    flagged as combined, and the session is no longer locked. *)
Theorem combine_ok_names_stored_file w req s r s' sid :
  POST w req s = (Responded r, s') ->
  status r = 200%nat ->
  body_sessionId req = Ret (Some sid) ->
  sid ∉ processingLocks s'
  /\ exists u f,
       auth_userId req = Some u
       /\ f ∈ files (db s')
       /\ body r = JObj [(str "fileId", JStr (file_id f))]
       /\ meta_userId (file_metadata f) = u
       /\ meta_sessionId (file_metadata f) = sid
       /\ meta_isCombined (file_metadata f) = true.
Proof.
  unfold POST. intros H Hst Hsid. rewrite Hsid in H.
  destruct (Upload.falsy_string (MONGODB_URI w));
    [injection H as <- <-; discriminate Hst|].
  destruct (Upload.falsy_string (OPENROUTER_API_KEY w));
    [injection H as <- <-; discriminate Hst|].
  destruct (auth_userId req) as [[|u0 u]|]; try (injection H as <- <-; discriminate Hst).
  destruct sid as [|c sid]; [injection H as <- <-; discriminate Hst|].
  destruct (decide _) as [|Hfree]; [injection H as <- <-; discriminate Hst|].
  destruct (connects w); cbn [negb] in H; [|discriminate H].
  pose proof (combine_outcome w (u0 :: u) (c :: sid)
                (with_locks s ({[c :: sid]} ∪ processingLocks s))) as Hout.
  cbv zeta in Hout.
  destruct (combine _ _ _ _) as [[r0|e] s0]; [|discriminate H].
  injection H as <- <-.
  destruct Hout as (_ & _ & _ & _ & _ & _ & Hret).
  destruct (Hret r0 eq_refl) as (_ & Hlocks & f & Hf).
  cbn [fst snd] in *. split.
  - rewrite Hlocks. rewrite elem_of_difference, elem_of_singleton. tauto.
  - exists (u0 :: u), f. split; [reflexivity|]. exact Hf.
Qed.

(** X3.  Whatever the request and the replies, the combine route leaves the
    stored session metadata and analyses as they were and never alters or
    removes a stored file: afterwards the files are those before, or those
    before and one new combined file; and it sends at most one prompt to the
    model. *)
Theorem combine_adds_at_most_one_file w req s :
  sessionMetadata (db (snd (POST w req s))) = sessionMetadata (db s)
  /\ analyses (db (snd (POST w req s))) = analyses (db s)
  /\ margin_analyses (db (snd (POST w req s))) = margin_analyses (db s)
  /\ (files (db (snd (POST w req s))) = files (db s)
      \/ exists doc, files (db (snd (POST w req s))) = files (db s) ++ [doc]
                     /\ meta_isCombined (file_metadata doc) = true)
  /\ (model_calls (snd (POST w req s)) = model_calls s
      \/ exists p, model_calls (snd (POST w req s)) = model_calls s ++ [p]).
Proof.
  unfold POST.
  destruct (Upload.falsy_string (MONGODB_URI w)); [cbn [snd]; now auto 6|].
  destruct (Upload.falsy_string (OPENROUTER_API_KEY w)); [cbn [snd]; now auto 6|].
  destruct (auth_userId req) as [[|u0 u]|]; try (cbn [snd]; now auto 6).
  destruct (body_sessionId req) as [[[|c sid]|]|e]; try (cbn [snd]; now auto 6).
  destruct (decide _) as [|Hfree]; [cbn [snd]; now auto 6|].
  destruct (connects w); cbn [negb]; [|cbn [snd with_locks db model_calls]; now auto 6].
  pose proof (combine_outcome w (u0 :: u) (c :: sid)
                (with_locks s ({[c :: sid]} ∪ processingLocks s))) as Hout.
  cbv zeta in Hout. cbn [with_locks db model_calls] in Hout.
  destruct (combine _ _ _ _) as [[r0|e] s0]; cbn [fst snd] in *;
    destruct Hout as (H1 & H2 & H3 & H4 & H5 & _); now repeat split.
Qed.

(** X4.  When the request to the model is rejected (the fetch fails or is
    aborted by the timeout), the handler does not answer: its [catch] block
    throws a ReferenceError.  The session stays locked, and every later
    request for it is answered 429 without a prompt being sent. *)
Theorem combine_rejection_leaves_lock w req s u sid texts e :
  Upload.falsy_string (MONGODB_URI w) = false ->
  Upload.falsy_string (OPENROUTER_API_KEY w) = false ->
  auth_userId req = Some u -> u <> [] ->
  body_sessionId req = Ret (Some sid) -> sid <> [] ->
  sid ∉ processingLocks s ->
  connects w = true ->
  existingCombinedFile u sid
    (fileIds_of (recentFiles u sid (requestStartTime w) (db s))) (db s) = None ->
  all_texts (read_dataset w) (recentFiles u sid (requestStartTime w) (db s)) = Ret texts ->
  model w {| datasets := texts;
             joinRequirement := when_truthy (read_joinType (find_session sid (db s)));
             userRequirement := when_truthy (read_customPrompt (find_session sid (db s))) |}
    = FetchRejected e ->
  fst (POST w req s) = Rejected ReferenceError
  /\ sid ∈ processingLocks (snd (POST w req s))
  /\ forall w' req',
       Upload.falsy_string (MONGODB_URI w') = false ->
       Upload.falsy_string (OPENROUTER_API_KEY w') = false ->
       (exists u', auth_userId req' = Some u' /\ u' <> []) ->
       body_sessionId req' = Ret (Some sid) ->
       POST w' req' (snd (POST w req s))
       = (error_body 429 "Combine operation already in progress for this session",
          snd (POST w req s)).
Proof.
  intros Hm Hk Ha Hu Hb Hs Hfree Hc Hex Htexts Hmodel.
  assert (Hpost : POST w req s
                  = (Rejected ReferenceError,
                     with_call (with_locks s ({[sid]} ∪ processingLocks s))
                       {| datasets := texts;
                          joinRequirement :=
                            when_truthy (read_joinType (find_session sid (db s)));
                          userRequirement :=
                            when_truthy (read_customPrompt (find_session sid (db s))) |})).
  { unfold POST. rewrite Hm, Hk, Ha, Hb.
    destruct u as [|u0 u]; [now destruct Hu|].
    destruct sid as [|c sid]; [now destruct Hs|].
    rewrite decide_False by exact Hfree. rewrite Hc. cbn [negb].
    unfold combine. cbn [with_locks db]. rewrite Hex, Htexts, Hmodel. reflexivity. }
  rewrite Hpost. cbn [fst snd]. split; [reflexivity|]. split.
  - cbn [with_call with_locks processingLocks]. apply elem_of_union. left.
    now apply elem_of_singleton.
  - intros w' req' Hm' Hk' (u' & Ha' & Hu') Hb'.
    unfold POST. rewrite Hm', Hk', Ha', Hb'.
    destruct u' as [|u0 u']; [now destruct Hu'|].
    destruct sid as [|c sid]; [now destruct Hs|].
    rewrite decide_True; [reflexivity|].
    cbn [with_call with_locks processingLocks]. apply elem_of_union. left.
    now apply elem_of_singleton.
Qed.

End CombineHandler.

Lemma combine_ok_names_stored_file_witness :
  Scenario.sess1 ∉ CombineRoute.processingLocks (snd Scenario.first_combine)
  /\ exists u f,
       Some Scenario.user1 = Some u
       /\ f ∈ files (CombineRoute.db (snd Scenario.first_combine))
       /\ JObj [(str "fileId", JStr Scenario.id3)] = JObj [(str "fileId", JStr (file_id f))]
       /\ meta_userId (file_metadata f) = u
       /\ meta_sessionId (file_metadata f) = Scenario.sess1
       /\ meta_isCombined (file_metadata f) = true.
Proof.
  apply (combine_ok_names_stored_file (Scenario.combine_world 30 Scenario.id3)
           Scenario.combine_request Scenario.server0
           (Build_Response 200 (JObj [(str "fileId", JStr Scenario.id3)]))
           (snd Scenario.first_combine) Scenario.sess1).
  - unfold Scenario.first_combine.
    rewrite (surjective_pairing (CombineRoute.POST _ _ _)) at 1.
    apply (f_equal2 pair); [vm_compute|]; reflexivity.
  - reflexivity.
  - reflexivity.
Defined.

Lemma combine_rejection_leaves_lock_witness :
  let after := CombineRoute.POST Scenario.combine_world_timeout Scenario.combine_request
                 Scenario.server0 in
  fst after = Rejected ReferenceError
  /\ Scenario.sess1 ∈ CombineRoute.processingLocks (snd after)
  /\ fst (CombineRoute.POST (Scenario.combine_world 50 Scenario.id4) Scenario.combine_request
            (snd after))
     = error_body 429 "Combine operation already in progress for this session".
Proof.
  cbv zeta.
  destruct (combine_rejection_leaves_lock Scenario.combine_world_timeout
              Scenario.combine_request Scenario.server0 Scenario.user1 Scenario.sess1
              [str "costs.xlsx"; str "prices.xlsx"] AbortError)
    as (H1 & H2 & H3).
  - reflexivity.
  - reflexivity.
  - reflexivity.
  - discriminate.
  - reflexivity.
  - discriminate.
  - apply not_elem_of_empty.
  - reflexivity.
  - vm_compute. reflexivity.
  - vm_compute. reflexivity.
  - reflexivity.
  - split; [exact H1|]. split; [exact H2|].
    rewrite (H3 (Scenario.combine_world 50 Scenario.id4) Scenario.combine_request).
    + reflexivity.
    + reflexivity.
    + reflexivity.
    + exists Scenario.user1. split; [reflexivity|discriminate].
    + reflexivity.
Defined.

(** ** Upserts *)

Lemma update_first_find {D} (matches : D -> bool) (change : D -> D) coll :
  update_first matches change coll = None <-> find matches coll = None.
Proof.
  split; [apply find_update_first_none|].
  induction coll as [|d coll IH]; cbn [update_first find]; [reflexivity|].
  destruct (matches d); [discriminate|]. intros H. now rewrite (IH H).
Qed.

Lemma find_upsert_exact {D} (matches : D -> bool) (change : D -> D) fresh coll :
  (forall d, matches d = true -> matches (change d) = true) ->
  matches fresh = true ->
  find matches (upsert matches change fresh coll)
  = Some (match find matches coll with Some d => change d | None => fresh end).
Proof.
  intros Hkeep Hfresh. unfold upsert.
  destruct (update_first matches change coll) as [coll'|] eqn:Hu.
  - destruct (find_update_first _ _ _ _ Hkeep Hu) as (d0 & -> & ->). reflexivity.
  - apply update_first_find in Hu. rewrite Hu. now apply find_app_none.
Qed.

(** A lookup with another filter is not affected by an upsert, when the two
    filters have no document in common, before or after the change. *)
Lemma find_upsert_other {D} (other matches : D -> bool) (change : D -> D) fresh coll :
  (forall d, matches d = true -> other d = false) ->
  (forall d, matches d = true -> other (change d) = false) ->
  other fresh = false ->
  find other (upsert matches change fresh coll) = find other coll.
Proof.
  intros H1 H2 H3. unfold upsert.
  destruct (update_first matches change coll) as [coll'|] eqn:Hu.
  - revert coll' Hu. induction coll as [|d coll IH]; intros coll'; cbn [update_first];
      [discriminate|].
    destruct (matches d) eqn:Hd.
    + intros [= <-]. cbn [find]. now rewrite (H1 _ Hd), (H2 _ Hd).
    + destruct (update_first matches change coll) as [c|]; [|discriminate].
      intros [= <-]. cbn [find]. now rewrite (IH c eq_refl).
  - induction coll as [|d coll IH]; cbn [find app].
    + now rewrite H3.
    + cbn [update_first] in Hu. destruct (matches d); [discriminate|].
      destruct (update_first matches change coll); [discriminate|].
      destruct (other d); [reflexivity|]. now apply IH.
Qed.

Lemma length_upsert {D} (matches : D -> bool) (change : D -> D) fresh coll :
  length (upsert matches change fresh coll)
  = (length coll + match find matches coll with Some _ => 0 | None => 1 end)%nat.
Proof.
  unfold upsert. destruct (update_first matches change coll) as [coll'|] eqn:Hu.
  - assert (Hlen : length coll' = length coll).
    { revert coll' Hu. induction coll as [|d coll IH]; intros coll'; cbn [update_first];
        [discriminate|].
      destruct (matches d); [now intros [= <-]|].
      destruct (update_first matches change coll) as [c|]; [|discriminate].
      intros [= <-]. cbn [length]. now rewrite (IH c eq_refl). }
    destruct (find matches coll) eqn:Hf.
    + rewrite Hlen. lia.
    + apply (update_first_find matches change) in Hf. congruence.
  - apply update_first_find in Hu. rewrite Hu, length_app. reflexivity.
Qed.

(** ** The report store *)

Lemma same_run_eq runId u doc :
  MarginReportSave.same_run runId u doc = true <-> ma_runId doc = runId /\ ma_userId doc = u.
Proof.
  unfold MarginReportSave.same_run. rewrite andb_true_iff, !jsstring_eqb_eq. tauto.
Qed.

Lemma same_run_other runId u runId' u' doc :
  (runId', u') <> (runId, u) ->
  MarginReportSave.same_run runId u doc = true ->
  MarginReportSave.same_run runId' u' doc = false.
Proof.
  intros Hne H. apply same_run_eq in H as [H1 H2].
  destruct (MarginReportSave.same_run runId' u' doc) eqn:E; [|reflexivity].
  apply same_run_eq in E as [E1 E2]. destruct Hne. congruence.
Qed.

(** The collection after a save that got through. *)
Lemma save_stored sw u runId analysis d :
  truthy analysis = true -> u <> [] -> runId <> [] ->
  MarginReportSave.connects sw = true ->
  margin_analyses
    (snd (MarginReportSave.POST sw
            {| MarginReportSave.auth_userId := Some u;
               MarginReportSave.body :=
                 Some {| MarginReportSave.runId := Some runId;
                         MarginReportSave.analysis := Some analysis |} |} d))
  = upsert (MarginReportSave.same_run runId u)
      (fun doc => {| ma_runId := ma_runId doc;
                     ma_userId := ma_userId doc;
                     ma_fileId := ma_fileId doc;
                     ma_createdAt := ma_createdAt doc;
                     ma_analysis := Some analysis;
                     ma_status := str "completed";
                     ma_completedAt := Some (MarginReportSave.now sw);
                     ma_updatedAt := MarginReportSave.now sw |})
      {| ma_runId := runId;
         ma_userId := u;
         ma_fileId := None;
         ma_createdAt := None;
         ma_analysis := Some analysis;
         ma_status := str "completed";
         ma_completedAt := Some (MarginReportSave.now sw);
         ma_updatedAt := MarginReportSave.now sw |}
      (margin_analyses d).
Proof.
  intros Ht Hu Hr Hc. unfold MarginReportSave.POST.
  cbn [MarginReportSave.auth_userId MarginReportSave.body MarginReportSave.runId
       MarginReportSave.analysis].
  destruct u as [|u0 u]; [now destruct Hu|]. destruct runId as [|r0 r]; [now destruct Hr|].
  rewrite Ht, Hc. reflexivity.
Qed.

(** X5.  What the save endpoint stored is what the read endpoint returns to
    the same user for the same run: the answer is 200 with that run id,
    status completed, and the saved analysis; an analysis saved as text
    comes back parsed when the text is JSON. *)
Theorem saved_report_is_read_back sw gw u runId analysis d :
  truthy analysis = true -> u <> [] -> runId <> [] ->
  MarginReportSave.connects sw = true -> MarginReportGet.connects gw = true ->
  exists answer,
    MarginReportGet.GET gw
      {| MarginReportGet.auth_userId := Some u; MarginReportGet.params_runId := Some runId |}
      (snd (MarginReportSave.POST sw
              {| MarginReportSave.auth_userId := Some u;
                 MarginReportSave.body :=
                   Some {| MarginReportSave.runId := Some runId;
                           MarginReportSave.analysis := Some analysis |} |} d))
    = Responded (Build_Response 200 answer)
    /\ get_prop "runId" answer = Some (JStr runId)
    /\ get_prop "status" answer = Some (JStr (str "completed"))
    /\ get_prop "analysis" answer
       = Some (match analysis with
               | JStr s => match JSON_parse s with Ret v => v | Throw _ => JStr s end
               | v => v
               end).
Proof.
  intros Ht Hu Hr Hc Hg. unfold MarginReportGet.GET.
  cbn [MarginReportGet.auth_userId MarginReportGet.params_runId].
  rewrite (save_stored sw u runId analysis d Ht Hu Hr Hc).
  destruct u as [|u0 u]; [now destruct Hu|]. destruct runId as [|r0 r]; [now destruct Hr|].
  rewrite Hg. cbn [negb].
  rewrite find_upsert_exact.
  2: { intros doc Hdoc. exact Hdoc. }
  2: { apply same_run_eq. now split. }
  assert (Ha : forall record, ma_analysis record = Some analysis ->
                 MarginReportGet.analysis_of record
                 = match analysis with
                   | JStr s => match JSON_parse s with Ret v => v | Throw _ => JStr s end
                   | v => v
                   end).
  { intros record Hrec. unfold MarginReportGet.analysis_of. rewrite Hrec.
    now destruct analysis. }
  destruct (find _ (margin_analyses d)) as [old|];
    match goal with
    | |- context [MarginReportGet.analysis_of ?rec] => rewrite (Ha rec eq_refl)
    end;
    eexists; (split; [reflexivity|]); now repeat split.
Qed.

(** X6.  The read endpoint answers 200 only with a record stored under the
    caller's user id and the run id asked for: the analysis it returns is
    that record's. *)
Theorem report_read_is_own gw req d r :
  MarginReportGet.GET gw req d = Responded r ->
  status r = 200%nat ->
  exists u runId record,
    MarginReportGet.auth_userId req = Some u
    /\ MarginReportGet.params_runId req = Some runId
    /\ record ∈ margin_analyses d
    /\ ma_userId record = u
    /\ ma_runId record = runId
    /\ get_prop "analysis" (body r) = Some (MarginReportGet.analysis_of record).
Proof.
  unfold MarginReportGet.GET. intros H Hst.
  destruct (MarginReportGet.params_runId req) as [[|c rid]|];
    try (injection H as <-; discriminate Hst).
  destruct (MarginReportGet.auth_userId req) as [[|u0 u]|];
    try (injection H as <-; discriminate Hst).
  destruct (MarginReportGet.connects gw); cbn [negb] in H;
    [|injection H as <-; discriminate Hst].
  destruct (find _ _) as [record|] eqn:Hfind; [|injection H as <-; discriminate Hst].
  apply find_some in Hfind as [Hin Hsame]. apply same_run_eq in Hsame as [H1 H2].
  injection H as <-.
  exists (u0 :: u), (c :: rid), record.
  split; [reflexivity|]. split; [reflexivity|]. split; [now apply list_elem_of_In|].
  split; [exact H2|]. split; [exact H1|]. reflexivity.
Qed.

(** X7.  A save changes nothing but the record of its own run and user: the
    files, the session metadata and the analyses stay as they were, and the
    record found for any other run id or user is the one found before. *)
Theorem save_touches_one_record sw req d runId' u' :
  (MarginReportSave.body req ≫= MarginReportSave.runId, MarginReportSave.auth_userId req)
    <> (Some runId', Some u') ->
  files (snd (MarginReportSave.POST sw req d)) = files d
  /\ sessionMetadata (snd (MarginReportSave.POST sw req d)) = sessionMetadata d
  /\ analyses (snd (MarginReportSave.POST sw req d)) = analyses d
  /\ find (MarginReportSave.same_run runId' u')
          (margin_analyses (snd (MarginReportSave.POST sw req d)))
     = find (MarginReportSave.same_run runId' u') (margin_analyses d).
Proof.
  intros Hne. unfold MarginReportSave.POST.
  destruct (MarginReportSave.auth_userId req) as [[|u0 u]|]; try (now repeat split).
  destruct (MarginReportSave.body req) as [b|]; try (now repeat split).
  cbn [mbind option_bind] in Hne.
  destruct (MarginReportSave.runId b) as [[|r0 r]|]; try (now repeat split).
  destruct (MarginReportSave.analysis b) as [a|]; try (now repeat split).
  destruct (truthy a); cbn [negb]; try (now repeat split).
  destruct (MarginReportSave.connects sw); cbn [negb]; try (now repeat split).
  cbn [snd files sessionMetadata analyses margin_analyses].
  split; [reflexivity|]. split; [reflexivity|]. split; [reflexivity|].
  assert (Hother : (runId', u') <> (r0 :: r, u0 :: u)) by (intros [= -> ->]; now destruct Hne).
  apply find_upsert_other.
  - intros doc Hdoc. exact (same_run_other _ _ _ _ _ Hother Hdoc).
  - intros doc Hdoc. apply (same_run_other _ _ _ _ doc Hother) in Hdoc. exact Hdoc.
  - destruct (MarginReportSave.same_run runId' u' _) eqn:E; [|reflexivity].
    apply same_run_eq in E as [E1 E2]. cbn [ma_runId ma_userId] in E1, E2.
    destruct Hother. congruence.
Qed.

(** X8.  A run that was created and then saved has one record: the save
    completes the record the creation inserted, keeping its file id and its
    creation time, setting the analysis and the status completed; the
    collection has grown by that one record. *)
Theorem created_run_is_completed_by_save cw sw u b fileId analysis d :
  u <> [] ->
  MarginReportCreate.fileId_of b = Some fileId -> truthy fileId = true ->
  truthy analysis = true ->
  MarginReportCreate.connects cw = true -> MarginReportSave.connects sw = true ->
  find (MarginReportSave.same_run (MarginReportCreate.runId_of cw) u) (margin_analyses d) = None ->
  let created :=
    MarginReportCreate.POST cw
      {| MarginReportCreate.auth_userId := Some u; MarginReportCreate.body := Some b |} d in
  let saved :=
    MarginReportSave.POST sw
      {| MarginReportSave.auth_userId := Some u;
         MarginReportSave.body :=
           Some {| MarginReportSave.runId := Some (MarginReportCreate.runId_of cw);
                   MarginReportSave.analysis := Some analysis |} |} (snd created) in
  fst created = respond 200 [("runId"%string, JStr (MarginReportCreate.runId_of cw))]
  /\ find (MarginReportSave.same_run (MarginReportCreate.runId_of cw) u)
          (margin_analyses (snd saved))
     = Some {| ma_runId := MarginReportCreate.runId_of cw;
               ma_userId := u;
               ma_fileId := Some fileId;
               ma_createdAt := Some (Z.of_N (MarginReportCreate.now cw));
               ma_analysis := Some analysis;
               ma_status := str "completed";
               ma_completedAt := Some (MarginReportSave.now sw);
               ma_updatedAt := MarginReportSave.now sw |}
  /\ length (margin_analyses (snd saved)) = S (length (margin_analyses d)).
Proof.
  intros Hu Hf Htf Hta Hcc Hsc Hnew. cbv zeta.
  assert (Hcreated :
    MarginReportCreate.POST cw
      {| MarginReportCreate.auth_userId := Some u; MarginReportCreate.body := Some b |} d
    = (respond 200 [("runId"%string, JStr (MarginReportCreate.runId_of cw))],
       {| files := files d;
          sessionMetadata := sessionMetadata d;
          analyses := analyses d;
          margin_analyses :=
            margin_analyses d ++ [MarginReportCreate.run_record cw fileId u] |})).
  { unfold MarginReportCreate.POST.
    cbn [MarginReportCreate.auth_userId MarginReportCreate.body].
    destruct u as [|u0 u]; [now destruct Hu|]. now rewrite Hf, Htf, Hcc. }
  rewrite Hcreated. cbn [fst snd]. split; [reflexivity|].
  rewrite save_stored; [|exact Hta|exact Hu|discriminate|exact Hsc].
  cbn [margin_analyses].
  assert (Hrec : find (MarginReportSave.same_run (MarginReportCreate.runId_of cw) u)
                   (margin_analyses d ++ [MarginReportCreate.run_record cw fileId u])
                 = Some (MarginReportCreate.run_record cw fileId u)).
  { apply find_app_none; [exact Hnew|]. apply same_run_eq. now split. }
  split.
  - rewrite find_upsert_exact.
    + now rewrite Hrec.
    + intros doc Hdoc. exact Hdoc.
    + apply same_run_eq. now split.
  - rewrite length_upsert, Hrec, length_app. cbn [length]. lia.
Qed.

Lemma saved_report_is_read_back_witness :
  exists answer,
    MarginReportGet.GET Scenario.get_world (Scenario.get_request Scenario.user1 Scenario.run1)
      Scenario.saved_db
    = Responded (Build_Response 200 answer)
    /\ get_prop "runId" answer = Some (JStr Scenario.run1)
    /\ get_prop "status" answer = Some (JStr (str "completed"))
    /\ get_prop "analysis" answer = Some Scenario.report.
Proof.
  apply (saved_report_is_read_back Scenario.save_world_ok Scenario.get_world Scenario.user1
           Scenario.run1 Scenario.report Scenario.prices_db).
  - reflexivity.
  - discriminate.
  - discriminate.
  - reflexivity.
  - reflexivity.
Defined.

Lemma report_read_is_own_witness :
  exists u runId record,
    Some Scenario.user1 = Some u
    /\ Some Scenario.run1 = Some runId
    /\ record ∈ margin_analyses Scenario.saved_db
    /\ ma_userId record = u
    /\ ma_runId record = runId
    /\ get_prop "analysis"
         (JObj [(str "runId", JStr Scenario.run1);
                (str "analysis", Scenario.report);
                (str "fileName", JStr (str "prices.csv"));
                (str "meta", JObj [(str "fileId", JStr Scenario.id1)]);
                (str "status", JStr (str "completed"));
                (str "savedAt", JStr (str "2023-11-14T22:13:20.900Z"))])
       = Some (MarginReportGet.analysis_of record).
Proof.
  apply (report_read_is_own Scenario.get_world
           (Scenario.get_request Scenario.user1 Scenario.run1) Scenario.saved_db
           (Build_Response 200
              (JObj [(str "runId", JStr Scenario.run1);
                     (str "analysis", Scenario.report);
                     (str "fileName", JStr (str "prices.csv"));
                     (str "meta", JObj [(str "fileId", JStr Scenario.id1)]);
                     (str "status", JStr (str "completed"));
                     (str "savedAt", JStr (str "2023-11-14T22:13:20.900Z"))]))).
  - vm_compute. reflexivity.
  - reflexivity.
Defined.

Lemma save_touches_one_record_witness :
  files Scenario.saved_db = files Scenario.prices_db
  /\ sessionMetadata Scenario.saved_db = sessionMetadata Scenario.prices_db
  /\ analyses Scenario.saved_db = analyses Scenario.prices_db
  /\ find (MarginReportSave.same_run Scenario.run1 Scenario.user2)
          (margin_analyses Scenario.saved_db)
     = find (MarginReportSave.same_run Scenario.run1 Scenario.user2)
            (margin_analyses Scenario.prices_db).
Proof.
  apply (save_touches_one_record Scenario.save_world_ok
           (Scenario.save_request Scenario.user1 Scenario.run1) Scenario.prices_db
           Scenario.run1 Scenario.user2).
  vm_compute. discriminate.
Defined.

Lemma created_run_is_completed_by_save_witness :
  let created :=
    MarginReportCreate.POST Scenario.create_world
      {| MarginReportCreate.auth_userId := Some Scenario.user1;
         MarginReportCreate.body := Some (JObj [(str "fileId", JStr Scenario.id1)]) |}
      Scenario.prices_db in
  let saved :=
    MarginReportSave.POST Scenario.save_world_ok
      (Scenario.save_request Scenario.user1 (MarginReportCreate.runId_of Scenario.create_world))
      (snd created) in
  fst created
    = respond 200 [("runId"%string, JStr (MarginReportCreate.runId_of Scenario.create_world))]
  /\ find (MarginReportSave.same_run (MarginReportCreate.runId_of Scenario.create_world)
             Scenario.user1)
          (margin_analyses (snd saved))
     = Some {| ma_runId := MarginReportCreate.runId_of Scenario.create_world;
               ma_userId := Scenario.user1;
               ma_fileId := Some (JStr Scenario.id1);
               ma_createdAt := Some 1700000000000%Z;
               ma_analysis := Some Scenario.report;
               ma_status := str "completed";
               ma_completedAt := Some 900%Z;
               ma_updatedAt := 900%Z |}
  /\ length (margin_analyses (snd saved)) = 1%nat.
Proof.
  apply (created_run_is_completed_by_save Scenario.create_world Scenario.save_world_ok
           Scenario.user1 (JObj [(str "fileId", JStr Scenario.id1)]) (JStr Scenario.id1)
           Scenario.report Scenario.prices_db).
  - discriminate.
  - reflexivity.
  - reflexivity.
  - reflexivity.
  - reflexivity.
  - reflexivity.
  - reflexivity.
Defined.

(** The run id the creation makes is the one of the scenario, and another
    user asking for the saved run is answered 404. *)
Example created_run_id :
  MarginReportCreate.runId_of Scenario.create_world = Scenario.run1
  /\ MarginReportGet.GET Scenario.get_world (Scenario.get_request Scenario.user2 Scenario.run1)
       Scenario.saved_db
     = error_body 404 "Not found".
Proof. split; vm_compute; reflexivity. Qed.

(** ** The pipeline of the client *)

Section PipelineInvariants.
Import Orchestrator.
Variable w : World.
Variable p : Props.
Variable d : Database.

(** X9.  In every state the component reaches, the steps are, in order:
    steps that succeeded, then possibly one step in error followed by steps
    still pending.  So no step is left loading and at most one step is in
    error. *)
Theorem steps_status_shape st :
  reachable w p d st ->
  exists done rest,
    MARGIN_STEPS = done ++ rest
    /\ (forall s, s ∈ done -> status_at st s = Some st_success)
    /\ match rest with
       | [] => True
       | s :: r =>
           status_at st s = Some st_error
           /\ forall s', s' ∈ r -> status_at st s' = Some st_pending
       end.
Proof.
  intros Hreach.
  destruct (reachable_halted w p d st Hreach) as (done & rest & Hsplit & Hdone & Hrest).
  exists done, rest. split; [exact Hsplit|]. split.
  - intros s Hs. apply succeeded_status. now apply Hdone.
  - destruct rest as [|s r]; [exact I|]. destruct Hrest as (He & Hp & _). now split.
Qed.

Lemma finalize_completed st :
  completed (finalizeAndReturn w p st) = completed st
  \/ exists final, completed (finalizeAndReturn w p st) = completed st ++ [(final, runId p)].
Proof.
  unfold finalizeAndReturn. destruct (finalResults _ _ _) as [final|e]; [|now left].
  right. exists final. now destruct (runId p) as [[|c r]|].
Qed.

Lemma finalize_saves st :
  (length (saves (finalizeAndReturn w p st)) <= S (length (saves st)))%nat.
Proof.
  unfold finalizeAndReturn. destruct (finalResults _ _ _) as [final|e]; [|cbn; lia].
  destruct (runId p) as [[|c r]|]; cbn [saves]; rewrite ?length_app; cbn; lia.
Qed.

(** X10.  [onComplete] is called at most once, and only when all five steps
    have succeeded; at most one save request is sent.  While some step has
    not succeeded nothing was handed over, no save request was sent and the
    store is as it was. *)
Theorem completion_only_after_all_steps st :
  reachable w p d st ->
  (completed st = [] \/ exists final, completed st = [(final, runId p)])
  /\ (length (saves st) <= 1)%nat
  /\ (completed st <> [] ->
      forall s, s ∈ MARGIN_STEPS -> status_at st s = Some st_success)
  /\ ((exists s, s ∈ MARGIN_STEPS /\ status_at st s <> Some st_success) ->
      completed st = [] /\ saves st = [] /\ server st = d).
Proof.
  intros Hreach.
  destruct (reachable_halted w p d st Hreach) as (done & rest & Hsplit & Hdone & Hrest).
  destruct rest as [|s r].
  - rewrite app_nil_r in Hsplit. subst done.
    destruct Hrest as (Hs & Hv & Hc & Hu).
    assert (Hall : forall s, s ∈ MARGIN_STEPS -> status_at st s = Some st_success).
    { intros s Hs'. apply succeeded_status. now apply Hdone. }
    split; [|split; [|split]].
    + rewrite Hc. destruct (finalize_completed (before_final d (accumRef st))) as [->|[f ->]];
        [now left|right; now exists f].
    + rewrite Hs. apply (finalize_saves (before_final d (accumRef st))).
    + intros _. exact Hall.
    + intros (s & Hs' & Hne). destruct Hne. now apply Hall.
  - destruct Hrest as (Herr & Hpend & Hs & Hv & Hc & Hu).
    cbn [before_final saves server completed] in Hs, Hv, Hc.
    split; [now left|]. split; [rewrite Hs; cbn; lia|]. split.
    + intros Hne. now destruct Hne.
    + intros _. now repeat split.
Qed.

Lemma map_exn_throw {A B} (f : A -> Exn B) l x e :
  x ∈ l -> f x = Throw e -> (forall y e', f y = Throw e' -> e' = e) ->
  map_exn f l = Throw e.
Proof.
  intros Hx Hfx Hsame. induction l as [|y l IH]; [now apply elem_of_nil in Hx|].
  cbn [map_exn]. destruct (f y) as [b|e'] eqn:Hy.
  - cbn [bind_exn]. apply elem_of_cons in Hx as [->|Hx]; [congruence|].
    now rewrite (IH Hx).
  - cbn [bind_exn]. f_equal. exact (Hsame _ _ Hy).
Qed.

Lemma suggestion_list_bad v :
  suggestion_list v = false ->
  as_array v = Throw TypeError
  \/ exists l, as_array v = Ret l /\ JNull ∈ l.
Proof.
  destruct v as [[| | | |l|]|]; cbn [suggestion_list as_array]; try discriminate; try (now left).
  intros H. right. exists l. split; [reflexivity|].
  induction l as [|x l IH]; [discriminate|]. cbn [forallb] in H.
  destruct x; try (right; now apply IH). now left.
Qed.

Lemma suggestion_throws (f : json -> Exn json) l :
  (f = priority_suggestion \/ f = quick_win_suggestion) ->
  JNull ∈ l -> map_exn f l = Throw TypeError.
Proof.
  intros Hf Hin. apply (map_exn_throw f l JNull); [exact Hin| |].
  - now destruct Hf as [-> | ->].
  - intros y e'. destruct Hf as [-> | ->]; destruct y; cbn; congruence.
Qed.

(** The final record cannot be built from recommendations whose
    [priority_actions] or [quick_wins] is no array or holds [null]. *)
Lemma finalResults_throws iso acc :
  well_shaped acc = false -> finalResults p iso acc = Throw TypeError.
Proof.
  unfold well_shaped, finalResults. cbv zeta. intros H.
  apply andb_false_iff in H.
  destruct (suggestion_list (get_prop "priority_actions" _)) eqn:H1.
  - destruct H as [H|H]; [discriminate|].
    destruct (suggestion_list_array _ H1) as (l1 & -> & Hl1). cbn [bind_exn].
    destruct (suggestion_list_bad _ H) as [-> | (l2 & -> & Hnull)]; [reflexivity|].
    cbn [bind_exn].
    destruct (map_exn_ret priority_suggestion l1) as [ys ->].
    { intros x Hx. specialize (Hl1 x Hx). destruct x; cbn; eauto. now destruct Hl1. }
    cbn [bind_exn]. now rewrite (suggestion_throws quick_win_suggestion l2) by auto.
  - clear H. destruct (suggestion_list_bad _ H1) as [-> | (l1 & -> & Hnull)]; [reflexivity|].
    cbn [bind_exn].
    destruct (as_array (get_prop "quick_wins" _)) as [l2|e] eqn:H2.
    + cbn [bind_exn]. now rewrite (suggestion_throws priority_suggestion l1) by auto.
    + cbn [bind_exn]. f_equal.
      destruct (get_prop "quick_wins" _) as [[]|]; cbn in H2; congruence.
Qed.

(** X11.  When all five steps have succeeded but the recommendations reply
    lists its priority actions or quick wins as something that is not an
    array, or as an array holding [null], building the final record throws a
    TypeError that nothing catches: [onComplete] is never called and no save
    request is sent. *)
Theorem malformed_recommendations_block_completion st :
  reachable w p d st ->
  (forall s, s ∈ MARGIN_STEPS -> status_at st s = Some st_success) ->
  well_shaped (accumRef st) = false ->
  completed st = [] /\ saves st = [] /\ server st = d /\ uncaught st = [TypeError].
Proof.
  intros Hreach Hall Hshape.
  destruct (all_succeeded_final w p d st (reachable_halted w p d st Hreach) Hall)
    as (_ & Hs & Hv & Hc & Hu).
  unfold finalizeAndReturn in Hs, Hv, Hc, Hu.
  cbn [accumRef before_final] in Hs, Hv, Hc, Hu.
  rewrite (finalResults_throws _ _ Hshape) in Hs, Hv, Hc, Hu.
  cbn [saves server completed uncaught app] in Hs, Hv, Hc, Hu. now repeat split.
Qed.

End PipelineInvariants.

Lemma steps_status_shape_witness :
  let st := Orchestrator.run Scenario.world_leakage_fails_once Scenario.props empty_db in
  exists done rest,
    Orchestrator.MARGIN_STEPS = done ++ rest
    /\ (forall s, s ∈ done -> Orchestrator.status_at st s = Some Orchestrator.st_success)
    /\ match rest with
       | [] => True
       | s :: r =>
           Orchestrator.status_at st s = Some Orchestrator.st_error
           /\ forall s', s' ∈ r -> Orchestrator.status_at st s' = Some Orchestrator.st_pending
       end.
Proof.
  cbv zeta.
  apply (steps_status_shape Scenario.world_leakage_fails_once Scenario.props empty_db).
  apply Orchestrator.reach_run.
Defined.

Lemma completion_only_after_all_steps_witness :
  let st := Orchestrator.run Scenario.world_leakage_fails_once Scenario.props empty_db in
  (Orchestrator.completed st = []
   \/ exists final, Orchestrator.completed st = [(final, Orchestrator.runId Scenario.props)])
  /\ (length (Orchestrator.saves st) <= 1)%nat
  /\ (Orchestrator.completed st <> [] ->
      forall s, s ∈ Orchestrator.MARGIN_STEPS ->
        Orchestrator.status_at st s = Some Orchestrator.st_success)
  /\ ((exists s, s ∈ Orchestrator.MARGIN_STEPS
                 /\ Orchestrator.status_at st s <> Some Orchestrator.st_success) ->
      Orchestrator.completed st = [] /\ Orchestrator.saves st = []
      /\ Orchestrator.server st = empty_db).
Proof.
  cbv zeta.
  apply (completion_only_after_all_steps Scenario.world_leakage_fails_once Scenario.props
           empty_db).
  apply Orchestrator.reach_run.
Defined.

Lemma malformed_recommendations_block_completion_witness :
  let st := Orchestrator.run Scenario.world_null_action Scenario.props empty_db in
  Orchestrator.completed st = [] /\ Orchestrator.saves st = []
  /\ Orchestrator.server st = empty_db /\ Orchestrator.uncaught st = [TypeError].
Proof.
  cbv zeta.
  apply (malformed_recommendations_block_completion Scenario.world_null_action Scenario.props
           empty_db).
  - apply Orchestrator.reach_run.
  - intros s Hs. each_step Hs.
  - vm_compute. reflexivity.
Defined.

Section FinalSuggestions.
Import Orchestrator.

Lemma map_exn_Forall2 {A B} (f : A -> Exn B) l ys :
  map_exn f l = Ret ys -> Forall2 (fun x y => f x = Ret y) l ys.
Proof.
  revert ys. induction l as [|x l IH]; intros ys; cbn [map_exn].
  - intros [= <-]. constructor.
  - destruct (f x) as [y|e] eqn:Hx; [|discriminate]. cbn [bind_exn].
    destruct (map_exn f l) as [ys'|e]; [|discriminate]. cbn [bind_exn].
    intros [= <-]. constructor; auto.
Qed.

(** X12.  The final record lists one remediation suggestion for each
    priority action of the recommendations reply, in order, followed by one
    for each quick win.  The suggestion of a priority action has confidence
    0.9 when its priority is high, 0.7 when medium and 0.5 otherwise; the
    suggestion of a quick win has type Quick Win, priority high and
    confidence 0.8. *)
Theorem remediation_suggestions_listed p iso acc final :
  finalResults p iso acc = Ret final ->
  exists actions wins fromActions fromWins,
    as_array (get_prop "priority_actions"
                (coalesce_default (acc !! "recommendations"%string) (JObj []))) = Ret actions
    /\ as_array (get_prop "quick_wins"
                   (coalesce_default (acc !! "recommendations"%string) (JObj []))) = Ret wins
    /\ get_prop "remediation_suggestions" final = Some (JArr (fromActions ++ fromWins))
    /\ Forall2 (fun action sug =>
                  action <> JNull
                  /\ get_prop "confidence" sug
                     = Some (if is_string "high" (get_prop "priority" action) then num "0.9"
                             else if is_string "medium" (get_prop "priority" action)
                                  then num "0.7" else num "0.5")
                  /\ get_prop "priority" sug
                     = Some (js_or (get_prop "priority" action) (JStr (str "medium"))))
               actions fromActions
    /\ Forall2 (fun win sug =>
                  win <> JNull
                  /\ get_prop "type" sug = Some (JStr (str "Quick Win"))
                  /\ get_prop "priority" sug = Some (JStr (str "high"))
                  /\ get_prop "confidence" sug = Some (num "0.8")
                  /\ get_prop "description" sug
                     = Some (js_or (get_prop "action" win) (JStr [])))
               wins fromWins.
Proof.
  unfold finalResults. cbv zeta.
  destruct (as_array (get_prop "priority_actions" _)) as [actions|]; [|discriminate].
  cbn [bind_exn].
  destruct (as_array (get_prop "quick_wins" _)) as [wins|]; [|discriminate].
  cbn [bind_exn].
  destruct (map_exn priority_suggestion actions) as [fromActions|] eqn:Ha; [|discriminate].
  cbn [bind_exn].
  destruct (map_exn quick_win_suggestion wins) as [fromWins|] eqn:Hw; [|discriminate].
  cbn [bind_exn]. intros [= <-].
  exists actions, wins, fromActions, fromWins.
  split; [reflexivity|]. split; [reflexivity|]. split; [reflexivity|]. split.
  - apply map_exn_Forall2 in Ha. eapply Forall2_impl; [exact Ha|].
    intros a sug Hs. destruct a; cbn in Hs; try discriminate;
      injection Hs as <-; (split; [discriminate|]); now split.
  - apply map_exn_Forall2 in Hw. eapply Forall2_impl; [exact Hw|].
    intros a sug Hs. destruct a; cbn in Hs; try discriminate;
      injection Hs as <-; (split; [discriminate|]); now repeat split.
Qed.

End FinalSuggestions.

Lemma remediation_suggestions_listed_witness :
  exists actions wins fromActions fromWins : list json,
    Orchestrator.as_array
      (get_prop "priority_actions"
         (coalesce_default
            (Orchestrator.accumRef
               (Orchestrator.run Scenario.world_ok Scenario.props empty_db)
             !! "recommendations"%string) (JObj []))) = Ret actions
    /\ Orchestrator.as_array
         (get_prop "quick_wins"
            (coalesce_default
               (Orchestrator.accumRef
                  (Orchestrator.run Scenario.world_ok Scenario.props empty_db)
                !! "recommendations"%string) (JObj []))) = Ret wins
    /\ length actions = 1%nat /\ length wins = 0%nat
    /\ length (fromActions ++ fromWins) = 1%nat.
Proof.
  destruct (Orchestrator.finalResults Scenario.props (str "2025-01-01T00:00:00.000Z")
              (Orchestrator.accumRef
                 (Orchestrator.run Scenario.world_ok Scenario.props empty_db)))
    as [final|e] eqn:Hfinal; [|vm_compute in Hfinal; discriminate Hfinal].
  destruct (remediation_suggestions_listed Scenario.props (str "2025-01-01T00:00:00.000Z") _
              final Hfinal)
    as (actions & wins & fromActions & fromWins & Ha & Hw & _ & Fa & Fw).
  exists actions, wins, fromActions, fromWins.
  split; [exact Ha|]. split; [exact Hw|].
  vm_compute in Ha, Hw. injection Ha as <-. injection Hw as <-.
  split; [reflexivity|]. split; [reflexivity|].
  rewrite length_app, <- (Forall2_length _ _ _ Fa), <- (Forall2_length _ _ _ Fw). reflexivity.
Defined.

(** ** The logical checks route *)

Section LogicalChecks.
Import LogicalRoute.

Lemma ask_effect w c s :
  db (snd (ask w c s)) = db s
  /\ vertexAI (snd (ask w c s)) = vertexAI s
  /\ model_calls (snd (ask w c s)) = model_calls s ++ [c]
  /\ forall raw parsed, fst (ask w c s) = Read raw parsed ->
       JsonRepair.extractFirstJsonObj raw = Ret parsed.
Proof.
  unfold ask. cbv zeta.
  destruct (generateContent w _ c) as [f|text]; cbn [fst snd with_call db vertexAI model_calls].
  - repeat split. intros raw parsed [=].
  - destruct (JsonRepair.extractFirstJsonObj _) as [v|e] eqn:He;
      cbn [fst snd with_call db vertexAI model_calls]; repeat split.
    + intros raw parsed [= <- <-]. exact He.
    + intros raw parsed [=].
Qed.

(** What [callGeminiWithRetry] does to the server and what it returns. *)
Lemma callGeminiWithRetry_effect w prompt n lastRaw s :
  db (snd (callGeminiWithRetry w prompt n lastRaw s)) = db s
  /\ vertexAI (snd (callGeminiWithRetry w prompt n lastRaw s)) = vertexAI s
  /\ (exists calls,
        model_calls (snd (callGeminiWithRetry w prompt n lastRaw s)) = model_calls s ++ calls
        /\ (length calls <= 2 * n - 1)%nat
        /\ forall c, c ∈ calls -> call_prompt c = prompt)
  /\ (snd (fst (callGeminiWithRetry w prompt n lastRaw s)) = JNull
      \/ truthy (snd (fst (callGeminiWithRetry w prompt n lastRaw s))) = true
         /\ JsonRepair.extractFirstJsonObj (fst (fst (callGeminiWithRetry w prompt n lastRaw s)))
            = Ret (snd (fst (callGeminiWithRetry w prompt n lastRaw s)))).
Proof.
  revert lastRaw s. induction n as [|k IH]; intros lastRaw s.
  { cbn [callGeminiWithRetry fst snd]. split; [reflexivity|]. split; [reflexivity|].
    split; [|now left]. exists []. rewrite app_nil_r. split; [reflexivity|].
    split; [cbn; lia|]. intros c Hc. now apply elem_of_nil in Hc. }
  cbn [callGeminiWithRetry].
  pose proof (ask_effect w {| call_prompt := prompt; reminder := false |} s) as A1.
  destruct (ask w {| call_prompt := prompt; reminder := false |} s) as [a1 s1].
  cbn [fst snd] in A1. destruct A1 as (Ad1 & Av1 & Ac1 & Ar1).
  assert (Step : forall raw' s',
            db s' = db s -> vertexAI s' = vertexAI s ->
            (exists calls, model_calls s' = model_calls s ++ calls
                           /\ (length calls <= 2)%nat /\ (k = O -> length calls <= 1)%nat
                           /\ forall c, c ∈ calls -> call_prompt c = prompt) ->
            let out := callGeminiWithRetry w prompt k raw' s' in
            db (snd out) = db s /\ vertexAI (snd out) = vertexAI s
            /\ (exists calls, model_calls (snd out) = model_calls s ++ calls
                              /\ (length calls <= 2 * S k - 1)%nat
                              /\ forall c, c ∈ calls -> call_prompt c = prompt)
            /\ (snd (fst out) = JNull
                \/ truthy (snd (fst out)) = true
                   /\ JsonRepair.extractFirstJsonObj (fst (fst out)) = Ret (snd (fst out)))).
  { intros raw' s' Hd Hv (calls & Hc & Hlen & Hlen0 & Hp). cbv zeta.
    destruct (IH raw' s') as (Id & Iv & (calls' & Ic & Il & Ip) & Ir).
    split; [congruence|]. split; [congruence|]. split; [|exact Ir].
    exists (calls ++ calls'). split; [rewrite Ic, Hc; now rewrite app_assoc|]. split.
    - rewrite length_app. clear IH Ir Ip Hp Ic Hc.
      destruct k; [specialize (Hlen0 eq_refl)|]; lia.
    - intros c Hin. apply elem_of_app in Hin as [Hin|Hin]; auto. }
  assert (One : exists calls, model_calls s1 = model_calls s ++ calls
                              /\ (length calls <= 2)%nat /\ (k = O -> length calls <= 1)%nat
                              /\ forall c, c ∈ calls -> call_prompt c = prompt).
  { exists [{| call_prompt := prompt; reminder := false |}]. split; [exact Ac1|].
    split; [cbn; lia|]. split; [cbn; lia|].
    intros c Hc. apply elem_of_cons in Hc as [->|Hc]; [reflexivity|].
    now apply elem_of_nil in Hc. }
  assert (Done : forall raw parsed s',
            db s' = db s -> vertexAI s' = vertexAI s ->
            (exists calls, model_calls s' = model_calls s ++ calls
                           /\ (length calls <= 2)%nat /\ (k = O -> length calls <= 1)%nat
                           /\ forall c, c ∈ calls -> call_prompt c = prompt) ->
            truthy parsed = true -> JsonRepair.extractFirstJsonObj raw = Ret parsed ->
            db (snd (raw, parsed, s')) = db s /\ vertexAI (snd (raw, parsed, s')) = vertexAI s
            /\ (exists calls, model_calls (snd (raw, parsed, s')) = model_calls s ++ calls
                              /\ (length calls <= 2 * S k - 1)%nat
                              /\ forall c, c ∈ calls -> call_prompt c = prompt)
            /\ (snd (fst (raw, parsed, s')) = JNull
                \/ truthy (snd (fst (raw, parsed, s'))) = true
                   /\ JsonRepair.extractFirstJsonObj (fst (fst (raw, parsed, s')))
                      = Ret (snd (fst (raw, parsed, s'))))).
  { intros raw parsed s' Hd Hv (calls & Hc & Hlen & Hlen0 & Hp) Ht He. cbn [fst snd].
    split; [exact Hd|]. split; [exact Hv|]. split; [|now right].
    exists calls. split; [exact Hc|]. split; [|exact Hp].
    clear IH Step Hp Hc. destruct k; [specialize (Hlen0 eq_refl)|]; lia. }
  destruct a1 as [text|raw text|raw parsed].
  - now apply Step.
  - now apply Step.
  - destruct (truthy parsed) eqn:Ht.
    + apply Done; auto.
    + destruct k as [|k'].
      * now apply Step.
      * pose proof (ask_effect w {| call_prompt := prompt; reminder := true |} s1) as A2.
        destruct (ask w {| call_prompt := prompt; reminder := true |} s1) as [a2 s2].
        cbn [fst snd] in A2. destruct A2 as (Ad2 & Av2 & Ac2 & Ar2).
        assert (Two : exists calls, model_calls s2 = model_calls s ++ calls
                        /\ (length calls <= 2)%nat /\ (S k' = O -> length calls <= 1)%nat
                        /\ forall c, c ∈ calls -> call_prompt c = prompt).
        { exists [{| call_prompt := prompt; reminder := false |};
                  {| call_prompt := prompt; reminder := true |}].
          split; [rewrite Ac2, Ac1; now rewrite <- app_assoc|].
          split; [cbn; lia|]. split; [discriminate|].
          intros c Hc. repeat (apply elem_of_cons in Hc as [->|Hc]; [reflexivity|]).
          now apply elem_of_nil in Hc. }
        destruct a2 as [text2|raw2 text2|raw2 parsed2].
        -- apply Step; [congruence|congruence|exact Two].
        -- apply Step; [congruence|congruence|exact Two].
        -- destruct (truthy parsed2) eqn:Ht2.
           ++ apply Done; [congruence|congruence|exact Two|exact Ht2|now apply Ar2].
           ++ apply Step; [congruence|congruence|exact Two].
Qed.

(** X13.  [callGeminiWithRetry] with [n] attempts sends at most [2n - 1]
    prompts (five for the three attempts of the route), each made of the
    prompt it was given, and touches nothing else.  What it returns as
    parsed is [null] or a truthy value that [extractFirstJsonObj] found in
    the raw text it returns with it. *)
Theorem callGeminiWithRetry_bounds w prompt n lastRaw s :
  db (snd (callGeminiWithRetry w prompt n lastRaw s)) = db s
  /\ vertexAI (snd (callGeminiWithRetry w prompt n lastRaw s)) = vertexAI s
  /\ (exists calls,
        model_calls (snd (callGeminiWithRetry w prompt n lastRaw s)) = model_calls s ++ calls
        /\ (length calls <= 2 * n - 1)%nat
        /\ forall c, c ∈ calls -> call_prompt c = prompt)
  /\ (snd (fst (callGeminiWithRetry w prompt n lastRaw s)) = JNull
      \/ truthy (snd (fst (callGeminiWithRetry w prompt n lastRaw s))) = true
         /\ JsonRepair.extractFirstJsonObj (fst (fst (callGeminiWithRetry w prompt n lastRaw s)))
            = Ret (snd (fst (callGeminiWithRetry w prompt n lastRaw s)))).
Proof. apply callGeminiWithRetry_effect. Qed.


Lemma check_effects w b userId columns data s :
  files (db (snd (check w b userId columns data s))) = files (db s)
  /\ sessionMetadata (db (snd (check w b userId columns data s))) = sessionMetadata (db s)
  /\ margin_analyses (db (snd (check w b userId columns data s))) = margin_analyses (db s)
  /\ (exists calls,
        model_calls (snd (check w b userId columns data s)) = model_calls s ++ calls
        /\ (length calls <= 5)%nat)
  /\ (analyses (db (snd (check w b userId columns data s))) = analyses (db s)
      \/ exists r c rid,
           fst (check w b userId columns data s) = Responded r
           /\ status r = 200%nat /\ b ≫= runId = Some (c :: rid)).
Proof.
  unfold check. cbv zeta.
  match goal with
  | |- context [callGeminiWithRetry w ?pr 3 [] s] =>
      pose proof (callGeminiWithRetry_effect w pr 3 [] s) as (Hd & _ & (calls & Hc & Hl & _) & _);
      destruct (callGeminiWithRetry w pr 3 [] s) as [[raw parsed] s1]
  end.
  cbn [fst snd] in Hd, Hc, Hl.
  assert (Hcalls : exists calls, model_calls s1 = model_calls s ++ calls
                                 /\ (length calls <= 5)%nat).
  { exists calls. split; [exact Hc|]. cbn in Hl. lia. }
  assert (Same : files (db s1) = files (db s)
                 /\ sessionMetadata (db s1) = sessionMetadata (db s)
                 /\ margin_analyses (db s1) = margin_analyses (db s)
                 /\ (exists calls, model_calls s1 = model_calls s ++ calls
                                   /\ (length calls <= 5)%nat)
                 /\ analyses (db s1) = analyses (db s)).
  { rewrite Hd. now repeat split. }
  destruct Same as (S1 & S2 & S3 & S4 & S5).
  destruct raw as [|c0 raw]; [cbn [fst snd]; now auto 6|].
  destruct (negb (truthy parsed) || negb (is_object parsed)); [cbn [fst snd]; now auto 6|].
  destruct (negb (has_key "insights" parsed) || _ || _); [cbn [fst snd]; now auto 6|].
  cbn [fst snd].
  destruct (b ≫= runId) as [[|c rid]|]; try (now auto 6).
  destruct (analyses_write_fails w); [now auto 6|].
  cbn [db model_calls persist files sessionMetadata margin_analyses analyses].
  split; [exact S1|]. split; [exact S2|]. split; [exact S3|]. split; [exact S4|].
  right. eexists. exists c, rid. split; [reflexivity|]. now split.
Qed.

(** X14.  Whatever the request and the replies of the model, the logical
    checks route sends at most five prompts and leaves the stored files,
    session metadata and reports as they were; it writes to the analyses
    collection only when it answers 200 and the request carried a run id. *)
Theorem logical_checks_effects w req s :
  files (db (snd (POST w req s))) = files (db s)
  /\ sessionMetadata (db (snd (POST w req s))) = sessionMetadata (db s)
  /\ margin_analyses (db (snd (POST w req s))) = margin_analyses (db s)
  /\ (exists calls,
        model_calls (snd (POST w req s)) = model_calls s ++ calls
        /\ (length calls <= 5)%nat)
  /\ (analyses (db (snd (POST w req s))) = analyses (db s)
      \/ exists r c rid,
           fst (POST w req s) = Responded r
           /\ status r = 200%nat /\ body req ≫= runId = Some (c :: rid)).
Proof.
  assert (Same : files (db s) = files (db s)
                 /\ sessionMetadata (db s) = sessionMetadata (db s)
                 /\ margin_analyses (db s) = margin_analyses (db s)
                 /\ (exists calls, model_calls s = model_calls s ++ calls
                                   /\ (length calls <= 5)%nat)
                 /\ (analyses (db s) = analyses (db s)
                     \/ exists r c rid,
                          @fst Outcome Server (internal_error, s) = Responded r
                          /\ status r = 200%nat /\ body req ≫= runId = Some (c :: rid))).
  { split; [reflexivity|]. split; [reflexivity|]. split; [reflexivity|]. split; [|now left].
    exists []. rewrite app_nil_r. split; [reflexivity|cbn; lia]. }
  destruct Same as (S1 & S2 & S3 & S4 & _).
  unfold POST.
  destruct (auth_userId req) as [[|u0 u]|]; try (cbn [fst snd]; now auto 6).
  destruct (body req ≫= body_fileId) as [[|c f]|]; try (cbn [fst snd]; now auto 6).
  destruct (connect_fails w); [cbn [fst snd]; now auto 6|].
  destruct (negb (ObjectId_isValid (c :: f))); [cbn [fst snd]; now auto 6|].
  destruct (find _ _) as [fileDoc|]; [|cbn [fst snd]; now auto 6].
  destruct (download_fails w); [cbn [fst snd]; now auto 6|].
  destruct (processFileBuffer w _ _ _) as [e|[columns data]]; [cbn [fst snd]; now auto 6|].
  destruct (negb (vertexAI s) && negb (vertex_constructs w)); [cbn [fst snd]; now auto 6|].
  apply (check_effects w (body req) (u0 :: u) columns data
           {| db := db s; vertexAI := true; model_calls := model_calls s |}).
Qed.

End LogicalChecks.

(** ** The cost analysis route, further *)

Lemma assoc_last_app key a b :
  assoc_last key (a ++ b)
  = match assoc_last key b with
    | Some v => Some v
    | None => assoc_last key a
    end.
Proof.
  induction a as [|[k v] a IH]; cbn [app assoc_last].
  - now destruct (assoc_last key b).
  - rewrite IH. now destruct (assoc_last key b).
Qed.

Section CostEffects.
Import CostsRoute.

Lemma analyse_effects w req fileId u columns data s :
  files (db (snd (analyse w req fileId u columns data s))) = files (db s)
  /\ sessionMetadata (db (snd (analyse w req fileId u columns data s))) = sessionMetadata (db s)
  /\ margin_analyses (db (snd (analyse w req fileId u columns data s))) = margin_analyses (db s)
  /\ model_calls (snd (analyse w req fileId u columns data s))
     = model_calls s ++ [prompt_of req columns data]
  /\ (analyses (db (snd (analyse w req fileId u columns data s))) = analyses (db s)
      \/ exists answer,
           fst (analyse w req fileId u columns data s) = Responded (Build_Response 200 answer)).
Proof.
  unfold analyse. cbv zeta.
  destruct (generateContent w _) as [f|text]; cbn [fst snd db model_calls].
  - now auto 6.
  - destruct (analyses_write_fails w);
      cbn [db model_calls persist files sessionMetadata margin_analyses analyses].
    + now auto 6.
    + do 4 (split; [reflexivity|]). right. eexists. reflexivity.
Qed.

(** X15.  Whatever the request and the replies, the cost analysis route
    leaves the stored files, session metadata and reports as they were and
    sends at most one prompt to the model.  It writes to the analyses
    collection only when it answers 200, and it answers 200 only after the
    model was asked. *)
Theorem costs_route_effects w req s :
  files (db (snd (POST w req s))) = files (db s)
  /\ sessionMetadata (db (snd (POST w req s))) = sessionMetadata (db s)
  /\ margin_analyses (db (snd (POST w req s))) = margin_analyses (db s)
  /\ (model_calls (snd (POST w req s)) = model_calls s
      \/ exists p, model_calls (snd (POST w req s)) = model_calls s ++ [p])
  /\ (analyses (db (snd (POST w req s))) = analyses (db s)
      \/ exists answer, fst (POST w req s) = Responded (Build_Response 200 answer))
  /\ (forall r, fst (POST w req s) = Responded r -> status r = 200%nat ->
        exists p, model_calls (snd (POST w req s)) = model_calls s ++ [p]).
Proof.
  assert (Stop : forall code msg,
            code <> 200%nat ->
            files (db (snd (error_body code msg, s))) = files (db s)
            /\ sessionMetadata (db (snd (error_body code msg, s))) = sessionMetadata (db s)
            /\ margin_analyses (db (snd (error_body code msg, s))) = margin_analyses (db s)
            /\ (model_calls (snd (error_body code msg, s)) = model_calls s
                \/ exists p, model_calls (snd (error_body code msg, s)) = model_calls s ++ [p])
            /\ (analyses (db (snd (error_body code msg, s))) = analyses (db s)
                \/ exists answer,
                     fst (error_body code msg, s) = Responded (Build_Response 200 answer))
            /\ (forall r, fst (error_body code msg, s) = Responded r -> status r = 200%nat ->
                  exists p, model_calls (snd (error_body code msg, s)) = model_calls s ++ [p])).
  { intros code msg Hcode. cbn [fst snd]. do 5 (split; [now auto|]).
    intros r [= <-] Hst. now destruct Hcode. }
  assert (Stop' : forall f,
            files (db (snd (internal_error (env w) f, s))) = files (db s)
            /\ sessionMetadata (db (snd (internal_error (env w) f, s))) = sessionMetadata (db s)
            /\ margin_analyses (db (snd (internal_error (env w) f, s))) = margin_analyses (db s)
            /\ (model_calls (snd (internal_error (env w) f, s)) = model_calls s
                \/ exists p, model_calls (snd (internal_error (env w) f, s))
                             = model_calls s ++ [p])
            /\ (analyses (db (snd (internal_error (env w) f, s))) = analyses (db s)
                \/ exists answer,
                     fst (internal_error (env w) f, s) = Responded (Build_Response 200 answer))
            /\ (forall r, fst (internal_error (env w) f, s) = Responded r ->
                  status r = 200%nat ->
                  exists p, model_calls (snd (internal_error (env w) f, s))
                            = model_calls s ++ [p])).
  { intros f. cbn [fst snd]. do 5 (split; [now auto|]).
    intros r [= <-] Hst. discriminate Hst. }
  unfold POST.
  destruct (MONGODB_URI (env w)) as [[|c uri]|]; try (apply Stop; discriminate).
  destruct (setting (VERTEX_AI_PROJECT _) _); try (apply Stop; discriminate).
  destruct (setting (VERTEX_AI_LOCATION _) _); try (apply Stop; discriminate).
  destruct (fileId_of req) as [fileId|]; try (apply Stop; discriminate).
  destruct (ObjectId_isValid fileId); try (apply Stop; discriminate).
  destruct (auth_userId w) as [[|u0 u]|]; try (apply Stop; discriminate).
  unfold handle.
  destruct (connect_failure w) as [f|]; [apply Stop'|].
  destruct (find _ _) as [file|]; try (apply Stop; discriminate).
  destruct (download_fails w); try (apply Stop; discriminate).
  destruct (processFileData w _ _ _) as [f|[columns data]]; [apply Stop'|].
  destruct (Nat.eqb (length columns) 0 || Nat.eqb (length data) 0);
    try (apply Stop; discriminate).
  destruct (negb (vertexAI s) && negb (vertex_constructs w)); try (apply Stop; discriminate).
  destruct (analyse_effects w req fileId (u0 :: u) columns data s) as (A1 & A2 & A3 & A4 & A5).
  split; [exact A1|]. split; [exact A2|]. split; [exact A3|].
  split; [right; eauto|]. split; [exact A5|]. intros r _ _. eauto.
Qed.

(** X16.  When the reply of the model is a JSON object, the route answers
    200 with the fields of that object laid over [status: success] and
    [step: cost_analysis]: a field of the reply, [status] included, is
    returned as the model gave it. *)
Theorem reply_fields_override w req s fileId u columns data text props :
  reaches_model w req s fileId u columns data ->
  generateContent w (prompt_of req columns data) = Reply text ->
  JSON_parse (analysisRaw_of text) = Ret (JObj props) ->
  exists answer,
    fst (POST w req s) = Responded (Build_Response 200 answer)
    /\ forall key,
         get_prop key answer
         = match get_prop key (JObj props) with
           | Some v => Some v
           | None =>
               get_prop key (JObj [(str "status", JStr (str "success"));
                                   (str "step", JStr (str "cost_analysis"))])
           end.
Proof.
  intros Hreach Hgen Hparse.
  rewrite (POST_reaches_model _ _ _ _ _ _ _ Hreach).
  unfold analyse. cbv zeta. rewrite Hgen.
  unfold parsedAnalysis_of. rewrite Hparse. cbn [fst success spread].
  eexists. split; [reflexivity|].
  intros key. cbn [get_prop]. apply assoc_last_app.
Qed.

End CostEffects.

Lemma reply_fields_override_witness :
  exists answer,
    fst (CostsRoute.POST Scenario.costs_world_json Scenario.costs_request Scenario.costs_server)
    = Responded (Build_Response 200 answer)
    /\ get_prop "status" answer = Some (JStr (str "error"))
    /\ get_prop "step" answer = Some (JStr (str "cost_analysis"))
    /\ get_prop "avg_margin_pct" answer = Some (JNum (str "12")).
Proof.
  destruct (reply_fields_override Scenario.costs_world_json Scenario.costs_request
              Scenario.costs_server Scenario.id1 Scenario.user1
              [str "product_id"; str "net_price"; str "cost"] Scenario.prices_rows
              (Some (js "{^status^:^error^,^avg_margin_pct^:12}"))
              [(str "status", JStr (str "error")); (str "avg_margin_pct", JNum (str "12"))])
    as (answer & H1 & H2).
  - unfold CostsRoute.reaches_model, CostsRoute.configured.
    split; [split; [eexists; eexists; reflexivity|split; vm_compute; discriminate]|].
    split; [vm_compute; reflexivity|]. split; [vm_compute; reflexivity|].
    split; [reflexivity|]. split; [discriminate|]. split; [reflexivity|].
    split; [exists Scenario.prices_file; split; vm_compute; reflexivity|].
    split; [reflexivity|]. split; [discriminate|]. split; [discriminate|].
    left. reflexivity.
  - reflexivity.
  - vm_compute. reflexivity.
  - exists answer. split; [exact H1|]. rewrite !H2. now repeat split.
Defined.

(** ** The upload and session services, further *)

Lemma startsWith_prefix s p : startsWith s p = true <-> exists t, s = p ++ t.
Proof.
  revert s. induction p as [|x p IH]; intros s.
  - split; [intros _; now exists s|now destruct s].
  - destruct s as [|y s]; cbn [startsWith]; [split; [discriminate|intros [t [=]]]|].
    rewrite andb_true_iff, N.eqb_eq, IH. split.
    + intros [-> [t ->]]. now exists t.
    + intros [t [= -> ->]]. split; [reflexivity|now exists t].
Qed.

Lemma endsWith_ci_suffix name suffix :
  Upload.endsWith_ci name suffix = true
  <-> exists stem ext, name = stem ++ ext /\ map Upload.lower ext = suffix.
Proof.
  unfold Upload.endsWith_ci. rewrite startsWith_prefix. split.
  - intros [t Ht]. apply (f_equal (@rev N)) in Ht.
    rewrite rev_involutive, rev_app_distr, rev_involutive in Ht.
    apply map_eq_app in Ht as (stem & ext & -> & _ & Hext). now exists stem, ext.
  - intros (stem & ext & -> & <-). exists (rev (map Upload.lower stem)).
    now rewrite map_app, rev_app_distr.
Qed.

(** X17.  The upload service takes a file exactly when its name ends, in any
    letter case, with [.xlsx], [.xls] or [.csv]: an answer 200 is given only
    for such a name, and the database is changed only for such a name, by
    one file of that name added to the stored files. The file is stored
    before the files of the session are counted: when the count fails the
    answer is 500 and the file stays stored. Every other answer leaves the
    database as it was. *)
Theorem upload_takes_spreadsheet_names :
  (forall name,
     Upload.validExtensions name = true
     <-> exists stem ext,
           name = stem ++ ext
           /\ (map Upload.lower ext = str ".xlsx" \/ map Upload.lower ext = str ".xls"
               \/ map Upload.lower ext = str ".csv"))
  /\ (forall w req d,
        snd (Upload.POST w req d) = d
        \/ exists name bytes doc,
             Upload.form_file req = Some (name, bytes)
             /\ Upload.validExtensions name = true
             /\ file_name doc = name /\ file_bytes doc = bytes
             /\ snd (Upload.POST w req d)
                = {| files := files d ++ [doc];
                     sessionMetadata := sessionMetadata d;
                     analyses := analyses d;
                     margin_analyses := margin_analyses d |}
             /\ ((exists answer,
                    Upload.count_fails w = false
                    /\ fst (Upload.POST w req d) = Responded (Build_Response 200 answer))
                 \/ (Upload.count_fails w = true
                     /\ fst (Upload.POST w req d)
                        = Upload.upload_failed (Upload.error_message w))))
  /\ (forall w req d r,
        fst (Upload.POST w req d) = Responded r -> status r = 200%nat ->
        exists name bytes,
          Upload.form_file req = Some (name, bytes) /\ Upload.validExtensions name = true)
  /\ (forall w req d r,
        fst (Upload.POST w req d) = Responded r -> status r <> 200%nat ->
        Upload.count_fails w = false ->
        snd (Upload.POST w req d) = d).
Proof.
  split; [|split; [|split]].
  - intros name. unfold Upload.validExtensions.
    rewrite !orb_true_iff, !endsWith_ci_suffix. split.
    + intros [[(stem & ext & H1 & H2)|(stem & ext & H1 & H2)]|(stem & ext & H1 & H2)];
        exists stem, ext; auto.
    + intros (stem & ext & H1 & [H2|[H2|H2]]); [left; left|left; right|right];
        now exists stem, ext.
  - intros w req d. unfold Upload.POST.
    destruct (Upload.auth_userId req) as [[|u0 u]|]; try (now left).
    destruct (Upload.falsy_string _); [now left|].
    destruct (Upload.connects w); cbn [negb]; [|now left].
    destruct (Upload.formData_fails w); [now left|].
    destruct (Upload.form_file req) as [[name bytes]|]; [|now left].
    destruct (Upload.form_sessionId req) as [[|s0 sid]|]; try (now left).
    destruct (Upload.validExtensions name) eqn:Hv; cbn [negb]; [|now left].
    destruct (Upload.stream_finishes w); cbn [negb]; [|now left].
    right. cbv zeta.
    exists name, bytes,
      {| file_id := Upload.fresh_id w;
         file_name := name;
         file_contentType := None;
         file_metadata :=
           {| meta_userId := u0 :: u;
              meta_uploadedAt := Upload.now w;
              meta_sessionId := s0 :: sid;
              meta_isCombined := false;
              meta_sourceFileIds := None;
              meta_requestStartTime := None |};
         file_bytes := bytes |}.
    split; [reflexivity|]. split; [exact Hv|].
    destruct (Upload.count_fails w); cbn [fst snd].
    + split; [reflexivity|]. split; [reflexivity|]. split; [reflexivity|].
      right. now split.
    + split; [reflexivity|]. split; [reflexivity|]. split; [reflexivity|].
      left. eexists. split; reflexivity.
  - intros w req d r. unfold Upload.POST.
    destruct (Upload.auth_userId req) as [[|u0 u]|]; try (intros [= <-]; discriminate).
    destruct (Upload.falsy_string _); [intros [= <-]; discriminate|].
    destruct (Upload.connects w); cbn [negb]; [|intros [= <-]; discriminate].
    destruct (Upload.formData_fails w); [intros [= <-]; discriminate|].
    destruct (Upload.form_file req) as [[name bytes]|]; [|intros [= <-]; discriminate].
    destruct (Upload.form_sessionId req) as [[|s0 sid]|]; try (intros [= <-]; discriminate).
    destruct (Upload.validExtensions name) eqn:Hv; cbn [negb]; [|intros [= <-]; discriminate].
    intros _ _. now exists name, bytes.
  - intros w req d r. unfold Upload.POST.
    destruct (Upload.auth_userId req) as [[|u0 u]|]; try reflexivity.
    destruct (Upload.falsy_string _); [reflexivity|].
    destruct (Upload.connects w); cbn [negb]; [|reflexivity].
    destruct (Upload.formData_fails w); [reflexivity|].
    destruct (Upload.form_file req) as [[name bytes]|]; [|reflexivity].
    destruct (Upload.form_sessionId req) as [[|s0 sid]|]; try reflexivity.
    destruct (Upload.validExtensions name); cbn [negb]; [|reflexivity].
    destruct (Upload.stream_finishes w); cbn [negb]; [|reflexivity].
    cbv zeta. intros Hr Hne Hc. rewrite Hc in Hr |- *. cbn [fst] in Hr.
    injection Hr as <-. now destruct Hne.
Qed.

Lemma upload_takes_spreadsheet_names_witness :
  Upload.validExtensions (str "Prices.XLSX") = true
  /\ Upload.validExtensions (str "prices.xlsx.txt") = false
  /\ (let out := Upload.POST Scenario.upload_world_count_fails
                   (Scenario.upload_request "prices.csv") empty_db in
      fst out = Upload.upload_failed (str "connection closed")
      /\ map file_name (files (snd out)) = [str "prices.csv"])
  /\ (let out := Upload.POST (Scenario.upload_world 10 Scenario.id1)
                   (Scenario.upload_request "prices.pdf") empty_db in
      fst out = error_body 400 "Only Excel/CSV files allowed" /\ snd out = empty_db).
Proof.
  destruct upload_takes_spreadsheet_names as (Hnames & Hstate & Hok & Hkeep).
  split; [apply Hnames; exists (str "Prices"), (str ".XLSX"); split; [reflexivity|now left]|].
  split; [vm_compute; reflexivity|].
  split; cbv zeta.
  - destruct (Hstate Scenario.upload_world_count_fails (Scenario.upload_request "prices.csv")
                empty_db) as [Hsame | (name & bytes & doc & Hf & _ & Hn & _ & Hs & Hans)].
    + vm_compute in Hsame. discriminate Hsame.
    + destruct Hans as [(answer & Hc & _) | (_ & Hans)]; [discriminate Hc|].
      split; [exact Hans|].
      rewrite Hs. injection Hf as <- _. cbn [files empty_db map app]. now rewrite Hn.
  - split; [vm_compute; reflexivity|].
    apply (Hkeep _ _ _ (Build_Response 400
                          (JObj [(str "error", JStr (str "Only Excel/CSV files allowed"))])));
      [vm_compute; reflexivity | discriminate | reflexivity].
Defined.

Lemma doc_get_set_all_ne key fields d :
  (forall kv, kv ∈ fields -> fst kv <> key) ->
  doc_get key (doc_set_all fields d) = doc_get key d.
Proof.
  unfold doc_set_all. revert d.
  induction fields as [|[k v] fields IH]; intros d H; cbn [fold_left]; [reflexivity|].
  rewrite IH by (intros kv Hkv; apply H; now right).
  cbn [fst snd]. apply doc_get_set_ne. apply (H (k, v)). now left.
Qed.

Lemma has_sessionId_set_all sid fields d :
  (forall kv, kv ∈ fields -> fst kv <> "sessionId"%string) ->
  Session.has_sessionId sid (doc_set_all fields d) = Session.has_sessionId sid d.
Proof.
  intros H. unfold Session.has_sessionId. now rewrite doc_get_set_all_ne.
Qed.

(** X18.  A session POST whose metadata has no [sessionId] field of its own
    changes nothing but the document of its session: the document found
    for any other session id is the one found before, and the files,
    analyses and reports stay as they were. *)
Theorem session_post_keeps_other_sessions w b d sid' :
  (forall kv, kv ∈ default [] (Session.metadata b) -> fst kv <> "sessionId"%string) ->
  Session.sessionId b <> Some sid' ->
  CombineRoute.find_session sid' (snd (Session.POST w (Some b) d))
  = CombineRoute.find_session sid' d
  /\ files (snd (Session.POST w (Some b) d)) = files d
  /\ analyses (snd (Session.POST w (Some b) d)) = analyses d
  /\ margin_analyses (snd (Session.POST w (Some b) d)) = margin_analyses d.
Proof.
  intros Hkeys Hne. unfold Session.POST.
  destruct (Session.sessionId b) as [[|c sid]|]; try (now repeat split).
  destruct (Upload.falsy_string _); [now repeat split|].
  destruct (Session.connects w); cbn [negb]; [|now repeat split].
  cbn [snd files analyses margin_analyses]. split; [|now repeat split].
  unfold CombineRoute.find_session. cbn [sessionMetadata].
  assert (Hfields : forall kv,
            kv ∈ Session.set_fields (Session.metadata b) (Session.now w) ->
            fst kv <> "sessionId"%string).
  { intros kv Hkv. unfold Session.set_fields in Hkv.
    apply elem_of_app in Hkv as [Hkv|Hkv].
    - apply list_elem_of_fmap in Hkv as (kv0 & -> & Hkv0). cbn [fst]. now apply Hkeys.
    - apply elem_of_cons in Hkv as [->|Hkv]; [discriminate|]. now apply elem_of_nil in Hkv. }
  assert (Hdiff : forall doc, Session.has_sessionId (c :: sid) doc = true ->
                              Session.has_sessionId sid' doc = false).
  { intros doc. unfold Session.has_sessionId.
    destruct (doc_get "sessionId" doc) as [[[| | |s| |]|]|]; try discriminate.
    intros H1%jsstring_eqb_eq. subst s.
    destruct (jsstring_eqb (c :: sid) sid') eqn:E; [|reflexivity].
    apply jsstring_eqb_eq in E. destruct Hne. now f_equal. }
  apply find_upsert_other.
  - exact Hdiff.
  - intros doc Hdoc. rewrite has_sessionId_set_all by exact Hfields. now apply Hdiff.
  - rewrite has_sessionId_set_all by exact Hfields. apply Hdiff.
    unfold Session.has_sessionId. cbn. now rewrite N.eqb_refl, jsstring_eqb_refl.
Qed.

Lemma session_post_keeps_other_sessions_witness :
  let d := snd (Session.POST (Scenario.session_world 5)
                  (Some (Session.body_of (str "other-session") Scenario.preferences))
                  empty_db) in
  CombineRoute.find_session (str "other-session")
    (snd (Session.POST (Scenario.session_world 7)
            (Some (Session.body_of Scenario.sess1 Scenario.preferences)) d))
  = CombineRoute.find_session (str "other-session") d
  /\ files (snd (Session.POST (Scenario.session_world 7)
                   (Some (Session.body_of Scenario.sess1 Scenario.preferences)) d)) = files d
  /\ analyses (snd (Session.POST (Scenario.session_world 7)
                      (Some (Session.body_of Scenario.sess1 Scenario.preferences)) d))
     = analyses d
  /\ margin_analyses (snd (Session.POST (Scenario.session_world 7)
                             (Some (Session.body_of Scenario.sess1 Scenario.preferences)) d))
     = margin_analyses d.
Proof.
  cbv zeta.
  apply (session_post_keeps_other_sessions (Scenario.session_world 7)
           (Session.body_of Scenario.sess1 Scenario.preferences)).
  - intros kv Hkv. cbn in Hkv.
    repeat (apply elem_of_cons in Hkv as [->|Hkv]; [discriminate|]).
    now apply elem_of_nil in Hkv.
  - vm_compute. discriminate.
Defined.

(** X19.  Saving a run a second time does not add a record: the collection
    keeps its size, and the record of the run holds the analysis and the
    time of the second save. *)
Theorem save_twice_keeps_one_record sw1 sw2 u runId a1 a2 d :
  truthy a1 = true -> truthy a2 = true -> u <> [] -> runId <> [] ->
  MarginReportSave.connects sw1 = true -> MarginReportSave.connects sw2 = true ->
  let request a :=
    {| MarginReportSave.auth_userId := Some u;
       MarginReportSave.body :=
         Some {| MarginReportSave.runId := Some runId;
                 MarginReportSave.analysis := Some a |} |} in
  let d1 := snd (MarginReportSave.POST sw1 (request a1) d) in
  let d2 := snd (MarginReportSave.POST sw2 (request a2) d1) in
  length (margin_analyses d2) = length (margin_analyses d1)
  /\ exists doc1 doc2,
       find (MarginReportSave.same_run runId u) (margin_analyses d1) = Some doc1
       /\ find (MarginReportSave.same_run runId u) (margin_analyses d2) = Some doc2
       /\ ma_analysis doc2 = Some a2
       /\ ma_updatedAt doc2 = MarginReportSave.now sw2
       /\ ma_createdAt doc2 = ma_createdAt doc1
       /\ ma_fileId doc2 = ma_fileId doc1.
Proof.
  intros Ht1 Ht2 Hu Hr Hc1 Hc2. cbv zeta.
  rewrite (save_stored sw2 u runId a2 _ Ht2 Hu Hr Hc2).
  rewrite (save_stored sw1 u runId a1 d Ht1 Hu Hr Hc1).
  set (coll1 := upsert _ _ _ (margin_analyses d)).
  assert (Hfind1 : exists doc1, find (MarginReportSave.same_run runId u) coll1 = Some doc1).
  { unfold coll1. rewrite find_upsert_exact; [eauto| |].
    - intros doc Hdoc. exact Hdoc.
    - apply same_run_eq. now split. }
  destruct Hfind1 as (doc1 & Hfind1).
  split.
  - rewrite length_upsert, Hfind1. lia.
  - exists doc1. eexists. split; [exact Hfind1|]. split.
    + rewrite find_upsert_exact.
      * rewrite Hfind1. reflexivity.
      * intros doc Hdoc. exact Hdoc.
      * apply same_run_eq. now split.
    + now repeat split.
Qed.

Lemma save_twice_keeps_one_record_witness :
  let d1 := Scenario.saved_db in
  let d2 := snd (MarginReportSave.POST Scenario.save_world_ok
                   {| MarginReportSave.auth_userId := Some Scenario.user1;
                      MarginReportSave.body :=
                        Some {| MarginReportSave.runId := Some Scenario.run1;
                                MarginReportSave.analysis := Some (JObj []) |} |} d1) in
  length (margin_analyses d2) = length (margin_analyses d1)
  /\ exists doc1 doc2,
       find (MarginReportSave.same_run Scenario.run1 Scenario.user1) (margin_analyses d1)
         = Some doc1
       /\ find (MarginReportSave.same_run Scenario.run1 Scenario.user1) (margin_analyses d2)
          = Some doc2
       /\ ma_analysis doc2 = Some (JObj [])
       /\ ma_updatedAt doc2 = 900%Z
       /\ ma_createdAt doc2 = ma_createdAt doc1
       /\ ma_fileId doc2 = ma_fileId doc1.
Proof.
  cbv zeta.
  apply (save_twice_keeps_one_record Scenario.save_world_ok Scenario.save_world_ok
           Scenario.user1 Scenario.run1 Scenario.report (JObj []) Scenario.prices_db).
  - reflexivity.
  - reflexivity.
  - discriminate.
  - discriminate.
  - reflexivity.
  - reflexivity.
Defined.

Section LogicalFailures.
Import LogicalRoute.

Lemma POST_reaches_check w req s u fileId columns data :
  reaches_model w req s u fileId columns data ->
  POST w req s
  = check w (body req) u columns data
      {| db := db s; vertexAI := true; model_calls := model_calls s |}.
Proof.
  intros (Ha & Hu & Hf & Hv & Hc & (fileDoc & Hfile & Hproc) & Hd & Hvx).
  unfold POST. rewrite Ha. destruct u as [|u0 u]; [now destruct Hu|].
  rewrite Hf. destruct fileId as [|c f]; [discriminate Hv|].
  rewrite Hc, Hv. cbn [negb]. rewrite Hfile, Hd, Hproc.
  destruct Hvx as [-> | ->]; [reflexivity|]. now rewrite andb_false_r.
Qed.

(** X20.  When every call of the model throws, the logical checks route
    gives up after three prompts, none of them a reminder, and stores
    nothing.  It takes the message of the error for the text of the model:
    the answer is 502 [Failed to parse JSON from model response] with that
    message as [raw], and 500 [No response from model] only when the
    message is empty. *)
Theorem model_failures_reported w req s u fileId columns data f :
  reaches_model w req s u fileId columns data ->
  (forall n c, generateContent w n c = GenerateFails f) ->
  fst (POST w req s)
  = match message f with
    | [] => failed 500 "No response from model" []
    | c :: m =>
        failed 502 "Failed to parse JSON from model response" [("raw"%string, JStr (c :: m))]
    end
  /\ (exists prompt,
        model_calls (snd (POST w req s))
        = model_calls s ++ [ {| call_prompt := prompt; reminder := false |};
                             {| call_prompt := prompt; reminder := false |};
                             {| call_prompt := prompt; reminder := false |} ])
  /\ db (snd (POST w req s)) = db s.
Proof.
  intros Hreach Hgen. rewrite (POST_reaches_check _ _ _ _ _ _ _ Hreach).
  assert (Hask : forall c s0, ask w c s0 = (GenerateFailed (message f), with_call s0 c)).
  { intros c s0. unfold ask. cbv zeta. now rewrite Hgen. }
  unfold check. cbv zeta. cbn [callGeminiWithRetry].
  rewrite !Hask. cbn [with_call db vertexAI model_calls or_text].
  destruct (message f) as [|c m]; cbn [or_text fst snd db model_calls truthy negb orb].
  - split; [reflexivity|]. split; [|reflexivity].
    eexists. unfold with_call. cbn [model_calls]. rewrite <- !app_assoc. reflexivity.
  - split; [reflexivity|]. split; [|reflexivity].
    eexists. unfold with_call. cbn [model_calls]. rewrite <- !app_assoc. reflexivity.
Qed.

End LogicalFailures.

Lemma model_failures_reported_witness :
  fst (LogicalRoute.POST Scenario.logical_world_down
         (Scenario.logical_request Scenario.user1) Scenario.logical_server)
  = LogicalRoute.failed 502 "Failed to parse JSON from model response"
      [("raw"%string, JStr (str "fetch failed"))]
  /\ length (LogicalRoute.model_calls
               (snd (LogicalRoute.POST Scenario.logical_world_down
                       (Scenario.logical_request Scenario.user1) Scenario.logical_server)))
     = 3%nat
  /\ LogicalRoute.db
       (snd (LogicalRoute.POST Scenario.logical_world_down
               (Scenario.logical_request Scenario.user1) Scenario.logical_server))
     = Scenario.prices_db.
Proof.
  destruct (model_failures_reported Scenario.logical_world_down
              (Scenario.logical_request Scenario.user1) Scenario.logical_server
              Scenario.user1 Scenario.id1 [str "product_id"; str "net_price"; str "cost"] []
              {| message := str "fetch failed"; stack := None |})
    as (H1 & (prompt & H2) & H3).
  - unfold LogicalRoute.reaches_model.
    split; [reflexivity|]. split; [discriminate|]. split; [reflexivity|].
    split; [vm_compute; reflexivity|]. split; [reflexivity|].
    split; [exists Scenario.prices_file; split; vm_compute; reflexivity|].
    split; [reflexivity|]. left. reflexivity.
  - reflexivity.
  - split; [exact H1|]. split; [now rewrite H2|exact H3].
Defined.

(** ** The rows of an uploaded file *)

Section FileRows.
Import FileProcessing.

Lemma cell_of_cons col k v row :
  cell_of col ((k, v) :: row)
  = match cell_of col row with
    | Some s => Some s
    | None => if jsstring_eqb k col then Some v else None
    end.
Proof. reflexivity. Qed.

Lemma cell_of_values col row :
  (forall kv, kv ∈ row -> fst kv <> col) -> cell_of col row = None.
Proof.
  induction row as [|[k v] row IH]; intros H; [reflexivity|].
  rewrite cell_of_cons, IH by (intros kv Hkv; apply H; now right).
  destruct (jsstring_eqb k col) eqn:E; [|reflexivity].
  apply jsstring_eqb_eq in E. destruct (H (k, v)); [now left|exact E].
Qed.

Lemma processRow_cell (f : nat -> jsstring) columns col j :
  col <> str "__proto__" ->
  columns !! j = Some col ->
  (forall j', columns !! j' = Some col -> j' = j) ->
  cell_of col
    (List.filter (fun kv => negb (jsstring_eqb (fst kv) (str "__proto__")))
       (imap (fun i c => (c, f i)) columns))
  = Some (f j).
Proof.
  intros Hproto. revert f j. induction columns as [|c columns IH]; intros f j Hj Hone;
    [discriminate|].
  cbn [imap List.filter fst].
  destruct j as [|j].
  - injection Hj as ->.
    destruct (jsstring_eqb col (str "__proto__")) eqn:E;
      [apply jsstring_eqb_eq in E; contradiction|].
    cbn [negb]. rewrite cell_of_cons, jsstring_eqb_refl.
    rewrite cell_of_values; [reflexivity|].
    intros kv Hkv. apply list_elem_of_In, filter_In in Hkv as [Hkv _].
    apply list_elem_of_In, elem_of_lookup_imap in Hkv as (i & c' & -> & Hc').
    unfold compose. cbn [fst]. intros ->. specialize (Hone (S i) Hc'). discriminate.
  - cbn [lookup list_lookup] in Hj.
    assert (Hc : c <> col). { intros ->. specialize (Hone O eq_refl). discriminate. }
    assert (Hrest : cell_of col
                      (List.filter (fun kv => negb (jsstring_eqb (fst kv) (str "__proto__")))
                         (imap ((fun i c0 => (c0, f i)) ∘ S) columns))
                    = Some (f (S j))).
    { apply (IH (fun i => f (S i)) j Hj).
      intros j' Hj'. specialize (Hone (S j') Hj'). now injection Hone. }
    destruct (negb (jsstring_eqb c (str "__proto__"))); [|exact Hrest].
    now rewrite cell_of_cons, Hrest.
Qed.

Lemma processRow_no_proto row columns :
  cell_of (str "__proto__") (processRow row columns) = None.
Proof.
  unfold processRow. apply cell_of_values.
  intros kv Hkv. apply list_elem_of_In, filter_In in Hkv as [_ Hkv].
  intros Heq. rewrite Heq, jsstring_eqb_refl in Hkv. discriminate Hkv.
Qed.

(** X21.  From the records of a CSV file the routes make one row for each
    record after the header, and one column name for each header cell, in
    order: [Unnamed] for a cell that is blank, and otherwise the trimmed
    cell stripped of every character other than letters, digits,
    whitespace, underscore and hyphen.  In each row the value under a column
    name that occurs once in the header is the trimmed cell at the column's
    position, and the empty text when the record is too short; the name
    [__proto__] is the exception: a row has no value under it. *)
Theorem csv_rows_follow_header records :
  length (fst (rows_of records)) = length (hd [] records)
  /\ length (snd (rows_of records)) = (length records - 1)%nat
  /\ (forall col, col ∈ fst (rows_of records) -> forallb keeps col = true)
  /\ (forall j cell, hd [] records !! j = Some cell ->
        exists col,
          fst (rows_of records) !! j = Some col
          /\ (trim cell = [] -> col = str "Unnamed")
          /\ (trim cell <> [] -> col = List.filter keeps (trim cell)))
  /\ (forall i cells, skipn 1 records !! i = Some cells ->
        exists row,
          snd (rows_of records) !! i = Some row
          /\ cell_of (str "__proto__") row = None
          /\ forall j col,
               col <> str "__proto__" ->
               fst (rows_of records) !! j = Some col ->
               (forall j', fst (rows_of records) !! j' = Some col -> j' = j) ->
               cell_of col row = Some (match cells !! j with
                                       | Some cell => trim cell
                                       | None => []
                                       end)).
Proof.
  unfold rows_of. cbv zeta. cbn [fst snd].
  assert (Hhd : hd [] records = match records with h :: _ => h | [] => [] end)
    by now destruct records.
  split; [|split; [|split; [|split]]].
  - rewrite length_map. now destruct records.
  - rewrite length_map, length_skipn. reflexivity.
  - intros col Hcol. apply list_elem_of_fmap in Hcol as (raw & -> & _).
    unfold column_name. apply forallb_forall. intros c Hc.
    now apply filter_In in Hc as [_ Hc].
  - intros j cell Hcell. rewrite Hhd in Hcell.
    exists (column_name cell). split; [now rewrite list_lookup_fmap, Hcell|].
    unfold column_name. destruct (trim cell) as [|c t]; split; intros H; try reflexivity.
    + now destruct H.
    + discriminate H.
  - intros i cells Hcells.
    exists (processRow cells (map column_name (match records with h :: _ => h | [] => [] end))).
    split; [|split].
    + rewrite list_lookup_fmap, Hcells. reflexivity.
    + apply processRow_no_proto.
    + intros j col Hproto Hj Hone. unfold processRow.
      apply (processRow_cell (fun i => match cells !! i with
                                       | Some cell => trim cell
                                       | None => []
                                       end) _ col j Hproto Hj Hone).
Qed.

Lemma csv_rows_follow_header_witness :
  fst (rows_of Scenario.csv_records)
  = [str "Product ID"; str "net_price"; str "Unnamed"; str "__proto__"]
  /\ snd (rows_of Scenario.csv_records)
     = [ [(str "Product ID", str "A1"); (str "net_price", str "95"); (str "Unnamed", str "x")];
         [(str "Product ID", str "A2"); (str "net_price", []); (str "Unnamed", [])] ]
  /\ (exists row,
        snd (rows_of Scenario.csv_records) !! 1%nat = Some row
        /\ cell_of (str "Product ID") row = Some (str "A2")
        /\ cell_of (str "net_price") row = Some []
        /\ cell_of (str "__proto__") row = None).
Proof.
  destruct (csv_rows_follow_header Scenario.csv_records) as (_ & _ & _ & _ & Hrows).
  split; [vm_compute; reflexivity|]. split; [vm_compute; reflexivity|].
  destruct (Hrows 1%nat [str " A2 "]) as (row & Hrow & Hproto & Hcells);
    [vm_compute; reflexivity|].
  exists row. split; [exact Hrow|].
  split; [|split; [|exact Hproto]].
  - apply (Hcells 0%nat (str "Product ID")).
    + discriminate.
    + vm_compute. reflexivity.
    + intros [|[|[|[|j']]]] Hj'; vm_compute in Hj'; try discriminate Hj'; reflexivity.
  - apply (Hcells 1%nat (str "net_price")).
    + discriminate.
    + vm_compute. reflexivity.
    + intros [|[|[|[|j']]]] Hj'; vm_compute in Hj'; try discriminate Hj'; reflexivity.
Defined.

End FileRows.

(** ** The analysis routes write one document per file and user *)

Lemma recommendations_reach_model w req s fileId u columns data :
  RecommendationsRoute.reaches_model w req s fileId u columns data ->
  RecommendationsRoute.POST w req s = RecommendationsRoute.analyse w req fileId u columns data s.
Proof.
  intros (((c & uri & Huri) & Hp & Hl) & Hf & Hv & Ha & Hu & Hc & (file & Hfile & Hproc)
          & Hd & Hcols & Hdata & Hvx).
  unfold RecommendationsRoute.POST. rewrite Huri.
  destruct (CostsRoute.setting (CostsRoute.VERTEX_AI_PROJECT _) _) as [|p0 pr];
    [now destruct Hp|].
  destruct (CostsRoute.setting (CostsRoute.VERTEX_AI_LOCATION _) _) as [|l0 lo];
    [now destruct Hl|].
  rewrite Hf, Hv, Ha. destruct u as [|u0 u]; [now destruct Hu|].
  unfold RecommendationsRoute.handle. rewrite Hc, Hfile, Hd, Hproc.
  destruct columns as [|c0 cols]; [now destruct Hcols|].
  destruct data as [|r0 rows]; [now destruct Hdata|].
  cbn [length Nat.eqb orb].
  destruct Hvx as [-> | ->]; [reflexivity|].
  now rewrite andb_false_r.
Qed.

Lemma persist_length id u raw parsed t d :
  length (analyses (CostsRoute.persist id u raw parsed t d))
  = (length (analyses d)
     + match find (CostsRoute.same_analysis id u) (analyses d) with
       | Some _ => 0
       | None => 1
       end)%nat.
Proof. unfold CostsRoute.persist. cbn [analyses]. apply length_upsert. Qed.

(** X22.  The cost analysis route and the recommendations route keep their
    result in the same document, the one of the file and user: when both
    have answered a request for the same file, the collection holds one
    document for it, with the text and the parsed reply of the
    recommendations; the cost analysis is no longer stored. *)
Theorem recommendations_replace_cost_analysis
    cw creq cs rw rreq rs fileId u ccols cdata rcols rdata ctext rtext :
  CostsRoute.reaches_model cw creq cs fileId u ccols cdata ->
  CostsRoute.generateContent cw (CostsRoute.prompt_of creq ccols cdata) = Reply ctext ->
  CostsRoute.analyses_write_fails cw = false ->
  RecommendationsRoute.db rs = CostsRoute.db (snd (CostsRoute.POST cw creq cs)) ->
  RecommendationsRoute.reaches_model rw rreq rs fileId u rcols rdata ->
  RecommendationsRoute.generateContent rw (RecommendationsRoute.prompt_of rreq rcols rdata)
    = Reply rtext ->
  RecommendationsRoute.analyses_write_fails rw = false ->
  length (analyses (RecommendationsRoute.db (snd (RecommendationsRoute.POST rw rreq rs))))
  = length (analyses (CostsRoute.db (snd (CostsRoute.POST cw creq cs))))
  /\ exists doc1 doc2,
       find (CostsRoute.same_analysis (ObjectId fileId) u)
            (analyses (CostsRoute.db (snd (CostsRoute.POST cw creq cs)))) = Some doc1
       /\ an_parsed doc1
          = Some (CostsRoute.parsedAnalysis_of (CostsRoute.analysisRaw_of ctext) cdata)
       /\ find (CostsRoute.same_analysis (ObjectId fileId) u)
               (analyses (RecommendationsRoute.db (snd (RecommendationsRoute.POST rw rreq rs))))
          = Some doc2
       /\ an_analysis doc2 = Some (CostsRoute.analysisRaw_of rtext)
       /\ an_parsed doc2
          = Some (RecommendationsRoute.parsedAnalysis_of (CostsRoute.analysisRaw_of rtext)).
Proof.
  intros Hc Hcg Hcw Hdb Hr Hrg Hrw.
  rewrite (recommendations_reach_model _ _ _ _ _ _ _ Hr).
  unfold RecommendationsRoute.analyse. cbv zeta. rewrite Hrg, Hrw.
  cbn [snd RecommendationsRoute.db]. rewrite Hdb. clear Hdb.
  rewrite (POST_reaches_model _ _ _ _ _ _ _ Hc).
  unfold CostsRoute.analyse. cbv zeta. rewrite Hcg, Hcw.
  cbn [snd CostsRoute.db].
  set (db1 := CostsRoute.persist _ _ _ _ _ (CostsRoute.db cs)).
  destruct (persist_stored (ObjectId fileId) u (CostsRoute.analysisRaw_of ctext)
              (CostsRoute.parsedAnalysis_of (CostsRoute.analysisRaw_of ctext) cdata)
              (CostsRoute.now cw) (CostsRoute.db cs)) as (doc1 & Hfind1 & _ & Hparsed1).
  fold db1 in Hfind1.
  destruct (persist_stored (ObjectId fileId) u (CostsRoute.analysisRaw_of rtext)
              (RecommendationsRoute.parsedAnalysis_of (CostsRoute.analysisRaw_of rtext))
              (RecommendationsRoute.now rw) db1) as (doc2 & Hfind2 & Hraw2 & Hparsed2).
  split.
  - rewrite persist_length, Hfind1. lia.
  - exists doc1, doc2. now repeat split.
Qed.

Lemma recommendations_replace_cost_analysis_witness :
  let after_costs :=
    CostsRoute.db (snd (CostsRoute.POST (Scenario.costs_world Scenario.user1)
                          Scenario.costs_request Scenario.costs_server)) in
  let after_both :=
    RecommendationsRoute.db
      (snd (RecommendationsRoute.POST Scenario.recommendations_world
              Scenario.recommendations_request Scenario.recommendations_server)) in
  length (analyses after_both) = length (analyses after_costs)
  /\ exists doc1 doc2,
       find (CostsRoute.same_analysis (ObjectId Scenario.id1) Scenario.user1)
            (analyses after_costs) = Some doc1
       /\ an_parsed doc1 = Some (CostsRoute.placeholder Scenario.prices_rows)
       /\ find (CostsRoute.same_analysis (ObjectId Scenario.id1) Scenario.user1)
               (analyses after_both) = Some doc2
       /\ an_analysis doc2
          = Some (js "{^recommendations_count^:0,^priority_actions^:[],^quick_wins^:[]}")
       /\ an_parsed doc2
          = Some (JObj [(str "recommendations_count", JNum (str "0"));
                        (str "priority_actions", JArr []);
                        (str "quick_wins", JArr [])]).
Proof.
  cbv zeta.
  apply (recommendations_replace_cost_analysis
           (Scenario.costs_world Scenario.user1) Scenario.costs_request Scenario.costs_server
           Scenario.recommendations_world Scenario.recommendations_request
           Scenario.recommendations_server Scenario.id1 Scenario.user1
           [str "product_id"; str "net_price"; str "cost"] Scenario.prices_rows
           [str "product_id"; str "net_price"; str "cost"] Scenario.prices_rows
           (Some (str "Here is the analysis you asked for: margins look healthy."))
           (Some (js "{^recommendations_count^:0,^priority_actions^:[],^quick_wins^:[]}"))).
  - unfold CostsRoute.reaches_model, CostsRoute.configured.
    split; [split; [eexists; eexists; reflexivity|split; vm_compute; discriminate]|].
    split; [vm_compute; reflexivity|]. split; [vm_compute; reflexivity|].
    split; [reflexivity|]. split; [discriminate|]. split; [reflexivity|].
    split; [exists Scenario.prices_file; split; vm_compute; reflexivity|].
    split; [reflexivity|]. split; [discriminate|]. split; [discriminate|].
    left. reflexivity.
  - reflexivity.
  - reflexivity.
  - reflexivity.
  - unfold RecommendationsRoute.reaches_model, CostsRoute.configured.
    split; [split; [eexists; eexists; reflexivity|split; vm_compute; discriminate]|].
    split; [vm_compute; reflexivity|]. split; [vm_compute; reflexivity|].
    split; [reflexivity|]. split; [discriminate|]. split; [reflexivity|].
    split; [exists Scenario.prices_file; split; vm_compute; reflexivity|].
    split; [reflexivity|]. split; [discriminate|]. split; [discriminate|].
    left. reflexivity.
  - reflexivity.
  - reflexivity.
Defined.


(** * The leakage route *)

Section LeakageReplies.

Import LeakageRoute.

Lemma leakage_reaches_model w req s fileId u columns data :
  reaches_model w req s fileId u columns data ->
  POST w req s = analyse w req fileId u columns data s.
Proof.
  intros (((c & uri & Huri) & Hp & Hl) & Hf & Hv & Ha & Hu & Hc & (file & Hfile & Hproc)
          & Hd & Hcols & Hdata & Hvx).
  unfold POST. rewrite Huri.
  destruct (CostsRoute.setting (CostsRoute.VERTEX_AI_PROJECT (env w)) _) as [|p0 pr];
    [now destruct Hp|].
  destruct (CostsRoute.setting (CostsRoute.VERTEX_AI_LOCATION (env w)) _) as [|l0 lo];
    [now destruct Hl|].
  rewrite Hf, Hv, Ha. destruct u as [|u0 u]; [now destruct Hu|].
  unfold handle. rewrite Hc, Hfile, Hd, Hproc.
  destruct columns as [|c0 cols]; [now destruct Hcols|].
  destruct data as [|r0 rows]; [now destruct Hdata|].
  cbn [length Nat.eqb orb].
  destruct Hvx as [-> | ->]; [reflexivity|].
  now rewrite andb_false_r.
Qed.

(** X23. When the model's reply, read out of its code fence, is JSON whose
    [leakage_instances] is absent or falsy (the number 0 of a file with no
    leak, for one), the leakage route answers 500 "AI analysis failed to
    return valid leakage data" and stores nothing, though the model was
    called once. *)
Theorem leakage_reply_without_instances_is_refused w req s fileId u columns data text v :
  reaches_model w req s fileId u columns data ->
  generateContent w (prompt_of req columns data) = Reply text ->
  JSON_parse (jsonText_of (default [] text)) = Ret v ->
  truthy (coalesce_default (get_prop "leakage_instances" v) JNull) = false ->
  fst (POST w req s) = invalid_reply (env w) (default [] text)
  /\ (exists b, fst (POST w req s) = Responded (Build_Response 500 b))
  /\ db (snd (POST w req s)) = db s
  /\ model_calls (snd (POST w req s)) = model_calls s ++ [prompt_of req columns data].
Proof.
  intros Hreach Hgen Hparse Hfalsy.
  rewrite (leakage_reaches_model _ _ _ _ _ _ _ Hreach).
  unfold analyse. rewrite Hgen.
  assert (Hacc : accepted (default [] text) = None).
  { unfold accepted. rewrite Hparse. unfold valid_leakage.
    destruct v; try reflexivity; now rewrite Hfalsy. }
  rewrite Hacc. cbn [fst snd db model_calls].
  repeat split. unfold invalid_reply, respond. eexists. reflexivity.
Qed.

Lemma leakage_reply_without_instances_is_refused_witness :
  exists v,
    JSON_parse (jsonText_of Scenario.no_leak_reply) = Ret v
    /\ get_prop "leakage_instances" v = Some (JNum (str "0"))
    /\ fst (POST Scenario.leakage_world Scenario.leakage_request Scenario.leakage_server)
       = invalid_reply Scenario.costs_env Scenario.no_leak_reply
    /\ db (snd (POST Scenario.leakage_world Scenario.leakage_request Scenario.leakage_server)) = Scenario.prices_db.
Proof.
  eexists. split; [vm_compute; reflexivity|]. split; [vm_compute; reflexivity|].
  destruct (leakage_reply_without_instances_is_refused Scenario.leakage_world Scenario.leakage_request
              Scenario.leakage_server Scenario.id1 Scenario.user1 [str "product_id"; str "net_price"; str "cost"]
              Scenario.prices_rows (Some Scenario.no_leak_reply)
              (JObj [(str "leakage_instances", JNum (str "0"));
                     (str "total_leakage_amount", JNum (str "0"));
                     (str "top_leaks", JArr [])]))
    as (H1 & _ & H3 & _).
  - split; [split; [eexists; eexists; reflexivity|split; vm_compute; discriminate]|].
    do 5 (split; [first [reflexivity | discriminate]|]).
    split; [exists Scenario.prices_file; split; reflexivity|].
    split; [reflexivity|]. split; [discriminate|]. split; [discriminate|].
    left. reflexivity.
  - reflexivity.
  - vm_compute. reflexivity.
  - reflexivity.
  - split; [exact H1 | exact H3].
Defined.

End LeakageReplies.

(** ** What the leakage step reports *)

Section LeakageClassification.

Import LeakageRoute.

Lemma not_ok_respond st fields answer :
  respond st fields = Responded (Build_Response 200 answer) -> st = 200%nat.
Proof. unfold respond. now intros [= -> _]. Qed.

Lemma leakage_ok_is_analysed w req s answer :
  fst (POST w req s) = Responded (Build_Response 200 answer) ->
  exists fileId u columns data,
    POST w req s = analyse w req fileId u columns data s.
Proof.
  unfold POST.
  destruct (CostsRoute.MONGODB_URI (env w)) as [[|c uri]|];
    try (intros H; apply not_ok_respond in H; discriminate H).
  destruct (CostsRoute.setting _ _) as [|p0 pr];
    try (intros H; apply not_ok_respond in H; discriminate H).
  destruct (CostsRoute.setting _ _) as [|l0 lo];
    try (intros H; apply not_ok_respond in H; discriminate H).
  destruct (fileId_of req) as [fileId|];
    try (intros H; apply not_ok_respond in H; discriminate H).
  destruct (ObjectId_isValid fileId);
    try (intros H; apply not_ok_respond in H; discriminate H).
  destruct (auth_userId w) as [[|u0 u]|];
    try (intros H; apply not_ok_respond in H; discriminate H).
  unfold handle.
  destruct (connect_failure w);
    try (intros H; apply not_ok_respond in H; discriminate H).
  destruct (find _ _) as [file|];
    try (intros H; apply not_ok_respond in H; discriminate H).
  destruct (download_fails w);
    try (intros H; apply not_ok_respond in H; discriminate H).
  destruct (processFileData w _ _ _) as [f|[columns data]];
    try (intros H; apply not_ok_respond in H; discriminate H).
  destruct (Nat.eqb (length columns) 0 || Nat.eqb (length data) 0);
    try (intros H; apply not_ok_respond in H; discriminate H).
  destruct (negb (vertexAI s) && negb (vertex_constructs w));
    try (intros H; apply not_ok_respond in H; discriminate H).
  intros _. now exists fileId, (u0 :: u), columns, data.
Qed.

Lemma valid_leakage_fields v :
  valid_leakage v = true ->
  exists props instances leaks,
    v = JObj props
    /\ assoc_last (str "leakage_instances") props = Some instances
    /\ truthy instances = true
    /\ assoc_last (str "top_leaks") props = Some (JArr leaks).
Proof.
  unfold valid_leakage.
  destruct v as [| | | | |props]; try discriminate; cbn [get_prop];
    try (cbn; discriminate).
  intros [Hi Hl]%andb_prop.
  change (js "leakage_instances") with (str "leakage_instances") in *.
  change (js "top_leaks") with (str "top_leaks") in *.
  destruct (assoc_last (str "leakage_instances") props) as [i|] eqn:Ei;
    [|discriminate Hi].
  destruct (assoc_last (str "top_leaks") props) as [[| | | |leaks|]|] eqn:El;
    try discriminate Hl.
  exists props, i, leaks.
  split; [reflexivity|]. split; [exact Ei|]. split; [|exact El].
  destruct i; try exact Hi; discriminate Hi.
Qed.




End LeakageClassification.


(** ** Reading the reply out of its code fence *)

Section CodeFence.

Import LeakageRoute.

Lemma drop_spaces_mid a c b :
  is_space c = false -> drop_spaces (a ++ c :: b) = drop_spaces a ++ c :: b.
Proof.
  intros Hc. induction a as [|x a IH]; cbn [drop_spaces app].
  - now rewrite Hc.
  - destruct (is_space x); [exact IH | reflexivity].
Qed.

Lemma drop_spaces_suffix s : exists ws, s = ws ++ drop_spaces s.
Proof.
  induction s as [|c s [ws IH]]; [now exists []|]. cbn [drop_spaces].
  destruct (is_space c); [|now exists []].
  exists (c :: ws). cbn [app]. now f_equal.
Qed.

Lemma drop_spaces_head s c r : drop_spaces s = c :: r -> is_space c = false.
Proof.
  induction s as [|x s IH]; cbn [drop_spaces]; [discriminate|].
  destruct (is_space x) eqn:Hx; [exact IH|]. now intros [= <- _].
Qed.

Lemma drop_spaces_idem s : drop_spaces (drop_spaces s) = drop_spaces s.
Proof.
  destruct (drop_spaces s) as [|c r] eqn:Hs; [reflexivity|].
  cbn [drop_spaces]. now rewrite (drop_spaces_head _ _ _ Hs).
Qed.

Lemma no_tick_drop_spaces s : ~ In 96 s -> ~ In 96 (drop_spaces s).
Proof.
  intros Hs Hin. destruct (drop_spaces_suffix s) as [ws Hws].
  apply Hs. rewrite Hws. apply in_or_app. now right.
Qed.

Lemma trimEnd_mid a c b :
  is_space c = false -> trimEnd (a ++ c :: b) = a ++ c :: trimEnd b.
Proof.
  intros Hc. unfold trimEnd.
  rewrite rev_app_distr. cbn [rev]. rewrite <- app_assoc. cbn [app].
  rewrite drop_spaces_mid by exact Hc.
  rewrite rev_app_distr. cbn [rev]. rewrite rev_involutive, <- app_assoc.
  reflexivity.
Qed.

Lemma trimEnd_prefix s : exists ws, s = trimEnd s ++ ws.
Proof.
  unfold trimEnd. destruct (drop_spaces_suffix (rev s)) as [ws Hws].
  exists (rev ws). rewrite <- rev_app_distr, <- Hws. now rewrite rev_involutive.
Qed.

Lemma trimEnd_idem s : trimEnd (trimEnd s) = trimEnd s.
Proof. unfold trimEnd. now rewrite rev_involutive, drop_spaces_idem. Qed.

(** What [trimEnd] leaves starts as the text does, when that is no space. *)
Lemma trimEnd_cons c s :
  is_space c = false -> exists r, trimEnd (c :: s) = c :: r.
Proof.
  intros Hc. exists (trimEnd s).
  exact (trimEnd_mid [] c s Hc).
Qed.

Lemma trim_idem s : trim (trim s) = trim s.
Proof.
  unfold trim, trimStart.
  destruct (drop_spaces s) as [|c r] eqn:Hs; [reflexivity|].
  destruct (trimEnd_cons c r (drop_spaces_head _ _ _ Hs)) as [r' Hr'].
  rewrite Hr'. cbn [drop_spaces]. rewrite (drop_spaces_head _ _ _ Hs).
  rewrite <- Hr'. apply trimEnd_idem.
Qed.

Lemma index_of_unfold sub s :
  index_of sub s
  = if startsWith s sub then Some O
    else match s with [] => None | _ :: r => option_map S (index_of sub r) end.
Proof. now destruct s. Qed.

Lemma startsWith_app p r : startsWith (p ++ r) p = true.
Proof. apply startsWith_prefix. now exists r. Qed.

(** The first opening fence of a text is where its first backtick is. *)
Lemma index_of_opening t before rest :
  ~ In 96 before ->
  index_of (96 :: t) (before ++ (96 :: t) ++ rest) = Some (length before).
Proof.
  intros Hb. induction before as [|b before IH].
  - rewrite index_of_unfold. cbn [app]. change (96 :: t ++ rest) with ((96 :: t) ++ rest).
    now rewrite startsWith_app.
  - rewrite index_of_unfold. cbn [app startsWith].
    destruct (96 =? b) eqn:Hb0.
    + apply N.eqb_eq in Hb0. subst b. exfalso. apply Hb. now left.
    + cbn [andb]. change (before ++ 96 :: t ++ rest) with (before ++ (96 :: t) ++ rest).
      rewrite IH; [reflexivity|]. intros Hin. apply Hb. now right.
Qed.

Lemma until_fence_unfold s :
  until_fence s
  = if startsWith (drop_spaces s) fence then Some O
    else match s with [] => None | _ :: r => option_map S (until_fence r) end.
Proof. now destruct s. Qed.

(** The group ends where the trailing whitespace before the closing fence
    begins. *)
Lemma until_fence_closing s after :
  ~ In 96 s ->
  until_fence (s ++ fence ++ after) = Some (length (trimEnd s)).
Proof.
  intros Hs. induction s as [|c s IH].
  - rewrite until_fence_unfold.
    change (drop_spaces ([] ++ fence ++ after)) with (fence ++ after).
    now rewrite startsWith_app.
  - rewrite until_fence_unfold.
    change (fence ++ after) with (96 :: 96 :: 96 :: after) in *.
    rewrite drop_spaces_mid by reflexivity.
    destruct (drop_spaces (c :: s)) as [|x r] eqn:Hd.
    + change ([] ++ 96 :: 96 :: 96 :: after) with (fence ++ after).
      rewrite startsWith_app.
      unfold trimEnd.
      assert (Hrev : drop_spaces (rev (c :: s)) = []).
      { destruct (drop_spaces_suffix (c :: s)) as [ws Hws]. rewrite Hd, app_nil_r in Hws.
        assert (Hall : forall l, drop_spaces l = [] -> Forall (fun y => is_space y = true) l).
        { induction l as [|y l IHl]; [constructor|]. cbn [drop_spaces].
          destruct (is_space y) eqn:Hy; [|discriminate]. intros H. constructor; auto. }
        assert (Hback : forall l, Forall (fun y => is_space y = true) l -> drop_spaces l = []).
        { induction 1 as [|y l Hy _ IHl]; [reflexivity|]. cbn [drop_spaces]. now rewrite Hy. }
        apply Hback. apply Forall_rev. apply Hall. exact Hd. }
      rewrite Hrev. reflexivity.
    + assert (Hx : x <> 96).
      { intros ->. apply (no_tick_drop_spaces (c :: s) Hs). rewrite Hd. now left. }
      cbn [app startsWith fence].
      destruct (96 =? x) eqn:Hx0; [apply N.eqb_eq in Hx0; congruence|].
      cbn [andb app].
      rewrite IH by (intros Hin; apply Hs; now right).
      cbn [option_map]. f_equal.
      assert (Hne : exists a y b, c :: s = a ++ y :: b /\ is_space y = false
                                  /\ Forall (fun z => is_space z = true) b).
      { clear IH Hs Hx Hx0.
        assert (Hsome : exists y, In y (c :: s) /\ is_space y = false).
        { exists x. split; [|exact (drop_spaces_head _ _ _ Hd)].
          destruct (drop_spaces_suffix (c :: s)) as [ws Hws]. rewrite Hws, Hd.
          apply in_or_app. right. now left. }
        clear Hd. revert Hsome. generalize (c :: s). intros l.
        induction l as [|z l IHl]; intros (y & Hin & Hy); [destruct Hin|].
        destruct (forallb is_space l) eqn:Hl.
        - exists [], z, l. split; [reflexivity|].
          split; [|apply List.Forall_forall; intros q Hq;
                   exact (proj1 (forallb_forall _ _) Hl q Hq)].
          destruct Hin as [->|Hin]; [exact Hy|].
          rewrite (proj1 (forallb_forall _ _) Hl _ Hin) in Hy. discriminate.
        - destruct IHl as (a & y' & b & -> & Hy' & Hb).
          + destruct (existsb (fun q => negb (is_space q)) l) eqn:He.
            * apply existsb_exists in He. destruct He as (q & Hq & Hnq).
              exists q. split; [exact Hq|]. now destruct (is_space q).
            * exfalso. assert (forallb is_space l = true); [|congruence].
              apply forallb_forall. intros q Hq.
              destruct (is_space q) eqn:Hsq; [reflexivity|].
              assert (existsb (fun q => negb (is_space q)) l = true); [|congruence].
              apply existsb_exists. exists q. split; [exact Hq|]. now rewrite Hsq.
          + exists (z :: a), y', b. now split. }
      destruct Hne as (a & y & b & Heq & Hy & Hb).
      assert (Hbe : trimEnd b = []).
      { unfold trimEnd. apply Forall_rev in Hb. revert Hb. generalize (rev b).
        induction 1 as [|q l Hq _ IHl]; [reflexivity|]. cbn [drop_spaces]. now rewrite Hq. }
      rewrite Heq, (trimEnd_mid a y b Hy), Hbe.
      destruct a as [|a0 a]; cbn [app] in Heq; injection Heq as -> ->.
      * rewrite Hbe. reflexivity.
      * rewrite (trimEnd_mid a y b Hy), Hbe. cbn [app length]. reflexivity.
Qed.

Lemma skipn_length_app (a r : jsstring) : skipn (length a) (a ++ r) = r.
Proof. induction a as [|x a IH]; [reflexivity | exact IH]. Qed.

Lemma firstn_length_app (a r : jsstring) : firstn (length a) (a ++ r) = a.
Proof. induction a as [|x a IH]; [now destruct r | cbn; now f_equal]. Qed.

(** What the pattern with opening [96 :: t] captures in a text whose first
    backtick opens it and whose group holds none. *)
Lemma fenced_group t before body after :
  ~ In 96 before -> ~ In 96 body ->
  fenced (96 :: t) (before ++ (96 :: t) ++ body ++ fence ++ after)
  = Some (trimEnd (drop_spaces body)).
Proof.
  intros Hb Hbody. unfold fenced.
  rewrite (index_of_opening t before _ Hb).
  rewrite <- length_app, app_assoc, skipn_length_app.
  change (fence ++ after) with (96 :: 96 :: 96 :: after).
  rewrite drop_spaces_mid by reflexivity.
  change (96 :: 96 :: 96 :: after) with (fence ++ after).
  rewrite (until_fence_closing _ after (no_tick_drop_spaces _ Hbody)).
  cbn [option_map]. f_equal.
  destruct (trimEnd_prefix (drop_spaces body)) as [ws Hws].
  rewrite Hws at 2. rewrite <- app_assoc. apply firstn_length_app.
Qed.

(** X24. A reply that puts its JSON in a [json] code fence is read as what
    the fence holds, trimmed: the text before the fence and after it is
    dropped. *)
Theorem fenced_json_is_unwrapped before body after :
  ~ In 96 before -> ~ In 96 body ->
  jsonText_of (before ++ fence ++ str "json" ++ body ++ fence ++ after) = trim body.
Proof.
  intros Hb Hbody. unfold jsonText_of.
  set (t := [96; 96] ++ str "json").
  change (fence ++ str "json") with (96 :: t).
  change (before ++ fence ++ str "json" ++ body ++ fence ++ after)
    with (before ++ 96 :: t ++ body ++ fence ++ after).
  assert (Htrim : trim (before ++ 96 :: t ++ body ++ fence ++ after)
                  = drop_spaces before ++ (96 :: t) ++ body ++ fence ++ trimEnd after).
  { unfold trim, trimStart. rewrite drop_spaces_mid by reflexivity.
    replace (drop_spaces before ++ 96 :: t ++ body ++ fence ++ after)
      with ((drop_spaces before ++ 96 :: t ++ body ++ [96; 96]) ++ 96 :: after)
      by (unfold fence; now rewrite <- !app_assoc, <- !app_comm_cons, <- !app_assoc).
    rewrite trimEnd_mid by reflexivity.
    unfold fence. now rewrite <- !app_assoc, <- !app_comm_cons, <- !app_assoc. }
  rewrite Htrim.
  rewrite (index_of_opening t _ _ (no_tick_drop_spaces _ Hb)).
  rewrite (fenced_group t _ body _ (no_tick_drop_spaces _ Hb) Hbody).
  change (trimEnd (drop_spaces body)) with (trim body). apply trim_idem.
Qed.

Lemma fenced_json_is_unwrapped_witness :
  jsonText_of Scenario.no_leak_reply
  = js "{^leakage_instances^:0,^total_leakage_amount^:0,^top_leaks^:[]}".
Proof.
  refine (eq_trans
            (fenced_json_is_unwrapped []
               ([10] ++ js "{^leakage_instances^:0,^total_leakage_amount^:0,^top_leaks^:[]}"
                ++ [10]) [] _ _) _).
  - intros [].
  - vm_compute. intros H.
    repeat (destruct H as [H|H]; [discriminate H|]). exact H.
  - vm_compute. reflexivity.
Defined.

End CodeFence.
